(* ===== verification/_CoqProject ===== *)
-Q . S2P
Prelude.v
Str.v
Layout.v
Mmu.v
Kalloc.v
Spinlock.v
SpinlockSpec.v
Pipe.v
Vm.v
VmSpec.v
VmAlloc.v
VmCopy.v
Sleeplock.v
Bio.v
Ide.v
IdeSpec.v
IdeDemo.v
BioRing.v
BlockLayer.v
BioSpec.v
Log.v
LogSpec.v
Crash.v
LogLayer.v
LogAdmit.v
Fs.v
FsBlock.v
FsInode.v
FsFile.v
FsRw.v
FsDir.v
FsPath.v
FsNamei.v
FsDemo.v
Mkfs.v
MkfsSpec.v
MkfsImage.v
MkfsBoot.v
File.v
Proc.v
ProcSpec.v
ProcLife.v
KernDemo.v
Syscall.v
Sysfile.v
Exec.v
Trap.v
KernSpec.v
FileRefs.v
SysDemo.v
Grep.v
Printf.v
Console.v
Kbd.v
Screen.v
Mp.v
Boot.v
Rtc.v
Ioapic.v
Lapic.v
Uart.v
Gates.v
Sh.v
ShSpec.v
ShPrint.v
Ulib.v
Utils.v
ShRun.v
Umalloc.v
UmallocSpec.v
UmallocSound.v
