(* ===== verification/Prelude.v ===== *)
(** * A verification of the xv6 kernel of this repository

    The program is a small Unix-like operating system for x86
    multiprocessors, in C, with its user programs.  This library models its
    boot loader, its kernel from the drivers, the locks and the page
    allocator up to the system calls, the builder of the file system image,
    and the shell and other user programs, as executable functions, and
    proves the theorems that make the parts correct.

    ** The parts of the program and the files that model them

    - Machine and library: Prelude.v (machine integers, the monad below),
      Str.v (string.c and the string instructions of x86.h, on a memory that
      maps addresses to bytes), Mmu.v (mmu.h, memlayout.h), Layout.v
      (param.h, fs.h, stat.h and the byte layout of the disk structures).
    - Locks: Spinlock.v (spinlock.c, mycpu and cpuid of proc.c) and
      SpinlockSpec.v (the CPUs together); Sleeplock.v (sleeplock.c).
    - Memory: Kalloc.v (kalloc.c); Vm.v (vm.c), VmSpec.v (page tables as
      an address map), VmAlloc.v (allocuvm and deallocuvm), VmCopy.v
      (setupkvm, kvmalloc and copyuvm).
    - Disk: Ide.v (ide.c), IdeSpec.v (its queue, processes and interrupts)
      and IdeDemo.v; Bio.v (bio.c on memide.c), BioRing.v (the LRU list), BioSpec.v
      (the cache as a coherent view of the disk), BlockLayer.v (what the
      layers below promise to fs.c, as a type class), Log.v (log.c),
      LogSpec.v, Crash.v, LogLayer.v (transactions, and that bio.c and
      log.c fulfil the class), LogAdmit.v (concurrent operations).
    - File system: Fs.v (fs.c, over the class), FsBlock.v, FsInode.v,
      FsFile.v, FsRw.v, FsDir.v, FsPath.v (its five layers), FsNamei.v (path
      lookup through directories), FsDemo.v (a concrete disk); Mkfs.v
      (mkfs.c), MkfsSpec.v, MkfsImage.v (the image it builds), MkfsBoot.v
      (the kernel on that image).
    - Pipes and open files: Pipe.v (pipe.c with the threads inside it),
      File.v (file.c and pipealloc, over Fs.v, Pipe.v, Kalloc.v; the
      transactions it brackets are the class [TxLayer]).
    - Processes: Proc.v (proc.c, over all of the above), ProcSpec.v and
      ProcLife.v (the process table in all interleavings), KernDemo.v.
    - System calls and traps: Syscall.v (argument fetching of syscall.c),
      Sysfile.v (sysfile.c), Exec.v (exec.c and loaduvm), Trap.v (sysproc.c,
      the table of syscall.c, trap.c), KernSpec.v (exec, trap), FileRefs.v
      (descriptors and reference counts over all system calls), SysDemo.v.
    - Console and devices: Console.v (the input of console.c), Kbd.v (kbd.c
      and the maps of kbd.h), Screen.v (the output of console.c), Uart.v
      (uart.c), Ioapic.v (ioapic.c), Rtc.v (the clock, cmostime of lapic.c).
    - Boot and processors: Boot.v (bootmain.c), Mp.v (mp.c and mp.h), Lapic.v
      (the rest of lapic.c, and startothers of main.c with the loads of
      entryother.S), Gates.v (the descriptors of mmu.h, seginit and the task
      state of vm.c, tvinit and idtinit of trap.c).
    - User programs: Printf.v (printf.c, cprintf, atoi), Ulib.v (the string
      routines of ulib.c), Utils.v (gets and strchr of ulib.c, wc.c, cat.c,
      echo.c, ls.c), Grep.v (grep.c), Sh.v (the parser of sh.c), ShSpec.v (it
      always answers), ShPrint.v (it reads back what is printed), ShRun.v
      (runcmd, getcmd and main of sh.c), Umalloc.v (umalloc.c), UmallocSpec.v
      (the free list and free), UmallocSound.v (malloc, and programs that use
      both).

    ** How the models read

    A kernel routine is a function [M S A] from a state to an outcome: it
    returns ([Ret]), it panics with the source's message ([Panic]), it goes
    to sleep in the state it leaves ([Sleeps]), or a loop used up the fuel of
    its translation ([Diverge]).  A C structure is a record with the source's
    fields, a pointer into a table an index, a null pointer [None] where it
    can occur, an [int] or [uint] an integer with its wrap-around written out
    by [s32] and [u32].  States nest as the components do: [kernel] (Proc.v)
    contains [kern] (File.v), which contains the page allocator's memory and
    the file system, and [lift] runs a routine of a part in the whole.

    Code that runs under one spin lock is one step.  Where the code gives up
    a lock or the CPU in the middle, the model stops with [Sleeps] and the
    rest is a routine of its own or the routine entered again, and the
    interleavings are step relations: [smp_step] (SpinlockSpec.v),
    [alloc_step] (Kalloc.v), [pipe_step] (Pipe.v), [op_step] (LogAdmit.v),
    [pstep] (ProcLife.v), [fd_step] (FileRefs.v), [istep] (IdeSpec.v, the
    processes inside iderw and the interrupts of the disk), [uprog_step]
    (UmallocSound.v, a program and its heap).  The parser of the shell is in
    a monad of its own, over the position in the line; its runner is a tree
    of system calls ([prog] in ShRun.v), executed on tables of descriptors.

    Hardware is a type class with the reads and writes of its registers
    ([Ports] for input and output instructions, [Mmio] in Ioapic.v, [AtaPorts]
    in Ide.v) and a second one with the documented behaviour the driver
    relies on ([AtaDisk], [KbdQueue], [Display], [SerialQueue], [IoapicRegs],
    [LapicRegs], [ClockLaws]); every such class has an instance, a simple
    device, on which the witnesses run.  What the processor does with segments
    and gates is written out in Gates.v.

    Proof rules: [wp] is total correctness (the routine returns, without a
    panic, with enough fuel), [run] partial correctness with a separate
    postcondition for [Sleeps], [quiet] says that a routine never sleeps,
    and [keeps R] that it makes only changes the preorder [R] allows; the
    tactics [quiet], [keeps] and [run_step] discharge the latter by the
    structure of the routine.

    ** What the theorems show

    - Disk: a transaction is atomic under a crash at any point and durable
      when it ends (LogLayer.v); operations that keep to their reservation
      never overflow a log of sufficient size (LogAdmit.v); the disk driver
      serves its queue in order, wakes everyone, and agrees with the memory
      disk (IdeSpec.v).
    - File system: block and inode allocation, reading and writing of file
      contents, directory entries and path elements do what their comments
      say and nothing else (FsBlock.v to FsPath.v), for any layer below that
      fulfils [BlockLayer], and in particular for bio.c and log.c; a path
      leads to the inode that the directories on the disk name (FsNamei.v).
      mkfs builds a well-formed image, and the kernel reads back from it what
      was put in (MkfsImage.v, MkfsBoot.v).
    - Memory: pages are handed out exclusively (Kalloc.v); growing a process
      gives it zeroed pages of its own or leaves everything as it was
      (VmAlloc.v); a child gets copies of the pages of its parent (VmCopy.v).
    - Concurrency: mutual exclusion of spin locks and matched nesting of
      interrupt disabling (SpinlockSpec.v, Spinlock.v); pipes are queues and
      lose no wakeup (Pipe.v); the process table is sound in every
      interleaving and the scheduler is fair (ProcLife.v).
    - System calls: arguments are checked (Syscall.v); exec is all or nothing,
      killed processes never run in user space again, the clock preempts
      (KernSpec.v); reference counts of open files are exact over every
      sequence of system calls (FileRefs.v).
    - Console and devices: the input ring implements a line queue
      (Console.v); a line typed on the keyboard is read (Kbd.v), its echo
      stands before the cursor, and the display is a window on all that was
      written (Screen.v); interrupts go where they were enabled (Ioapic.v);
      the date is never torn (Rtc.v).
    - Boot and processors: the boot loader puts the kernel file where its
      headers say (Boot.v); the processors of the tables are recorded (Mp.v)
      and come up on stacks of their own (Lapic.v); user code enters the
      kernel only through the gates that are meant for it (Gates.v).
    - User programs: printing stays in its buffer and is read back by atoi
      (Printf.v); memmove of ulib.c described byte for byte (Ulib.v); wc
      counts, cat, echo and ls print what they should (Utils.v); the matcher
      of grep means what its patterns mean (Grep.v); the parser of the shell
      ends on every line with words of it or a syntax error, and reads back
      every printed command (ShSpec.v, ShPrint.v), and the shell runs the
      commands with the right descriptors (ShRun.v); blocks of the heap of a
      program never overlap and keep their contents (UmallocSound.v).
    - Flaws: theorems that exhibit them are [mkfs_log_overflows],
      [full_transaction_starves_commit] (LogAdmit.v),
      [killed_writer_loses_wakeup] (Pipe.v), [kill_zero_marks_next_process],
      [growproc_to_zero_fails] (ProcLife.v), [sleep_negative_waits]
      (KernSpec.v), [mkfs_full_directory_panics] (MkfsBoot.v),
      [mpinit_unknown_entry_hangs] (Mp.v), [home_key_dead] (Kbd.v),
      [ulib_memmove_exact] (Ulib.v), [getcmd_long] (ShRun.v),
      [grep_loses_partial_line] (Grep.v), [malloc_request_wraps] and
      [malloc_huge_unbacked] (UmallocSound.v).

    A theorem with hypotheses has a witness, a lemma with the same name and
    the suffix [_witness], that applies it to a concrete state.

    ** Bounds and fuel

    Loops that count down run on the [nat] they count; the others have fuel,
    which the caller computes from the data: the number of blocks, bytes,
    pages or table entries the loop can visit, plus one.  The theorems about
    them are stated with [wp] or as an equation with [Some] or [Ret], so they
    show that the fuel is enough; the kill-line loop of the console has 129
    rounds for at most 128 characters, and [printint] 32 rounds for at most
    10 digits.  The parser of the shell has four times the length of the
    line, since its four routines call one another and every round consumes a
    character; the loops of umalloc.c have the number of headers that fit in
    the memory of the program, twice for [malloc], which goes round the list
    at most twice.  Loops that wait for a device have the number of rounds
    that a parameter gives for its state ([patience] of the disk and of the
    local APIC, the 26 quiet reads of the clock); the loop of the shell has
    a round for every byte of its input.  The loop of [acquire] is not a
    function but a step that can repeat.

    ** What is a parameter

    [kend] and [data] are addresses the linker provides, [forkret] and
    [trapret] code addresses, [lapic] the answers of the local APICs, [junk]
    what a fresh page holds, [devsw_read] and [devsw_write] the device
    switch, and the interrupt handlers of the drivers an argument of [trap].
    For a user program, [base] is the address of a static variable and
    [grant] tells whether the kernel has the pages that sbrk asks for;
    [openable] and [runnable] tell which files the shell can open and
    execute; the files of the host are an argument of mkfs.  The devices are
    the classes above.  Theorems hold for all of them.

    ** Not modelled

    Context switch, trap entry and the first steps of the processors are
    assembly (bootasm.S, entry.S, swtch.S, trapasm.S, initcode.S, usys.S, the
    mode switches of entryother.S) and appear as the boundaries of steps.
    main of main.c only calls the routines that set up the parts, picirq.c
    masks a controller with two writes, pinit, consoleinit and the like set up a lock or a table entry,
    procdump and panic print and stop.  Memory accesses are sequentially
    consistent, and the translation lookaside buffer is not modelled.  A
    routine that sleeps in the middle of a system call is followed up to that
    point: the rest of the call is covered where the step relations above say
    so.  extensions.c is a stub without behaviour that the Makefile does not
    build.  The other user programs (init.c, kill.c, ln.c, mkdir.c, rm.c,
    zombie.c) pass their arguments to system calls, and usertests.c,
    forktest.c and stressfs.c are tests of the kernel. *)

From stdpp Require Export base gmap list list_numbers strings sets.
From stdpp Require Export sorting.
From Stdlib Require Export ZArith Lia.

Open Scope Z_scope.
#[global] Set Default Goal Selector "!".

(** [lia] with division and modulo by constants. *)
Ltac dlia := Z.to_euclidean_division_equations; lia.

(** Evaluate comparisons of closed integers in the goal. *)
Ltac eval_eqb :=
  repeat match goal with
  | |- context [?a =? ?b] =>
    let v := eval vm_compute in (a =? b) in
    match v with true => idtac | false => idtac end;
    change (a =? b) with v
  end; cbn [negb andb orb].

(** ** Machine integers

    C's fixed-width integers are [Z] values; the conversions write out
    the wrap-around of the x86 types the code uses. *)

Definition u8 (x : Z) : Z := x mod 2 ^ 8.
Definition u16 (x : Z) : Z := x mod 2 ^ 16.
Definition u32 (x : Z) : Z := x mod 2 ^ 32.

(** Two's-complement reading of the low [w] bits. *)
Definition signed (w : Z) (x : Z) : Z :=
  let y := x mod 2 ^ w in
  if y <? 2 ^ (w - 1) then y else y - 2 ^ w.

Definition s16 (x : Z) : Z := signed 16 x.
Definition s32 (x : Z) : Z := signed 32 x.

Definition is_u32 (x : Z) : Prop := 0 <= x < 2 ^ 32.
Definition is_byte (x : Z) : Prop := 0 <= x < 256.

Lemma s32_id x : 0 <= x < 2 ^ 31 → s32 x = x.
Proof.
  intros. unfold s32, signed. rewrite Z.mod_small by lia.
  destruct (Z.ltb_spec x (2 ^ (32 - 1))); [done|]. cbn in *. lia.
Qed.

(** ** The kernel monad

    A kernel routine run by one thread maps a state to an outcome: it
    returns a value, it panics with the message of the source, it would
    go to sleep (another thread has to run first), or a loop ran out of
    the fuel its translation was given. *)

Inductive outcome (S A : Type) : Type :=
| Ret (a : A) (s : S)
| Panic (msg : string)
| Sleeps (s : S)
| Diverge.
Arguments Ret {S A} a s.
Arguments Panic {S A} msg.
Arguments Sleeps {S A} s.
Arguments Diverge {S A}.

Definition M (S A : Type) : Type := S → outcome S A.

#[global] Instance M_ret S : MRet (M S) := λ A a s, Ret a s.
#[global] Instance M_bind S : MBind (M S) := λ A B k m s,
  match m s with
  | Ret a s' => k a s'
  | Panic msg => Panic msg
  | Sleeps s' => Sleeps s'
  | Diverge => Diverge
  end.

Definition panic {S A} (msg : string) : M S A := λ s, Panic msg.
Definition sleeps {S A} : M S A := λ s, Sleeps s.
Definition diverge {S A} : M S A := λ s, Diverge.
Definition getS {S} : M S S := λ s, Ret s s.
Definition putS {S} (s : S) : M S unit := λ _, Ret tt s.
Definition gets {S A} (f : S → A) : M S A := λ s, Ret (f s) s.
Definition modify {S} (f : S → S) : M S unit := λ s, Ret tt (f s).

(** Total correctness: the routine returns, in a state and with a value
    that satisfy [Q]. *)
Definition wp {S A} (m : M S A) (Q : A → S → Prop) (s : S) : Prop :=
  match m s with Ret a s' => Q a s' | _ => False end.

Section wp_rules.
Context {S : Type}.
Implicit Types s : S.

Lemma wp_elim {A} (m : M S A) Q s :
  wp m Q s → ∃ a s', m s = Ret a s' ∧ Q a s'.
Proof. unfold wp. destruct (m s); naive_solver. Qed.

Lemma wp_intro {A} (m : M S A) (Q : A → S → Prop) s a s' :
  m s = Ret a s' → Q a s' → wp m Q s.
Proof. unfold wp. by intros ->. Qed.

Lemma wp_returns (m : M S unit) (Q : S → Prop) s :
  wp m (λ _, Q) s → ∃ s', m s = Ret tt s' ∧ Q s'.
Proof. intros ([] & s' & ? & ?)%wp_elim. eauto. Qed.

Lemma wp_bind {A B} (m : M S A) (k : A → M S B) Q s :
  wp m (λ a s', wp (k a) Q s') s → wp (m ≫= k) Q s.
Proof. unfold wp, mbind, M_bind. by destruct (m s). Qed.

Lemma wp_assoc {A B C} (m : M S A) (k : M S B) (h : M S C) Q s :
  wp ((m;; k);; h) Q s → wp (m;; (k;; h)) Q s.
Proof. unfold wp, mbind, M_bind. by destruct (m s). Qed.

Lemma wp_mono {A} (m : M S A) (Q Q' : A → S → Prop) s :
  wp m Q s → (∀ a s', Q a s' → Q' a s') → wp m Q' s.
Proof. unfold wp. destruct (m s); naive_solver. Qed.

Lemma wp_ret {A} (a : A) (Q : A → S → Prop) s : Q a s → wp (mret a) Q s.
Proof. done. Qed.

Lemma wp_gets {A} (f : S → A) (Q : A → S → Prop) s : Q (f s) s → wp (gets f) Q s.
Proof. done. Qed.

Lemma wp_modify (f : S → S) (Q : unit → S → Prop) s : Q tt (f s) → wp (modify f) Q s.
Proof. done. Qed.

Lemma bind_ret {A B} (m : M S A) (k : A → M S B) s a s' :
  m s = Ret a s' → (m ≫= k) s = k a s'.
Proof. unfold mbind, M_bind. by intros ->. Qed.

Lemma bind_gets {A B} (f : S → A) (k : A → M S B) s : (gets f ≫= k) s = k (f s) s.
Proof. done. Qed.
End wp_rules.

Lemma bind_inv {S A B} (m : M S A) (k : A → M S B) s y s' :
  (m ≫= k) s = Ret y s' → ∃ x s1, m s = Ret x s1 ∧ k x s1 = Ret y s'.
Proof. unfold mbind, M_bind. destruct (m s); naive_solver. Qed.

(** Partial correctness: [Q] where the routine returns and [R] where it
    goes to sleep. *)
Definition run {S A} (m : M S A) (Q : A → S → Prop) (R : S → Prop) (s : S) : Prop :=
  match m s with
  | Ret a s' => Q a s'
  | Sleeps s' => R s'
  | Panic _ | Diverge => True
  end.

Section run_rules.
Context {S : Type}.

Lemma run_bind {A B} (m : M S A) (k : A → M S B) Q R s :
  run m (λ a, run (k a) Q R) R s → run (m ≫= k) Q R s.
Proof. unfold run, mbind, M_bind. by destruct (m s). Qed.

Lemma run_mono {A} (m : M S A) (Q Q' : A → S → Prop) (R R' : S → Prop) s :
  run m Q R s → (∀ a s', Q a s' → Q' a s') → (∀ s', R s' → R' s') → run m Q' R' s.
Proof. unfold run. destruct (m s); auto. Qed.

Lemma run_ret {A} (a : A) (Q : A → S → Prop) R s : Q a s → run (mret a) Q R s.
Proof. done. Qed.

Lemma run_gets {A} (f : S → A) (Q : A → S → Prop) R s : Q (f s) s → run (gets f) Q R s.
Proof. done. Qed.

Lemma run_modify (f : S → S) (Q : unit → S → Prop) R s : Q tt (f s) → run (modify f) Q R s.
Proof. done. Qed.

Lemma run_panic {A} msg (Q : A → S → Prop) R s : run (panic msg) Q R s.
Proof. done. Qed.

Lemma run_sleeps {A} (Q : A → S → Prop) (R : S → Prop) s : R s → run sleeps Q R s.
Proof. done. Qed.

Lemma run_any {A} (m : M S A) (Q : A → S → Prop) (R : S → Prop) s :
  (∀ a s', Q a s') → (∀ s', R s') → run m Q R s.
Proof. intros HQ HR. unfold run. destruct (m s); auto. Qed.

Lemma run_elim {A} (m : M S A) (Q : A → S → Prop) R s a s' : run m Q R s → m s = Ret a s' → Q a s'.
Proof. unfold run. intros H E. by rewrite E in H. Qed.

Lemma run_elim_sleeps {A} (m : M S A) (Q : A → S → Prop) (R : S → Prop) s s' :
  run m Q R s → m s = Sleeps s' → R s'.
Proof. unfold run. intros H E. by rewrite E in H. Qed.
End run_rules.

(** Routines that never go to sleep. *)
Definition quiet {S A} (m : M S A) : Prop := ∀ s s', m s ≠ Sleeps s'.

Section quiet_rules.
Context {S : Type}.

Lemma quiet_bind {A B} (m : M S A) (k : A → M S B) : quiet m → (∀ a, quiet (k a)) → quiet (m ≫= k).
Proof. intros Hm Hk s s'. unfold mbind, M_bind. destruct (m s) eqn:E; [apply Hk|done|by destruct (Hm s s0)|done]. Qed.

Lemma quiet_ret {A} (a : A) : quiet (mret a : M S A).
Proof. by intros s s'. Qed.

Lemma quiet_gets {A} (f : S → A) : quiet (gets f).
Proof. by intros s s'. Qed.

Lemma quiet_modify (f : S → S) : quiet (modify f).
Proof. by intros s s'. Qed.

Lemma quiet_panic {A} msg : quiet (panic msg : M S A).
Proof. by intros s s'. Qed.

Lemma quiet_diverge {A} : quiet (diverge : M S A).
Proof. by intros s s'. Qed.
End quiet_rules.

(** Discharge [quiet] goals structurally. *)
Ltac quiet :=
  repeat first
    [ apply quiet_bind; intros
    | solve [auto with quiet_db nocore]
    | apply quiet_ret | apply quiet_gets | apply quiet_modify | apply quiet_panic | apply quiet_diverge
    | case_match ].

Create HintDb quiet_db.
Create HintDb run_db.
#[export] Hint Resolve run_bind run_ret run_gets run_modify run_panic run_sleeps : run_db.

(** The ports of the machine, on the state [D] of its devices: [inb] and
    [outb] of x86.h. *)
Class Ports (D : Type) := {
  p_inb : Z → D → Z * D;
  p_outb : Z → Z → D → D }.

(** Lift a routine on a component of the state. *)
Definition lift {S T A} (get : T → S) (set : S → T → T) (m : M S A) : M T A :=
  λ t, match m (get t) with
       | Ret a s => Ret a (set s t)
       | Panic msg => Panic msg
       | Sleeps s => Sleeps (set s t)
       | Diverge => Diverge
       end.

(** Routines that only make changes that a preorder [R] allows. *)
Definition keeps {S A} (R : S → S → Prop) (m : M S A) : Prop :=
  ∀ s, run m (λ _, R s) (R s) s.

Section keeps_rules.
Context {S : Type} (R : S → S → Prop) `{!PreOrder R}.

Lemma keeps_bind {A B} (m : M S A) (k : A → M S B) :
  keeps R m → (∀ a, keeps R (k a)) → keeps R (m ≫= k).
Proof.
  intros Hm Hk s. apply run_bind. eapply run_mono; [apply Hm| |done].
  intros a s' Hs. eapply run_mono; [apply Hk| |]; cbn; intros; by transitivity s'.
Qed.

Lemma keeps_ret {A} (a : A) : keeps R (mret a).
Proof. intros s. apply run_ret. reflexivity. Qed.

Lemma keeps_gets {A} (f : S → A) : keeps R (gets f).
Proof. intros s. apply run_gets. reflexivity. Qed.

Lemma keeps_modify (f : S → S) : (∀ s, R s (f s)) → keeps R (modify f).
Proof. intros H s. apply run_modify, H. Qed.

Lemma keeps_panic {A} msg : keeps R (panic msg : M S A).
Proof. by intros s. Qed.

Lemma keeps_sleeps {A} : keeps R (sleeps : M S A).
Proof. intros s. apply run_sleeps. reflexivity. Qed.

Lemma keeps_diverge {A} : keeps R (diverge : M S A).
Proof. by intros s. Qed.

(** Run [m], which keeps [R], and then [k] from a state related to the one
    before. *)
Lemma run_keeps {A B} (m : M S A) (k : A → M S B) Q (R' : S → Prop) s0 s :
  keeps R m → R s0 s → (∀ a s', R s0 s' → run (k a) Q R' s') → (∀ s', R s0 s' → R' s') →
  run (m ≫= k) Q R' s.
Proof.
  intros Hm Hs Hk HR. apply run_bind. eapply run_mono; [apply Hm| |]; cbn.
  - intros a s' Hs'. apply Hk. etrans; eassumption.
  - intros s' Hs'. apply HR. etrans; eassumption.
Qed.

(** The same for a routine that does not wait. *)
Lemma run_keeps_quiet {A B} (m : M S A) (k : A → M S B) Q (R' : S → Prop) s0 s :
  keeps R m → quiet m → R s0 s → (∀ a s', R s0 s' → run (k a) Q R' s') → run (m ≫= k) Q R' s.
Proof.
  intros Hm Hq Hs Hk. apply run_bind. specialize (Hm s). specialize (Hq s). unfold run in *.
  destruct (m s) as [a s'| |s'|]; [|done|by destruct (Hq s')|done]. apply Hk. etrans; eassumption.
Qed.
End keeps_rules.

Create HintDb keeps_db.

(** Discharge [keeps] goals structurally. *)
Ltac keeps :=
  repeat first
    [ progress intros
    | solve [auto with keeps_db nocore]
    | apply keeps_bind; [typeclasses eauto| |intros]
    | apply keeps_ret; typeclasses eauto | apply keeps_gets; typeclasses eauto
    | apply keeps_panic | apply keeps_sleeps; typeclasses eauto | apply keeps_diverge
    | case_match ].

(** One step of a [run] goal through a routine that keeps the relation of
    a hypothesis. *)
Ltac run_step :=
  eapply run_keeps; [ | |eassumption| |intros; eassumption]; [typeclasses eauto|keeps|].

Lemma quiet_lift {S T A} (get : T → S) set (m : M S A) : quiet m → quiet (lift get set m).
Proof. intros H t t'. unfold lift. specialize (H (get t)). destruct (m (get t)) as [| |s|]; try done. by destruct (H s). Qed.

(** ** Lists *)

Lemma app_assoc_middle {A} (l1 l2 : list A) x : l1 ++ x :: l2 = (l1 ++ [x]) ++ l2.
Proof. by rewrite <- app_assoc. Qed.

Lemma alter_insert {A} (f : A → A) (l : list A) i x :
  l !! i = Some x → alter f i l = <[i := f x]> l.
Proof.
  revert i; induction l as [|y l IH]; intros [|i] H; try done; cbn in *.
  - by injection H as ->.
  - f_equal. by apply IH.
Qed.

(** ** Byte arrays

    [slice] and [splice] are [memmove] out of and into the middle of an
    array; [le_val] and [le_bytes] are the x86 byte order. *)

Definition slice (off n : nat) (l : list Z) : list Z := take n (drop off l).
Definition splice (off : nat) (d l : list Z) : list Z :=
  take off l ++ d ++ drop (off + length d) l.

Fixpoint le_val (l : list Z) : Z :=
  match l with [] => 0 | b :: l' => b + 256 * le_val l' end.

Fixpoint le_bytes (n : nat) (z : Z) : list Z :=
  match n with
  | O => []
  | S n' => z mod 256 :: le_bytes n' (z / 256)
  end.

Section slices.
Implicit Types (l d : list Z) (off n i : nat).
Local Open Scope nat_scope.

Lemma length_slice off n l : off + n ≤ length l → length (slice off n l) = n.
Proof. intros. unfold slice. rewrite length_take, length_drop. lia. Qed.

Lemma lookup_slice off n l i : i < n → slice off n l !! i = l !! (off + i).
Proof. intros. unfold slice. by rewrite lookup_take_lt, lookup_drop by lia. Qed.

Lemma length_splice off d l :
  off + length d ≤ length l → length (splice off d l) = length l.
Proof.
  intros. unfold splice. rewrite !length_app, length_take, length_drop. lia.
Qed.

Lemma lookup_splice off d l i :
  off + length d ≤ length l →
  splice off d l !! i =
    if decide (off ≤ i < off + length d) then d !! (i - off) else l !! i.
Proof.
  intros Hl. unfold splice. assert (Ht : length (take off l) = off)
    by (rewrite length_take; lia).
  destruct (decide (i < off)).
  { rewrite lookup_app_l, lookup_take_lt by lia. case_decide; [lia|done]. }
  rewrite lookup_app_r by lia. rewrite Ht.
  destruct (decide (i - off < length d)).
  { rewrite lookup_app_l by lia. case_decide; [done|lia]. }
  rewrite lookup_app_r, lookup_drop by lia. case_decide; [lia|f_equal; lia].
Qed.

Lemma slice_splice_eq off d l :
  off + length d ≤ length l → slice off (length d) (splice off d l) = d.
Proof.
  intros Hl. apply list_eq; intros i. destruct (decide (i < length d)).
  - rewrite lookup_slice, lookup_splice by lia. case_decide; [f_equal; lia|lia].
  - rewrite !lookup_ge_None_2; [done|lia|].
    rewrite length_slice; [lia|]. rewrite length_splice; lia.
Qed.

Lemma slice_splice_len off n d l :
  length d = n → off + n ≤ length l → slice off n (splice off d l) = d.
Proof. intros <-. apply slice_splice_eq. Qed.

Lemma slice_splice_ne off d l off' n :
  off + length d ≤ length l → off' + n ≤ length l →
  off' + n ≤ off ∨ off + length d ≤ off' →
  slice off' n (splice off d l) = slice off' n l.
Proof.
  intros Hl Hl' Hd. apply list_eq; intros i. destruct (decide (i < n)).
  - rewrite !lookup_slice, lookup_splice by lia. case_decide; [lia|done].
  - rewrite !lookup_ge_None_2; [done| |]; rewrite length_slice; try lia.
    rewrite length_splice; lia.
Qed.

Lemma Forall_splice P off d l : Forall P l → Forall P d → Forall P (splice off d l).
Proof.
  intros. unfold splice. rewrite !Forall_app.
  split_and!; [by apply Forall_take|done|by apply Forall_drop].
Qed.

(** A slice of a slice. *)
Lemma slice_slice off n off' n' l :
  off' + n' ≤ n → slice off' n' (slice off n l) = slice (off + off') n' l.
Proof.
  intros. unfold slice. rewrite skipn_firstn_comm, take_take, drop_drop.
  f_equal. lia.
Qed.
End slices.

Section little_endian.
Implicit Types (l : list Z) (n : nat) (z : Z).

Lemma length_le_bytes n z : length (le_bytes n z) = n.
Proof. revert z; induction n; intros; simpl; auto. Qed.

Lemma le_bytes_byte n z : Forall is_byte (le_bytes n z).
Proof.
  revert z; induction n; intros; simpl; constructor; auto.
  by apply Z.mod_pos_bound.
Qed.

Lemma le_val_bytes n z : le_val (le_bytes n z) = z mod 256 ^ Z.of_nat n.
Proof.
  revert z; induction n as [|n IH]; intros z.
  - cbn. by rewrite Z.mod_1_r.
  - cbn [le_bytes le_val]. rewrite IH, Nat2Z.inj_succ, Z.pow_succ_r by lia.
    rewrite Z.rem_mul_r; lia.
Qed.

Lemma le_val_bound l :
  Forall is_byte l → 0 <= le_val l < 256 ^ Z.of_nat (length l).
Proof.
  induction 1 as [|b l Hb Hl IH]; [cbn; lia|].
  cbn [le_val length]. rewrite Nat2Z.inj_succ, Z.pow_succ_r by lia.
  unfold is_byte in Hb. lia.
Qed.

Lemma le_val_bytes_small n z :
  0 <= z < 256 ^ Z.of_nat n → le_val (le_bytes n z) = z.
Proof. intros. rewrite le_val_bytes. by apply Z.mod_small. Qed.
End little_endian.
