(* ===== verification/Str.v ===== *)
(** * string.c: the kernel's memory and string routines

    Memory is a function from addresses to bytes.  Routines that write
    ([memset], [memmove], [strncpy], [safestrcpy]) return the new memory;
    routines that only read take the pointed-to bytes as a function of
    the offset from the pointer, so the file system can use them on its
    own arrays.  Loops run on the [nat] they count down; the scan of
    [strlen] has no bound in the source and takes fuel. *)

From S2P Require Import Prelude.

Definition mem := Z → Z.

Definition upd (m : mem) (a v : Z) : mem := λ x, if x =? a then v else m x.

(** ** x86.h: the string-store instructions *)

Fixpoint stosb (m : mem) (addr data : Z) (cnt : nat) : mem :=
  match cnt with
  | O => m
  | S cnt' => stosb (upd m addr (u8 data)) (addr + 1) data cnt'
  end.

Definition store_word (m : mem) (addr w : Z) : mem :=
  upd (upd (upd (upd m addr (u8 w)) (addr + 1) (u8 (Z.shiftr w 8)))
    (addr + 2) (u8 (Z.shiftr w 16))) (addr + 3) (u8 (Z.shiftr w 24)).

Fixpoint stosl (m : mem) (addr data : Z) (cnt : nat) : mem :=
  match cnt with
  | O => m
  | S cnt' => stosl (store_word m addr data) (addr + 4) data cnt'
  end.

(** ** memset, memcmp, memmove *)

Definition memset (m : mem) (dst c n : Z) : mem :=
  if (Z.rem (s32 dst) 4 =? 0) && (n mod 4 =? 0) then
    let c := Z.land c 255 in
    stosl m dst
      (Z.lor (Z.lor (Z.lor (Z.shiftl c 24) (Z.shiftl c 16)) (Z.shiftl c 8)) c)
      (Z.to_nat (n / 4))
  else stosb m dst c (Z.to_nat n).

Fixpoint memcmp_loop (s1 s2 : Z → Z) (i : Z) (n : nat) : Z :=
  match n with
  | O => 0
  | S n' =>
    if negb (s1 i =? s2 i) then s1 i - s2 i
    else memcmp_loop s1 s2 (i + 1) n'
  end.

Definition memcmp (s1 s2 : Z → Z) (n : Z) : Z := memcmp_loop s1 s2 0 (Z.to_nat n).

(** The bytes of a list, stored one after another. *)
Fixpoint store_bytes (m : mem) (a : Z) (l : list Z) : mem :=
  match l with
  | [] => m
  | c :: l' => store_bytes (upd m a c) (a + 1) l'
  end.

Fixpoint copy_down (m : mem) (d s : Z) (n : nat) : mem :=
  match n with
  | O => m
  | S n' => copy_down (upd m (d - 1) (m (s - 1))) (d - 1) (s - 1) n'
  end.

Fixpoint copy_up (m : mem) (d s : Z) (n : nat) : mem :=
  match n with
  | O => m
  | S n' => copy_up (upd m d (m s)) (d + 1) (s + 1) n'
  end.

Definition memmove (m : mem) (dst src n : Z) : mem :=
  if (src <? dst) && (src + n >? dst) then
    copy_down m (dst + n) (src + n) (Z.to_nat n)
  else copy_up m dst src (Z.to_nat n).

Definition memcpy (m : mem) (dst src n : Z) : mem := memmove m dst src n.

(** ** Strings *)

Fixpoint strncmp_loop (p q : Z → Z) (i : Z) (n : nat) : Z :=
  match n with
  | O => 0
  | S n' =>
    if negb (p i =? 0) && (p i =? q i) then strncmp_loop p q (i + 1) n'
    else p i - q i
  end.

Definition strncmp (p q : Z → Z) (n : Z) : Z := strncmp_loop p q 0 (Z.to_nat n).

(** The second loop of [strncpy]: [n] zero bytes. *)
Fixpoint zero_fill (m : mem) (s : Z) (n : nat) : mem :=
  match n with
  | O => m
  | S n' => zero_fill (upd m s 0) (s + 1) n'
  end.

Fixpoint strncpy_loop (m : mem) (s t : Z) (n : nat) : mem :=
  match n with
  | O => m
  | S n' =>
    let c := m t in
    let m' := upd m s c in
    if negb (c =? 0) then strncpy_loop m' (s + 1) (t + 1) n'
    else zero_fill m' (s + 1) n'
  end.

Definition strncpy (m : mem) (s t n : Z) : mem := strncpy_loop m s t (Z.to_nat n).

Fixpoint safestrcpy_loop (m : mem) (s t : Z) (n : nat) : mem :=
  match n with
  | O => upd m s 0
  | S n' =>
    let c := m t in
    let m' := upd m s c in
    if negb (c =? 0) then safestrcpy_loop m' (s + 1) (t + 1) n'
    else upd m' (s + 1) 0
  end.

Definition safestrcpy (m : mem) (s t n : Z) : mem :=
  if n <=? 0 then m else safestrcpy_loop m s t (Z.to_nat (n - 1)).

Fixpoint strlen_loop (fuel : nat) (s : Z → Z) (n : Z) : option Z :=
  match fuel with
  | O => None
  | S fuel' => if s n =? 0 then Some n else strlen_loop fuel' s (n + 1)
  end.

Definition strlen (fuel : nat) (s : Z → Z) : option Z := strlen_loop fuel s 0.

(** ** Lemmas *)

Lemma upd_eq m a v : upd m a v a = v.
Proof. unfold upd. by rewrite Z.eqb_refl. Qed.

Lemma upd_ne m a v x : x ≠ a → upd m a v x = m x.
Proof. unfold upd. intros H%Z.eqb_neq. by rewrite H. Qed.

(** Split on the address comparison of one update. *)
Ltac upd_case :=
  match goal with
  | |- context [upd _ ?a _ ?x] =>
    destruct (Z.eq_dec x a) as [->|?]; [rewrite upd_eq|rewrite (upd_ne _ a) by done]
  end.

Lemma stosb_spec n m a c x :
  stosb m a c n x = if decide (a <= x < a + Z.of_nat n) then u8 c else m x.
Proof.
  revert m a; induction n as [|n IH]; intros m a; cbn [stosb].
  { case_decide; [lia|done]. }
  rewrite IH. repeat case_decide; try lia; try done.
  - destruct (Z.eq_dec x a) as [->|]; [by rewrite upd_eq|lia].
  - by rewrite upd_ne by lia.
Qed.

(** The word [memset] stores repeats one byte. *)
Lemma fill_word c :
  0 <= c < 256 →
  Z.lor (Z.lor (Z.lor (Z.shiftl c 24) (Z.shiftl c 16)) (Z.shiftl c 8)) c
    = c + 256 * c + 65536 * c + 16777216 * c.
Proof.
  intros Hc.
  assert (H : Forall (λ c,
    Z.lor (Z.lor (Z.lor (Z.shiftl c 24) (Z.shiftl c 16)) (Z.shiftl c 8)) c
      = c + 256 * c + 65536 * c + 16777216 * c) (seqZ 0 256)).
  { apply (bool_decide_unpack _). vm_compute. exact I. }
  rewrite Forall_forall in H. apply H. apply elem_of_seqZ. lia.
Qed.

Lemma store_fill m a c x :
  0 <= c < 256 →
  store_word m a (c + 256 * c + 65536 * c + 16777216 * c) x =
    if decide (a <= x < a + 4) then c else m x.
Proof.
  intros Hc. unfold store_word, u8. rewrite !Z.shiftr_div_pow2 by lia.
  repeat upd_case; case_decide; try lia; dlia.
Qed.

Lemma stosl_spec n m a c x :
  0 <= c < 256 →
  stosl m a (c + 256 * c + 65536 * c + 16777216 * c) n x =
    if decide (a <= x < a + 4 * Z.of_nat n) then c else m x.
Proof.
  intros Hc. revert m a; induction n as [|n IH]; intros m a; cbn [stosl].
  { case_decide; [lia|done]. }
  rewrite IH, store_fill by done. repeat case_decide; lia || done.
Qed.

Lemma copy_up_spec n m d s x :
  (d <= s ∨ s + Z.of_nat n <= d) →
  copy_up m d s n x =
    if decide (d <= x < d + Z.of_nat n) then m (s + (x - d)) else m x.
Proof.
  revert m d s; induction n as [|n IH]; intros m d s Hd; cbn [copy_up].
  { case_decide; [lia|done]. }
  rewrite IH by lia. repeat case_decide; try lia.
  - rewrite upd_ne by lia. f_equal; lia.
  - assert (x = d) as -> by lia. rewrite upd_eq. f_equal; lia.
  - by rewrite upd_ne by lia.
Qed.

Lemma copy_down_spec n m d s x :
  s <= d →
  copy_down m d s n x =
    if decide (d - Z.of_nat n <= x < d) then m (s + (x - d)) else m x.
Proof.
  revert m d s; induction n as [|n IH]; intros m d s Hd; cbn [copy_down].
  { case_decide; [lia|done]. }
  rewrite IH by lia. repeat case_decide; try lia.
  - rewrite upd_ne by lia. f_equal; lia.
  - assert (x = d - 1) as -> by lia. rewrite upd_eq. f_equal; lia.
  - by rewrite upd_ne by lia.
Qed.

Lemma zero_fill_spec n m s x :
  zero_fill m s n x = if decide (s <= x < s + Z.of_nat n) then 0 else m x.
Proof.
  revert m s; induction n as [|n IH]; intros m s; cbn [zero_fill].
  { case_decide; [lia|done]. }
  rewrite IH. repeat case_decide; try lia; try done.
  - assert (x = s) as -> by lia. by rewrite upd_eq.
  - by rewrite upd_ne by lia.
Qed.

(** What [strncpy] leaves in its [n]-byte destination, as a function of
    the bytes at the source pointer: the string, then zero padding. *)
Fixpoint strncpy_bytes (t : Z → Z) (i : Z) (n : nat) : list Z :=
  match n with
  | O => []
  | S n' =>
    if negb (t i =? 0) then t i :: strncpy_bytes t (i + 1) n'
    else replicate (S n') 0
  end.

Lemma length_strncpy_bytes t i n : length (strncpy_bytes t i n) = n.
Proof.
  revert i; induction n as [|n IH]; intros i; [done|]. cbn [strncpy_bytes].
  destruct (t i =? 0); cbn; [|by rewrite IH]. by rewrite length_replicate.
Qed.

Lemma strncpy_bytes_ext t t' i i' n :
  (∀ k, 0 <= k < Z.of_nat n → t (i + k) = t' (i' + k)) →
  strncpy_bytes t i n = strncpy_bytes t' i' n.
Proof.
  revert i i'; induction n as [|n IH]; intros i i' H; [done|]. cbn [strncpy_bytes].
  assert (t i = t' i') as -> by (specialize (H 0); rewrite !Z.add_0_r in H; apply H; lia).
  destruct (t' i' =? 0); [done|]. cbn. f_equal. apply IH. intros k Hk.
  replace (i + 1 + k) with (i + (k + 1)) by lia.
  replace (i' + 1 + k) with (i' + (k + 1)) by lia. apply H. lia.
Qed.

Lemma strncpy_loop_spec n m s t x :
  (s + Z.of_nat n <= t ∨ t + Z.of_nat n <= s) →
  strncpy_loop m s t n x =
    if decide (s <= x < s + Z.of_nat n)
    then strncpy_bytes (λ i, m (t + i)) 0 n !!! Z.to_nat (x - s) else m x.
Proof.
  revert m s t; induction n as [|n IH]; intros m s t Hd.
  { cbn. case_decide; [lia|done]. }
  cbn [strncpy_loop strncpy_bytes]. rewrite Z.add_0_r.
  destruct (m t =? 0) eqn:E; cbn [negb].
  - apply Z.eqb_eq in E. rewrite zero_fill_spec. repeat case_decide; try lia.
    + symmetry. apply lookup_total_replicate_2. lia.
    + assert (x = s) as -> by lia. rewrite upd_eq, E, Z.sub_diag. done.
    + by rewrite upd_ne by lia.
  - rewrite IH by lia. repeat case_decide; try lia.
    + replace (Z.to_nat (x - s)) with (S (Z.to_nat (x - (s + 1)))) by lia.
      rewrite (strncpy_bytes_ext _ (λ i, m (t + i)) 0 1); [done|].
      intros k Hk. rewrite upd_ne by lia. f_equal; lia.
    + assert (x = s) as -> by lia. by rewrite upd_eq, Z.sub_diag.
    + by rewrite upd_ne by lia.
Qed.

Lemma safestrcpy_loop_outside n m s t x :
  ¬ (s <= x <= s + Z.of_nat n) → safestrcpy_loop m s t n x = m x.
Proof.
  revert m s t; induction n as [|n IH]; intros m s t Hx; cbn [safestrcpy_loop].
  { by rewrite upd_ne by lia. }
  destruct (negb (m t =? 0)).
  - rewrite IH, upd_ne by lia. done.
  - by rewrite !upd_ne by lia.
Qed.

(** The copied prefix and the terminator of [safestrcpy]. *)
Lemma safestrcpy_loop_spec n m s t :
  (s + Z.of_nat n < t ∨ t + Z.of_nat n <= s) →
  ∃ k, 0 <= k <= Z.of_nat n ∧ safestrcpy_loop m s t n (s + k) = 0 ∧
    (∀ i, 0 <= i < k → safestrcpy_loop m s t n (s + i) = m (t + i) ∧ m (t + i) ≠ 0) ∧
    (k = Z.of_nat n ∨ m (t + k) = 0).
Proof.
  revert m s t; induction n as [|n IH]; intros m s t Hd; cbn [safestrcpy_loop].
  { exists 0. rewrite Z.add_0_r, upd_eq. split_and!; lia. }
  destruct (Z.eqb_spec (m t) 0) as [E|E]; cbn [negb].
  - exists 0. rewrite !Z.add_0_r, upd_ne, upd_eq by lia. split_and!; auto; lia.
  - destruct (IH (upd m s (m t)) (s + 1) (t + 1)) as (k & Hk & H0 & Hi & He); [lia|].
    exists (k + 1). split_and!; [lia|lia| | |].
    + replace (s + (k + 1)) with (s + 1 + k) by lia. done.
    + intros i Hik. destruct (decide (i = 0)) as [->|].
      { rewrite !Z.add_0_r. rewrite safestrcpy_loop_outside, upd_eq by lia. done. }
      destruct (Hi (i - 1)) as [Hc Hnz]; [lia|].
      replace (s + 1 + (i - 1)) with (s + i) in Hc by lia.
      replace (t + 1 + (i - 1)) with (t + i) in Hc, Hnz by lia.
      rewrite upd_ne in Hc, Hnz by lia. done.
    + destruct (decide (k = Z.of_nat n)); [left; lia|right].
      destruct He as [->|He]; [lia|].
      replace (t + 1 + k) with (t + (k + 1)) in He by lia.
      rewrite upd_ne in He by lia. done.
Qed.

(** ** memset and memmove *)

(** [memset] fills exactly the [n] bytes at [dst] with the low
    byte of [c], on the word path and on the byte path. *)
Lemma memset_fills m dst c n x :
  0 <= n →
  memset m dst c n x = if decide (dst <= x < dst + n) then u8 c else m x.
Proof.
  intros Hn. unfold memset. destruct (_ && _) eqn:E.
  - apply andb_prop in E as [_ E%Z.eqb_eq].
    assert (Hc : Z.land c 255 = u8 c) by (apply (Z.land_ones c 8); lia).
    assert (0 <= u8 c < 256) by (apply Z.mod_pos_bound; lia).
    rewrite Hc, fill_word, stosl_spec by done.
    repeat case_decide; try done; dlia.
  - rewrite stosb_spec. repeat case_decide; done || lia.
Qed.

(** Whatever the overlap, [memmove] leaves in the destination
    what the source held on entry and changes nothing else. *)
Lemma memmove_copies m dst src n x :
  0 <= n →
  memmove m dst src n x =
    if decide (dst <= x < dst + n) then m (src + (x - dst)) else m x.
Proof.
  intros Hn. unfold memmove. destruct (_ && _) eqn:E.
  - apply andb_prop in E as [E1%Z.ltb_lt E2%Z.gtb_lt].
    rewrite copy_down_spec by lia. repeat case_decide; try lia; f_equal; lia.
  - rewrite copy_up_spec.
    + repeat case_decide; try lia; done.
    + rewrite andb_false_iff, Z.ltb_ge, Z.gtb_ltb, Z.ltb_ge in E. lia.
Qed.

(** [strncmp] compares the two strings up to the first
    difference, terminator or bound, and returns the difference of the
    bytes there. *)
Lemma strncmp_loop_spec n p q i :
  ∃ k, i <= k <= i + Z.of_nat n ∧ (∀ j, i <= j < k → p j = q j ∧ p j ≠ 0) ∧
    ((k = i + Z.of_nat n ∧ strncmp_loop p q i n = 0) ∨
     (k < i + Z.of_nat n ∧ (p k = 0 ∨ p k ≠ q k) ∧ strncmp_loop p q i n = p k - q k)).
Proof.
  revert i; induction n as [|n IH]; intros i; cbn [strncmp_loop].
  { exists i. split_and!; [lia|lia|lia|]. left. lia. }
  destruct (Z.eqb_spec (p i) 0) as [E|E]; cbn [negb andb].
  { exists i. split_and!; [lia|lia|lia|]. right. split_and!; auto; lia. }
  destruct (Z.eqb_spec (p i) (q i)) as [E'|E'].
  - destruct (IH (i + 1)) as (k & Hk & Hj & Hr). exists k. split_and!; [lia|lia| |].
    + intros j Hij. destruct (decide (j = i)) as [->|]; [done|apply Hj; lia].
    + destruct Hr as [[-> Hr]|(Hk' & Hr)]; [left|right]; split; try done; lia.
  - exists i. split_and!; [lia|lia|lia|]. right. split_and!; auto; lia.
Qed.

Lemma strncmp_zero p q n :
  0 <= n →
  strncmp p q n = 0 ↔
    ∀ i, 0 <= i < n → (∀ j, 0 <= j < i → p j ≠ 0) → p i = q i.
Proof.
  intros Hn. unfold strncmp.
  destruct (strncmp_loop_spec (Z.to_nat n) p q 0) as (k & Hk & Hj & Hr).
  split.
  - intros H0 i Hi Hnz. destruct (decide (i < k)); [apply Hj; lia|].
    destruct Hr as [[-> _]|(Hk' & [Hz|Hz] & Hr)]; [lia| |lia].
    destruct (decide (i = k)) as [->|]; [lia|]. exfalso. apply (Hnz k); [lia|done].
  - intros H. destruct Hr as [[_ ->]|(Hk' & Hz & ->)]; [done|].
    rewrite (H k); [lia|lia|]. intros j Hjk. apply Hj. lia.
Qed.
