(* ===== verification/Layout.v ===== *)
(** * Constants and on-disk structures

    param.h, fs.h, stat.h, fcntl.h and buf.h: the sizes the kernel is
    built with, and the byte layout of the superblock, the inodes and
    the directory entries inside a 512-byte block. *)

From S2P Require Import Prelude.

(** ** param.h *)

Definition NPROC : nat := 64.
Definition KSTACKSIZE : Z := 4096.
Definition NOFILE : nat := 16.
Definition NFILE : nat := 100.
Definition NINODE : nat := 50.
Definition NDEV : Z := 10.
Definition ROOTDEV : Z := 1.
Definition MAXARG : Z := 32.
Definition MAXOPBLOCKS : Z := 10.
Definition LOGSIZE : Z := MAXOPBLOCKS * 3.
Definition NBUF : nat := Z.to_nat (MAXOPBLOCKS * 3).
Definition FSSIZE : Z := 1000.

(** ** fs.h, stat.h, buf.h *)

Definition ROOTINO : Z := 1.
Definition BSIZE : Z := 512.
Definition NDIRECT : Z := 12.
Definition NINDIRECT : Z := BSIZE / 4.
Definition MAXFILE : Z := NDIRECT + NINDIRECT.
Definition DINODE_SIZE : Z := 64.
Definition DIRENT_SIZE : Z := 16.
Definition DIRSIZ : Z := 14.
Definition IPB : Z := BSIZE / DINODE_SIZE.
Definition BPB : Z := BSIZE * 8.

Definition T_DIR : Z := 1.
Definition T_FILE : Z := 2.
Definition T_DEV : Z := 3.

Definition B_VALID : Z := 2.
Definition B_DIRTY : Z := 4.

Record superblock := Superblock {
  sb_size : Z; sb_nblocks : Z; sb_ninodes : Z; sb_nlog : Z;
  sb_logstart : Z; sb_inodestart : Z; sb_bmapstart : Z }.

Record dinode := Dinode {
  di_type : Z; di_major : Z; di_minor : Z; di_nlink : Z;
  di_size : Z; di_addrs : list Z }.

Record dirent := Dirent { de_inum : Z; de_name : list Z }.

Definition IBLOCK (i : Z) (sb : superblock) : Z := i / IPB + sb_inodestart sb.
Definition BBLOCK (b : Z) (sb : superblock) : Z := b / BPB + sb_bmapstart sb.

(** ** Blocks as arrays of little-endian words *)

(** A disk block: [BSIZE] bytes. *)
Abbreviation block := (list Z).
Definition zero_block : block := replicate (Z.to_nat BSIZE) 0.
Definition wf_block (b : block) : Prop := length b = Z.to_nat BSIZE ∧ Forall is_byte b.

Definition get16 (off : nat) (l : list Z) : Z := le_val (slice off 2 l).
Definition get32 (off : nat) (l : list Z) : Z := le_val (slice off 4 l).
Definition put32 (off : nat) (v : Z) (l : list Z) : list Z := splice off (le_bytes 4 v) l.

(** [n] consecutive words from byte offset [off]. *)
Definition words (off n : nat) (l : list Z) : list Z :=
  (λ i, get32 (off + 4 * i) l) <$> seq 0 n.

Definition word_bytes (ws : list Z) : list Z := mjoin (le_bytes 4 <$> ws).

Definition superblock_at (l : list Z) : superblock :=
  Superblock (get32 0 l) (get32 4 l) (get32 8 l) (get32 12 l)
    (get32 16 l) (get32 20 l) (get32 24 l).

Definition superblock_bytes (sb : superblock) : list Z :=
  word_bytes [sb_size sb; sb_nblocks sb; sb_ninodes sb; sb_nlog sb;
    sb_logstart sb; sb_inodestart sb; sb_bmapstart sb].

(** [(struct dinode* )data + i]. *)
Definition dinode_at (i : nat) (l : list Z) : dinode :=
  let o := (64 * i)%nat in
  Dinode (s16 (get16 o l)) (s16 (get16 (o + 2) l)) (s16 (get16 (o + 4) l))
    (s16 (get16 (o + 6) l)) (get32 (o + 8) l) (words (o + 12) 13 l).

Definition dinode_bytes (d : dinode) : list Z :=
  le_bytes 2 (di_type d) ++ le_bytes 2 (di_major d) ++ le_bytes 2 (di_minor d) ++
  le_bytes 2 (di_nlink d) ++ le_bytes 4 (di_size d) ++ word_bytes (di_addrs d).

Definition put_dinode (i : nat) (d : dinode) (l : list Z) : list Z :=
  splice (64 * i) (dinode_bytes d) l.

Definition dirent_at (l : list Z) : dirent := Dirent (get16 0 l) (slice 2 14 l).
Definition dirent_bytes (de : dirent) : list Z :=
  le_bytes 2 (de_inum de) ++ de_name de.

(** Field ranges of the C types. *)
Definition is_s16 (x : Z) : Prop := - 2 ^ 15 <= x < 2 ^ 15.
Definition wf_dinode (d : dinode) : Prop :=
  is_s16 (di_type d) ∧ is_s16 (di_major d) ∧ is_s16 (di_minor d) ∧
  is_s16 (di_nlink d) ∧ is_u32 (di_size d) ∧
  length (di_addrs d) = 13%nat ∧ Forall is_u32 (di_addrs d).

(** ** Lemmas *)

Lemma get32_put32_eq off v l :
  is_u32 v → (off + 4 ≤ length l)%nat → get32 off (put32 off v l) = v.
Proof.
  intros Hv Hl. unfold get32, put32.
  rewrite slice_splice_len by (rewrite ?length_le_bytes; lia).
  by rewrite le_val_bytes_small.
Qed.

Lemma get32_put32_ne off off' v l :
  (off + 4 ≤ length l)%nat → (off' + 4 ≤ length l)%nat →
  (off' + 4 ≤ off ∨ off + 4 ≤ off')%nat → get32 off' (put32 off v l) = get32 off' l.
Proof.
  intros. unfold get32, put32.
  rewrite slice_splice_ne; rewrite ?length_le_bytes; done.
Qed.

Lemma length_put32 off v l :
  (off + 4 ≤ length l)%nat → length (put32 off v l) = length l.
Proof. intros. apply length_splice. by rewrite length_le_bytes. Qed.

Lemma wf_put32 off v b :
  (off + 4 ≤ Z.to_nat BSIZE)%nat → wf_block b → wf_block (put32 off v b).
Proof.
  intros Ho [Hl Hb]. split; [rewrite length_put32; lia|].
  by apply Forall_splice; [|apply le_bytes_byte].
Qed.

Lemma wf_zero_block : wf_block zero_block.
Proof. split; [done|]. apply Forall_replicate. by vm_compute. Qed.

Lemma signed_le_bytes x : is_s16 x → s16 (x mod 256 + 256 * (x / 256 mod 256 + 256 * 0)) = x.
Proof.
  intros Hx. unfold is_s16 in Hx. unfold s16, signed.
  assert (Hm : x mod 256 + 256 * (x / 256 mod 256 + 256 * 0) = x mod 2 ^ 16) by dlia.
  rewrite Hm, Z.mod_mod by lia. case_match eqn:E; [apply Z.ltb_lt in E|apply Z.ltb_ge in E]; dlia.
Qed.

Lemma word_le_bytes x :
  is_u32 x →
  x mod 256 + 256 * (x / 256 mod 256 + 256 * (x / 256 / 256 mod 256 +
    256 * (x / 256 / 256 / 256 mod 256 + 256 * 0))) = x.
Proof. unfold is_u32. intros. dlia. Qed.

Lemma length_dinode_bytes d : length (di_addrs d) = 13%nat → length (dinode_bytes d) = 64%nat.
Proof.
  destruct d as [? ? ? ? ? a]; cbn. intros Ha.
  do 13 (destruct a as [|? a]; [done|]). by destruct a.
Qed.

(** The dinode read back from an inode slot is the one stored there. *)
Lemma dinode_at_bytes d : wf_dinode d → dinode_at 0 (dinode_bytes d) = d.
Proof.
  destruct d as [t ma mi nl sz a]. unfold wf_dinode; cbn -[is_s16 is_u32].
  intros (Ht & Hma & Hmi & Hnl & Hsz & Ha & Haddr).
  do 13 (destruct a as [|? a]; [done|]). destruct a; [|done].
  repeat (apply Forall_cons in Haddr as [? Haddr]).
  unfold dinode_at, dinode_bytes, words, get16, get32; cbn -[Z.div Z.modulo Z.add Z.mul s16].
  rewrite !signed_le_bytes, !word_le_bytes by done. done.
Qed.

Lemma get16_slice o off n l :
  (off + 2 ≤ n)%nat → get16 off (slice o n l) = get16 (o + off) l.
Proof. intros. unfold get16. by rewrite slice_slice. Qed.

Lemma get32_slice o off n l :
  (off + 4 ≤ n)%nat → get32 off (slice o n l) = get32 (o + off) l.
Proof. intros. unfold get32. by rewrite slice_slice. Qed.

(** An inode slot depends on its 64 bytes only. *)
Lemma dinode_at_slice i l : dinode_at i l = dinode_at 0 (slice (64 * i) 64 l).
Proof.
  unfold dinode_at. rewrite !get16_slice, !get32_slice by lia.
  rewrite !Nat.add_0_r. f_equal. unfold words. apply list_fmap_ext.
  intros k j Hj. apply lookup_seq in Hj. rewrite get32_slice by lia. f_equal. lia.
Qed.

Lemma dinode_at_put_eq i d l :
  wf_dinode d → (64 * i + 64 ≤ length l)%nat → dinode_at i (put_dinode i d l) = d.
Proof.
  intros Hd Hl. pose proof Hd as (_ & _ & _ & _ & _ & Ha & _).
  rewrite dinode_at_slice. unfold put_dinode.
  rewrite slice_splice_len by (rewrite ?length_dinode_bytes; lia). by apply dinode_at_bytes.
Qed.

Lemma dinode_at_put_ne i j d l :
  length (di_addrs d) = 13%nat → i ≠ j →
  (64 * i + 64 ≤ length l)%nat → (64 * j + 64 ≤ length l)%nat →
  dinode_at j (put_dinode i d l) = dinode_at j l.
Proof.
  intros Ha Hij Hi Hj. rewrite !(dinode_at_slice j). unfold put_dinode.
  rewrite slice_splice_ne; rewrite ?length_dinode_bytes by done; lia || done.
Qed.
