(* ===== verification/Mmu.v ===== *)
(** * mmu.h and memlayout.h: addresses and page table entries

    The bit-level macros on 32-bit addresses, and what they compute. *)

From S2P Require Import Prelude.

Definition EXTMEM : Z := 0x100000.
Definition PHYSTOP : Z := 0xE000000.
Definition DEVSPACE : Z := 0xFE000000.
Definition KERNBASE : Z := 0x80000000.
Definition KERNLINK : Z := KERNBASE + EXTMEM.

Definition V2P (a : Z) : Z := u32 (a - KERNBASE).
Definition P2V (a : Z) : Z := u32 (a + KERNBASE).

Definition NPDENTRIES : Z := 1024.
Definition NPTENTRIES : Z := 1024.
Definition PGSIZE : Z := 4096.
Definition PTXSHIFT : Z := 12.
Definition PDXSHIFT : Z := 22.

Definition PDX (va : Z) : Z := Z.land (Z.shiftr va PDXSHIFT) 0x3FF.
Definition PTX (va : Z) : Z := Z.land (Z.shiftr va PTXSHIFT) 0x3FF.
Definition PGADDR (d t o : Z) : Z :=
  u32 (Z.lor (Z.lor (Z.shiftl d PDXSHIFT) (Z.shiftl t PTXSHIFT)) o).

Definition PGROUNDUP (sz : Z) : Z := Z.land (u32 (sz + PGSIZE - 1)) (u32 (Z.lnot (PGSIZE - 1))).
Definition PGROUNDDOWN (a : Z) : Z := Z.land a (u32 (Z.lnot (PGSIZE - 1))).

Definition PTE_P : Z := 0x001.
Definition PTE_W : Z := 0x002.
Definition PTE_U : Z := 0x004.
Definition PTE_PS : Z := 0x080.

Definition PTE_ADDR (pte : Z) : Z := Z.land pte (u32 (Z.lnot 0xFFF)).
Definition PTE_FLAGS (pte : Z) : Z := Z.land pte 0xFFF.

(** ** Arithmetic meaning *)

Lemma mask_bits n : 0 <= n → Z.testbit (u32 (Z.lnot 4095)) n = (12 <=? n) && (n <? 32).
Proof.
  intros Hn. unfold u32. change 4095 with (Z.ones 12).
  destruct (Z.ltb_spec n 32).
  - rewrite Z.mod_pow2_bits_low by lia. rewrite Z.lnot_spec by done.
    destruct (Z.leb_spec 12 n).
    + rewrite Z.ones_spec_high by lia. done.
    + rewrite Z.ones_spec_low by lia. done.
  - rewrite Z.mod_pow2_bits_high by lia. by rewrite andb_false_r.
Qed.

(** Clearing the low 12 bits. *)
Lemma land_page x : 0 <= x < 2 ^ 32 → Z.land x (u32 (Z.lnot 4095)) = 4096 * (x / 4096).
Proof.
  intros Hx. change 4096 with (2 ^ 12).
  rewrite Z.mul_comm, <-Z.shiftl_mul_pow2, <-Z.shiftr_div_pow2 by lia.
  apply Z.bits_inj'. intros n Hn. rewrite Z.land_spec, mask_bits, Z.shiftl_spec by lia.
  destruct (Z.leb_spec 12 n) as [H|H]; cbn [andb].
  - rewrite Z.shiftr_spec by lia. replace (n - 12 + 12) with n by lia.
    destruct (Z.ltb_spec n 32); [by rewrite andb_true_r|]. rewrite andb_false_r. symmetry.
    destruct (decide (x = 0)) as [->|]; [apply Z.bits_0|].
    apply Z.bits_above_log2; [lia|]. apply Z.log2_lt_pow2; [lia|].
    pose proof (Z.pow_le_mono_r 2 32 n). lia.
  - rewrite andb_false_r. symmetry. apply Z.testbit_neg_r. lia.
Qed.

Lemma PGROUNDDOWN_eq a : is_u32 a → PGROUNDDOWN a = 4096 * (a / 4096).
Proof. apply land_page. Qed.

Lemma PGROUNDUP_eq a : 0 <= a → a + 4095 < 2 ^ 32 → PGROUNDUP a = 4096 * ((a + 4095) / 4096).
Proof.
  intros H0 H. unfold PGROUNDUP. change (u32 (Z.lnot (PGSIZE - 1))) with (u32 (Z.lnot 4095)).
  change PGSIZE with 4096. replace (a + 4096 - 1) with (a + 4095) by lia.
  assert (u32 (a + 4095) = a + 4095) as -> by (apply Z.mod_small; lia). apply land_page. lia.
Qed.

Lemma PTE_ADDR_eq pte : is_u32 pte → PTE_ADDR pte = 4096 * (pte / 4096).
Proof. apply land_page. Qed.

Lemma PTE_FLAGS_eq pte : PTE_FLAGS pte = pte mod 4096.
Proof. unfold PTE_FLAGS. change 0xFFF with (Z.ones 12). by rewrite Z.land_ones by lia. Qed.

Lemma PDX_eq va : is_u32 va → PDX va = va / 2 ^ 22.
Proof.
  intros Hva. unfold PDX, PDXSHIFT. change 0x3FF with (Z.ones 10).
  rewrite Z.land_ones, Z.shiftr_div_pow2 by lia. apply Z.mod_small. unfold is_u32 in Hva. dlia.
Qed.

Lemma PTX_eq va : PTX va = va / 4096 mod 1024.
Proof.
  unfold PTX, PTXSHIFT. change 0x3FF with (Z.ones 10).
  by rewrite Z.land_ones, Z.shiftr_div_pow2 by lia.
Qed.

