(* ===== verification/Kalloc.v ===== *)
(** * kalloc.c: the physical page allocator

    Free pages are chained through their first word.  The memory is the
    one of Str.v; [kend] is the address [end] the linker provides.  The
    locks taken when [use_lock] is set make each routine one step. *)

From S2P Require Import Prelude Str Mmu.

Record kmem := Kmem { k_mem : mem; use_lock : Z; freelist : Z }.

Definition load_word (m : mem) (a : Z) : Z :=
  m a + 256 * (m (a + 1) + 256 * (m (a + 2) + 256 * m (a + 3))).

Section kalloc_code.
Variable kend : Z.

Definition kfree (v : Z) : M kmem unit :=
  if negb (v mod PGSIZE =? 0) || (v <? kend) || (V2P v >=? PHYSTOP) then panic "kfree"
  else
    modify (λ s, Kmem (memset (k_mem s) v 1 PGSIZE) (use_lock s) (freelist s));;
    modify (λ s, Kmem (store_word (k_mem s) v (freelist s)) (use_lock s) v).

Definition kalloc : M kmem Z :=
  r ← gets freelist;
  (if negb (r =? 0) then
     modify (λ s, Kmem (k_mem s) (use_lock s) (load_word (k_mem s) r))
   else mret tt);;
  mret r.

(** The loop of [freerange] from address [p] on. *)
Fixpoint freerange_loop (fuel : nat) (p vend : Z) : M kmem unit :=
  match fuel with
  | O => diverge
  | S fuel' =>
    if u32 (p + PGSIZE) <=? vend then kfree p;; freerange_loop fuel' (u32 (p + PGSIZE)) vend
    else mret tt
  end.

Definition freerange (vstart vend : Z) : M kmem unit :=
  freerange_loop (1 + Z.to_nat (vend / PGSIZE)) (PGROUNDUP vstart) vend.

Definition kinit1 (vstart vend : Z) : M kmem unit :=
  modify (λ s, Kmem (k_mem s) 0 (freelist s));;
  freerange vstart vend.

Definition kinit2 (vstart vend : Z) : M kmem unit :=
  freerange vstart vend;;
  modify (λ s, Kmem (k_mem s) 1 (freelist s)).

(** ** The free list *)

Definition page_ok (v : Z) : Prop :=
  v mod PGSIZE = 0 ∧ kend <= v ∧ KERNBASE < v ∧ v < KERNBASE + PHYSTOP.

(** The chain of free pages in memory. *)
Fixpoint chain (m : mem) (p : Z) (l : list Z) : Prop :=
  match l with
  | [] => p = 0
  | x :: l' => p = x ∧ p ≠ 0 ∧ chain m (load_word m p) l'
  end.

(** The memory is bytes, and the chain lists [l]. *)
Record free_list (s : kmem) (l : list Z) : Prop := {
  fl_bytes a : is_byte (k_mem s a);
  fl_chain : chain (k_mem s) (freelist s) l;
  fl_nodup : NoDup l;
  fl_ok : Forall page_ok l }.

Lemma load_store m a w : is_u32 w → load_word (store_word m a w) a = w.
Proof.
  intros Hw. unfold load_word, store_word, upd, u8. rewrite !Z.shiftr_div_pow2 by lia.
  repeat match goal with |- context [?x =? ?y] => destruct (Z.eqb_spec x y); [|lia] || (destruct (Z.eqb_spec x y); [lia|]) end.
  unfold is_u32 in Hw. dlia.
Qed.

Lemma load_ext m m' a :
  (∀ i, 0 <= i < 4 → m' (a + i) = m (a + i)) → load_word m' a = load_word m a.
Proof.
  intros H. unfold load_word. rewrite <-(Z.add_0_r a) at 1 5. by rewrite !H by lia.
Qed.

Lemma load_store_ne m a b w : 4 <= Z.abs (a - b) → load_word (store_word m b w) a = load_word m a.
Proof.
  intros H. apply load_ext. intros i Hi. unfold store_word. by rewrite !upd_ne by lia.
Qed.

Lemma chain_ext m m' p l :
  chain m p l → (∀ x i, x ∈ l → 0 <= i < 4 → m' (x + i) = m (x + i)) → chain m' p l.
Proof.
  revert p; induction l as [|x l IH]; intros p; [done|]. cbn. intros (-> & Hne & Hc) H.
  split_and!; [done|done|]. rewrite (load_ext m) by (intros i Hi; apply H; [left|done]).
  apply IH; [done|]. intros y i Hy. apply H. by right.
Qed.

Lemma chain_head m p l : chain m p l → p = match l with [] => 0 | x :: _ => x end.
Proof. destruct l; [done|]. by intros [-> _]. Qed.

Lemma page_u32 v : page_ok v → is_u32 v.
Proof. intros (_ & _ & ? & ?). unfold is_u32, KERNBASE, PHYSTOP in *. lia. Qed.

(** Distinct pages do not overlap. *)
Lemma pages_apart v w i :
  page_ok v → page_ok w → v ≠ w → 0 <= i < PGSIZE → ¬ (v <= w + i < v + PGSIZE).
Proof.
  intros (Hv & _) (Hw & _) Hne Hi Hin. change PGSIZE with 4096 in *. apply Hne. dlia.
Qed.

Lemma memset_page m v a : memset m v 1 PGSIZE a = if decide (v <= a < v + PGSIZE) then 1 else m a.
Proof.
  by apply memset_fills.
Qed.

Lemma kfree_spec s l v :
  free_list s l → page_ok v → v ∉ l →
  wp (kfree v) (λ _ s', free_list s' (v :: l) ∧ use_lock s' = use_lock s ∧
    ∀ a, ¬ (v <= a < v + PGSIZE) → k_mem s' a = k_mem s a) s.
Proof.
  intros [Hb Hc Hnd Hok] Hv Hnin. pose proof (page_u32 v Hv) as Hu. pose proof Hv as (Ha & He & Hk & Ht).
  unfold kfree. rewrite Ha, Z.eqb_refl. cbn [negb orb].
  assert (V2P v = v - KERNBASE) as ->.
  { apply Z.mod_small. unfold is_u32, KERNBASE in *. lia. }
  rewrite (proj2 (Z.ltb_ge _ _)), Z.geb_leb, (proj2 (Z.leb_gt _ _)) by lia. cbn [orb].
  apply wp_bind, wp_modify, wp_modify. cbn [k_mem use_lock freelist].
  set (m := memset (k_mem s) v 1 PGSIZE).
  assert (Hout : ∀ a, ¬ (v <= a < v + PGSIZE) → store_word m v (freelist s) a = k_mem s a).
  { intros a Hout. unfold store_word. change PGSIZE with 4096 in Hout. rewrite !upd_ne by lia.
    unfold m. rewrite memset_page. change PGSIZE with 4096. by rewrite decide_False. }
  assert (Hfl : is_u32 (freelist s)).
  { rewrite (chain_head _ _ _ Hc). destruct l as [|x l]; [done|]. apply page_u32.
    by apply Forall_cons in Hok as [? _]. }
  split; [|done]. split; cbn [k_mem freelist].
  - intros a. unfold store_word, upd, u8. repeat case_match; try (apply Z.mod_pos_bound; lia).
    unfold m. rewrite memset_page. case_decide; [done|apply Hb].
  - cbn. split_and!; [done|unfold KERNBASE in *; lia|]. rewrite load_store by done.
    apply (chain_ext (k_mem s)); [done|]. intros x i Hx Hi. apply Hout.
    apply pages_apart; [done|by eapply Forall_forall in Hx|by intros ->|change PGSIZE with 4096; lia].
  - by apply NoDup_cons.
  - by constructor.
Qed.

Lemma kalloc_spec s l :
  free_list s l →
  wp kalloc (λ r s', k_mem s' = k_mem s ∧ use_lock s' = use_lock s ∧
    match l with
    | [] => r = 0 ∧ free_list s' []
    | x :: l' => r = x ∧ r ≠ 0 ∧ free_list s' l'
    end) s.
Proof.
  intros [Hb Hc Hnd Hok]. unfold kalloc. apply wp_bind, wp_gets. destruct l as [|x l].
  - cbn in Hc. rewrite Hc. apply wp_bind, wp_ret, wp_ret. split_and!; try done.
  - destruct Hc as (-> & Hne & Hc). rewrite (proj2 (Z.eqb_neq _ 0)) by done. cbn [negb].
    apply wp_bind, wp_modify, wp_ret. cbn. split_and!; try done.
    apply NoDup_cons in Hnd as [_ ?]. apply Forall_cons in Hok as [_ ?]. by split.
Qed.

(** ** The kernel's use of the allocator *)

(** The allocator's state and the pages the kernel holds.  The kernel
    frees pages it holds and writes into them. *)
Inductive alloc_step : kmem * gset Z → kmem * gset Z → Prop :=
| as_alloc s s' O r : kalloc s = Ret r s' → r ≠ 0 → alloc_step (s, O) (s', {[r]} ∪ O)
| as_full s s' O : kalloc s = Ret 0 s' → alloc_step (s, O) (s', O)
| as_free s s' O v : v ∈ O → kfree v s = Ret tt s' → alloc_step (s, O) (s', O ∖ {[v]})
| as_write s O m : (∀ a, is_byte (m a)) →
    (∀ a, (∀ p, p ∈ O → ¬ (p <= a < p + PGSIZE)) → m a = k_mem s a) →
    alloc_step (s, O) (Kmem m (use_lock s) (freelist s), O).

(** All pages [P] are either free or held. *)
Definition pages_split (P : gset Z) (c : kmem * gset Z) : Prop :=
  ∃ l, free_list c.1 l ∧ list_to_set l ## c.2 ∧ list_to_set l ∪ c.2 = P.

Lemma alloc_step_split P c c' :
  (∀ p, p ∈ P → page_ok p) → alloc_step c c' → pages_split P c → pages_split P c'.
Proof.
  intros HP St (l & FL & Hdisj & HU). destruct St as [s s' O r E Hr|s s' O E|s s' O v Hv E|s O m Hm Hout];
    cbn [fst snd] in *.
  - destruct (wp_elim _ _ _ (kalloc_spec s l FL)) as (r' & s1 & E' & _ & _ & H).
    rewrite E in E'. injection E' as <- <-. destruct l as [|x l]; [by destruct H|].
    destruct H as (-> & _ & FL'). exists l. cbn [fst snd]. split; [done|].
    pose proof (fl_nodup _ _ FL) as [Hx _]%NoDup_cons.
    split; [|rewrite <-HU; cbn; clear; set_solver].
    cbn in Hdisj.
    assert (x ∉ (list_to_set l : gset Z)) by (by rewrite elem_of_list_to_set).
    clear -Hdisj H. set_solver.
  - destruct (wp_elim _ _ _ (kalloc_spec s l FL)) as (r' & s1 & E' & _ & _ & H).
    rewrite E in E'. injection E' as <- <-. destruct l as [|x l]; [|by destruct H as (_ & ? & _)].
    exists []. by destruct H.
  - assert (Hpv : page_ok v) by (apply HP; rewrite <-HU; clear -Hv; set_solver).
    assert (Hnl : v ∉ l).
    { intros Hin. apply (Hdisj v); [by apply elem_of_list_to_set|done]. }
    destruct (wp_elim _ _ _ (kfree_spec s l v FL Hpv Hnl)) as ([] & s1 & E' & FL' & _).
    rewrite E in E'. injection E' as <-. exists (v :: l). cbn [fst snd]. split; [done|]. cbn. split.
    + clear -Hdisj. set_solver.
    + rewrite <-HU. apply set_eq. intros x. destruct (decide (x = v)) as [->|Hne]; [clear -Hv|clear -Hne]; set_solver.
  - exists l. cbn [fst snd]. split; [|done]. destruct FL as [Hb Hc Hnd Hok]. split; try done; cbn.
    apply (chain_ext (k_mem s)); [done|]. intros x i Hx Hi. apply Hout. intros p Hp.
    apply pages_apart; [apply HP; rewrite <-HU; clear -Hp; set_solver| | |change PGSIZE with 4096; lia].
    + by apply (proj1 (Forall_forall _ _) Hok).
    + intros ->. apply (Hdisj x); [by apply elem_of_list_to_set|done].
Qed.

(** The pages [freerange] frees: [n] of them from [p] on. *)
Definition range_pages (p : Z) (n : nat) : list Z := (λ k, p + PGSIZE * Z.of_nat k) <$> seq 0 n.

Lemma range_pages_S p n : range_pages p (S n) = p :: range_pages (p + PGSIZE) n.
Proof.
  unfold range_pages. cbn [seq fmap list_fmap]. f_equal; [lia|].
  rewrite <-seq_shift, <-list_fmap_compose. apply list_fmap_ext. intros i k _. unfold compose. lia.
Qed.

Lemma elem_of_range_pages p n x :
  x ∈ range_pages p n ↔ ∃ k, (k < n)%nat ∧ x = p + PGSIZE * Z.of_nat k.
Proof.
  unfold range_pages. rewrite list_elem_of_fmap. split.
  - intros (k & -> & Hk%elem_of_seq). exists k. split; [lia|done].
  - intros (k & Hk & ->). exists k. split; [done|]. apply elem_of_seq. lia.
Qed.

Lemma freerange_loop_spec fuel s l p vend :
  let n := Z.to_nat ((vend - p) / PGSIZE) in
  free_list s l → p mod PGSIZE = 0 → kend <= p → KERNBASE < p → p <= vend →
  vend <= KERNBASE + PHYSTOP → (n < fuel)%nat → (∀ x, x ∈ l → x ∉ range_pages p n) →
  wp (freerange_loop fuel p vend) (λ _ s', free_list s' (rev (range_pages p n) ++ l) ∧
    use_lock s' = use_lock s) s.
Proof.
  intros n. subst n. revert s l p.
  induction fuel as [|fuel IH]; intros s l p FL Ha Hk Hb Hle Htop Hfuel Hfresh; [lia|].
  cbn [freerange_loop]. assert (u32 (p + PGSIZE) = p + PGSIZE) as ->.
  { apply Z.mod_small. unfold KERNBASE, PHYSTOP, PGSIZE in *. lia. }
  change PGSIZE with 4096 in *. destruct (Z.leb_spec (p + 4096) vend) as [Hlt|Hge].
  - assert (En : Z.to_nat ((vend - p) / 4096) = S (Z.to_nat ((vend - (p + 4096)) / 4096))) by dlia.
    rewrite En in *. rewrite range_pages_S in *. change PGSIZE with 4096 in *. apply wp_bind.
    eapply wp_mono; [apply (kfree_spec s l p FL)|].
    + split_and!; [done|done|done|unfold KERNBASE, PHYSTOP in *; lia].
    + intros Hin. apply (Hfresh p Hin). left.
    + intros [] s1 (FL1 & U1 & _).
      eapply wp_mono; [apply (IH s1 (p :: l) (p + 4096) FL1); try lia; [dlia|]|].
      * intros x Hx. apply elem_of_cons in Hx as [->|Hx].
        -- intros (k & Hk' & Hk'')%elem_of_range_pages. change PGSIZE with 4096 in Hk''. lia.
        -- intros Hin. apply (Hfresh x Hx). by right.
      * intros [] s2 [FL2 U2]. cbn [rev]. rewrite <-app_assoc. split; [done|congruence].
  - assert (Z.to_nat ((vend - p) / 4096) = 0%nat) as -> by dlia. by apply wp_ret.
Qed.

(** C25: Pages are handed out exclusively.  After [kinit1] on a range of
    kernel memory, and any sequence of allocations, frees of held pages
    and writes into held pages, [kalloc] succeeds with a page of the range
    that nobody holds; it returns 0 only when every page is held. *)
Theorem kalloc_exclusive vstart vend s0 s O :
  let n := Z.to_nat ((vend - PGROUNDUP vstart) / PGSIZE) in
  let P : gset Z := list_to_set (range_pages (PGROUNDUP vstart) n) in
  (∀ a, is_byte (k_mem s0 a)) → freelist s0 = 0 →
  kend <= vstart → KERNBASE < vstart <= vend → PGROUNDUP vstart <= vend →
  vend <= KERNBASE + PHYSTOP →
  ∃ s1, kinit1 vstart vend s0 = Ret tt s1 ∧
  (rtc alloc_step (s1, ∅) (s, O) →
   ∃ r s', kalloc s = Ret r s' ∧ (r = 0 ∧ O = P ∨ r ∈ P ∧ r ∉ O)).
Proof.
  intros n P Hbytes Hfree Hk Hb Hle Htop.
  assert (Hup : PGROUNDUP vstart = 4096 * ((vstart + 4095) / 4096)).
  { apply PGROUNDUP_eq; unfold KERNBASE, PHYSTOP in *; [lia|dlia]. }
  assert (W : wp (kinit1 vstart vend) (λ _ s', free_list s' (rev (range_pages (PGROUNDUP vstart) n))) s0).
  { unfold kinit1. apply wp_bind, wp_modify. unfold freerange.
    eapply wp_mono; [apply (freerange_loop_spec _ _ [])|].
    { split; try done; constructor. }
    { rewrite Hup. change PGSIZE with 4096. dlia. } { rewrite Hup. dlia. } { rewrite Hup. dlia. }
    { done. } { done. }
    { fold n. subst n. change PGSIZE with 4096. unfold KERNBASE in *. rewrite Hup in *. dlia. }
    { intros x Hx. by apply not_elem_of_nil in Hx. }
    intros [] s' [FL _]. by rewrite app_nil_r in FL. }
  apply wp_returns in W as (s1 & E1 & FL). exists s1. split; [done|]. intros Hsteps.
  assert (HP : ∀ p, p ∈ P → page_ok p).
  { intros p Hp. apply elem_of_list_to_set, elem_of_range_pages in Hp as (k & Hk' & ->).
    rewrite Hup. subst n. rewrite Hup in Hk'. change PGSIZE with 4096 in *.
    unfold page_ok. change PGSIZE with 4096. unfold KERNBASE, PHYSTOP in *. split_and!; dlia. }
  assert (Hinv : pages_split P (s, O)).
  { assert (H0 : pages_split P (s1, ∅)).
    { eexists. split; [exact FL|]. cbn [snd]. split; [clear; set_solver|].
      subst P. apply set_eq. intros x.
      rewrite elem_of_union, !elem_of_list_to_set, !list_elem_of_In, <-in_rev.
      clear. set_solver. }
    revert H0. induction Hsteps as [|c1 c2 c3 St _ IH]; [done|].
    intros H. apply IH. by apply (alloc_step_split P c1). }
  destruct Hinv as (l & FL' & Hdisj & HU). cbn [fst snd] in *.
  destruct (wp_elim _ _ _ (kalloc_spec s l FL')) as (r & s' & E & _ & _ & H).
  exists r, s'. split; [done|]. destruct l as [|x l].
  - left. destruct H as [-> _]. split; [done|]. rewrite <-HU. clear. set_solver.
  - right. destruct H as (-> & _). rewrite <-HU. cbn in *. clear -Hdisj. set_solver.
Qed.
End kalloc_code.

Lemma kalloc_exclusive_witness :
  let v := KERNBASE + EXTMEM in
  ∃ s1 r s2 r' s3, kinit1 v v (v + 2 * PGSIZE) (Kmem (λ _, 0) 0 0) = Ret tt s1 ∧
  kalloc s1 = Ret r s2 ∧ r ≠ 0 ∧ kalloc s2 = Ret r' s3 ∧ r' ≠ r.
Proof.
  set (v := KERNBASE + EXTMEM). set (s0 := Kmem (λ _, 0) 0 0).
  assert (H : ∀ s O, ∃ s1, kinit1 v v (v + 2 * PGSIZE) s0 = Ret tt s1 ∧
    (rtc (alloc_step v) (s1, ∅) (s, O) → ∃ r s', kalloc s = Ret r s' ∧
      (r = 0 ∧ O = list_to_set [v; v + PGSIZE] ∨ r ∈ [v; v + PGSIZE] ∧ r ∉ O))).
  { intros s O. destruct (kalloc_exclusive v v (v + 2 * PGSIZE) s0 s O) as (s1 & E & H1);
      [intros a; cbn; unfold is_byte; lia|reflexivity|vm_compute; intuition discriminate..|].
    exists s1. split; [exact E|]. intros Hr. destruct (H1 Hr) as (r & s' & E' & H2). exists r, s'.
    split; [exact E'|]. change (range_pages (PGROUNDUP v) _) with [v + PGSIZE * 0; v + PGSIZE * 1] in H2.
    destruct H2 as [[-> ->]|[Hin Hno]]; [left; split; reflexivity|right; split; [|exact Hno]].
    by apply elem_of_list_to_set in Hin. }
  destruct (H s0 ∅) as (s1 & E1 & _). exists s1.
  destruct (H s1 ∅) as (s1' & E1' & H1). rewrite E1 in E1'. injection E1' as <-.
  destruct (H1 (rtc_refl _ _)) as (r & s2 & E2 & Hr). exists r, s2.
  assert (Hr0 : r ∈ [v; v + PGSIZE] ∧ r ≠ 0).
  { destruct Hr as [[_ Hc]|[Hin _]].
    - exfalso. symmetry in Hc. apply (elem_of_empty (C := gset Z) v). rewrite <-Hc. apply elem_of_list_to_set. left.
    - split; [exact Hin|]. rewrite !elem_of_cons in Hin. destruct Hin as [->|[->|Hn]]; [discriminate..|].
      by apply not_elem_of_nil in Hn. }
  destruct (H s2 ({[r]} ∪ ∅)) as (s1' & E1' & H2). rewrite E1 in E1'. injection E1' as <-.
  destruct H2 as (r' & s3 & E3 & Hr').
  { apply rtc_once. apply as_alloc; [exact E2|apply Hr0]. }
  exists r', s3. split; [exact E1|]. split; [exact E2|]. split; [apply Hr0|]. split; [exact E3|].
  destruct Hr' as [[-> _]|[_ Hno]]; [apply not_eq_sym, Hr0|]. intros ->. apply Hno, elem_of_union_l, elem_of_singleton. reflexivity.
Defined.
