(* ===== verification/Spinlock.v ===== *)
(** * spinlock.c, and mycpu and cpuid of proc.c: spin locks on several CPUs

    Every CPU has its interrupt flag, and in [cpus] its record with the
    depth of [pushcli] nesting.  A routine is indexed by the CPU [me] that
    runs it; [lapic me] is what that CPU's local APIC answers.  The
    accesses of [acquire] and [release] to the shared lock are steps of
    their own, which SpinlockSpec.v interleaves. *)

From S2P Require Import Prelude Str Mmu Kalloc.

Record cpu := Cpu { c_apicid : Z; c_ncli : Z; c_intena : bool }.
#[global] Instance cpu_inhabited : Inhabited cpu := populate (Cpu 0 0 false).

Record spinlock := Spinlock { l_locked : Z; l_cpu : option nat; l_pcs : list Z }.
#[global] Instance spinlock_inhabited : Inhabited spinlock := populate (Spinlock 0 None []).

(** The CPUs' interrupt flags, the array [cpus] and the locks. *)
Record smp := Smp { m_if : list bool; m_cpus : list cpu; m_locks : list spinlock }.

Definition set_if (c : nat) (b : bool) : M smp unit :=
  modify (λ s, Smp (<[c := b]> (m_if s)) (m_cpus s) (m_locks s)).
Definition upd_cpu (c : nat) (f : cpu → cpu) : M smp unit :=
  modify (λ s, Smp (m_if s) (alter f c (m_cpus s)) (m_locks s)).
Definition upd_lock (lk : nat) (f : spinlock → spinlock) : M smp unit :=
  modify (λ s, Smp (m_if s) (m_cpus s) (alter f lk (m_locks s))).
Definition set_ncli (n : Z) (c : cpu) : cpu := Cpu (c_apicid c) n (c_intena c).
Definition set_intena (b : bool) (c : cpu) : cpu := Cpu (c_apicid c) (c_ncli c) b.

Definition initlock : spinlock := Spinlock 0 None [].

(** The loop of [getcallerpcs]: at most [n] return addresses from the frame
    at [ebp] on, the rest zero. *)
Fixpoint getcallerpcs_loop (m : mem) (n : nat) (ebp : Z) : list Z :=
  match n with
  | O => []
  | S n' =>
    if (ebp =? 0) || (ebp <? KERNBASE) || (ebp =? 0xffffffff) then replicate n 0
    else load_word m (ebp + 4) :: getcallerpcs_loop m n' (load_word m ebp)
  end.
Definition getcallerpcs (m : mem) (v : Z) : list Z := getcallerpcs_loop m 10 (v - 8).

(** The loop of [mycpu]. *)
Fixpoint find_cpu (apicid : Z) (l : list cpu) (i : nat) : option nat :=
  match l with
  | [] => None
  | c :: l' => if c_apicid c =? apicid then Some i else find_cpu apicid l' (S i)
  end.

Section spinlock_code.
Variable lapic : nat → Z.
Variable me : nat.

Definition readeflags_if : M smp bool := gets (λ s, m_if s !!! me).

Definition mycpu : M smp nat :=
  b ← readeflags_if;
  if b : bool then panic "mycpu called with interrupts enabled"
  else
    l ← gets m_cpus;
    match find_cpu (lapic me) l 0 with
    | Some i => mret i
    | None => panic "unknown apicid"
    end.

(** [cpuid]: the index in [cpus]. *)
Definition cpuid : M smp Z := i ← mycpu; mret (Z.of_nat i).

Definition pushcli : M smp unit :=
  eflags ← readeflags_if;
  set_if me false;;
  i ← mycpu;
  c ← gets (λ s, m_cpus s !!! i);
  (if c_ncli c =? 0 then upd_cpu i (set_intena eflags) else mret tt);;
  upd_cpu i (λ c, set_ncli (c_ncli c + 1) c).

Definition popcli : M smp unit :=
  eflags ← readeflags_if;
  if eflags : bool then panic "popcli - interruptible"
  else
    i ← mycpu;
    upd_cpu i (λ c, set_ncli (c_ncli c - 1) c);;
    c ← gets (λ s, m_cpus s !!! i);
    if c_ncli c <? 0 then panic "popcli"
    else if (c_ncli c =? 0) && c_intena c then set_if me true else mret tt.

Definition holding (lk : nat) : M smp bool :=
  pushcli;;
  i ← mycpu;
  l ← gets (λ s, m_locks s !!! lk);
  popcli;;
  mret (negb (l_locked l =? 0) && bool_decide (l_cpu l = Some i)).

(** [acquire] before its loop, ... *)
Definition acquire_enter (lk : nat) : M smp unit :=
  pushcli;;
  b ← holding lk;
  if b : bool then panic "acquire" else mret tt.

(** ... one [xchg] of the loop, with true when the lock was free, ... *)
Definition acquire_xchg (lk : nat) : M smp bool :=
  l ← gets (λ s, m_locks s !!! lk);
  upd_lock lk (λ l, Spinlock 1 (l_cpu l) (l_pcs l));;
  mret (l_locked l =? 0).

(** ... and after it. *)
Definition acquire_record (lk : nat) (pcs : list Z) : M smp unit :=
  i ← mycpu;
  upd_lock lk (λ l, Spinlock (l_locked l) (Some i) pcs).

(** [release] before the lock is free, ... *)
Definition release_record (lk : nat) : M smp unit :=
  b ← holding lk;
  if negb b then panic "release"
  else upd_lock lk (λ l, Spinlock (l_locked l) None (<[0%nat := 0]> (l_pcs l))).

(** ... and the store that frees it. *)
Definition release_store (lk : nat) : M smp unit :=
  upd_lock lk (λ l, Spinlock 0 (l_cpu l) (l_pcs l));;
  popcli.
End spinlock_code.

(** ** The routines of one CPU *)

Definition ncli (s : smp) (c : nat) : Z := c_ncli (m_cpus s !!! c).
Definition iflag (s : smp) (c : nat) : bool := m_if s !!! c.

(** The local APICs answer with the ids of the array [cpus]. *)
Definition apic_ok (lapic : nat → Z) (s : smp) : Prop :=
  length (m_if s) = length (m_cpus s) ∧
  ∀ c i, find_cpu (lapic c) (m_cpus s) 0 = Some i → i = c ∧ (c < length (m_cpus s))%nat.

(** CPU [me] changed its nesting depth by [d] and nothing of the others. *)
Record moved (lapic : nat → Z) (me : nat) (d : Z) (s s' : smp) : Prop := {
  mv_apic : apic_ok lapic s';
  mv_len : length (m_cpus s') = length (m_cpus s);
  mv_locks : m_locks s' = m_locks s;
  mv_other : ∀ c, c ≠ me → ncli s' c = ncli s c ∧ iflag s' c = iflag s c;
  mv_ncli : ncli s' me = ncli s me + d;
  mv_flag : 0 < ncli s' me → iflag s' me = false }.

Section cpu_rules.
Variable lapic : nat → Z.
Variable me : nat.

Lemma find_cpu_ids a l l' i :
  c_apicid <$> l = c_apicid <$> l' → find_cpu a l i = find_cpu a l' i.
Proof.
  revert l' i; induction l as [|c l IH]; intros [|c' l'] i E; try done. cbn in E. injection E as Ec El.
  cbn. rewrite Ec. case_match; [done|by apply IH].
Qed.

Lemma alter_ids (f : cpu → cpu) (c : nat) (l : list cpu) :
  (∀ x, c_apicid (f x) = c_apicid x) → c_apicid <$> alter f c l = c_apicid <$> l.
Proof. intros Hf. revert c; induction l as [|x l IH]; intros [|c]; cbn; by rewrite ?Hf, ?IH. Qed.

Lemma apic_ok_upd s s' :
  apic_ok lapic s → length (m_if s') = length (m_if s) →
  c_apicid <$> m_cpus s' = c_apicid <$> m_cpus s → apic_ok lapic s'.
Proof.
  intros [Hl Hf] Hi Hc. pose proof (f_equal length Hc) as Hlen. rewrite !length_fmap in Hlen.
  split; [congruence|]. intros c i. rewrite (find_cpu_ids _ _ _ _ Hc), Hlen. apply Hf.
Qed.

Lemma mycpu_run s (Q : nat → smp → Prop) R :
  apic_ok lapic s → ((me < length (m_cpus s))%nat → iflag s me = false → Q me s) → run (mycpu lapic me) Q R s.
Proof.
  intros [Hl Hf] HQ. unfold mycpu. apply run_bind, run_gets. destruct (m_if s !!! me) eqn:E; [apply run_panic|].
  apply run_bind, run_gets. case_match eqn:Ei; [|apply run_panic]. apply run_ret.
  apply Hf in Ei as [-> ?]. by apply HQ.
Qed.

Lemma moved_trans d1 d2 s1 s2 s3 :
  moved lapic me d1 s1 s2 → moved lapic me d2 s2 s3 → moved lapic me (d1 + d2) s1 s3.
Proof.
  intros [A1 L1 K1 O1 N1 F1] [A2 L2 K2 O2 N2 F2]. split; [done|congruence|congruence| |lia|done].
  intros c Hc. destruct (O1 c Hc), (O2 c Hc). split; congruence.
Qed.

Lemma alter_total {A} `{Inhabited A} (f : A → A) (l : list A) c :
  (c < length l)%nat → alter f c l !!! c = f (l !!! c).
Proof.
  intros [x Hx]%lookup_lt_is_Some. rewrite (alter_insert _ _ _ _ Hx), list_lookup_total_insert_eq by by eapply lookup_lt_Some.
  by rewrite (list_lookup_total_correct _ _ _ Hx).
Qed.

Lemma alter_total_ne {A} `{Inhabited A} (f : A → A) (l : list A) c d :
  d ≠ c → alter f c l !!! d = l !!! d.
Proof. intros Hd. by rewrite !list_lookup_total_alt, list_lookup_alter_ne. Qed.

(** A change of [me]'s record and flag only. *)
Lemma moved_upd d s s' f b :
  apic_ok lapic s → (me < length (m_cpus s))%nat →
  m_locks s' = m_locks s → m_cpus s' = alter f me (m_cpus s) → m_if s' = <[me := b]> (m_if s) →
  (∀ x, c_apicid (f x) = c_apicid x) → (∀ x, c_ncli (f x) = c_ncli x + d) →
  (0 < ncli s' me → b = false) → moved lapic me d s s'.
Proof.
  intros Ha Hme Hl Hc Hi Hf Hd Hb. pose proof (proj1 Ha) as Hlen. split; [ | |done| | | ].
  - eapply apic_ok_upd; [done| |]; [by rewrite Hi, length_insert|]. rewrite Hc. by apply alter_ids.
  - by rewrite Hc, length_alter.
  - intros c Hne. unfold ncli, iflag. rewrite Hc, Hi, alter_total_ne by done. by rewrite list_lookup_total_insert_ne.
  - unfold ncli. by rewrite Hc, alter_total.
  - intros Hp. unfold iflag. rewrite Hi, list_lookup_total_insert_eq by lia. by apply Hb.
Qed.

Lemma pushcli_run s :
  apic_ok lapic s → 0 <= ncli s me →
  run (pushcli lapic me) (λ _ s', moved lapic me 1 s s' ∧ (me < length (m_cpus s))%nat) (λ _, False) s.
Proof.
  intros Ha Hn. unfold pushcli. apply run_bind, run_gets. apply run_bind, run_modify.
  apply run_bind, mycpu_run; [by eapply apic_ok_upd; [done|apply length_insert|]|]. cbn. intros Hme _.
  apply run_bind, run_gets. cbn. apply run_bind. case_match; [apply run_modify|apply run_ret].
  - apply run_modify. split; [|done].
    apply (moved_upd 1 s _ (λ c, set_ncli (c_ncli c + 1) (set_intena (m_if s !!! me) c)) false); try done.
    cbn. by rewrite list_alter_alter_eq.
  - apply run_modify. split; [|done].
    by apply (moved_upd 1 s _ (λ c, set_ncli (c_ncli c + 1) c) false).
Qed.

Lemma popcli_run s :
  apic_ok lapic s →
  run (popcli lapic me) (λ _ s', moved lapic me (-1) s s' ∧ 0 < ncli s me) (λ _, False) s.
Proof.
  intros Ha. unfold popcli. apply run_bind, run_gets. destruct (m_if s !!! me) eqn:Ei; [apply run_panic|].
  apply run_bind, mycpu_run; [done|]. intros Hme _. apply run_bind, run_modify. apply run_bind, run_gets. cbn.
  rewrite alter_total by done. cbn. case_match eqn:En; [apply run_panic|].
  assert (Hn : 0 < ncli s me) by (unfold ncli; lia). case_match eqn:Eb.
  - apply run_modify. split; [|done].
    apply (moved_upd (-1) s _ (λ c, set_ncli (c_ncli c - 1) c) true); try done.
    unfold ncli. cbn. rewrite alter_total by done. cbn. apply andb_true_iff in Eb as [Eb _]. lia.
  - apply run_ret. split; [|done].
    apply (moved_upd (-1) s _ (λ c, set_ncli (c_ncli c - 1) c) false); try done.
    cbn. rewrite list_insert_id; [done|]. rewrite <-Ei. apply list_lookup_lookup_total_lt. by rewrite (proj1 Ha).
Qed.

Lemma holding_run lk s :
  apic_ok lapic s → 0 <= ncli s me →
  run (holding lapic me lk)
    (λ b s', moved lapic me 0 s s' ∧ (me < length (m_cpus s))%nat ∧
       (b = true ↔ l_locked (m_locks s !!! lk) ≠ 0 ∧ l_cpu (m_locks s !!! lk) = Some me)) (λ _, False) s.
Proof.
  intros Ha Hn. unfold holding. apply run_bind. eapply run_mono; [by apply pushcli_run| |done].
  intros [] s1 [M1 Hme]. apply run_bind, mycpu_run; [apply M1|]. intros _ _. apply run_bind, run_gets.
  apply run_bind. eapply run_mono; [apply popcli_run, M1| |done]. intros [] s2 [M2 _]. apply run_ret.
  split; [by apply (moved_trans 1 (-1) s s1 s2)|]. split; [done|].
  rewrite (mv_locks _ _ _ _ _ M1), andb_true_iff, negb_true_iff, bool_decide_eq_true, Z.eqb_neq. done.
Qed.

Lemma acquire_enter_run lk s :
  apic_ok lapic s → 0 <= ncli s me →
  run (acquire_enter lapic me lk)
    (λ _ s', moved lapic me 1 s s' ∧ (me < length (m_cpus s))%nat ∧
       ¬ (l_locked (m_locks s !!! lk) ≠ 0 ∧ l_cpu (m_locks s !!! lk) = Some me)) (λ _, False) s.
Proof.
  intros Ha Hn. unfold acquire_enter. apply run_bind. eapply run_mono; [by apply pushcli_run| |done].
  intros [] s1 [M1 Hme]. apply run_bind. eapply run_mono; [apply holding_run; [apply M1|]| |done].
  { rewrite (mv_ncli _ _ _ _ _ M1). lia. }
  intros b s2 (M2 & _ & Hb). case_match; [apply run_panic|]. apply run_ret.
  split; [by apply (moved_trans 1 0 s s1 s2)|]. split; [done|]. rewrite <-(mv_locks _ _ _ _ _ M1).
  intros Hh. apply Hb in Hh. congruence.
Qed.
End cpu_rules.

(** ** Nested [pushcli] *)

Section nesting.
Variable lapic : nat → Z.
Variable me : nat.

(** [n] calls of [pushcli] matched by [n] calls of [popcli]. *)
Fixpoint nest (n : nat) : M smp unit :=
  match n with
  | O => mret tt
  | S n' => pushcli lapic me;; nest n';; popcli lapic me
  end.

(** [me] at depth [k], when [pushcli] was first called in state [s]. *)
Definition at_depth (s : smp) (k : Z) : smp :=
  Smp (<[me := false]> (m_if s)) (alter (λ c, Cpu (c_apicid c) k (m_if s !!! me)) me (m_cpus s)) (m_locks s).

Variable s : smp.
Hypothesis Hcpu : find_cpu (lapic me) (m_cpus s) 0 = Some me.
Hypothesis Hme : (me < length (m_cpus s))%nat.
Hypothesis Hlen : length (m_if s) = length (m_cpus s).

Lemma mycpu_off s' :
  m_if s' !!! me = false → c_apicid <$> m_cpus s' = c_apicid <$> m_cpus s → mycpu lapic me s' = Ret me s'.
Proof.
  intros Hi Hc. unfold mycpu, readeflags_if. erewrite bind_ret by reflexivity. rewrite Hi.
  erewrite bind_ret by reflexivity. by rewrite (find_cpu_ids _ _ _ _ Hc), Hcpu.
Qed.

Lemma push_first : ncli s me = 0 → pushcli lapic me s = Ret tt (at_depth s 1).
Proof.
  unfold ncli. intros Hn. unfold pushcli. do 2 (erewrite bind_ret by reflexivity). erewrite bind_ret.
  2:{ apply mycpu_off; [cbn|done]. apply list_lookup_total_insert_eq. lia. }
  erewrite bind_ret by reflexivity. cbn. rewrite Hn. unfold upd_cpu, modify, mbind, M_bind, at_depth. cbn. rewrite list_alter_alter_eq.
  f_equal. f_equal. apply list_alter_ext; [|done]. intros x Hx. cbn.
  apply list_lookup_total_correct in Hx. rewrite <-Hx, Hn. done.
Qed.

Lemma depth_off k : mycpu lapic me (at_depth s k) = Ret me (at_depth s k).
Proof. apply mycpu_off; cbn; [apply list_lookup_total_insert_eq; lia|by apply alter_ids]. Qed.

Lemma push_again k : 0 < k → pushcli lapic me (at_depth s k) = Ret tt (at_depth s (k + 1)).
Proof.
  intros Hk. unfold pushcli. erewrite bind_ret by reflexivity. erewrite (bind_ret _ _ _ tt (at_depth s k)).
  2:{ unfold set_if, modify, at_depth. cbn. by rewrite list_insert_insert_eq. }
  rewrite (bind_ret _ _ _ _ _ (depth_off k)). erewrite bind_ret by reflexivity. cbn.
  rewrite alter_total by done. cbn. destruct (Z.eqb_spec k 0) as [|_]; [lia|]. cbn.
  unfold upd_cpu, modify, mbind, M_bind, at_depth. cbn. by rewrite list_alter_alter_eq.
Qed.

Lemma pop_inner k : 1 < k → popcli lapic me (at_depth s k) = Ret tt (at_depth s (k - 1)).
Proof.
  intros Hk. unfold popcli. erewrite bind_ret by reflexivity. cbn [at_depth m_if].
  rewrite list_lookup_total_insert_eq by lia. rewrite (bind_ret _ _ _ _ _ (depth_off k)).
  do 2 (erewrite bind_ret by reflexivity). cbn. rewrite list_alter_alter_eq, alter_total by done. cbn.
  destruct (Z.ltb_spec (k - 1) 0) as [|_]; [lia|]. destruct (Z.eqb_spec (k - 1) 0) as [|_]; [lia|]. done.
Qed.

Lemma nest_inner n : ∀ k, 0 < k → nest n (at_depth s k) = Ret tt (at_depth s k).
Proof.
  induction n as [|n IH]; intros k Hk; [done|]. cbn [nest].
  rewrite (bind_ret _ _ _ _ _ (push_again k Hk)), (bind_ret _ _ _ tt (at_depth s (k + 1))) by (apply IH; lia).
  rewrite pop_inner by lia. by replace (k + 1 - 1) with k by lia.
Qed.

Lemma pop_last :
  ∃ s', popcli lapic me (at_depth s 1) = Ret tt s' ∧ m_if s' = m_if s ∧ m_locks s' = m_locks s ∧ ncli s' me = 0.
Proof.
  unfold popcli. erewrite bind_ret by reflexivity. cbn [at_depth m_if].
  rewrite list_lookup_total_insert_eq by lia. rewrite (bind_ret _ _ _ _ _ (depth_off 1)).
  do 2 (erewrite bind_ret by reflexivity). cbn. rewrite list_alter_alter_eq, alter_total by done. cbn.
  destruct (m_if s !!! me) eqn:E; eexists; (split; [reflexivity|]); cbn; unfold ncli; cbn;
    rewrite alter_total by done; cbn; split_and!; try done; rewrite ?list_insert_insert_eq;
    apply list_insert_id; rewrite <-E; apply list_lookup_lookup_total_lt; lia.
Qed.
End nesting.

(** As the comment on [pushcli] promises, any number of nested
    [pushcli] calls is undone by as many [popcli] calls: they all return, the
    interrupt flags of all CPUs are as before, on or off, and the depth is
    zero again. *)
Theorem pushcli_popcli_matched lapic me s n :
  find_cpu (lapic me) (m_cpus s) 0 = Some me → (me < length (m_cpus s))%nat →
  length (m_if s) = length (m_cpus s) → ncli s me = 0 →
  ∃ s', nest lapic me n s = Ret tt s' ∧ m_if s' = m_if s ∧ m_locks s' = m_locks s ∧ ncli s' me = 0.
Proof.
  intros Hc Hm Hl Hn. destruct n as [|n]; [by exists s|]. cbn [nest].
  rewrite (bind_ret _ _ _ _ _ (push_first lapic me s Hc Hm Hl Hn)).
  rewrite (bind_ret _ _ _ _ _ (nest_inner lapic me s Hc Hm Hl n 1 ltac:(lia))). by apply pop_last.
Qed.

(** Two CPUs and a lock. *)
Definition demo_smp : smp := Smp [true; true] [Cpu 0 0 false; Cpu 1 0 false] [initlock].

Lemma pushcli_popcli_matched_witness :
  ∃ s', nest Z.of_nat 1 3 demo_smp = Ret tt s' ∧ m_if s' = [true; true] ∧ m_locks s' = [initlock] ∧ ncli s' 1 = 0.
Proof.
  apply (pushcli_popcli_matched Z.of_nat 1 demo_smp 3).
  - reflexivity.
  - cbn. lia.
  - reflexivity.
  - reflexivity.
Defined.
