(* ===== verification/SpinlockSpec.v ===== *)
(** * Spin locks on several CPUs

    The interleavings of the CPUs' steps through [acquire] and [release]
    (Spinlock.v), and mutual exclusion in all of them. *)

From S2P Require Import Prelude Str Mmu Kalloc Spinlock.

(** ** The CPUs together *)

(** Where a CPU is: outside [acquire] and [release], in the loop of
    [acquire], after it, or between the two stores of [release]. *)
Inductive where_ := Outside | Spinning (lk : nat) | Got (lk : nat) | Leaving (lk : nat).

(** Each CPU's place, the locks it is acquiring or holding, and the number of
    its [pushcli] calls without a lock that are still to be matched. *)
Record ghost := Ghost { g_at : nat → where_; g_locks : nat → gset nat; g_cli : nat → nat }.

Definition fset {A} (f : nat → A) (c : nat) (a : A) : nat → A := λ d, if decide (d = c) then a else f d.

Section steps.
Variable lapic : nat → Z.

Inductive smp_step : smp * ghost → smp * ghost → Prop :=
  | step_enter c lk s s' g :
    g_at g c = Outside → (lk < length (m_locks s))%nat → acquire_enter lapic c lk s = Ret tt s' →
    smp_step (s, g) (s', Ghost (fset (g_at g) c (Spinning lk)) (fset (g_locks g) c ({[lk]} ∪ g_locks g c)) (g_cli g))
  | step_spin c lk s s' g :
    g_at g c = Spinning lk → acquire_xchg lk s = Ret false s' → smp_step (s, g) (s', g)
  | step_got c lk s s' g :
    g_at g c = Spinning lk → acquire_xchg lk s = Ret true s' →
    smp_step (s, g) (s', Ghost (fset (g_at g) c (Got lk)) (g_locks g) (g_cli g))
  | step_record c lk pcs s s' g :
    g_at g c = Got lk → acquire_record lapic c lk pcs s = Ret tt s' →
    smp_step (s, g) (s', Ghost (fset (g_at g) c Outside) (g_locks g) (g_cli g))
  | step_leave c lk s s' g :
    g_at g c = Outside → release_record lapic c lk s = Ret tt s' →
    smp_step (s, g) (s', Ghost (fset (g_at g) c (Leaving lk)) (g_locks g) (g_cli g))
  | step_free c lk s s' g :
    g_at g c = Leaving lk → release_store lapic c lk s = Ret tt s' →
    smp_step (s, g) (s', Ghost (fset (g_at g) c Outside) (fset (g_locks g) c (g_locks g c ∖ {[lk]})) (g_cli g))
  | step_push c s s' g :
    g_at g c = Outside → pushcli lapic c s = Ret tt s' →
    smp_step (s, g) (s', Ghost (g_at g) (g_locks g) (fset (g_cli g) c (S (g_cli g c))))
  | step_pop c n s s' g :
    g_at g c = Outside → g_cli g c = S n → popcli lapic c s = Ret tt s' →
    smp_step (s, g) (s', Ghost (g_at g) (g_locks g) (fset (g_cli g) c n))
  | step_flag c b s s' g :
    g_at g c = Outside → g_locks g c = ∅ → g_cli g c = 0%nat → set_if c b s = Ret tt s' → smp_step (s, g) (s', g)
  | step_intena c b s s' g :
    g_at g c = Outside → upd_cpu c (set_intena b) s = Ret tt s' → smp_step (s, g) (s', g).
End steps.

(** ** The locks *)

(** CPU [c] has taken lock [lk] and not freed it. *)
Definition owns (L : list spinlock) (w : nat → where_) (c lk : nat) : Prop :=
  l_cpu (L !!! lk) = Some c ∨ w c = Got lk ∨ w c = Leaving lk.

(** The lock a CPU is taking or freeing. *)
Definition busy_with (w : where_) : option nat :=
  match w with Outside => None | Spinning lk | Got lk | Leaving lk => Some lk end.

Record locks_ok (L : list spinlock) (w : nat → where_) (H : nat → gset nat) : Prop := {
  lo_set : ∀ c lk, lk ∈ H c ↔ owns L w c lk ∨ w c = Spinning lk;
  lo_unique : ∀ c c' lk, owns L w c lk → owns L w c' lk → c = c';
  lo_locked : ∀ c lk, owns L w c lk → l_locked (L !!! lk) ≠ 0;
  lo_held : ∀ c lk, l_cpu (L !!! lk) = Some c → busy_with (w c) ≠ Some lk;
  lo_range : ∀ c lk, busy_with (w c) = Some lk → (lk < length L)%nat }.

Lemma alter_lock f (L : list spinlock) lk k :
  (lk < length L)%nat → alter f lk L !!! k = if decide (k = lk) then f (L !!! lk) else L !!! k.
Proof. intros Hl. case_decide as E; [rewrite E; by apply alter_total|by apply alter_total_ne]. Qed.

(** Decide a goal about one lock from the facts generalized in it. *)
Ltac lock_cases Hl :=
  repeat match goal with
    | Hx : ∀ _ : nat, _ |- _ => clear Hx
    | Hx : locks_ok _ _ _ |- _ => clear Hx
    end;
  unfold owns, fset in *; cbn in *; rewrite ?length_alter in *; rewrite ?(alter_lock _ _ _ _ Hl) in *;
  repeat case_decide; subst; cbn in *; intuition congruence.

Section lock_moves.
Variables (L : list spinlock) (w : nat → where_) (H : nat → gset nat) (c lk : nat).
Hypothesis Hok : locks_ok L w H.

Lemma locks_enter :
  w c = Outside → (lk < length L)%nat → l_cpu (L !!! lk) ≠ Some c →
  locks_ok L (fset w c (Spinning lk)) (fset H c ({[lk]} ∪ H c)).
Proof.
  intros Hw Hl Hc. destruct Hok as [Hs Hu Hlk Hh Hr]. split.
  - intros d k. specialize (Hs d k). unfold owns, fset in *. case_decide; [subst|done].
    rewrite elem_of_union, elem_of_singleton, Hs, Hw. clear -Hw. naive_solver.
  - intros d d' k. generalize (Hu d d' k). lock_cases Hl.
  - intros d k. generalize (Hlk d k). lock_cases Hl.
  - intros d k. generalize (Hh d k). lock_cases Hl.
  - intros d k. generalize (Hr d k). lock_cases Hl.
Qed.

Lemma locks_spin :
  w c = Spinning lk → l_locked (L !!! lk) ≠ 0 →
  locks_ok (alter (λ l, Spinlock 1 (l_cpu l) (l_pcs l)) lk L) w H.
Proof.
  intros Hw Hne. destruct Hok as [Hs Hu Hlk Hh Hr]. assert (Hl : (lk < length L)%nat) by (eapply Hr; by rewrite Hw).
  split.
  - intros d k. generalize (Hs d k). lock_cases Hl.
  - intros d d' k. generalize (Hu d d' k). lock_cases Hl.
  - intros d k. generalize (Hlk d k). lock_cases Hl.
  - intros d k. generalize (Hh d k). lock_cases Hl.
  - intros d k. generalize (Hr d k). lock_cases Hl.
Qed.

Lemma locks_got :
  w c = Spinning lk → l_locked (L !!! lk) = 0 →
  locks_ok (alter (λ l, Spinlock 1 (l_cpu l) (l_pcs l)) lk L) (fset w c (Got lk)) H.
Proof.
  intros Hw Hz. destruct Hok as [Hs Hu Hlk Hh Hr]. assert (Hl : (lk < length L)%nat) by (eapply Hr; by rewrite Hw).
  assert (Hno : ∀ d, ¬ owns L w d lk) by (intros d Hd; by apply Hlk in Hd).
  split.
  - intros d k. generalize (Hs d k). lock_cases Hl.
  - intros d d' k. generalize (Hu d d' k) (Hno d) (Hno d'). lock_cases Hl.
  - intros d k. generalize (Hlk d k). lock_cases Hl.
  - intros d k. generalize (Hh d k) (Hno d). lock_cases Hl.
  - intros d k. generalize (Hr d k). lock_cases Hl.
Qed.

Lemma locks_record pcs :
  w c = Got lk → locks_ok (alter (λ l, Spinlock (l_locked l) (Some c) pcs) lk L) (fset w c Outside) H.
Proof.
  intros Hw. destruct Hok as [Hs Hu Hlk Hh Hr]. assert (Hl : (lk < length L)%nat) by (eapply Hr; by rewrite Hw).
  assert (Ho : owns L w c lk) by (right; by left). pose proof (Hlk c lk Ho) as Hz.
  assert (Hall : ∀ d, owns L w d lk → d = c) by (intros d Hd; by eapply Hu).
  split.
  - intros d k. generalize (Hs d k) (Hall d). lock_cases Hl.
  - intros d d' k. generalize (Hu d d' k) (Hall d) (Hall d'). lock_cases Hl.
  - intros d k. generalize (Hlk d k). lock_cases Hl.
  - intros d k. generalize (Hh d k). lock_cases Hl.
  - intros d k. generalize (Hr d k). lock_cases Hl.
Qed.

Lemma locks_leave :
  w c = Outside → l_cpu (L !!! lk) = Some c →
  locks_ok (alter (λ l, Spinlock (l_locked l) None (<[0%nat := 0]> (l_pcs l))) lk L) (fset w c (Leaving lk)) H.
Proof.
  intros Hw Hc. destruct Hok as [Hs Hu Hlk Hh Hr].
  assert (Hl : (lk < length L)%nat).
  { destruct (decide (lk < length L)%nat) as [|Hge]; [done|]. exfalso. revert Hc.
    rewrite list_lookup_total_alt, lookup_ge_None_2 by lia. done. }
  assert (Ho : owns L w c lk) by by left. pose proof (Hlk c lk Ho) as Hz.
  assert (Hall : ∀ d, owns L w d lk → d = c) by (intros d Hd; by eapply Hu).
  split.
  - intros d k. generalize (Hs d k) (Hall d). lock_cases Hl.
  - intros d d' k. generalize (Hu d d' k) (Hall d) (Hall d'). lock_cases Hl.
  - intros d k. generalize (Hlk d k). lock_cases Hl.
  - intros d k. generalize (Hh d k). lock_cases Hl.
  - intros d k. generalize (Hr d k). lock_cases Hl.
Qed.

Lemma locks_free :
  w c = Leaving lk →
  locks_ok (alter (λ l, Spinlock 0 (l_cpu l) (l_pcs l)) lk L) (fset w c Outside) (fset H c (H c ∖ {[lk]})).
Proof.
  intros Hw. destruct Hok as [Hs Hu Hlk Hh Hr]. assert (Hl : (lk < length L)%nat) by (eapply Hr; by rewrite Hw).
  assert (Ho : owns L w c lk) by (right; by right).
  assert (Hall : ∀ d, owns L w d lk → d = c) by (intros d Hd; by eapply Hu).
  assert (Hnc : l_cpu (L !!! lk) ≠ Some c) by (intros E; apply Hh in E; by rewrite Hw in E).
  split.
  - intros d k. generalize (Hs d k) (Hall d).
    assert (Hd : k ∈ fset H c (H c ∖ {[lk]}) d ↔ k ∈ H d ∧ (d = c → k ≠ lk)).
    { unfold fset. case_decide; [subst; rewrite elem_of_difference, elem_of_singleton|]; naive_solver. }
    rewrite Hd. clear Hd. lock_cases Hl.
  - intros d d' k. generalize (Hu d d' k). lock_cases Hl.
  - intros d k. generalize (Hlk d k) (Hall d). lock_cases Hl.
  - intros d k. generalize (Hh d k). lock_cases Hl.
  - intros d k. generalize (Hr d k). lock_cases Hl.
Qed.
End lock_moves.

(** ** All reachable states *)

Record smp_ok (lapic : nat → Z) (x : smp * ghost) : Prop := {
  ok_apic : apic_ok lapic x.1;
  ok_ncli : ∀ c, ncli x.1 c = Z.of_nat (g_cli x.2 c + size (g_locks x.2 c));
  ok_flag : ∀ c, 0 < ncli x.1 c → iflag x.1 c = false;
  ok_locks : locks_ok (m_locks x.1) (g_at x.2) (g_locks x.2) }.

Section reachable.
Variable lapic : nat → Z.

(** A step of one CPU that moves its depth by [d] and keeps the locks'
    invariant keeps the whole. *)
Lemma moved_ok c d s s0 s' g w' H' cl' :
  smp_ok lapic (s, g) → moved lapic c d s0 s' → m_cpus s0 = m_cpus s → m_if s0 = m_if s →
  locks_ok (m_locks s0) w' H' → (∀ e, e ≠ c → H' e = g_locks g e ∧ cl' e = g_cli g e) →
  Z.of_nat (cl' c + size (H' c)) = Z.of_nat (g_cli g c + size (g_locks g c)) + d →
  smp_ok lapic (s', Ghost w' H' cl').
Proof.
  intros [Ha Hn Hf _] M Ec Ei Hl He Hd. cbn in *.
  assert (En : ∀ e, ncli s0 e = ncli s e) by (intros e; unfold ncli; by rewrite Ec).
  assert (Ef : ∀ e, iflag s0 e = iflag s e) by (intros e; unfold iflag; by rewrite Ei).
  split; cbn; [apply M| | |by rewrite (mv_locks _ _ _ _ _ M)].
  - intros e. destruct (decide (e = c)) as [->|Hne].
    + rewrite (mv_ncli _ _ _ _ _ M), En, Hn. lia.
    + destruct (mv_other _ _ _ _ _ M e Hne) as [-> _], (He e Hne) as [-> ->]. by rewrite En.
  - intros e. destruct (decide (e = c)) as [->|Hne]; [apply M|].
    destruct (mv_other _ _ _ _ _ M e Hne) as [-> ->]. rewrite En, Ef. apply Hf.
Qed.

(** A change of the locks only. *)
Lemma locks_step_ok s s' g w' :
  smp_ok lapic (s, g) → m_cpus s' = m_cpus s → m_if s' = m_if s →
  locks_ok (m_locks s') w' (g_locks g) → smp_ok lapic (s', Ghost w' (g_locks g) (g_cli g)).
Proof.
  intros [Ha Hn Hf _] Ec Ei Hl. split; cbn in *; [|intros c; unfold ncli, iflag in *; rewrite ?Ec, ?Ei; auto..|done].
  eapply apic_ok_upd; [done|by rewrite Ei|by rewrite Ec].
Qed.

Lemma size_take (H : gset nat) lk : lk ∉ H → size ({[lk]} ∪ H) = S (size H).
Proof. intros Hn. rewrite size_union by set_solver. by rewrite size_singleton. Qed.

Lemma size_drop (H : gset nat) lk : lk ∈ H → size H = S (size (H ∖ {[lk]})).
Proof.
  intros Hi. rewrite size_difference by set_solver. rewrite size_singleton.
  assert (size H ≠ 0%nat) by (intros E%size_empty_inv; set_solver). lia.
Qed.

Lemma ncli_nonneg s g c : smp_ok lapic (s, g) → 0 <= ncli s c.
Proof. intros Hok. pose proof (ok_ncli _ _ Hok c) as Hn. cbn in Hn. lia. Qed.

Lemma enter_ok c lk s s' g :
  smp_ok lapic (s, g) → g_at g c = Outside → (lk < length (m_locks s))%nat → acquire_enter lapic c lk s = Ret tt s' →
  smp_ok lapic (s', Ghost (fset (g_at g) c (Spinning lk)) (fset (g_locks g) c ({[lk]} ∪ g_locks g c)) (g_cli g)).
Proof.
  intros Hok Hw Hl E. pose proof (ncli_nonneg _ _ c Hok) as Hnn.
  apply (run_elim _ _ _ _ _ _ (acquire_enter_run lapic c lk s (ok_apic _ _ Hok) Hnn)) in E as (M & _ & Hnh).
  pose proof (ok_locks _ _ Hok) as Hlo. cbn in Hlo.
  assert (Hnc : l_cpu (m_locks s !!! lk) ≠ Some c).
  { intros Ec. apply Hnh. split; [|done]. eapply lo_locked; [done|]. by left. }
  eapply moved_ok; [done|exact M|done|done|by apply locks_enter| |].
  - intros e He. unfold fset. by rewrite decide_False.
  - unfold fset. rewrite decide_True by done. rewrite size_take; [lia|].
    intros Hi. apply (lo_set _ _ _ Hlo) in Hi. unfold owns in Hi. rewrite Hw in Hi. naive_solver.
Qed.

Lemma leave_ok c lk s s' g :
  smp_ok lapic (s, g) → g_at g c = Outside → release_record lapic c lk s = Ret tt s' →
  smp_ok lapic (s', Ghost (fset (g_at g) c (Leaving lk)) (g_locks g) (g_cli g)).
Proof.
  intros Hok Hw E. pose proof (ncli_nonneg _ _ c Hok) as Hnn. unfold release_record in E.
  apply bind_inv in E as (b & s1 & E1 & E).
  apply (run_elim _ _ _ _ _ _ (holding_run lapic c lk s (ok_apic _ _ Hok) Hnn)) in E1 as (M & _ & Hb).
  destruct b; [|done]. cbn in E. injection E as <-. destruct (proj1 Hb eq_refl) as [_ Hc].
  assert (Hok1 : smp_ok lapic (s1, g)).
  { destruct g as [w H cl]. eapply moved_ok; [done|exact M|done|done|apply (ok_locks _ _ Hok)|done|cbn; lia]. }
  apply (locks_step_ok s1); try done. cbn. apply locks_leave; [apply (ok_locks _ _ Hok1)|done|].
  by rewrite (mv_locks _ _ _ _ _ M).
Qed.

Lemma free_ok c lk s s' g :
  smp_ok lapic (s, g) → g_at g c = Leaving lk → release_store lapic c lk s = Ret tt s' →
  smp_ok lapic (s', Ghost (fset (g_at g) c Outside) (fset (g_locks g) c (g_locks g c ∖ {[lk]})) (g_cli g)).
Proof.
  intros Hok Hw E. unfold release_store in E. apply bind_inv in E as ([] & s1 & E1 & E). injection E1 as <-.
  pose proof (ok_locks _ _ Hok) as Hlo. cbn in Hlo.
  match type of E with popcli _ _ ?st = _ => assert (Ha : apic_ok lapic st) by exact (ok_apic _ _ Hok) end.
  apply (run_elim _ _ _ _ _ _ (popcli_run lapic c _ Ha)) in E as (M & _).
  eapply moved_ok; [done|exact M|done|done|by apply locks_free| |].
  - intros e He. unfold fset. by rewrite decide_False.
  - unfold fset. rewrite decide_True by done. rewrite (size_drop (g_locks g c) lk); [lia|].
    apply (lo_set _ _ _ Hlo). left. right. by right.
Qed.

Lemma cli_ok c d cl' s s' g :
  smp_ok lapic (s, g) → moved lapic c d s s' → Z.of_nat cl' = Z.of_nat (g_cli g c) + d →
  smp_ok lapic (s', Ghost (g_at g) (g_locks g) (fset (g_cli g) c cl')).
Proof.
  intros Hok M Hd. eapply moved_ok; [done|exact M|done|done|apply (ok_locks _ _ Hok)| |].
  - intros e He. unfold fset. by rewrite decide_False.
  - unfold fset. rewrite decide_True by done. lia.
Qed.

Lemma smp_step_ok x y : smp_step lapic x y → smp_ok lapic x → smp_ok lapic y.
Proof.
  intros Hs Hok. pose proof (ok_locks _ _ Hok) as Hlo.
  destruct Hs as [c lk s s' g Hw Hl E|c lk s s' g Hw E|c lk s s' g Hw E|c lk pcs s s' g Hw E|c lk s s' g Hw E
    |c lk s s' g Hw E|c s s' g Hw E|c n s s' g Hw Hn E|c b s s' g Hw He Hc E|c b s s' g Hw E]; cbn in Hlo.
  - by apply (enter_ok c lk s).
  - injection E as Ez <-. destruct g. apply (locks_step_ok s _ _ _ Hok); try done. apply (locks_spin _ _ _ c); [done..|]. lia.
  - injection E as Ez <-. apply (locks_step_ok s _ _ _ Hok); try done. apply locks_got; [done..|]. lia.
  - unfold acquire_record in E. apply bind_inv in E as (i & s1 & E1 & E). injection E as <-.
    apply (run_elim _ (λ i s1, i = c ∧ s1 = s) (λ _, True)) in E1 as [-> ->]; [|by apply mycpu_run; [apply Hok|]].
    apply (locks_step_ok s _ _ _ Hok); try done. by apply locks_record.
  - by apply (leave_ok c lk s).
  - by apply (free_ok c lk s).
  - apply (run_elim _ _ _ _ _ _ (pushcli_run lapic c s (ok_apic _ _ Hok) (ncli_nonneg _ _ c Hok))) in E as [M _].
    apply (cli_ok c 1 _ s); [done..|lia].
  - apply (run_elim _ _ _ _ _ _ (popcli_run lapic c s (ok_apic _ _ Hok))) in E as [M _].
    apply (cli_ok c (-1) _ s); [done..|lia].
  - injection E as <-. destruct Hok as [Ha Hn Hf _]. split; cbn in *; [|done| |done].
    + eapply apic_ok_upd; [done|apply length_insert|done].
    + intros e Hp. destruct (decide (e = c)) as [->|Hne]; [|unfold iflag; cbn; rewrite list_lookup_total_insert_ne by done; by apply Hf].
      specialize (Hn c). rewrite He, Hc, size_empty in Hn. change (ncli s c = 0) in Hn. cbv [ncli] in *. cbn in Hp. lia.
  - injection E as <-. destruct Hok as [Ha Hn Hf _].
    assert (En : ∀ e, ncli (Smp (m_if s) (alter (set_intena b) c (m_cpus s)) (m_locks s)) e = ncli s e).
    { intros e. unfold ncli. cbn. rewrite !list_lookup_total_alt. destruct (decide (e = c)) as [->|Hne].
      - rewrite list_lookup_alter_eq. by destruct (m_cpus s !! c).
      - by rewrite list_lookup_alter_ne. }
    split; cbn in *; [|intros e; rewrite En; apply Hn|intros e; rewrite En; apply Hf|done].
    eapply apic_ok_upd; [done|done|]. by apply alter_ids.
Qed.

(** No CPU in [acquire] or [release], no lock taken. *)
Definition at_rest : ghost := Ghost (λ _, Outside) (λ _, ∅) (λ _, 0%nat).

Lemma at_rest_ok s :
  apic_ok lapic s → (∀ c, ncli s c = 0) → Forall (λ l, l = initlock) (m_locks s) → smp_ok lapic (s, at_rest).
Proof.
  intros Ha Hn Hl. split; cbn; [done|intros c; rewrite Hn, size_empty; lia|intros c; rewrite Hn; lia|].
  assert (Hc : ∀ lk, l_cpu (m_locks s !!! lk) = None).
  { intros lk. rewrite list_lookup_total_alt. destruct (m_locks s !! lk) as [l|] eqn:E; [|done].
    rewrite Forall_lookup in Hl. by rewrite (Hl _ _ E). }
  unfold owns. split; unfold owns; cbn; intros *; rewrite ?Hc, ?elem_of_empty; naive_solver.
Qed.

(** C6: in every interleaving of the CPUs' steps, at most one CPU is
    between the [xchg] of [acquire] that took a lock and the store of
    [release] that frees it; the lock word is nonzero all that time, and the
    CPU's interrupts are off with its nesting depth above zero. *)
Theorem spinlock_mutual_exclusion s0 s g c c' lk :
  apic_ok lapic s0 → (∀ c, ncli s0 c = 0) → Forall (λ l, l = initlock) (m_locks s0) →
  rtc (smp_step lapic) (s0, at_rest) (s, g) →
  owns (m_locks s) (g_at g) c lk → owns (m_locks s) (g_at g) c' lk →
  c = c' ∧ l_locked (m_locks s !!! lk) ≠ 0 ∧ iflag s c = false ∧ 0 < ncli s c.
Proof.
  intros Ha Hn Hl Hr Ho Ho'. assert (Hok : smp_ok lapic (s, g)).
  { eapply (rtc_ind_r (λ x, smp_ok lapic x)); [by apply at_rest_ok|intros; by eapply smp_step_ok|exact Hr]. }
  pose proof (ok_locks _ _ Hok) as Hlo. cbn in Hlo. split; [by eapply lo_unique|]. split; [by eapply lo_locked|].
  assert (Hi : lk ∈ g_locks g c) by (apply (lo_set _ _ _ Hlo); by left).
  assert (Hp : 0 < ncli s c).
  { pose proof (ok_ncli _ _ Hok c) as Hc. cbn in Hc. rewrite Hc, (size_drop _ _ Hi). lia. }
  split; [by apply (ok_flag _ _ Hok)|done].
Qed.
End reachable.

(** CPU 0 takes the lock while CPU 1 enters [acquire]. *)
Lemma demo_smp_apic : apic_ok Z.of_nat demo_smp.
Proof.
  split; [reflexivity|]. intros c i E. cbn [m_cpus demo_smp find_cpu c_apicid] in E.
  destruct (Z.eqb_spec 0 (Z.of_nat c)), (Z.eqb_spec 1 (Z.of_nat c)); try discriminate E; injection E as <-; cbn; lia.
Qed.

Lemma spinlock_mutual_exclusion_witness :
  ∃ s g, rtc (smp_step Z.of_nat) (demo_smp, at_rest) (s, g) ∧ owns (m_locks s) (g_at g) 0 0 ∧
    g_at g 1%nat = Spinning 0 ∧ iflag s 0 = false.
Proof.
  eexists. eexists. match goal with |- ?A ∧ ?B => assert (Hr : A) end.
  - eapply rtc_l; [eapply (step_enter _ 0 0); [reflexivity|cbn; lia|vm_compute; reflexivity]|].
    eapply rtc_l; [eapply (step_enter _ 1 0); [reflexivity|cbn; lia|vm_compute; reflexivity]|].
    eapply rtc_l; [eapply (step_got _ 0 0); [reflexivity|vm_compute; reflexivity]|].
    eapply rtc_l; [eapply (step_record _ 0 0 []); [reflexivity|vm_compute; reflexivity]|].
    eapply rtc_l; [eapply (step_spin _ 1 0); [reflexivity|vm_compute; reflexivity]|]. apply rtc_refl.
  - split; [exact Hr|]. split; [by left|]. split; [reflexivity|].
    refine (proj1 (proj2 (proj2 (spinlock_mutual_exclusion Z.of_nat demo_smp _ _ 0 0 0 demo_smp_apic _ _ Hr _ _)))).
    + intros [|[|c]]; [reflexivity..|]. reflexivity.
    + by constructor.
    + by left.
    + by left.
Defined.
