(* ===== verification/Pipe.v ===== *)
(** * pipe.c: pipes

    A pipe and the threads that are inside [pipewrite] and [piperead].  A
    thread runs with the pipe's lock held until it returns or sleeps, so
    each such run is one step; [sleep] marks the thread asleep on a
    channel and [wakeup] wakes all threads that sleep on it.  The counters
    are 32-bit and wrap around. *)

From S2P Require Import Prelude.

Definition PIPESIZE : Z := 512.

Record pipe := Pipe {
  p_data : list Z; nread : Z; nwrite : Z; readopen : Z; writeopen : Z }.

(** The two channels, [&p->nread] and [&p->nwrite]. *)
Inductive chan := ChanRead | ChanWrite.

#[global] Instance chan_eq_dec : EqDecision chan.
Proof. solve_decision. Defined.

(** A thread inside the pipe: the bytes it has left to write, or the
    number of bytes it wants. *)
Inductive op := Writing (addr : list Z) | Reading (n : Z).

Record thread := Thread { t_op : op; t_asleep : option chan; t_killed : bool }.

(** [ps_in] and [ps_out] record all the bytes writers stored and readers
    took since the pipe was made; the code does not have them. *)
Record psys := Psys {
  ps_pipe : pipe; ps_threads : gmap nat thread; ps_in : list Z; ps_out : list Z }.

Definition with_pipe (f : pipe → pipe) (s : psys) : psys :=
  Psys (f (ps_pipe s)) (ps_threads s) (ps_in s) (ps_out s).

Definition with_threads (f : gmap nat thread → gmap nat thread) (s : psys) : psys :=
  Psys (ps_pipe s) (f (ps_threads s)) (ps_in s) (ps_out s).

Definition wake (c : chan) (t : thread) : thread :=
  if decide (t_asleep t = Some c) then Thread (t_op t) None (t_killed t) else t.

Definition wakeup (c : chan) (s : psys) : psys := with_threads (fmap (wake c)) s.

(** [sleep(chan, &p->lock)] by thread [t], with [o] left to do. *)
Definition sleep_on (c : chan) (t : nat) (o : op) (killed : bool) (s : psys) : psys :=
  with_threads (insert t (Thread o (Some c) killed)) s.

(** The values [pipealloc] stores in a new pipe; its page has old
    contents [junk]. *)
Definition new_pipe (junk : list Z) : pipe := Pipe junk 0 0 1 1.

(** [pipeclose]: true when the pipe's page is freed. *)
Definition pipeclose (writable : bool) (s : psys) : bool * psys :=
  let s :=
    if writable then
      wakeup ChanRead
        (with_pipe (λ p, Pipe (p_data p) (nread p) (nwrite p) (readopen p) 0) s)
    else
      wakeup ChanWrite
        (with_pipe (λ p, Pipe (p_data p) (nread p) (nwrite p) 0 (writeopen p)) s) in
  ((readopen (ps_pipe s) =? 0) && (writeopen (ps_pipe s) =? 0), s).

Definition pipe_full (p : pipe) : bool := nwrite p =? u32 (nread p + PIPESIZE).
Definition pipe_empty (p : pipe) : bool := nread p =? nwrite p.

(** [p->data[p->nwrite++ % PIPESIZE] = c] *)
Definition push (c : Z) (p : pipe) : pipe :=
  Pipe (<[Z.to_nat (nwrite p mod PIPESIZE) := c]> (p_data p)) (nread p) (u32 (nwrite p + 1))
    (readopen p) (writeopen p).

Definition store (c : Z) (s : psys) : psys :=
  Psys (push c (ps_pipe s)) (ps_threads s) (ps_in s ++ [c]) (ps_out s).

(** [p->data[p->nread++ % PIPESIZE]] *)
Definition pop (p : pipe) : Z * pipe :=
  (p_data p !!! Z.to_nat (nread p mod PIPESIZE),
   Pipe (p_data p) (u32 (nread p + 1)) (nwrite p) (readopen p) (writeopen p)).

(** A thread returned a value, or went to sleep. *)
Inductive result (A : Type) := Returned (a : A) | Asleep.
Arguments Returned {A} a.
Arguments Asleep {A}.

(** [pipewrite] from the bytes [addr] on, entered or woken up; [n] is the
    number of bytes of the call. *)
Fixpoint pipewrite (t : nat) (killed : bool) (n : Z) (addr : list Z) (s : psys) : result Z * psys :=
  match addr with
  | [] => (Returned n, wakeup ChanRead s)
  | c :: addr' =>
    if pipe_full (ps_pipe s) then
      if (readopen (ps_pipe s) =? 0) || killed then (Returned (-1), s)
      else (Asleep, sleep_on ChanWrite t (Writing addr) killed (wakeup ChanRead s))
    else pipewrite t killed n addr' (store c s)
  end.

(** The copying loop of [piperead]. *)
Fixpoint read_bytes (n : nat) (p : pipe) : list Z * pipe :=
  match n with
  | O => ([], p)
  | S n' =>
    if pipe_empty p then ([], p)
    else let '(c, p) := pop p in
         let '(bytes, p) := read_bytes n' p in (c :: bytes, p)
  end.

(** [piperead]: the result and the bytes stored at [addr]. *)
Definition piperead (t : nat) (killed : bool) (n : Z) (s : psys) : result (Z * list Z) * psys :=
  let p := ps_pipe s in
  if pipe_empty p && negb (writeopen p =? 0) then
    if killed then (Returned (-1, []), s)
    else (Asleep, sleep_on ChanRead t (Reading n) killed s)
  else
    let '(bytes, p) := read_bytes (Z.to_nat n) p in
    (Returned (Z.of_nat (length bytes), bytes), 
     wakeup ChanWrite (Psys p (ps_threads s) (ps_in s) (ps_out s ++ bytes))).

(** ** The bytes in the pipe *)

Record pipe_ok (p : pipe) : Prop := {
  po_len : length (p_data p) = Z.to_nat PIPESIZE;
  po_read : is_u32 (nread p);
  po_write : is_u32 (nwrite p);
  po_room : u32 (nwrite p - nread p) <= PIPESIZE }.

(** The bytes written and not read yet, oldest first. *)
Definition queue (p : pipe) : list Z :=
  (λ k, p_data p !!! Z.to_nat ((nread p + k) mod PIPESIZE)) <$>
    seqZ 0 (u32 (nwrite p - nread p)).

Lemma length_queue p : length (queue p) = Z.to_nat (u32 (nwrite p - nread p)).
Proof. unfold queue. by rewrite length_fmap, length_seqZ. Qed.

Lemma full_spec p : pipe_ok p → pipe_full p = (u32 (nwrite p - nread p) =? PIPESIZE).
Proof.
  intros [_ Hr Hw Hroom]. unfold pipe_full, u32, is_u32, PIPESIZE in *.
  destruct (Z.eqb_spec (nwrite p) ((nread p + 512) mod 2 ^ 32)),
    (Z.eqb_spec ((nwrite p - nread p) mod 2 ^ 32) 512); dlia.
Qed.

Lemma empty_spec p : pipe_ok p → pipe_empty p = (u32 (nwrite p - nread p) =? 0).
Proof.
  intros [_ Hr Hw _]. unfold pipe_empty, u32, is_u32 in *.
  destruct (Z.eqb_spec (nread p) (nwrite p)), (Z.eqb_spec ((nwrite p - nread p) mod 2 ^ 32) 0); dlia.
Qed.

Lemma u32_bound x : is_u32 (u32 x).
Proof. apply Z.mod_pos_bound. lia. Qed.

Lemma insert_total_eq (l : list Z) i j c : i = j → (i < length l)%nat → <[i := c]> l !!! j = c.
Proof. intros <- ?. by apply list_lookup_total_insert_eq. Qed.

(** Writing a byte appends it. *)
Lemma push_spec c p :
  pipe_ok p → pipe_full p = false → pipe_ok (push c p) ∧ queue (push c p) = queue p ++ [c].
Proof.
  intros Hok Hf. pose proof Hok as [Hl Hr Hw Hroom]. rewrite full_spec in Hf by done.
  apply Z.eqb_neq in Hf. pose proof (u32_bound (nwrite p - nread p)) as Hb.
  assert (E : u32 (u32 (nwrite p + 1) - nread p) = u32 (nwrite p - nread p) + 1).
  { unfold u32, is_u32, PIPESIZE in *. dlia. }
  split.
  - split; cbn; [by rewrite length_insert|done|apply u32_bound|]. rewrite E. lia.
  - unfold queue at 1. cbn [nwrite nread push p_data]. rewrite E. unfold is_u32 in Hb.
    rewrite seqZ_app, fmap_app by lia. f_equal.
    + apply list_fmap_ext. intros i k Hk. apply lookup_seqZ in Hk as [-> Hk].
      apply list_lookup_total_insert_ne. unfold u32, is_u32, PIPESIZE in *. dlia.
    + rewrite seqZ_cons, seqZ_nil by lia. cbn [fmap list_fmap]. f_equal. apply insert_total_eq.
      { unfold u32, is_u32, PIPESIZE in *. dlia. }
      rewrite Hl. unfold PIPESIZE. dlia.
Qed.

(** Reading takes the oldest byte. *)
Lemma pop_spec p :
  pipe_ok p → pipe_empty p = false →
  pipe_ok (pop p).2 ∧ queue p = (pop p).1 :: queue (pop p).2.
Proof.
  intros Hok He. pose proof Hok as [Hl Hr Hw Hroom]. rewrite empty_spec in He by done.
  apply Z.eqb_neq in He. pose proof (u32_bound (nwrite p - nread p)) as Hb.
  assert (E : u32 (nwrite p - u32 (nread p + 1)) = u32 (nwrite p - nread p) - 1).
  { unfold u32, is_u32, PIPESIZE in *. dlia. }
  split.
  - split; cbn; [done|apply u32_bound|done|]. rewrite E. lia.
  - unfold queue. cbn [pop snd fst nwrite nread p_data]. rewrite E. unfold is_u32 in Hb.
    rewrite seqZ_cons by lia. cbn [fmap list_fmap]. rewrite Z.add_0_r. f_equal.
    replace (Z.succ 0) with (1 + 0) by lia. rewrite <-fmap_add_seqZ, <-list_fmap_compose.
    replace (Z.pred _) with (u32 (nwrite p - nread p) - 1) by lia.
    apply list_fmap_ext. intros i k Hk. apply lookup_seqZ in Hk as [-> Hk]. cbn. do 2 f_equal.
    unfold u32, is_u32, PIPESIZE in *. dlia.
Qed.

(** ** What the threads do to the bytes in the pipe *)

Lemma read_bytes_spec n : ∀ p,
  pipe_ok p →
  let '(bytes, p') := read_bytes n p in
  pipe_ok p' ∧ bytes = take n (queue p) ∧ queue p' = drop n (queue p) ∧
  readopen p' = readopen p ∧ writeopen p' = writeopen p.
Proof.
  induction n as [|n IH]; intros p Hok; cbn [read_bytes]; [done|].
  destruct (pipe_empty p) eqn:He.
  - rewrite empty_spec in He by done. apply Z.eqb_eq in He.
    assert (queue p = []) as -> by (apply nil_length_inv; by rewrite length_queue, He). done.
  - destruct (pop_spec p Hok He) as [Hok' Hq]. destruct (pop p) as [c p1] eqn:Ep. cbn in Hok', Hq.
    specialize (IH p1 Hok'). destruct (read_bytes n p1) as [bytes p2].
    destruct IH as (? & -> & -> & -> & ->). rewrite Hq. injection Ep as <- <-. done.
Qed.

(** The bytes stored are those taken, then those in the pipe. *)
Record fifo (s : psys) : Prop := {
  ff_ok : pipe_ok (ps_pipe s);
  ff_in : ps_in s = ps_out s ++ queue (ps_pipe s) }.

Lemma store_fifo c s : fifo s → pipe_full (ps_pipe s) = false → fifo (store c s).
Proof.
  intros [Hok Hin] Hf. destruct (push_spec c _ Hok Hf) as [Hok' Hq].
  split; [done|]. cbn. by rewrite Hq, Hin, <-app_assoc.
Qed.

Lemma threads_fifo f s : fifo s → fifo (with_threads f s).
Proof. by intros [? ?]. Qed.

(** How a run of [pipewrite] ends. *)
Definition write_ends (t : nat) (killed : bool) (n : Z) (s : psys)
    (rest : list Z) (r : result Z) (s' : psys) : Prop :=
  match r with
  | Returned v =>
    (v = n ∧ rest = [] ∧ ps_threads s' = wake ChanRead <$> ps_threads s) ∨
    (v = -1 ∧ rest ≠ [] ∧ (readopen (ps_pipe s) = 0 ∨ killed = true) ∧
     ps_threads s' = ps_threads s)
  | Asleep =>
    rest ≠ [] ∧ pipe_full (ps_pipe s') = true ∧ readopen (ps_pipe s) ≠ 0 ∧ killed = false ∧
    ps_threads s' =
      <[t := Thread (Writing rest) (Some ChanWrite) killed]> (wake ChanRead <$> ps_threads s)
  end.

(** A run of [pipewrite] stores a prefix of its bytes, all of them when
    it returns [n], and it keeps the others when it sleeps. *)
Lemma pipewrite_spec t killed n addr : ∀ s,
  fifo s →
  let '(r, s') := pipewrite t killed n addr s in
  ∃ put rest, addr = put ++ rest ∧ ps_in s' = ps_in s ++ put ∧ ps_out s' = ps_out s ∧ fifo s' ∧
    readopen (ps_pipe s') = readopen (ps_pipe s) ∧ writeopen (ps_pipe s') = writeopen (ps_pipe s) ∧
    (put = [] → ps_pipe s' = ps_pipe s) ∧ write_ends t killed n s rest r s'.
Proof.
  induction addr as [|c addr IH]; intros s Hok; cbn [pipewrite].
  - exists [], []. rewrite (app_nil_r (ps_in s)). split_and!; try done; [by apply threads_fifo|by left].
  - destruct (pipe_full (ps_pipe s)) eqn:Hf.
    + destruct (Z.eqb_spec (readopen (ps_pipe s)) 0), killed; cbn [orb];
        exists [], (c :: addr); rewrite (app_nil_r (ps_in s)); split_and!; try done; try (right; by auto);
        unfold wakeup, sleep_on; by repeat apply threads_fifo.
    + specialize (IH (store c s) (store_fifo c s Hok Hf)).
      destruct (pipewrite t killed n addr (store c s)) as [r s'].
      destruct IH as (put & rest & -> & Hin & ? & ? & ? & ? & _ & ?). exists (c :: put), rest.
      rewrite Hin. cbn. rewrite <-app_assoc. by split_and!.
Qed.

Lemma piperead_spec t killed n s :
  fifo s →
  let '(r, s') := piperead t killed n s in
  fifo s' ∧ ps_in s' = ps_in s ∧
  readopen (ps_pipe s') = readopen (ps_pipe s) ∧ writeopen (ps_pipe s') = writeopen (ps_pipe s) ∧
  match r with
  | Returned (v, bytes) =>
    ps_out s' = ps_out s ++ bytes ∧
    ((v = -1 ∧ bytes = [] ∧ killed = true ∧ s' = s) ∨
     (v = Z.of_nat (length bytes) ∧ bytes = take (Z.to_nat n) (queue (ps_pipe s)) ∧
      (queue (ps_pipe s) = [] → writeopen (ps_pipe s) = 0) ∧
      ps_threads s' = wake ChanWrite <$> ps_threads s))
  | Asleep =>
    queue (ps_pipe s) = [] ∧ writeopen (ps_pipe s) ≠ 0 ∧ killed = false ∧
    s' = sleep_on ChanRead t (Reading n) killed s
  end.
Proof.
  intros [Hok Hin]. unfold piperead.
  assert (He : pipe_empty (ps_pipe s) = true ↔ queue (ps_pipe s) = []).
  { rewrite empty_spec, Z.eqb_eq by done. rewrite <-length_zero_iff_nil, length_queue.
    pose proof (u32_bound (nwrite (ps_pipe s) - nread (ps_pipe s))). unfold is_u32 in *. lia. }
  destruct (pipe_empty (ps_pipe s) && negb (writeopen (ps_pipe s) =? 0)) eqn:E.
  - apply andb_true_iff in E as [E1 E2]. apply negb_true_iff, Z.eqb_neq in E2.
    destruct killed; split_and!; try done; [by rewrite app_nil_r|by left|by apply He].
  - pose proof (read_bytes_spec (Z.to_nat n) _ Hok) as Hb.
    destruct (read_bytes (Z.to_nat n) (ps_pipe s)) as [bytes p'].
    destruct Hb as (? & -> & Hq & ? & ?). split_and!; try done.
    + split; [done|]. cbn. by rewrite Hin, Hq, <-app_assoc, take_drop.
    + right. split_and!; try done. intros Hq0. apply He in Hq0. rewrite Hq0 in E. cbn in E.
      by apply negb_false_iff, Z.eqb_eq in E.
Qed.

(** ** All threads together *)

Definition is_writing (o : op) : bool := match o with Writing _ => true | Reading _ => false end.

Definition end_open (p : pipe) (writable : bool) : bool :=
  negb ((if writable then writeopen p else readopen p) =? 0).

(** One step of the threads that use a pipe: a thread with the end open
    calls, a thread that is not asleep runs until it returns or sleeps, a
    thread is killed (only when [kills]), an end that no thread uses is
    closed.  A thread inside a call has the file open, so the reference
    count of the file keeps its end open. *)
Inductive pipe_step (kills : bool) : psys → psys → Prop :=
  | step_call s t o :
    ps_threads s !! t = None → end_open (ps_pipe s) (is_writing o) = true →
    pipe_step kills s (with_threads (insert t (Thread o None false)) s)
  | step_write s t addr killed n v s' :
    ps_threads s !! t = Some (Thread (Writing addr) None killed) →
    pipewrite t killed n addr s = (Returned v, s') →
    pipe_step kills s (with_threads (delete t) s')
  | step_write_sleep s t addr killed n s' :
    ps_threads s !! t = Some (Thread (Writing addr) None killed) →
    pipewrite t killed n addr s = (Asleep, s') →
    pipe_step kills s s'
  | step_read s t n killed v bytes s' :
    ps_threads s !! t = Some (Thread (Reading n) None killed) →
    piperead t killed n s = (Returned (v, bytes), s') →
    pipe_step kills s (with_threads (delete t) s')
  | step_read_sleep s t n killed s' :
    ps_threads s !! t = Some (Thread (Reading n) None killed) →
    piperead t killed n s = (Asleep, s') →
    pipe_step kills s s'
  | step_kill s t th :
    kills = true → ps_threads s !! t = Some th →
    pipe_step kills s (with_threads (insert t (Thread (t_op th) None true)) s)
  | step_close s writable freed s' :
    (∀ t th, ps_threads s !! t = Some th → is_writing (t_op th) ≠ writable) →
    pipeclose writable s = (freed, s') →
    pipe_step kills s s'.

(** The pipe [pipealloc] makes, before any call. *)
Definition new_sys (junk : list Z) : psys := Psys (new_pipe junk) ∅ [] [].

Lemma new_fifo junk : length junk = Z.to_nat PIPESIZE → fifo (new_sys junk).
Proof. intros. by split. Qed.

Lemma step_fifo kills s s' : pipe_step kills s s' → fifo s → fifo s'.
Proof.
  intros Hs Hf. destruct Hs as [|s t addr killed n v s' _ E|s t addr killed n s' _ E
    |s t n killed v bytes s' _ E|s t n killed s' _ E| |s w freed s' _ E].
  - by apply threads_fifo.
  - pose proof (pipewrite_spec t killed n addr _ Hf) as H. rewrite E in H.
    destruct H as (? & ? & _ & _ & _ & ? & _). by apply threads_fifo.
  - pose proof (pipewrite_spec t killed n addr _ Hf) as H. rewrite E in H.
    by destruct H as (? & ? & _ & _ & _ & ? & _).
  - pose proof (piperead_spec t killed n _ Hf) as H. rewrite E in H.
    apply threads_fifo, H.
  - pose proof (piperead_spec t killed n _ Hf) as H. rewrite E in H. apply H.
  - by apply threads_fifo.
  - destruct Hf as [[? ? ? ?] ?]. unfold pipeclose in E. destruct w; by injection E as _ <-.
Qed.


(** ** No lost wakeup *)

Definition sleeps_right (p : pipe) (th : thread) (c : chan) : Prop :=
  match c with
  | ChanRead => is_writing (t_op th) = false ∧ writeopen p ≠ 0 ∧ queue p = []
  | ChanWrite => is_writing (t_op th) = true ∧ readopen p ≠ 0 ∧ pipe_full p = true
  end.

Record users_ok (s : psys) : Prop := {
  uo_open : ∀ t th, ps_threads s !! t = Some th →
    end_open (ps_pipe s) (is_writing (t_op th)) = true;
  uo_alive : ∀ t th, ps_threads s !! t = Some th → t_killed th = false;
  uo_sleep : ∀ t th c, ps_threads s !! t = Some th → t_asleep th = Some c →
    sleeps_right (ps_pipe s) th c }.

Lemma wake_asleep c (m : gmap nat thread) t th c' :
  (wake c <$> m) !! t = Some th → t_asleep th = Some c' →
  m !! t = Some th ∧ c' ≠ c.
Proof.
  rewrite lookup_fmap. destruct (m !! t) as [th0|] eqn:E; cbn; [|done]. unfold wake.
  intros [= <-] H. destruct (decide _); [done|]. split; [done|congruence].
Qed.

Lemma wake_lookup c (m : gmap nat thread) t th :
  (wake c <$> m) !! t = Some th →
  ∃ th0, m !! t = Some th0 ∧ t_op th = t_op th0 ∧ t_killed th = t_killed th0.
Proof.
  rewrite lookup_fmap. destruct (m !! t) as [th0|] eqn:E; cbn; [|done]. unfold wake.
  intros [= <-]. exists th0. by destruct (decide _).
Qed.

(** [wakeup] leaves asleep only those of the other channel. *)
Lemma wakeup_users c s s' :
  users_ok s →
  readopen (ps_pipe s') = readopen (ps_pipe s) → writeopen (ps_pipe s') = writeopen (ps_pipe s) →
  ps_threads s' = wake c <$> ps_threads s →
  match c with
  | ChanRead => pipe_full (ps_pipe s) = true → ps_pipe s' = ps_pipe s
  | ChanWrite => queue (ps_pipe s) = [] → queue (ps_pipe s') = []
  end → users_ok s'.
Proof.
  intros [Ho Ha Hs] Er Ew Et Hc. split; intros t th; rewrite Et.
  - intros (th0 & H & -> & _)%wake_lookup. unfold end_open. rewrite Er, Ew. by apply (Ho t).
  - intros (th0 & H & _ & ->)%wake_lookup. by apply (Ha t).
  - intros c' H1 H2. destruct (wake_asleep _ _ _ _ _ H1 H2) as [H Hne].
    specialize (Hs t th c' H H2). destruct c, c'; try done; destruct Hs as (? & ? & Hq).
    + by rewrite Hc.
    + split_and!; [done|by rewrite Ew|by apply Hc].
Qed.

Lemma delete_users t s : users_ok s → users_ok (with_threads (delete t) s).
Proof.
  intros [Ho Ha Hs]. split; cbn; intros t' th.
  1-2: intros [_ H]%lookup_delete_Some; eauto.
  intros c [_ H]%lookup_delete_Some. by apply (Hs t').
Qed.

Lemma insert_users t th s :
  users_ok s → end_open (ps_pipe s) (is_writing (t_op th)) = true → t_killed th = false →
  from_option (sleeps_right (ps_pipe s) th) True (t_asleep th) →
  users_ok (with_threads (insert t th) s).
Proof.
  intros [Ho Ha Hs] ? ? Hc. split; cbn; intros t' th'.
  1-2: intros [[_ <-]|[_ ?]]%lookup_insert_Some; eauto.
  intros c [[_ <-]|[_ ?]]%lookup_insert_Some Hsl; [by rewrite Hsl in Hc|by eapply Hs].
Qed.

(** A full pipe takes no byte. *)
Lemma full_no_put s s' put :
  fifo s → fifo s' → ps_in s' = ps_in s ++ put → ps_out s' = ps_out s →
  pipe_full (ps_pipe s) = true → put = [].
Proof.
  intros [Hok Hin] [Hok' Hin'] E Eo Hf. rewrite full_spec in Hf by done. apply Z.eqb_eq in Hf.
  rewrite Hin', Eo, Hin, <-app_assoc in E. apply app_inv_head in E.
  apply (f_equal length) in E. rewrite length_app, !length_queue, Hf in E.
  pose proof (po_room _ Hok'). apply nil_length_inv. unfold PIPESIZE in *. lia.
Qed.

(** A run of [pipewrite] by a live thread. *)
Lemma pipewrite_users t n addr s :
  fifo s → users_ok s → ps_threads s !! t = Some (Thread (Writing addr) None false) →
  users_ok (pipewrite t false n addr s).2.
Proof.
  intros Hf Hu Ht. pose proof (pipewrite_spec t false n addr s Hf) as H.
  destruct (pipewrite t false n addr s) as [r s'].
  destruct H as (put & rest & _ & Hin & Hout & Hf' & Er & Ew & Hsame & Hend).
  assert (Hfull : pipe_full (ps_pipe s) = true → ps_pipe s' = ps_pipe s).
  { intros Hp. by apply Hsame, (full_no_put s s'). }
  destruct r as [v|]; cbn in Hend |- *.
  - destruct Hend as [(_ & _ & Et)|(_ & _ & [Hro|] & Et)]; [by eapply (wakeup_users ChanRead)| |done].
    destruct Hu as [Ho Ha Hs]. split; intros t' th; rewrite Et.
    + unfold end_open. rewrite Er, Ew. apply Ho.
    + apply Ha.
    + intros c H1 H2. specialize (Hs t' th c H1 H2). destruct c, Hs as (Hw & ? & ?).
      * specialize (Ho t' th H1). rewrite Hw in Ho. unfold end_open in Ho. by rewrite Hro in Ho.
      * by rewrite Hfull.
  - destruct Hend as (_ & Hp & Hro & _ & Et).
    assert (Hw : users_ok (Psys (ps_pipe s') (wake ChanRead <$> ps_threads s) [] [])).
    { by eapply (wakeup_users ChanRead). }
    pose proof (uo_open _ Hu _ _ Ht) as Hopen.
    apply (insert_users t (Thread (Writing rest) (Some ChanWrite) false)) in Hw; cbn; try done.
    + destruct Hw as [Ho Ha Hs]. split; rewrite Et; done.
    + revert Hopen. unfold end_open. cbn. by rewrite Ew.
    + by rewrite Er.
Qed.

Lemma piperead_users t n s :
  fifo s → users_ok s → ps_threads s !! t = Some (Thread (Reading n) None false) →
  users_ok (piperead t false n s).2.
Proof.
  intros Hf Hu Ht. pose proof (piperead_spec t false n s Hf) as H.
  destruct (piperead t false n s) as [r s'].
  destruct H as (Hf' & Hin & Er & Ew & Hend). destruct r as [[v bytes]|]; cbn in Hend |- *.
  - destruct Hend as [Hout [(_ & _ & ? & _)|(_ & Hb & _ & Et)]]; [done|].
    eapply (wakeup_users ChanWrite); try done. intros Hq.
    rewrite Hq, take_nil in Hb. subst bytes. rewrite app_nil_r in Hout.
    pose proof (ff_in _ Hf) as H1. pose proof (ff_in _ Hf') as H2.
    rewrite Hin, Hout, H1 in H2. apply app_inv_head in H2. congruence.
  - destruct Hend as (Hq & Hw & _ & ->). apply insert_users; [done|apply (uo_open _ Hu _ _ Ht)|done|].
    by split_and!.
Qed.

Lemma pipeclose_users writable s :
  users_ok s → (∀ t th, ps_threads s !! t = Some th → is_writing (t_op th) ≠ writable) →
  users_ok (pipeclose writable s).2.
Proof.
  intros [Ho Ha Hs] Hno. unfold pipeclose. destruct writable; cbn; split; cbn; intros t th.
  1, 4: intros (th0 & H & -> & _)%wake_lookup; specialize (Ho t th0 H); specialize (Hno t th0 H);
    by destruct (is_writing (t_op th0)).
  1, 3: intros (th0 & H & _ & ->)%wake_lookup; by apply (Ha t).
  - intros c H1 H2. destruct (wake_asleep _ _ _ _ _ H1 H2) as [H Hne].
    specialize (Hs t th c H H2). specialize (Hno t th H). by destruct c, Hs.
  - intros c H1 H2. destruct (wake_asleep _ _ _ _ _ H1 H2) as [H Hne].
    specialize (Hs t th c H H2). specialize (Hno t th H). by destruct c, Hs.
Qed.

Lemma step_users s s' : pipe_step false s s' → fifo s → users_ok s → users_ok s'.
Proof.
  intros Hs Hf Hu. destruct Hs as [s t o|s t addr killed n v s' Ht E|s t addr killed n s' Ht E
    |s t n killed v bytes s' Ht E|s t n killed s' Ht E| |s w freed s' Hno E].
  - by apply insert_users.
  - pose proof (uo_alive _ Hu _ _ Ht) as Hk. cbn in Hk. subst killed. apply delete_users.
    pose proof (pipewrite_users t n addr s Hf Hu Ht) as H. by rewrite E in H.
  - pose proof (uo_alive _ Hu _ _ Ht) as Hk. cbn in Hk. subst killed.
    pose proof (pipewrite_users t n addr s Hf Hu Ht) as H. by rewrite E in H.
  - pose proof (uo_alive _ Hu _ _ Ht) as Hk. cbn in Hk. subst killed. apply delete_users.
    pose proof (piperead_users t n s Hf Hu Ht) as H. by rewrite E in H.
  - pose proof (uo_alive _ Hu _ _ Ht) as Hk. cbn in Hk. subst killed.
    pose proof (piperead_users t n s Hf Hu Ht) as H. by rewrite E in H.
  - done.
  - pose proof (pipeclose_users w s Hu Hno) as H. by rewrite E in H.
Qed.


(** ** Runs *)

(** A reader sleeps on the new pipe, a writer stores [5; 6] and wakes it. *)
Definition junk0 : list Z := replicate (Z.to_nat PIPESIZE) 0.

Definition reader_asleep : psys :=
  (piperead 1 false 10 (with_threads (insert 1%nat (Thread (Reading 10) None false)) (new_sys junk0))).2.

Lemma reader_asleep_reached kills : rtc (pipe_step kills) (new_sys junk0) reader_asleep.
Proof.
  eapply rtc_l; [by apply (step_call kills _ 1%nat (Reading 10))|].
  eapply rtc_l; [|apply rtc_refl]. by eapply (step_read_sleep kills _ 1%nat 10 false).
Qed.

Definition call_write (addr : list Z) (s : psys) : psys :=
  with_threads (insert 2%nat (Thread (Writing addr) None false)) s.

Definition wrote_two : psys :=
  with_threads (delete 2%nat) (pipewrite 2 false 2 [5; 6] (call_write [5; 6] reader_asleep)).2.

Lemma wrote_two_reached kills : rtc (pipe_step kills) (new_sys junk0) wrote_two.
Proof.
  eapply rtc_r; [eapply rtc_r; [apply reader_asleep_reached|]|].
  - by apply (step_call kills _ 2%nat (Writing [5; 6])).
  - by eapply (step_write kills _ 2%nat [5; 6] false 2).
Qed.



(** The same reader, and a writer that is killed in the middle of a call
    with 513 bytes. *)
Definition killed_write : psys :=
  let addr := replicate (Z.to_nat (PIPESIZE + 1)) 7 in
  let s := with_threads (insert 2%nat (Thread (Writing addr) None true))
             (call_write addr reader_asleep) in
  with_threads (delete 2%nat) (pipewrite 2 true (PIPESIZE + 1) addr s).2.

Lemma killed_write_reached : rtc (pipe_step true) (new_sys junk0) killed_write.
Proof.
  set (addr := replicate (Z.to_nat (PIPESIZE + 1)) 7).
  eapply rtc_r; [eapply rtc_r; [eapply rtc_r; [apply reader_asleep_reached|]|]|].
  - by apply (step_call true _ 2%nat (Writing addr)).
  - by apply (step_kill true _ 2%nat (Thread (Writing addr) None false)).
  - eapply (step_write true _ 2%nat addr true (PIPESIZE + 1) (-1)); vm_compute; reflexivity.
Qed.

(** A wakeup is lost when a writer is killed.  [pipewrite] returns -1
    from its inner loop without [wakeup(&p->nread)], so a reader that slept
    on the empty pipe stays asleep on a pipe that now holds PIPESIZE
    bytes. *)
Theorem killed_writer_loses_wakeup :
  rtc (pipe_step true) (new_sys junk0) killed_write ∧
  ps_threads killed_write !! 1%nat = Some (Thread (Reading 10) (Some ChanRead) false) ∧
  length (queue (ps_pipe killed_write)) = Z.to_nat PIPESIZE.
Proof. split; [exact killed_write_reached|]. split; vm_compute; reflexivity. Qed.
