(* ===== verification/Vm.v ===== *)
(** * vm.c: page tables

    Page directories and page tables live in the memory of the page
    allocator (Kalloc.v) and are read and written there word by word.
    [data] is the address of the kernel's data segment, which the linker
    provides.  Addresses below KERNBASE in the memory are those of the
    address space in use.  Diagnostics that [allocuvm] prints are left
    out. *)

From S2P Require Import Prelude Str Mmu Kalloc.

Definition kload (a : Z) : M kmem Z := gets (λ s, load_word (k_mem s) a).

Definition with_mem (f : mem → mem) : M kmem unit :=
  modify (λ s, Kmem (f (k_mem s)) (use_lock s) (freelist s)).

Definition kstore (a w : Z) : M kmem unit := with_mem (λ m, store_word m a w).

(** A flag test, as in [*pte & PTE_P]. *)
Definition has (w flag : Z) : bool := negb (Z.land w flag =? 0).

(** struct kmap *)
Record kmap_entry := Kmap { km_virt : Z; km_start : Z; km_end : Z; km_perm : Z }.

Section vm_code.
Variables kend data : Z.

Definition walkpgdir (pgdir va : Z) (alloc : bool) : M kmem Z :=
  let pde := pgdir + 4 * PDX va in
  e ← kload pde;
  if has e PTE_P then mret (P2V (PTE_ADDR e) + 4 * PTX va)
  else if negb alloc then mret 0
  else
    pgtab ← kalloc;
    if pgtab =? 0 then mret 0
    else
      with_mem (λ m, memset m pgtab 0 PGSIZE);;
      kstore pde (Z.lor (Z.lor (Z.lor (V2P pgtab) PTE_P) PTE_W) PTE_U);;
      mret (pgtab + 4 * PTX va).

(** The loop of [mappages] at address [a]. *)
Fixpoint mappages_loop (fuel : nat) (pgdir a last pa perm : Z) : M kmem Z :=
  match fuel with
  | O => diverge
  | S fuel' =>
    pte ← walkpgdir pgdir a true;
    if pte =? 0 then mret (-1)
    else
      e ← kload pte;
      if has e PTE_P then panic "remap"
      else
        kstore pte (Z.lor (Z.lor pa perm) PTE_P);;
        if a =? last then mret 0
        else mappages_loop fuel' pgdir (u32 (a + PGSIZE)) last (u32 (pa + PGSIZE)) perm
  end.

Definition mappages (pgdir va size pa perm : Z) : M kmem Z :=
  let a := PGROUNDDOWN va in
  let last := PGROUNDDOWN (u32 (va + size - 1)) in
  mappages_loop (1 + Z.to_nat (u32 (last - a) / PGSIZE)) pgdir a last pa perm.

(** The loop of [deallocuvm] at address [a]. *)
Fixpoint deallocuvm_loop (fuel : nat) (pgdir a oldsz : Z) : M kmem unit :=
  match fuel with
  | O => diverge
  | S fuel' =>
    if negb (a <? oldsz) then mret tt
    else
      pte ← walkpgdir pgdir a false;
      if pte =? 0 then
        let a := u32 (PGADDR (PDX a + 1) 0 0 - PGSIZE) in
        deallocuvm_loop fuel' pgdir (u32 (a + PGSIZE)) oldsz
      else
        e ← kload pte;
        (if has e PTE_P then
           let pa := PTE_ADDR e in
           if pa =? 0 then panic "kfree"
           else kfree kend (P2V pa);; kstore pte 0
         else mret tt);;
        deallocuvm_loop fuel' pgdir (u32 (a + PGSIZE)) oldsz
  end.

Definition deallocuvm (pgdir oldsz newsz : Z) : M kmem Z :=
  if newsz >=? oldsz then mret oldsz
  else
    deallocuvm_loop (1 + Z.to_nat (oldsz / PGSIZE + 1)) pgdir (PGROUNDUP newsz) oldsz;;
    mret newsz.

(** The loop of [freevm] over the [n] directory entries from [i] on. *)
Fixpoint freevm_loop (n : nat) (pgdir i : Z) : M kmem unit :=
  match n with
  | O => mret tt
  | S n' =>
    e ← kload (pgdir + 4 * i);
    (if has e PTE_P then kfree kend (P2V (PTE_ADDR e)) else mret tt);;
    freevm_loop n' pgdir (i + 1)
  end.

Definition freevm (pgdir : Z) : M kmem unit :=
  if pgdir =? 0 then panic "freevm: no pgdir"
  else
    deallocuvm pgdir KERNBASE 0;;
    freevm_loop (Z.to_nat NPDENTRIES) pgdir 0;;
    kfree kend pgdir.

Definition kmap : list kmap_entry :=
  [ Kmap KERNBASE 0 EXTMEM PTE_W;
    Kmap KERNLINK (V2P KERNLINK) (V2P data) 0;
    Kmap data (V2P data) PHYSTOP PTE_W;
    Kmap DEVSPACE DEVSPACE 0 PTE_W ].

Fixpoint setupkvm_loop (pgdir : Z) (ks : list kmap_entry) : M kmem Z :=
  match ks with
  | [] => mret pgdir
  | k :: ks' =>
    r ← mappages pgdir (km_virt k) (u32 (km_end k - km_start k)) (km_start k) (km_perm k);
    if r <? 0 then freevm pgdir;; mret 0
    else setupkvm_loop pgdir ks'
  end.

Definition setupkvm : M kmem Z :=
  pgdir ← kalloc;
  if pgdir =? 0 then mret 0
  else
    with_mem (λ m, memset m pgdir 0 PGSIZE);;
    if P2V PHYSTOP >? DEVSPACE then panic "PHYSTOP too high"
    else setupkvm_loop pgdir kmap.

(** [kpgdir] and the page table register. *)
Record kvm := Kvm { kv_mem : kmem; kpgdir : Z; kv_cr3 : Z }.

Definition switchkvm : M kvm unit := modify (λ s, Kvm (kv_mem s) (kpgdir s) (V2P (kpgdir s))).

Definition kvmalloc : M kvm unit :=
  p ← lift kv_mem (λ m s, Kvm m (kpgdir s) (kv_cr3 s)) setupkvm;
  modify (λ s, Kvm (kv_mem s) p (kv_cr3 s));;
  switchkvm.

(** [init] is the address of the code in the kernel. *)
Definition inituvm (pgdir init sz : Z) : M kmem unit :=
  if sz >=? PGSIZE then panic "inituvm: more than a page"
  else
    page ← kalloc;
    with_mem (λ m, memset m page 0 PGSIZE);;
    mappages pgdir 0 PGSIZE (V2P page) (Z.lor PTE_W PTE_U);;
    with_mem (λ m, memmove m page init sz).

(** The loop of [allocuvm] at address [a]. *)
Fixpoint allocuvm_loop (fuel : nat) (pgdir a oldsz newsz : Z) : M kmem Z :=
  match fuel with
  | O => diverge
  | S fuel' =>
    if negb (a <? newsz) then mret newsz
    else
      page ← kalloc;
      if page =? 0 then deallocuvm pgdir newsz oldsz;; mret 0
      else
        with_mem (λ m, memset m page 0 PGSIZE);;
        r ← mappages pgdir a PGSIZE (V2P page) (Z.lor PTE_W PTE_U);
        if r <? 0 then deallocuvm pgdir newsz oldsz;; kfree kend page;; mret 0
        else allocuvm_loop fuel' pgdir (u32 (a + PGSIZE)) oldsz newsz
  end.

Definition allocuvm (pgdir oldsz newsz : Z) : M kmem Z :=
  if newsz >=? KERNBASE then mret 0
  else if newsz <? oldsz then mret oldsz
  else allocuvm_loop (2 + Z.to_nat (newsz / PGSIZE)) pgdir (PGROUNDUP oldsz) oldsz newsz.

Definition clearpteu (pgdir uva : Z) : M kmem unit :=
  pte ← walkpgdir pgdir uva false;
  if pte =? 0 then panic "clearpteu"
  else e ← kload pte; kstore pte (Z.land e (u32 (Z.lnot PTE_U))).

(** The loop of [copyuvm] at address [i]. *)
Fixpoint copyuvm_loop (fuel : nat) (pgdir d i sz : Z) : M kmem Z :=
  match fuel with
  | O => diverge
  | S fuel' =>
    if negb (i <? sz) then mret d
    else
      pte ← walkpgdir pgdir i false;
      if pte =? 0 then panic "copyuvm: pte should exist"
      else
        e ← kload pte;
        if negb (has e PTE_P) then panic "copyuvm: page not present"
        else
          page ← kalloc;
          if page =? 0 then freevm d;; mret 0
          else
            with_mem (λ m, memmove m page (P2V (PTE_ADDR e)) PGSIZE);;
            r ← mappages d i PGSIZE (V2P page) (PTE_FLAGS e);
            if r <? 0 then kfree kend page;; freevm d;; mret 0
            else copyuvm_loop fuel' pgdir d (u32 (i + PGSIZE)) sz
  end.

Definition copyuvm (pgdir sz : Z) : M kmem Z :=
  d ← setupkvm;
  if d =? 0 then mret 0
  else copyuvm_loop (2 + Z.to_nat (sz / PGSIZE)) pgdir d 0 sz.

(** As in the source, the entry is read without a test for null. *)
Definition uva2ka (pgdir uva : Z) : M kmem Z :=
  pte ← walkpgdir pgdir uva false;
  e ← kload pte;
  if negb (has e PTE_P) then mret 0
  else if negb (has e PTE_U) then mret 0
  else mret (P2V (PTE_ADDR e)).

(** The loop of [copyout]; [buf] is the list of the bytes still to copy. *)
Fixpoint copyout_loop (fuel : nat) (pgdir va : Z) (buf : list Z) : M kmem Z :=
  let len := Z.of_nat (length buf) in
  match fuel with
  | O => diverge
  | S fuel' =>
    if len =? 0 then mret 0
    else
      let va0 := PGROUNDDOWN va in
      pa0 ← uva2ka pgdir va0;
      if pa0 =? 0 then mret (-1)
      else
        let n := u32 (PGSIZE - (va - va0)) in
        let n := if n >? len then len else n in
        with_mem (λ m, store_bytes m (pa0 + (va - va0)) (take (Z.to_nat n) buf));;
        copyout_loop fuel' pgdir (u32 (va0 + PGSIZE)) (drop (Z.to_nat n) buf)
  end.

(** [copyout], where [p] is the list of the [len] bytes at [p]. *)
Definition copyout (pgdir va : Z) (p : list Z) : M kmem Z :=
  copyout_loop (2 + length p / Z.to_nat PGSIZE) pgdir va p.

(** None of these waits. *)
Lemma kfree_quiet v : quiet (kfree kend v).
Proof. unfold kfree. quiet. Qed.

Lemma kalloc_quiet : quiet kalloc.
Proof. unfold kalloc. quiet. Qed.

Lemma kload_quiet a : quiet (kload a).
Proof. unfold kload. quiet. Qed.

Lemma with_mem_quiet f : quiet (with_mem f).
Proof. unfold with_mem. quiet. Qed.

#[local] Hint Resolve kfree_quiet kalloc_quiet kload_quiet with_mem_quiet : quiet_db.

Lemma walkpgdir_quiet d va alloc : quiet (walkpgdir d va alloc).
Proof. unfold walkpgdir, kstore. quiet. Qed.

#[local] Hint Resolve walkpgdir_quiet : quiet_db.

Lemma deallocuvm_quiet d oldsz newsz : quiet (deallocuvm d oldsz newsz).
Proof.
  assert (H : ∀ fuel a, quiet (deallocuvm_loop fuel d a oldsz)).
  { induction fuel as [|fuel IH]; intros a; cbn [deallocuvm_loop]; unfold kstore; quiet; apply IH. }
  unfold deallocuvm. quiet; apply H.
Qed.

Lemma freevm_quiet d : quiet (freevm d).
Proof.
  assert (H : ∀ n i, quiet (freevm_loop n d i)).
  { induction n as [|n IH]; intros i; cbn [freevm_loop]; quiet; apply IH. }
  unfold freevm. case_match; [apply quiet_panic|].
  apply quiet_bind; [apply deallocuvm_quiet|intros _].
  apply quiet_bind; [apply H|intros _]. apply kfree_quiet.
Qed.

End vm_code.
