(* ===== verification/VmSpec.v ===== *)
(** * Page tables: what the routines of vm.c do to the address map

    [pte] is the entry the paging hardware finds for a virtual address.
    The tables of a directory are pages of their own, none of them free;
    under that invariant every routine is described by its effect on
    [pte] and on the bytes of the pages it maps. *)

From S2P Require Import Prelude Str Mmu Kalloc Vm.

Section vm.
Variable kend : Z.

Abbreviation page_ok := (page_ok kend).
Abbreviation free_list := (free_list kend).

(** ** Words and pages *)

Definition in_page (p a : Z) : Prop := p <= a < p + PGSIZE.

Lemma store_outside m b w a : ¬ (b <= a < b + 4) → store_word m b w a = m a.
Proof. intros H. unfold store_word. by rewrite !upd_ne by lia. Qed.

Lemma store_word_byte m b w : (∀ a, is_byte (m a)) → ∀ a, is_byte (store_word m b w a).
Proof.
  intros H a. unfold store_word, upd, u8.
  repeat case_match; try (apply Z.mod_pos_bound; lia). apply H.
Qed.

Lemma page_apart p q a : page_ok p → page_ok q → in_page p a → in_page q a → p = q.
Proof.
  intros (Hp & _) (Hq & _) H1 H2. unfold in_page in *. change PGSIZE with 4096 in *. dlia.
Qed.

Lemma load_zero m p a :
  (∀ x, in_page p x → m x = 0) → in_page p a → in_page p (a + 3) → load_word m a = 0.
Proof.
  intros H H1 H2. unfold in_page in *. unfold load_word. rewrite !H; unfold in_page; lia.
Qed.

(** Writing outside the free pages keeps the free list. *)
Lemma free_list_write s l m' :
  free_list s l → (∀ a, is_byte (m' a)) → (∀ p a, p ∈ l → in_page p a → m' a = k_mem s a) →
  free_list (Kmem m' (use_lock s) (freelist s)) l.
Proof.
  intros [Hb Hc Hnd Hok] Hb' Hf. split; cbn; try done.
  apply (chain_ext (k_mem s)); [done|]. intros x i Hx Hi. apply (Hf x); [done|].
  unfold in_page. change PGSIZE with 4096. lia.
Qed.

(** ** Page numbers *)

Lemma PDX_bound va : is_u32 va → 0 <= PDX va < 1024.
Proof. intros H. rewrite PDX_eq by done. unfold is_u32 in H. dlia. Qed.

Lemma PTX_bound va : 0 <= PTX va < 1024.
Proof. rewrite PTX_eq. apply Z.mod_pos_bound. lia. Qed.

Definition same_page (a b : Z) : Prop := a / PGSIZE = b / PGSIZE.

#[global] Instance same_page_dec a b : Decision (same_page a b).
Proof. unfold same_page. apply _. Defined.

Lemma same_page_idx a b :
  is_u32 a → is_u32 b → same_page a b ↔ PDX a = PDX b ∧ PTX a = PTX b.
Proof.
  intros Ha Hb. unfold same_page. rewrite !PDX_eq, !PTX_eq by done. change PGSIZE with 4096. dlia.
Qed.

Lemma page_frame p :
  page_ok p → 0 <= V2P p < PHYSTOP ∧ V2P p mod 4096 = 0 ∧ P2V (V2P p) = p ∧ V2P p ≠ 0.
Proof.
  intros (Ha & _ & Hk & Ht). unfold P2V, V2P, u32, KERNBASE, PHYSTOP in *.
  change PGSIZE with 4096 in Ha. rewrite (Z.mod_small (p - _)) by lia. split_and!; [lia|lia|dlia|dlia|dlia].
Qed.

Lemma lor_low x f : x mod 4096 = 0 → 0 <= f < 4096 → Z.lor x f = x + f.
Proof.
  intros Hx Hf. rewrite <-Z.lxor_lor, <-Z.add_nocarry_lxor; [done|..];
    (apply Z.bits_inj_0; intros n; rewrite Z.land_spec;
     destruct (Z.lt_ge_cases n 0); [by rewrite Z.testbit_neg_r|];
     destruct (Z.lt_ge_cases n 12)).
  1, 3: replace x with (x / 4096 * 2 ^ 12) by dlia; by rewrite Z.mul_pow2_bits_low.
  all: replace f with (f mod 2 ^ 12) by (apply Z.mod_small; lia); rewrite Z.mod_pow2_bits_high by lia;
    apply andb_false_r.
Qed.

(** An entry for the page at [pa]. *)
Lemma entry_fields pa f :
  0 <= pa < 2 ^ 32 → pa mod 4096 = 0 → 0 <= f < 4096 →
  is_u32 (Z.lor pa f) ∧ PTE_ADDR (Z.lor pa f) = pa ∧ PTE_FLAGS (Z.lor pa f) = f.
Proof.
  intros Hpa Ha Hf. rewrite lor_low by done.
  assert (is_u32 (pa + f)) by (unfold is_u32; dlia).
  rewrite PTE_ADDR_eq, PTE_FLAGS_eq by done. split_and!; [done|dlia|dlia].
Qed.

(** ** Directories *)

Definition pde (m : mem) (d i : Z) : Z := load_word m (d + 4 * i).
Definition tab (m : mem) (d i : Z) : Z := P2V (PTE_ADDR (pde m d i)).
Definition has_tab (m : mem) (d i : Z) : Prop := 0 <= i < 1024 ∧ has (pde m d i) PTE_P = true.

(** The entry the hardware finds for [va]; 0 where there is no table. *)
Definition pte (m : mem) (d va : Z) : Z :=
  if has (pde m d (PDX va)) PTE_P then load_word m (tab m d (PDX va) + 4 * PTX va) else 0.

Record dir_ok (m : mem) (d : Z) (l : list Z) : Prop := {
  do_dir : page_ok d ∧ d ∉ l;
  do_tab i : has_tab m d i → page_ok (tab m d i) ∧ tab m d i ∉ l ∧ tab m d i ≠ d;
  do_sep i j : has_tab m d i → has_tab m d j → tab m d i = tab m d j → i = j }.

Lemma pde_ext m m' d i :
  (∀ a, in_page d a → m' a = m a) → 0 <= i < 1024 → pde m' d i = pde m d i.
Proof.
  intros H Hi. apply load_ext. intros k Hk. apply H. unfold in_page. change PGSIZE with 4096. lia.
Qed.

Lemma pte_ext m m' d va :
  (∀ a, in_page d a → m' a = m a) →
  (∀ i a, has_tab m d i → in_page (tab m d i) a → m' a = m a) →
  is_u32 va → pte m' d va = pte m d va.
Proof.
  intros Hd Ht Hva. pose proof (PDX_bound va Hva). unfold pte, tab. rewrite (pde_ext m m') by done.
  destruct (has (pde m d (PDX va)) PTE_P) eqn:E; [|done]. apply load_ext. intros k Hk.
  apply (Ht (PDX va)); [done|]. pose proof (PTX_bound va). unfold in_page, tab.
  change PGSIZE with 4096. lia.
Qed.

Lemma dir_ok_ext m m' d l :
  dir_ok m d l → (∀ a, in_page d a → m' a = m a) → dir_ok m' d l.
Proof.
  intros [Hd Ht Hs] H. assert (E : ∀ i, 0 <= i < 1024 → pde m' d i = pde m d i).
  { intros. by apply pde_ext. }
  split; [done|..].
  - intros i [Hi Hp]. rewrite E in Hp by done. unfold tab. rewrite E by done. by apply Ht.
  - intros i j [Hi Hp] [Hj Hq]. rewrite E in Hp, Hq by done. unfold tab. rewrite !E by done. by apply Hs.
Qed.

Lemma dir_ok_sub m d l l' : dir_ok m d l → l' ⊆ l → dir_ok m d l'.
Proof.
  intros [[? Hd] Ht Hs] Hsub. split; [split; [done|by intros ?%Hsub]| |done].
  intros i Hi. destruct (Ht i Hi) as (? & Hn & ?). split_and!; try done. by intros ?%Hsub.
Qed.

(** Storing an entry of a page table changes the entry of that page only. *)
Lemma store_pte m d l va w :
  dir_ok m d l → is_u32 va → is_u32 w → has_tab m d (PDX va) →
  let m' := store_word m (tab m d (PDX va) + 4 * PTX va) w in
  dir_ok m' d l ∧
  (∀ va', is_u32 va' → pte m' d va' = if decide (same_page va' va) then w else pte m d va') ∧
  (∀ i, has_tab m' d i ↔ has_tab m d i) ∧ (∀ i, 0 <= i < 1024 → tab m' d i = tab m d i) ∧
  (∀ a, ¬ in_page (tab m d (PDX va)) a → m' a = m a).
Proof.
  intros Hok Hva Hw Htab m'. pose proof (do_tab _ _ _ Hok _ Htab) as (Hpt & Hnl & Hnd).
  pose proof (do_dir _ _ _ Hok) as [Hpd _]. pose proof (PTX_bound va) as Hx.
  assert (Hout : ∀ a, ¬ in_page (tab m d (PDX va)) a → m' a = m a).
  { intros a Ha. apply store_outside. unfold in_page in Ha. change PGSIZE with 4096 in Ha. lia. }
  assert (Hd : ∀ a, in_page d a → m' a = m a).
  { intros a Ha. apply Hout. intros H. apply Hnd. by apply (page_apart _ _ a). }
  assert (E : ∀ i, 0 <= i < 1024 → pde m' d i = pde m d i) by (intros; by apply pde_ext).
  split; [by eapply dir_ok_ext|]. split_and!; [| | |done].
  - intros va' Hva'. pose proof (PDX_bound va' Hva') as Hi. unfold pte, tab. rewrite E by done.
    case_decide as Hsame.
    + apply same_page_idx in Hsame as [E1 E2]; [|done..]. rewrite E1, E2, (proj2 Htab).
      by apply load_store.
    + destruct (has (pde m d (PDX va')) PTE_P) eqn:Hp; [|done]. pose proof (PTX_bound va').
      destruct (decide (PDX va' = PDX va)) as [E1|Hne].
      * rewrite E1. apply load_store_ne. unfold tab.
        assert (PTX va' ≠ PTX va); [|lia]. intros E2. by apply Hsame, same_page_idx.
      * apply load_ext. intros k Hk. apply Hout. intros Hin. apply Hne.
        apply (do_sep _ _ _ Hok); [done..|]. apply (page_apart _ _ (tab m d (PDX va') + 4 * PTX va' + k)).
        -- by apply (do_tab _ _ _ Hok).
        -- done.
        -- unfold in_page. change PGSIZE with 4096. lia.
        -- done.
  - intros i. unfold has_tab. split; intros [Hi ?]; rewrite E in *; done.
  - intros i Hi. unfold tab. by rewrite E.
Qed.

(** A fresh page [p] becomes the page table for [va]. *)
Definition new_tab (m : mem) (d va p : Z) : mem :=
  store_word (memset m p 0 PGSIZE) (d + 4 * PDX va)
    (Z.lor (Z.lor (Z.lor (V2P p) PTE_P) PTE_W) PTE_U).

Lemma memset_zero m v a : memset m v 0 PGSIZE a = if decide (in_page v a) then 0 else m a.
Proof.
  by apply memset_fills.
Qed.

Lemma new_tab_outside m d va p a :
  is_u32 va → ¬ in_page p a → ¬ in_page d a → new_tab m d va p a = m a.
Proof.
  intros Hva Hp Hd. unfold new_tab. pose proof (PDX_bound va Hva). rewrite store_outside.
  - rewrite memset_zero. by rewrite decide_False.
  - unfold in_page in Hd. change PGSIZE with 4096 in Hd. lia.
Qed.

Lemma new_tab_pde m d va p i :
  is_u32 va → page_ok d → page_ok p → p ≠ d → 0 <= i < 1024 →
  pde (new_tab m d va p) d i = if decide (i = PDX va) then V2P p + 7 else pde m d i.
Proof.
  intros Hva Hd Hp Hne Hi. destruct (page_frame p Hp) as (Hb & Ha & _ & _).
  unfold pde, new_tab. rewrite <-!Z.lor_assoc. change (Z.lor PTE_P _) with 7.
  rewrite lor_low by lia. case_decide as E.
  - subst i. apply load_store. unfold is_u32, PHYSTOP in *. lia.
  - rewrite load_store_ne by lia. apply load_ext. intros k Hk. rewrite memset_zero.
    rewrite decide_False; [done|]. intros Hin. apply Hne.
    apply (page_apart _ _ (d + 4 * i + k)); [done..|]. unfold in_page. change PGSIZE with 4096. lia.
Qed.

Lemma new_tab_tab m d va p i :
  is_u32 va → page_ok d → page_ok p → p ≠ d → 0 <= i < 1024 →
  (has_tab (new_tab m d va p) d i ↔ i = PDX va ∨ has_tab m d i) ∧
  tab (new_tab m d va p) d i = if decide (i = PDX va) then p else tab m d i.
Proof.
  intros Hva Hd Hp Hne Hi. destruct (page_frame p Hp) as (Hb & Ha & Hpv & _).
  unfold has_tab, tab. rewrite new_tab_pde by done. case_decide as E; [|tauto].
  rewrite PTE_ADDR_eq by (unfold is_u32, PHYSTOP in *; lia). split.
  - split; [auto|]. intros _. split; [done|]. unfold has. change PTE_P with (Z.ones 1).
    rewrite Z.land_ones by lia. replace ((V2P p + 7) mod 2 ^ 1) with 1; [done|dlia].
  - rewrite <-Hpv at 2. f_equal. dlia.
Qed.

Lemma new_tab_spec m d l va p :
  dir_ok m d (p :: l) → NoDup (p :: l) → page_ok p → is_u32 va → ¬ has_tab m d (PDX va) →
  dir_ok (new_tab m d va p) d l ∧
  (∀ va', is_u32 va' → pte (new_tab m d va p) d va' = pte m d va').
Proof.
  intros Hok Hnd Hp Hva Hno. pose proof (do_dir _ _ _ Hok) as [Hd Hdl].
  assert (Hne : p ≠ d) by (intros ->; apply Hdl; left). apply NoDup_cons in Hnd as [Hpl _].
  assert (HT : ∀ i, has_tab m d i → page_ok (tab m d i) ∧ tab m d i ∉ l ∧ tab m d i ≠ d ∧ tab m d i ≠ p).
  { intros i Hi. destruct (do_tab _ _ _ Hok i Hi) as (? & Hn & ?). rewrite elem_of_cons in Hn.
    split_and!; try done; intros ?; apply Hn; [by right|by left]. }
  split; [split|].
  - split; [done|]. intros ?. apply Hdl. by right.
  - intros i Hi. pose proof (proj1 Hi) as Hb. destruct (new_tab_tab m d va p i) as [H1 H2]; [done..|].
    rewrite H2. apply H1 in Hi. case_decide; [done|]. destruct Hi as [?|Hi]; [done|].
    by destruct (HT i Hi) as (? & ? & ? & _).
  - intros i j Hi Hj. pose proof (proj1 Hi). pose proof (proj1 Hj).
    destruct (new_tab_tab m d va p i) as [H1 H2]; [done..|].
    destruct (new_tab_tab m d va p j) as [H3 H4]; [done..|]. rewrite H2, H4. apply H1 in Hi. apply H3 in Hj.
    destruct (decide (i = PDX va)) as [Ei|Ei], (decide (j = PDX va)) as [Ej|Ej];
      [congruence|destruct Hj as [?|Hj]; [done|]|destruct Hi as [?|Hi]; [done|]|].
    + intros E. by destruct (HT j Hj) as (_ & _ & _ & []).
    + intros E. by destruct (HT i Hi) as (_ & _ & _ & []).
    + destruct Hi as [?|Hi], Hj as [?|Hj]; try done. by apply (do_sep _ _ _ Hok).
  - intros va' Hva'. pose proof (PDX_bound va' Hva') as Hi. pose proof (PTX_bound va').
    destruct (new_tab_tab m d va p (PDX va')) as [H1 H2]; [done..|].
    unfold pte at 1. rewrite H2. destruct (decide (PDX va' = PDX va)) as [E|E].
    + rewrite (proj2 (proj2 H1 (or_introl E))). unfold pte. rewrite E.
      destruct (has (pde m d (PDX va)) PTE_P) eqn:Hh.
      { exfalso. apply Hno. split; [by rewrite <-E|done]. }
      apply (load_zero _ p); [|unfold in_page; change PGSIZE with 4096; lia..].
      intros x Hx. unfold new_tab. rewrite store_outside, memset_zero, decide_True; [done..|].
      intros Hin. apply Hne. apply (page_apart _ _ x); [done..|]. pose proof (PDX_bound va Hva).
      unfold in_page. change PGSIZE with 4096. lia.
    + unfold pte. rewrite new_tab_pde, decide_False by done.
      destruct (has (pde m d (PDX va')) PTE_P) eqn:Hh; [|done].
      destruct (HT (PDX va')) as (Ht & _ & Htd & Htp); [done|]. apply load_ext. intros k Hk.
      assert (Hin : in_page (tab m d (PDX va')) (tab m d (PDX va') + 4 * PTX va' + k)).
      { unfold in_page. change PGSIZE with 4096. lia. }
      apply new_tab_outside; [done|..]; intros Hin'; [apply Htp|apply Htd]; by eapply page_apart.
Qed.

(** ** Walking and mapping *)

Lemma walk_false d va s :
  walkpgdir d va false s =
    Ret (if has (pde (k_mem s) d (PDX va)) PTE_P then tab (k_mem s) d (PDX va) + 4 * PTX va else 0) s.
Proof.
  unfold walkpgdir, kload, mbind, M_bind, gets, mret, M_ret. fold (pde (k_mem s) d (PDX va)).
  by destruct (has _ _).
Qed.

(** From [s] to [s'] the kernel took pages off the free list [l], leaving
    [l'], and made them tables of [d]; it wrote into [d], its tables and
    those pages only. *)
Record dir_step (d : Z) (s : kmem) (l : list Z) (s' : kmem) (l' : list Z) : Prop := {
  ds_free : free_list s' l';
  ds_dir : dir_ok (k_mem s') d l';
  ds_used : l' `suffix_of` l;
  ds_tabs i : has_tab (k_mem s') d i →
    (has_tab (k_mem s) d i ∧ tab (k_mem s') d i = tab (k_mem s) d i) ∨ tab (k_mem s') d i ∈ l;
  ds_keep i : has_tab (k_mem s) d i →
    has_tab (k_mem s') d i ∧ tab (k_mem s') d i = tab (k_mem s) d i;
  ds_frame a : ¬ in_page d a → (∀ i, has_tab (k_mem s) d i → ¬ in_page (tab (k_mem s) d i) a) →
    (∀ p, p ∈ l → ¬ in_page p a) → k_mem s' a = k_mem s a;
  ds_gone p : p ∈ l → p ∈ l' ∨ ∃ i, has_tab (k_mem s') d i ∧ p = tab (k_mem s') d i }.

Lemma dir_step_refl d s l : free_list s l → dir_ok (k_mem s) d l → dir_step d s l s l.
Proof. intros. split; auto. Qed.

Lemma dir_step_trans d s l s1 l1 s2 l2 :
  dir_step d s l s1 l1 → dir_step d s1 l1 s2 l2 → dir_step d s l s2 l2.
Proof.
  intros [F1 D1 U1 T1 K1 R1 G1] [F2 D2 U2 T2 K2 R2 G2].
  assert (Hsub : ∀ p, p ∈ l1 → p ∈ l).
  { destruct U1 as [k ->]. intros p Hp. apply elem_of_app. by right. }
  split; [done|done|by etrans|..].
  - intros i Hi. destruct (T2 i Hi) as [[H1 ->]|H1]; [by apply T1|right; by apply Hsub].
  - intros i Hi. destruct (K1 i Hi) as [H1 <-]. by apply K2.
  - intros a Ha Ht Hl. rewrite R2; [by apply R1|done| |].
    + intros i Hi. destruct (T1 i Hi) as [[H1 ->]|H1]; [by apply Ht|by apply Hl].
    + intros p Hp. by apply Hl, Hsub.
  - intros p Hp. destruct (G1 p Hp) as [H1|(i & Hi & ->)]; [by apply G2|right].
    exists i. destruct (K2 i Hi) as [H2 ->]. done.
Qed.

(** [dir_step] that keeps all entries. *)
Definition same_map (d : Z) (m m' : mem) : Prop := ∀ va, is_u32 va → pte m' d va = pte m d va.

Lemma new_tab_step d va s l p s1 :
  free_list s (p :: l) → dir_ok (k_mem s) d (p :: l) → is_u32 va → ¬ has_tab (k_mem s) d (PDX va) →
  free_list s1 l → k_mem s1 = k_mem s →
  dir_step d s (p :: l) (Kmem (new_tab (k_mem s) d va p) (use_lock s1) (freelist s1)) l ∧
  has_tab (new_tab (k_mem s) d va p) d (PDX va) ∧ tab (new_tab (k_mem s) d va p) d (PDX va) = p ∧
  same_map d (k_mem s) (new_tab (k_mem s) d va p).
Proof.
  intros Hf Hok Hva Hno Hf1 Em. pose proof (PDX_bound va Hva) as Hi.
  pose proof (fl_nodup _ _ _ Hf) as Hnd. pose proof (fl_ok _ _ _ Hf) as [Hpp Hll]%Forall_cons.
  destruct (new_tab_spec _ _ _ _ _ Hok Hnd Hpp Hva Hno) as [Hok' Hsame].
  pose proof (do_dir _ _ _ Hok) as [Hd Hdl].
  assert (Hpd : p ≠ d) by (intros ->; apply Hdl; left).
  destruct (new_tab_tab (k_mem s) d va p (PDX va)) as [H1 H2]; [done..|].
  rewrite decide_True in H2 by done. split_and!; [|by apply H1; left|done|done].
  split; cbn [k_mem]; [|done|by exists [p]|..].
  - apply free_list_write; [done|..].
    + apply store_word_byte. intros a. rewrite memset_zero. case_decide; [done|apply (fl_bytes _ _ _ Hf)].
    + intros q a Hq Ha. rewrite Em. rewrite Forall_forall in Hll. apply NoDup_cons in Hnd as [Hpl _].
      apply new_tab_outside; [done|..]; intros Hin.
      * apply Hpl. by rewrite (page_apart p q a) by auto.
      * apply Hdl. right. by rewrite (page_apart d q a) by auto.
  - intros i Ht. destruct (new_tab_tab (k_mem s) d va p i) as [H3 H4]; [done..|by destruct Ht|].
    rewrite H4. case_decide; [right; left|]. apply H3 in Ht. left. destruct Ht; [done|]. done.
  - intros i Ht. destruct (new_tab_tab (k_mem s) d va p i) as [H3 H4]; [done..|by destruct Ht|].
    rewrite H4, decide_False; [|by intros ->]. split; [apply H3; by right|done].
  - intros a Ha _ Hl. apply new_tab_outside; [done|apply Hl; left|done].
  - intros q [->|Hq]%elem_of_cons; [right|by left]. exists (PDX va). split; [by apply H1; left|done].
Qed.

Lemma walk_alloc d va s l :
  free_list s l → dir_ok (k_mem s) d l → is_u32 va →
  wp (walkpgdir d va true) (λ r s',
    (r = 0 ∧ l = [] ∧ dir_step d s l s' [] ∧ k_mem s' = k_mem s) ∨
    (r ≠ 0 ∧ ∃ l', dir_step d s l s' l' ∧ has_tab (k_mem s') d (PDX va) ∧
      (length l <= S (length l'))%nat ∧
      r = tab (k_mem s') d (PDX va) + 4 * PTX va ∧ same_map d (k_mem s) (k_mem s'))) s.
Proof.
  intros Hf Hok Hva. pose proof (PDX_bound va Hva) as Hi. pose proof (PTX_bound va) as Hx.
  unfold walkpgdir. apply wp_bind, wp_gets. fold (pde (k_mem s) d (PDX va)).
  destruct (has (pde (k_mem s) d (PDX va)) PTE_P) eqn:Hp; cbn [negb].
  - apply wp_ret. right. pose proof (conj Hi Hp : has_tab _ _ _) as Ht.
    destruct (do_tab _ _ _ Hok _ Ht) as ((_ & _ & Hk & _) & _). split; [unfold KERNBASE, tab in *; lia|].
    exists l. split_and!; auto using dir_step_refl. by intros ??.
  - apply wp_bind. eapply wp_mono; [by apply kalloc_spec|]. intros r s1 (Em & _ & Hl).
    assert (Hno : ¬ has_tab (k_mem s) d (PDX va)) by (intros [_ ?]; congruence).
    destruct l as [|p l'].
    + destruct Hl as [-> Hf1]. apply wp_ret. left. split_and!; try done.
      split; try done; rewrite Em; auto.
    + destruct Hl as (-> & Hne & Hf1). rewrite (proj2 (Z.eqb_neq _ 0)) by done.
      apply wp_bind, wp_modify, wp_bind, wp_modify, wp_ret. cbn [k_mem use_lock freelist]. rewrite Em.
      fold (new_tab (k_mem s) d va p). right. pose proof (fl_ok _ _ _ Hf) as [(_ & _ & Hk & _) _]%Forall_cons.
      split; [unfold KERNBASE in *; lia|].
      destruct (new_tab_step d va s l' p s1) as (H1 & H2 & H3 & H4); [done..|].
      exists l'. rewrite H3. by split_and!.
Qed.

(** The entries of the [n] pages from [a] on map the frames from [pa] on,
    the others are as before. *)
Definition mapped (d : Z) (m m' : mem) (a n pa perm : Z) : Prop :=
  ∀ va, is_u32 va → pte m' d va =
    if decide (a <= va < a + PGSIZE * n)
    then Z.lor (Z.lor (pa + PGSIZE * ((va - a) / PGSIZE)) perm) PTE_P
    else pte m d va.

Lemma mapped_step d m m1 m2 a n pa perm :
  a mod 4096 = 0 → 0 <= n → mapped d m m1 a 1 pa perm →
  mapped d m1 m2 (a + PGSIZE) n (pa + PGSIZE) perm → mapped d m m2 a (n + 1) pa perm.
Proof.
  intros Ha Hn H1 H2 va Hva. rewrite H2 by done. change PGSIZE with 4096 in *. case_decide.
  - rewrite decide_True by lia. do 2 f_equal. dlia.
  - rewrite H1 by done. change PGSIZE with 4096. case_decide; [rewrite decide_True by lia; done|].
    by rewrite decide_False by lia.
Qed.

(** Storing the entry of an unmapped page. *)
Lemma store_step d s l va w :
  free_list s l → dir_ok (k_mem s) d l → is_u32 va → is_u32 w → has_tab (k_mem s) d (PDX va) →
  let m' := store_word (k_mem s) (tab (k_mem s) d (PDX va) + 4 * PTX va) w in
  dir_step d s l (Kmem m' (use_lock s) (freelist s)) l ∧
  ∀ va', is_u32 va' → pte m' d va' = if decide (same_page va' va) then w else pte (k_mem s) d va'.
Proof.
  intros Hf Hok Hva Hw Ht m'. destruct (store_pte _ _ _ va w Hok Hva Hw Ht) as (H1 & H2 & H3 & H4 & H5).
  pose proof (do_tab _ _ _ Hok _ Ht) as (Hpt & Hnl & _).
  split; [|done]. split; cbn [k_mem]; try done.
  - apply free_list_write; [done|apply store_word_byte, (fl_bytes _ _ _ Hf)|].
    intros p a Hp Ha. apply H5. intros Hin. apply Hnl. rewrite (page_apart _ p a); [done|done| |done..].
    by eapply Forall_forall in Hp; [|apply (fl_ok _ _ _ Hf)].
  - intros i Hi. left. split; [by apply H3|]. by apply H4, (proj1 Hi).
  - intros i Hi. split; [by apply H3|]. by apply H4, (proj1 Hi).
  - intros a _ Hi _. by apply H5, Hi.
  - by left.
Qed.

Lemma flags_bound perm : 0 <= perm < 4096 → 0 <= Z.lor perm PTE_P < 4096.
Proof.
  intros Hp. split; [apply Z.lor_nonneg; unfold PTE_P; lia|].
  destruct (decide (perm = 0)) as [->|]; [done|].
  apply Z.log2_lt_cancel. rewrite Z.log2_lor by (unfold PTE_P; lia). change (Z.log2 PTE_P) with 0.
  assert (Z.log2 perm < 12) by (apply Z.log2_lt_pow2; lia).
  change (Z.log2 4096) with 12. pose proof (Z.log2_nonneg perm). lia.
Qed.

Lemma entry_u32 pa perm :
  0 <= pa < 2 ^ 32 → pa mod 4096 = 0 → 0 <= perm < 4096 → is_u32 (Z.lor (Z.lor pa perm) PTE_P).
Proof. intros. rewrite <-Z.lor_assoc. apply entry_fields; [done..|]. by apply flags_bound. Qed.

Lemma mappages_loop_spec d perm fuel n : ∀ s l a pa,
  free_list s l → dir_ok (k_mem s) d l → a mod 4096 = 0 → 0 <= a → a + PGSIZE * n < 2 ^ 32 + 1 →
  pa mod 4096 = 0 → 0 <= pa → pa + PGSIZE * n < 2 ^ 32 + 1 → 0 <= perm < 4096 →
  1 <= n <= Z.of_nat fuel →
  (∀ va, a <= va < a + PGSIZE * n → has (pte (k_mem s) d va) PTE_P = false) →
  wp (mappages_loop fuel d a (a + PGSIZE * (n - 1)) pa perm) (λ r s', ∃ l' k,
    dir_step d s l s' l' ∧ mapped d (k_mem s) (k_mem s') a k pa perm ∧
    (r = 0 ∧ k = n ∧ Z.of_nat (length l) <= Z.of_nat (length l') + n ∨
     r = -1 ∧ 0 <= k < n ∧ l' = [] ∧ Z.of_nat (length l) <= k)) s.
Proof.
  revert n. induction fuel as [|fuel IH]; intros n s l a pa Hf Hok Ha Ha0 Han Hpa Hpa0 Hpan Hperm Hn Hun; [lia|].
  change PGSIZE with 4096 in Han, Hpan, Hun. assert (Hva : is_u32 a) by (unfold is_u32; lia).
  cbn [mappages_loop]. apply wp_bind. eapply wp_mono; [by apply (walk_alloc d a s l)|].
  intros r s1 [(-> & -> & Hstep & Em)|(Hr & l1 & Hstep & Htab & Hlen & -> & Hsame)].
  - apply wp_ret. exists [], 0. split_and!; [done| |right; cbn; split_and!; lia || done].
    intros va Hv. rewrite Em. by rewrite decide_False by (change PGSIZE with 4096; lia).
  - rewrite (proj2 (Z.eqb_neq _ 0)) by done. apply wp_bind, wp_gets.
    pose proof (Hsame a Hva) as He. unfold pte at 1 in He. rewrite (proj2 Htab) in He. rewrite He.
    rewrite Hun by lia. apply wp_bind, wp_modify.
    pose proof (entry_u32 pa perm ltac:(lia) Hpa Hperm) as Hw.
    destruct (store_step d s1 l1 a _ (ds_free _ _ _ _ _ Hstep) (ds_dir _ _ _ _ _ Hstep) Hva Hw Htab)
      as [Hst Hpte].
    set (s2 := Kmem _ _ _) in Hst |- *.
    assert (H12 : dir_step d s l s2 l1) by (by eapply dir_step_trans).
    assert (Hm : mapped d (k_mem s) (k_mem s2) a 1 pa perm).
    { intros va Hv. cbn [k_mem s2]. rewrite Hpte by done. unfold same_page. change PGSIZE with 4096.
      case_decide; case_decide; try (exfalso; dlia).
      - do 2 f_equal. dlia.
      - by apply Hsame. }
    change PGSIZE with 4096. destruct (Z.eqb_spec a (a + 4096 * (n - 1))) as [E|E].
    + apply wp_ret. exists l1, n. split_and!; [done| |left; split_and!; done || lia]. by replace n with 1 by lia.
    + assert (u32 (a + 4096) = a + 4096) as -> by (apply Z.mod_small; lia).
      assert (u32 (pa + 4096) = pa + 4096) as -> by (apply Z.mod_small; lia).
      replace (a + 4096 * (n - 1)) with (a + 4096 + PGSIZE * (n - 1 - 1)) by (change PGSIZE with 4096; lia).
      eapply wp_mono; [apply (IH (n - 1) s2 l1 (a + 4096) (pa + 4096))|].
      all: change PGSIZE with 4096; try lia; try dlia; try apply H12.
      * intros va Hv. rewrite Hm by (unfold is_u32; lia). change PGSIZE with 4096.
        rewrite decide_False by lia. apply Hun. lia.
      * intros r s3 (l' & k & H23 & Hm' & Hres). exists l', (k + 1).
        split_and!; [by eapply dir_step_trans|apply (mapped_step _ _ (k_mem s2)); try done; lia|].
        destruct Hres as [(-> & -> & ?)|(-> & ? & -> & ?)]; [left; lia|right; split_and!; lia || done].
Qed.

Lemma mappages_spec d s l va size pa perm :
  let n := (va + size - 1) / PGSIZE - va / PGSIZE + 1 in
  free_list s l → dir_ok (k_mem s) d l → 0 <= va → 1 <= size → va + size <= 2 ^ 32 →
  pa mod PGSIZE = 0 → 0 <= pa → pa + PGSIZE * n <= 2 ^ 32 → 0 <= perm < 4096 →
  (∀ v, PGROUNDDOWN va <= v < PGROUNDDOWN va + PGSIZE * n → has (pte (k_mem s) d v) PTE_P = false) →
  wp (mappages d va size pa perm) (λ r s', ∃ l' k,
    dir_step d s l s' l' ∧ mapped d (k_mem s) (k_mem s') (PGROUNDDOWN va) k pa perm ∧
    (r = 0 ∧ k = n ∧ Z.of_nat (length l) <= Z.of_nat (length l') + n ∨
     r = -1 ∧ 0 <= k < n ∧ l' = [] ∧ Z.of_nat (length l) <= k)) s.
Proof.
  intros n Hf Hok Hva Hsz Hend Hpa Hpa0 Hpan Hperm Hun. unfold mappages.
  assert (E1 : u32 (va + size - 1) = va + size - 1) by (apply Z.mod_small; lia). rewrite E1.
  rewrite !PGROUNDDOWN_eq in * by (unfold is_u32; lia). change PGSIZE with 4096 in *.
  assert (En : 4096 * ((va + size - 1) / 4096) - 4096 * (va / 4096) = 4096 * (n - 1)) by (subst n; dlia).
  rewrite En. assert (Hn : 1 <= n) by (subst n; dlia).
  assert (Hna : 4096 * (va / 4096) + 4096 * n <= 2 ^ 32) by (subst n; dlia).
  replace (4096 * ((va + size - 1) / 4096)) with (4096 * (va / 4096) + PGSIZE * (n - 1))
    by (change PGSIZE with 4096; lia).
  assert (u32 (4096 * (n - 1)) = 4096 * (n - 1)) as -> by (apply Z.mod_small; dlia).
  apply (mappages_loop_spec d perm _ n); change PGSIZE with 4096; try done; try dlia; try lia.
Qed.

(** ** User memory *)

Definition upresent (m : mem) (d va : Z) : Prop :=
  0 <= va < KERNBASE ∧ has (pte m d va) PTE_P = true.

Definition frame (m : mem) (d va : Z) : Z := P2V (PTE_ADDR (pte m d va)).

(** The byte at the user address [va]. *)
Definition ubyte (m : mem) (d va : Z) : Z := m (frame m d va + va mod PGSIZE).

(** The user's frames are pages of their own. *)
Record user_ok (m : mem) (d : Z) (l : list Z) : Prop := {
  uo_page va : upresent m d va → page_ok (frame m d va) ∧ frame m d va ∉ l ∧ frame m d va ≠ d;
  uo_tab va i : upresent m d va → has_tab m d i → frame m d va ≠ tab m d i;
  uo_inj va va' : upresent m d va → upresent m d va' → frame m d va = frame m d va' → same_page va va';
  uo_zero va : 0 <= va < KERNBASE → has (pte m d va) PTE_P = false → pte m d va = 0 }.

Record uvm (s : kmem) (d : Z) (l : list Z) : Prop := {
  uv_free : free_list s l;
  uv_dir : dir_ok (k_mem s) d l;
  uv_user : user_ok (k_mem s) d l }.

Lemma user_u32 va : 0 <= va < KERNBASE → is_u32 va.
Proof. unfold KERNBASE, is_u32. lia. Qed.

(** The routines keep the bytes of the pages that stay mapped. *)
Lemma dir_step_frame d s l s' l' va a :
  uvm s d l → dir_step d s l s' l' → upresent (k_mem s) d va → in_page (frame (k_mem s) d va) a →
  k_mem s' a = k_mem s a.
Proof.
  intros [Hf Hd Hu] Hs Hp Ha. destruct (uo_page _ _ _ Hu va Hp) as (Hok & Hnl & Hnd).
  apply (ds_frame _ _ _ _ _ Hs).
  - intros H. apply Hnd. apply (page_apart _ _ a); try done. apply Hd.
  - intros i Hi H. apply (uo_tab _ _ _ Hu va i Hp Hi). apply (page_apart _ _ a); try done.
    by apply (do_tab _ _ _ Hd).
  - intros p Hp' H. apply Hnl. rewrite (page_apart _ p a); try done.
    by eapply Forall_forall in Hp'; [|apply (fl_ok _ _ _ Hf)].
Qed.

Lemma ubyte_in m d va : in_page (frame m d va) (frame m d va + va mod PGSIZE).
Proof. unfold in_page. change PGSIZE with 4096. dlia. Qed.

(** A page [p] that is neither free nor in use is mapped at [a]. *)
Lemma user_map d s l s' l' a p w :
  dir_ok (k_mem s) d (p :: l) → user_ok (k_mem s) d (p :: l) → dir_step d s l s' l' → p ∉ l →
  page_ok p → P2V (PTE_ADDR w) = p →
  (∀ va, is_u32 va → pte (k_mem s') d va = if decide (same_page va a) then w else pte (k_mem s) d va) →
  has w PTE_P = true → user_ok (k_mem s') d l'.
Proof.
  intros Hd Hu Hs Hpl Hp Hw Hpte HwP.
  assert (Hsub : ∀ q, q ∈ l' → q ∈ l).
  { destruct (ds_used _ _ _ _ _ Hs) as [k ->]. intros q Hq. apply elem_of_app. by right. }
  assert (Hold : ∀ va, upresent (k_mem s') d va → ¬ same_page va a →
    upresent (k_mem s) d va ∧ frame (k_mem s') d va = frame (k_mem s) d va).
  { intros va [Hr Hpr] Hns. unfold frame, upresent. rewrite Hpte, decide_False in * by auto using user_u32. done. }
  assert (Hnew : ∀ va, upresent (k_mem s') d va → same_page va a → frame (k_mem s') d va = p).
  { intros va [Hr Hpr] Hns. unfold frame. by rewrite Hpte, decide_True by auto using user_u32. }
  assert (Hf : ∀ va, upresent (k_mem s) d va → page_ok (frame (k_mem s) d va) ∧
    frame (k_mem s) d va ∉ l ∧ frame (k_mem s) d va ≠ d ∧ frame (k_mem s) d va ≠ p).
  { intros va Hva. destruct (uo_page _ _ _ Hu va Hva) as (? & Hn & ?). rewrite elem_of_cons in Hn.
    split_and!; try done; intros ?; apply Hn; [by right|by left]. }
  split.
  - intros va Hva. destruct (decide (same_page va a)) as [Hsp|Hsp].
    + rewrite Hnew by done. split_and!; [done|by intros ?%Hsub|].
      intros ->. apply (proj2 (do_dir _ _ _ Hd)). left.
    + destruct (Hold va Hva Hsp) as [Hva' ->]. destruct (Hf va Hva') as (? & ? & ? & _).
      split_and!; try done. by intros ?%Hsub.
  - intros va i Hva Hi. destruct (ds_tabs _ _ _ _ _ Hs i Hi) as [[Hi' ->]|Hin].
    + destruct (decide (same_page va a)) as [Hsp|Hsp].
      * rewrite Hnew by done. intros ->. apply (proj1 (proj2 (do_tab _ _ _ Hd i Hi'))). left.
      * destruct (Hold va Hva Hsp) as [Hva' ->]. by apply (uo_tab _ _ _ Hu).
    + intros E. rewrite <-E in Hin. destruct (decide (same_page va a)) as [Hsp|Hsp].
      * by rewrite Hnew in Hin.
      * destruct (Hold va Hva Hsp) as [Hva' E']. rewrite E' in Hin. by destruct (Hf va Hva') as (_ & ? & _).
  - intros va va' Hva Hva'. destruct (decide (same_page va a)) as [Hsp|Hsp], (decide (same_page va' a)) as [Hsp'|Hsp'].
    + intros _. unfold same_page in *. congruence.
    + rewrite Hnew by done. destruct (Hold va' Hva' Hsp') as [H ->]. intros E. by destruct (Hf va' H) as (_ & _ & _ & []).
    + rewrite (Hnew va') by done. destruct (Hold va Hva Hsp) as [H ->]. intros E. by destruct (Hf va H) as (_ & _ & _ & []).
    + destruct (Hold va Hva Hsp) as [H ->], (Hold va' Hva' Hsp') as [H' ->]. by apply (uo_inj _ _ _ Hu).
  - intros va Hr. rewrite Hpte by auto using user_u32. case_decide; [congruence|]. by apply (uo_zero _ _ _ Hu).
Qed.

End vm.
