(* ===== verification/VmAlloc.v ===== *)
(** * Growing and shrinking user memory

    [deallocuvm] and [allocuvm] of vm.c, in terms of the entries and the
    bytes of the user's pages (VmSpec.v). *)

From S2P Require Import Prelude Str Mmu Kalloc Vm VmSpec.

Section vmalloc.
Variable kend : Z.

Abbreviation page_ok := (page_ok kend).
Abbreviation free_list := (free_list kend).
Abbreviation dir_ok := (dir_ok kend).
Abbreviation user_ok := (user_ok kend).
Abbreviation uvm := (uvm kend).
Abbreviation dir_step := (dir_step kend).

(** The tables of [d] are the same. *)
Definition same_tabs (d : Z) (m m' : mem) : Prop :=
  (∀ i, has_tab m d i → has_tab m' d i ∧ tab m' d i = tab m d i) ∧
  (∀ i, has_tab m' d i → has_tab m d i).

Lemma same_tabs_pde d m m' : (∀ i, 0 <= i < 1024 → pde m' d i = pde m d i) → same_tabs d m m'.
Proof. intros H. split; intros i [Hi Hp]; unfold has_tab, tab; rewrite H in *; done. Qed.

Lemma same_tabs_spec d m m' i :
  same_tabs d m m' → has_tab m d i → has_tab m' d i ∧ tab m' d i = tab m d i.
Proof. intros [H _]. apply H. Qed.

Lemma same_tabs_sym d m m' : same_tabs d m m' → same_tabs d m' m.
Proof. intros [H1 H2]. split; intros i Hi; [|by apply H1]. split; [by apply H2|]. by destruct (H1 i (H2 i Hi)). Qed.

Lemma same_tabs_trans d m m1 m2 : same_tabs d m m1 → same_tabs d m1 m2 → same_tabs d m m2.
Proof.
  intros [H1 H2] [H3 H4]. split; intros i Hi; [|by apply H2, H4].
  destruct (H1 i Hi) as [Hi' <-]. by apply H3.
Qed.

(** [p] is no part of the directory [d]. *)
Record no_tab (m : mem) (d p : Z) : Prop := {
  nt_dir : p ≠ d;
  nt_tab i : has_tab m d i → p ≠ tab m d i }.

Lemma dir_ok_cons m d l p : dir_ok m d l → no_tab m d p → dir_ok m d (p :: l).
Proof.
  intros [[? ?] Ht Hs] [Hnd Hnt]. split; [|intros i Hi|done].
  - split; [done|]. rewrite elem_of_cons. by intros [?|?].
  - destruct (Ht i Hi) as (? & ? & ?). split_and!; try done. rewrite elem_of_cons. intros [?|?]; [|done].
    by apply (Hnt i Hi).
Qed.

Lemma dir_no_tab m d l p : dir_ok m d l → p ∈ l → no_tab m d p.
Proof.
  intros Hd Hp. split.
  - intros ->. by destruct (do_dir _ _ _ _ Hd).
  - intros i Hi ->. by destruct (do_tab _ _ _ _ Hd i Hi) as (_ & ? & _).
Qed.

Lemma no_tab_same m m' d p : same_tabs d m m' → no_tab m d p → no_tab m' d p.
Proof.
  intros Ht [? Hn]. split; [done|]. intros i Hi.
  destruct (same_tabs_spec _ _ _ i (same_tabs_sym _ _ _ Ht) Hi) as [Hi' <-]. by apply Hn.
Qed.

(** Freeing such a page keeps the map. *)
Lemma kfree_dir d s l p :
  free_list s l → dir_ok (k_mem s) d l → page_ok p → p ∉ l → no_tab (k_mem s) d p →
  wp (kfree kend p) (λ _ s', free_list s' (p :: l) ∧ dir_ok (k_mem s') d (p :: l) ∧
    same_tabs d (k_mem s) (k_mem s') ∧ same_map d (k_mem s) (k_mem s') ∧
    ∀ a, ¬ in_page p a → k_mem s' a = k_mem s a) s.
Proof.
  intros Hf Hd Hp Hpl [Hnd Hnt]. eapply wp_mono; [by apply kfree_spec|].
  intros _ s' (Hf' & _ & Hout). fold (in_page p) in Hout.
  assert (Hdir : ∀ a, in_page d a → k_mem s' a = k_mem s a).
  { intros a Ha. apply Hout. intros Hin. apply Hnd. apply (page_apart kend _ _ a); try done. apply Hd. }
  split_and!; [done| | | |done].
  - apply (dir_ok_ext kend (k_mem s)); [|done]. by apply dir_ok_cons.
  - apply same_tabs_pde. intros i Hi. by apply pde_ext.
  - intros va Hva. apply pte_ext; try done. intros i a Hi Ha. apply Hout. intros Hin.
    apply (Hnt i Hi). apply (page_apart kend _ _ a); try done. by apply (do_tab _ _ _ _ Hd).
Qed.

Lemma has_low w : w mod 2 = 1 → has w PTE_P = true.
Proof.
  intros H. unfold has. change PTE_P with (Z.ones 1). rewrite Z.land_ones by lia.
  change (2 ^ 1) with 2. by rewrite H.
Qed.

Lemma has_0 f : has 0 f = false.
Proof. done. Qed.

Lemma upresent_tab m d va : upresent m d va → has_tab m d (PDX va).
Proof.
  intros [Hr Hp]. split; [apply PDX_bound, user_u32, Hr|]. unfold pte in Hp.
  destruct (has (pde m d (PDX va)) PTE_P); [done|]. by rewrite has_0 in Hp.
Qed.

(** A directory page full of zeros maps nothing. *)
Lemma zero_dir m d :
  (∀ a, in_page d a → m a = 0) → (∀ i, ¬ has_tab m d i) ∧ (∀ va, is_u32 va → pte m d va = 0).
Proof.
  intros H0. assert (Hz : ∀ i, 0 <= i < 1024 → pde m d i = 0).
  { intros i Hi. apply (load_zero _ d); [done|..]; unfold in_page; change PGSIZE with 4096; lia. }
  split.
  - intros i [Hi Hp]. by rewrite Hz, has_0 in Hp.
  - intros va Hva. unfold pte. by rewrite Hz by (by apply PDX_bound).
Qed.

Lemma zero_dir_ok m d l :
  page_ok d → d ∉ l → (∀ a, in_page d a → m a = 0) → dir_ok m d l ∧ user_ok m d l.
Proof.
  intros Hd Hn H0. destruct (zero_dir m d H0) as [Ht Hp].
  assert (Hup : ∀ va, ¬ upresent m d va).
  { intros va [Hr Hh]. rewrite Hp, has_0 in Hh by auto using user_u32. done. }
  split; split; try done.
  - by intros i ?%Ht.
  - by intros i j ?%Ht.
  - by intros va ?%Hup.
  - by intros va i ?%Hup.
  - by intros va va' ?%Hup.
  - intros va Hva _. by apply Hp, user_u32.
Qed.

(** ** Unmapping *)

(** The pages of [lo, hi) are unmapped, all else is as before. *)
Record unmapped (d lo hi : Z) (s : kmem) (l : list Z) (s' : kmem) (l' : list Z) : Prop := {
  um_uvm : uvm s' d l';
  um_pte va : is_u32 va →
    pte (k_mem s') d va = if decide (lo <= va < hi) then 0 else pte (k_mem s) d va;
  um_tabs : same_tabs d (k_mem s) (k_mem s');
  um_free p : p ∈ l' ↔ p ∈ l ∨ ∃ va, upresent (k_mem s) d va ∧ lo <= va < hi ∧ p = frame (k_mem s) d va;
  um_bytes a : (∀ p, p ∈ l' → ¬ in_page p a) → (∀ i, has_tab (k_mem s) d i → ¬ in_page (tab (k_mem s) d i) a) →
    k_mem s' a = k_mem s a }.

Lemma unmapped_refl d lo hi s l :
  uvm s d l → (∀ va, lo <= va < hi → pte (k_mem s) d va = 0) → unmapped d lo hi s l s l.
Proof.
  intros Hu H0. split; try done.
  - intros va _. case_decide; auto.
  - intros p. split; [by left|]. intros [?|(va & [_ Hp] & Hr & _)]; [done|].
    by rewrite H0, has_0 in Hp.
Qed.

Lemma unmapped_trans d lo mid hi s l s1 l1 s2 l2 :
  lo <= mid <= hi → hi <= KERNBASE → unmapped d lo mid s l s1 l1 → unmapped d mid hi s1 l1 s2 l2 →
  unmapped d lo hi s l s2 l2.
Proof.
  intros Hm Hk [U1 P1 T1 F1 B1] [U2 P2 T2 F2 B2].
  assert (Hp1 : ∀ va, 0 <= va < KERNBASE → ¬ (lo <= va < mid) → pte (k_mem s1) d va = pte (k_mem s) d va).
  { intros va Hr Hn. by rewrite P1, decide_False by auto using user_u32. }
  split; [done| |by eapply same_tabs_trans|..].
  - intros va Hva. rewrite P2, P1 by done. repeat case_decide; lia || done.
  - intros p. rewrite F2, F1. split.
    + intros [[?|(va & Hp & Hr & ->)]|(va & Hp & Hr & ->)]; [by left|right; exists va; split_and!; try done; lia|].
      destruct Hp as [Hb Hp]. unfold frame. rewrite Hp1 in * by lia. right. exists va. split_and!; done || lia.
    + intros [?|(va & [Hb Hp] & Hr & ->)]; [by do 2 left|]. destruct (decide (va < mid)).
      * left; right. exists va. split_and!; done || lia.
      * right. exists va. unfold upresent, frame. rewrite Hp1 by lia. split_and!; done || lia.
  - intros a Hl Ht. rewrite B2, B1; try done.
    + intros p Hp. apply Hl, F2. by left.
    + intros i Hi. destruct (same_tabs_spec _ _ _ i (same_tabs_sym _ _ _ T1) Hi) as [Hi' E].
      rewrite <-E. by apply Ht.
Qed.

Lemma user_unmap m m' d l a :
  user_ok m d l → same_tabs d m m' → upresent m d a → a mod PGSIZE = 0 →
  (∀ va, is_u32 va → pte m' d va = if decide (a <= va < a + PGSIZE) then 0 else pte m d va) →
  user_ok m' d (frame m d a :: l).
Proof.
  intros Hu Ht Ha Hal Hpte.
  assert (Hold : ∀ va, upresent m' d va →
    upresent m d va ∧ frame m' d va = frame m d va ∧ ¬ same_page va a).
  { intros va [Hr Hp]. unfold frame, upresent, same_page. rewrite Hpte in Hp |- * by auto using user_u32.
    case_decide as Hd; [by rewrite has_0 in Hp|]. split; [done|]. split; [done|].
    change PGSIZE with 4096 in *. dlia. }
  split.
  - intros va Hva. destruct (Hold va Hva) as (Hva' & -> & Hns).
    destruct (uo_page _ _ _ _ Hu va Hva') as (? & ? & ?). split_and!; try done.
    rewrite elem_of_cons. intros [E|?]; [|done]. by apply Hns, (uo_inj _ _ _ _ Hu).
  - intros va i Hva Hi. destruct (Hold va Hva) as (Hva' & -> & _).
    destruct (same_tabs_spec _ _ _ i (same_tabs_sym _ _ _ Ht) Hi) as [Hi' E]. rewrite <-E.
    by apply (uo_tab _ _ _ _ Hu).
  - intros va va' Hva Hva'. destruct (Hold va Hva) as (? & -> & _), (Hold va' Hva') as (? & -> & _).
    by apply (uo_inj _ _ _ _ Hu).
  - intros va Hr. rewrite Hpte by auto using user_u32. case_decide; [done|]. by apply (uo_zero _ _ _ _ Hu).
Qed.

(** Freeing the frame of a mapped page and clearing its entry. *)
Lemma unmap_one d s l a :
  uvm s d l → upresent (k_mem s) d a → a mod PGSIZE = 0 →
  let pa := tab (k_mem s) d (PDX a) + 4 * PTX a in
  wp (kfree kend (frame (k_mem s) d a);; kstore pa 0)
    (λ _ s', ∃ l', unmapped d a (a + PGSIZE) s l s' l') s.
Proof.
  intros [Hf Hd Hu] Hp Ha pa. pose proof (upresent_tab _ _ _ Hp) as Ht.
  destruct (uo_page _ _ _ _ Hu a Hp) as (Hok & Hnl & Hnd). set (f := frame (k_mem s) d a) in *.
  assert (Hnt : no_tab (k_mem s) d f).
  { split; [done|]. intros i Hi. by apply (uo_tab _ _ _ _ Hu). }
  apply wp_bind. eapply wp_mono; [by apply kfree_dir|]. intros _ s1 (Hf1 & Hd1 & Ht1 & Hm1 & Ho1).
  apply wp_modify. destruct (same_tabs_spec _ _ _ _ Ht1 Ht) as [Ht' Et].
  assert (Hau : is_u32 a) by apply user_u32, Hp.
  destruct (store_step kend d s1 (f :: l) a 0 Hf1 Hd1 Hau ltac:(done) Ht') as [Hs Hpte].
  rewrite Et in Hs, Hpte. fold pa in Hs, Hpte. set (m2 := store_word (k_mem s1) pa 0) in *. exists (f :: l).
  assert (Hpte' : ∀ va, is_u32 va → pte m2 d va = if decide (a <= va < a + PGSIZE) then 0 else pte (k_mem s) d va).
  { intros va Hva. rewrite Hpte, Hm1 by done. unfold same_page. change PGSIZE with 4096 in *.
    case_decide; case_decide; try done; exfalso; dlia. }
  assert (Ht2 : same_tabs d (k_mem s) m2).
  { apply (same_tabs_trans _ _ (k_mem s1)); [done|]. apply same_tabs_pde.
    intros i Hi. apply pde_ext; [|done]. intros b Hb.
    apply store_outside. intros Hin. destruct (do_tab _ _ _ _ Hd _ Ht) as (Hpt & _ & []).
    apply (page_apart kend _ _ b); [done|apply Hd|pose proof (PTX_bound a); unfold in_page; change PGSIZE with 4096; lia|done]. }
  split; cbn [k_mem]; [|done|done|..].
  - split; [apply Hs|apply Hs|]. by apply (user_unmap (k_mem s)).
  - intros p. rewrite elem_of_cons. split.
    + intros [->|?]; [right|by left]. exists a. split_and!; try done; change PGSIZE with 4096; lia.
    + intros [?|(va & Hva & Hr & ->)]; [by right|left]. unfold f, frame.
      replace (pte (k_mem s) d va) with (pte (k_mem s) d a); [done|].
      destruct Hva as [Hva _]. destruct (same_page_idx a va) as [H _]; [auto using user_u32..|].
      destruct H as [E1 E2]; [unfold same_page; change PGSIZE with 4096 in *; dlia|].
      unfold pte. by rewrite E1, E2.
  - intros b Hl Htb. unfold m2. rewrite store_outside; [apply Ho1, Hl; left|].
    intros Hin. apply (Htb _ Ht). pose proof (PTX_bound a). unfold in_page. change PGSIZE with 4096. lia.
Qed.

(** ** deallocuvm *)

Lemma PDX_next a : is_u32 a → a < KERNBASE → PGADDR (PDX a + 1) 0 0 = 2 ^ 22 * (a / 2 ^ 22 + 1).
Proof.
  intros Ha Hk. unfold PGADDR. rewrite PDX_eq by done. rewrite !Z.shiftl_0_l, !Z.lor_0_r.
  unfold PDXSHIFT. rewrite Z.shiftl_mul_pow2 by lia. unfold u32, KERNBASE, is_u32 in *. dlia.
Qed.

Lemma unmapped_skip d a a' hi s l s' l' :
  a <= a' → (∀ va, a <= va < a' → pte (k_mem s) d va = 0) → unmapped d a' hi s l s' l' →
  unmapped d a hi s l s' l'.
Proof.
  intros Hle H0 [U P T F B]. split; try done.
  - intros va Hva. rewrite P by done. repeat case_decide; try done; try lia. apply H0. lia.
  - intros p. rewrite F. split; (intros [?|(va & Hp & Hr & ->)]; [by left|right; exists va; split_and!; try done; try lia]).
    destruct (decide (va < a')); [|lia]. destruct Hp as [_ Hp]. rewrite H0, has_0 in Hp by lia. done.
Qed.

Lemma no_tab_pte m d a va :
  is_u32 a → has (pde m d (PDX a)) PTE_P = false → a <= va < 2 ^ 22 * (a / 2 ^ 22 + 1) → pte m d va = 0.
Proof.
  intros Ha Hh Hr. assert (Hva : is_u32 va) by (unfold is_u32 in *; dlia).
  assert (E : PDX va = PDX a) by (rewrite !PDX_eq by done; dlia). unfold pte. by rewrite E, Hh.
Qed.

Lemma page_pte m d a va : is_u32 a → is_u32 va → same_page a va → pte m d va = pte m d a.
Proof. intros Ha Hv Hs. apply same_page_idx in Hs as [E1 E2]; [|done..]. unfold pte. by rewrite E1, E2. Qed.

(** From [a] on all pages below [hi] (a page boundary) are unmapped. *)
Lemma deallocuvm_loop_spec d oldsz fuel : ∀ s l a,
  uvm s d l → 0 <= a → a mod 4096 = 0 → 0 <= oldsz <= KERNBASE → 
  oldsz - a <= 4096 * (Z.of_nat fuel - 1) → (1 <= fuel)%nat →
  wp (deallocuvm_loop kend fuel d a oldsz) (λ _ s', ∃ l',
    unmapped d a (4096 * ((oldsz + 4095) / 4096)) s l s' l') s.
Proof.
  induction fuel as [|fuel IH]; intros s l a Hu Ha Hal Hhi Hfuel Hf1; [lia|].
  set (hi := 4096 * ((oldsz + 4095) / 4096)) in *. cbn [deallocuvm_loop].
  destruct (Z.ltb_spec a oldsz) as [Hlt|Hge]; cbn [negb].
  2:{ apply wp_ret. exists l. apply unmapped_refl; [done|]. intros va Hr. subst hi. dlia. }
  assert (Hau : is_u32 a) by (apply user_u32; lia).
  apply wp_bind. eapply wp_intro; [apply walk_false|]. cbv beta.
  destruct (has (pde (k_mem s) d (PDX a)) PTE_P) eqn:Hh.
  2:{ cbn [Z.eqb]. rewrite PDX_next by (done || lia). change PGSIZE with 4096.
      set (a' := 2 ^ 22 * (a / 2 ^ 22 + 1)).
      assert (u32 (u32 (a' - 4096) + 4096) = a') as ->.
      { unfold u32, KERNBASE in *. rewrite (Z.mod_small (a' - 4096)); [rewrite Z.mod_small|]; subst a'; dlia. }
      eapply wp_mono; [apply (IH s l a'); try done; subst a'; dlia|].
      intros _ s' [l' H]. exists l'. apply (unmapped_skip _ a a'); [subst a'; dlia| |done].
      intros va Hva. by apply (no_tab_pte _ _ a). }
  assert (Hne : tab (k_mem s) d (PDX a) + 4 * PTX a ≠ 0).
  { destruct (do_tab _ _ _ _ (uv_dir _ _ _ _ Hu) (PDX a)) as ((_ & _ & Hk & _) & _).
    - split; [by apply PDX_bound|done].
    - pose proof (PTX_bound a). unfold KERNBASE in Hk. lia. }
  rewrite (proj2 (Z.eqb_neq _ 0)) by done. apply wp_bind, wp_gets.
  assert (Hpte : load_word (k_mem s) (tab (k_mem s) d (PDX a) + 4 * PTX a) = pte (k_mem s) d a).
  { unfold pte. by rewrite Hh. }
  rewrite Hpte. apply wp_bind.
  assert (Hau' : u32 (a + PGSIZE) = a + 4096).
  { apply Z.mod_small. change PGSIZE with 4096. unfold KERNBASE in *. lia. }
  rewrite Hau'. destruct (has (pte (k_mem s) d a) PTE_P) eqn:Hp.
  - assert (Hpr : upresent (k_mem s) d a) by (split; [lia|done]).
    destruct (uo_page _ _ _ _ (uv_user _ _ _ _ Hu) a Hpr) as (Hok & _).
    assert (Hpa : PTE_ADDR (pte (k_mem s) d a) ≠ 0).
    { intros E. destruct Hok as (_ & _ & Hk & _). unfold frame in Hk. rewrite E in Hk. done. }
    rewrite (proj2 (Z.eqb_neq _ 0)) by done. fold (frame (k_mem s) d a).
    eapply wp_mono; [apply (unmap_one d s l a); done|]. intros _ s1 [l1 H1].
    eapply wp_mono; [apply (IH s1 l1 (a + 4096)); [apply H1|lia|dlia|done|lia|lia]|].
    intros _ s2 [l2 H2]. exists l2. change PGSIZE with 4096 in H1.
    eapply unmapped_trans; [| |exact H1|exact H2]; subst hi; unfold KERNBASE in *; dlia.
  - apply wp_ret. eapply wp_mono; [apply (IH s l (a + 4096)); try done; dlia|].
    intros _ s2 [l2 H2]. exists l2. apply (unmapped_skip _ a (a + 4096)); [lia| |done].
    intros va Hr. rewrite (page_pte _ _ a).
    + apply (uo_zero _ _ _ _ (uv_user _ _ _ _ Hu)); [lia|done].
    + done.
    + unfold is_u32, KERNBASE in *. lia.
    + unfold same_page. change PGSIZE with 4096. dlia.
Qed.

Lemma deallocuvm_spec d s l oldsz newsz :
  uvm s d l → 0 <= newsz < oldsz → oldsz <= KERNBASE →
  wp (deallocuvm kend d oldsz newsz) (λ r s', r = newsz ∧ ∃ l',
    unmapped d (PGROUNDUP newsz) (PGROUNDUP oldsz) s l s' l') s.
Proof.
  intros Hu Hn Ho. unfold deallocuvm. rewrite Z.geb_leb, (proj2 (Z.leb_gt _ _)) by lia.
  rewrite !PGROUNDUP_eq by (unfold KERNBASE in *; lia). apply wp_bind.
  eapply wp_mono; [apply (deallocuvm_loop_spec d oldsz); try done; change PGSIZE with 4096; dlia|].
  intros [] s' H. by apply wp_ret.
Qed.

(** ** allocuvm *)

(** The pages mapped before are mapped as before, with the same bytes. *)
Definition kept (d : Z) (m m' : mem) : Prop :=
  ∀ va, upresent m d va → pte m' d va = pte m d va ∧ ∀ a, in_page (frame m d va) a → m' a = m a.

Lemma vkept_trans d m m1 m2 : kept d m m1 → kept d m1 m2 → kept d m m2.
Proof.
  intros H1 H2 va Hva. destruct (H1 va Hva) as [E1 B1].
  assert (Hva1 : upresent m1 d va) by (unfold upresent in *; by rewrite E1).
  destruct (H2 va Hva1) as [E2 B2]. split; [congruence|]. intros a Ha. rewrite B2, B1; try done.
  unfold frame. by rewrite E1.
Qed.

Lemma user_ok_ext m m' d l : same_map d m m' → same_tabs d m m' → user_ok m d l → user_ok m' d l.
Proof.
  intros Hm Ht Hu.
  assert (Hpr : ∀ va, upresent m' d va → upresent m d va ∧ frame m' d va = frame m d va).
  { intros va [Hr Hp]. unfold upresent, frame. rewrite Hm in * by auto using user_u32. done. }
  split.
  - intros va Hva. destruct (Hpr va Hva) as [? ->]. by apply (uo_page _ _ _ _ Hu).
  - intros va i Hva Hi. destruct (Hpr va Hva) as [? ->].
    destruct (same_tabs_spec _ _ _ i (same_tabs_sym _ _ _ Ht) Hi) as [? <-]. by apply (uo_tab _ _ _ _ Hu).
  - intros va va' Hva Hva'. destruct (Hpr va Hva) as [? ->], (Hpr va' Hva') as [? ->].
    by apply (uo_inj _ _ _ _ Hu).
  - intros va Hr. rewrite Hm by auto using user_u32. by apply (uo_zero _ _ _ _ Hu).
Qed.

(** Writing to a free page [p] changes neither the map nor a mapped page. *)
Lemma write_free d s l m' p :
  uvm s d l → p ∈ l → (∀ a, ¬ in_page p a → m' a = k_mem s a) →
  dir_ok m' d l ∧ user_ok m' d l ∧ same_map d (k_mem s) m' ∧ same_tabs d (k_mem s) m' ∧
  kept d (k_mem s) m'.
Proof.
  intros [Hf Hd Hu] Hp Hout.
  assert (Hpp : page_ok p) by (by eapply Forall_forall in Hp; [|apply (fl_ok _ _ _ Hf)]).
  assert (Hdir : ∀ a, in_page d a → m' a = k_mem s a).
  { intros a Ha. apply Hout. intros Hin. destruct (do_dir _ _ _ _ Hd) as [Hpd []].
    by rewrite (page_apart kend d p a). }
  assert (Ht : same_tabs d (k_mem s) m').
  { apply same_tabs_pde. intros i Hi. by apply pde_ext. }
  assert (Hm : same_map d (k_mem s) m').
  { intros va Hva. apply pte_ext; try done. intros i a Hi Ha. apply Hout. intros Hin.
    destruct (do_tab _ _ _ _ Hd i Hi) as (? & Hn & _). apply Hn. by rewrite (page_apart kend _ p a). }
  split_and!; [by apply (dir_ok_ext kend (k_mem s))|by apply (user_ok_ext (k_mem s))|done|done|].
  intros va Hva. split; [apply Hm, user_u32, Hva|]. intros a Ha. apply Hout. intros Hin.
  destruct (uo_page _ _ _ _ Hu va Hva) as (? & Hn & _). apply Hn. by rewrite (page_apart kend _ p a).
Qed.

(** The pages of [lo, hi) are now mapped to zero pages. *)
Record grown (d lo hi : Z) (s : kmem) (s' : kmem) (l' : list Z) : Prop := {
  gr_uvm : uvm s' d l';
  gr_kept : kept d (k_mem s) (k_mem s');
  gr_out va : is_u32 va → ¬ (lo <= va < hi) → pte (k_mem s') d va = pte (k_mem s) d va;
  gr_new va : lo <= va < hi → upresent (k_mem s') d va ∧
    PTE_FLAGS (pte (k_mem s') d va) = Z.lor PTE_P (Z.lor PTE_W PTE_U) ∧
    ubyte (k_mem s') d va = 0 }.

Lemma grown_trans d lo mid hi s s1 l1 s2 l2 :
  0 <= lo <= mid → mid <= hi → hi <= KERNBASE →
  grown d lo mid s s1 l1 → grown d mid hi s1 s2 l2 → grown d lo hi s s2 l2.
Proof.
  intros Hlo Hmid Hhi [U1 K1 O1 N1] [U2 K2 O2 N2]. split; [done|by eapply vkept_trans|..].
  - intros va Hva Hr. rewrite O2, O1; try done; lia.
  - intros va Hr. destruct (decide (mid <= va)); [apply N2; lia|]. destruct (N1 va) as (P & F & Z); [lia|].
    destruct (K2 va P) as [E B]. unfold upresent, ubyte, frame. rewrite E. split; [exact P|]. split; [done|].
    fold (frame (k_mem s1) d va). rewrite B by apply ubyte_in. exact Z.
Qed.

Lemma dir_step_tabs d s s' : dir_step d s [] s' [] → same_tabs d (k_mem s) (k_mem s').
Proof.
  intros H. split; intros i Hi; [by apply (ds_keep _ _ _ _ _ _ H)|].
  destruct (ds_tabs _ _ _ _ _ _ H i Hi) as [[? _]|[]%not_elem_of_nil]. done.
Qed.

Lemma user_ok_sub m d l l' : user_ok m d l → l' ⊆ l → user_ok m d l'.
Proof.
  intros [Hp Ht Hi Hz] Hsub. split; try done. intros va Hva. destruct (Hp va Hva) as (? & Hn & ?).
  split_and!; try done. by intros ?%Hsub.
Qed.

Lemma user_ok_cons m d l p :
  user_ok m d l → (∀ va, upresent m d va → frame m d va ≠ p) → user_ok m d (p :: l).
Proof.
  intros [Hp Ht Hi Hz] Hn. split; try done. intros va Hva. destruct (Hp va Hva) as (? & ? & ?).
  split_and!; try done. rewrite elem_of_cons. intros [?|?]; [by apply (Hn va)|done].
Qed.

Lemma kept_step d s l s' l' :
  uvm s d l → dir_step d s l s' l' →
  (∀ va, upresent (k_mem s) d va → pte (k_mem s') d va = pte (k_mem s) d va) →
  kept d (k_mem s) (k_mem s').
Proof. intros Hu Hs Hp va Hva. split; [by apply Hp|]. intros a. by eapply dir_step_frame. Qed.

(** [mappages] of one page. *)
Lemma map_one d s l a pa perm :
  free_list s l → dir_ok (k_mem s) d l → a mod 4096 = 0 → 0 <= a → a + 4096 <= 2 ^ 32 →
  pa mod 4096 = 0 → 0 <= pa → pa + 4096 <= 2 ^ 32 → 0 <= perm < 4096 →
  has (pte (k_mem s) d a) PTE_P = false →
  wp (mappages d a PGSIZE pa perm) (λ r s', ∃ l', dir_step d s l s' l' ∧
    ((r = 0 ∧ (length l <= S (length l'))%nat ∧
      ∀ va, is_u32 va → pte (k_mem s') d va =
        if decide (same_page va a) then Z.lor (Z.lor pa perm) PTE_P else pte (k_mem s) d va) ∨
     (r = -1 ∧ l' = [] ∧ l = [] ∧ same_map d (k_mem s) (k_mem s')))) s.
Proof.
  intros Hf Hd Hal Ha Hend Hpa Hpa0 Hpan Hperm Hnp.
  assert (Hau : is_u32 a) by (unfold is_u32; lia).
  assert (Hdown : PGROUNDDOWN a = a) by (rewrite PGROUNDDOWN_eq by done; dlia).
  assert (Hone : (a + PGSIZE - 1) / PGSIZE - a / PGSIZE + 1 = 1) by (change PGSIZE with 4096; dlia).
  eapply wp_mono; [apply (mappages_spec kend d s l); rewrite ?Hone, ?Hdown; change PGSIZE with 4096; try done; try lia|].
  - intros v Hv. rewrite (page_pte _ _ a); [done|done|unfold is_u32; lia|].
    unfold same_page. change PGSIZE with 4096. dlia.
  - rewrite Hone, Hdown. intros r s' (l' & k & Hs & Hm & Hr). exists l'. split; [done|].
    destruct Hr as [(-> & -> & Hlen)|(-> & Hk & -> & Hlen)].
    + left. split_and!; [done|lia|]. intros va Hva. rewrite Hm by done. unfold same_page. change PGSIZE with 4096.
      case_decide; case_decide; try (exfalso; dlia); [|done]. do 2 f_equal. dlia.
    + right. assert (k = 0) as -> by lia. split_and!; [done|done|apply nil_length_inv; lia|].
      intros va Hva. rewrite Hm by done. by rewrite decide_False by (change PGSIZE with 4096; lia).
Qed.

(** Mapping leaves the bytes of a page alone that is neither a table nor
    free. *)
Lemma fresh_untouched d s2 p l s3 l3 x :
  dir_ok (k_mem s2) d (p :: l) → free_list s2 l → p ∉ l → page_ok p → dir_step d s2 l s3 l3 →
  in_page p x → k_mem s3 x = k_mem s2 x.
Proof.
  intros Hd Hf Hpl Hpp Hs Hin. destruct (dir_no_tab _ _ _ p Hd) as [Hn1 Hn2]; [left|]. apply (ds_frame _ _ _ _ _ _ Hs).
  - intros H. apply Hn1. eapply page_apart; try done. apply Hd.
  - intros i Hi H. apply (Hn2 i Hi). eapply page_apart; try done. by apply (do_tab _ _ _ _ Hd).
  - intros q Hq H. apply Hpl. rewrite (page_apart kend p q x); try done.
    by eapply Forall_forall in Hq; [|apply (fl_ok _ _ _ Hf)].
Qed.

Lemma has_lor w f : has (Z.lor w f) f = negb (f =? 0).
Proof.
  unfold has. do 2 f_equal. apply Z.bits_inj'. intros n _. rewrite Z.land_spec, Z.lor_spec.
  by destruct (Z.testbit w n), (Z.testbit f n).
Qed.

(** The fresh page [p], with any contents, is mapped at [a], or there is no
    memory for the page table and [p] is left over. *)
Lemma map_fresh d s p l s2 a perm :
  uvm s d (p :: l) → free_list s2 l → (∀ x, ¬ in_page p x → k_mem s2 x = k_mem s x) →
  a mod 4096 = 0 → 0 <= a → a + 4096 <= KERNBASE → 0 <= perm < 4096 →
  has (pte (k_mem s) d a) PTE_P = false →
  wp (mappages d a PGSIZE (V2P p) perm) (λ r s3, ∃ l3, dir_step d s2 l s3 l3 ∧
    kept d (k_mem s) (k_mem s3) ∧
    ((r = 0 ∧ (length l <= S (length l3))%nat ∧ uvm s3 d l3 ∧
      (∀ va, is_u32 va → pte (k_mem s3) d va =
         if decide (same_page va a) then Z.lor (V2P p) (Z.lor perm PTE_P) else pte (k_mem s) d va) ∧
      (∀ x, in_page p x → k_mem s3 x = k_mem s2 x)) ∨
     (r = -1 ∧ l = [] ∧ l3 = [] ∧ dir_ok (k_mem s3) d [p] ∧ user_ok (k_mem s3) d [p] ∧
      same_map d (k_mem s) (k_mem s3)))) s2.
Proof.
  intros Hu Hf2 Em Hal Ha Hak Hperm Hnp.
  pose proof (fl_nodup _ _ _ (uv_free _ _ _ _ Hu)) as Hnd. apply NoDup_cons in Hnd as [Hpl _].
  pose proof (fl_ok _ _ _ (uv_free _ _ _ _ Hu)) as [Hpp _]%Forall_cons.
  destruct (page_frame kend p Hpp) as (Hb & Hpa & HPV & _).
  destruct (write_free d s (p :: l) (k_mem s2) p) as (Hd2 & Hu2 & Hm2 & Ht2 & Hk2); [done|left|done|].
  assert (Hau : is_u32 a) by (apply user_u32; lia).
  assert (Hd2' : dir_ok (k_mem s2) d l) by (eapply dir_ok_sub; [done|by intros q; right]).
  assert (Huvm2 : uvm s2 d l).
  { split; [done|done|]. eapply user_ok_sub; [done|by intros q; right]. }
  eapply wp_mono; [apply (map_one d s2 l); try done; try (unfold KERNBASE, PHYSTOP in *; lia)|].
  { by rewrite Hm2. }
  intros r s3 (l3 & Hs & [(-> & Hlen & Hp3)|(-> & -> & -> & Hm3)]); eexists; (split; [exact Hs|]).
  - destruct (entry_fields (V2P p) (Z.lor perm PTE_P)) as (_ & Ea & _);
      [unfold PHYSTOP in *; lia|done|by apply flags_bound|].
    set (w := Z.lor (V2P p) (Z.lor perm PTE_P)) in *.
    assert (Hw : ∀ va, is_u32 va → pte (k_mem s3) d va = if decide (same_page va a) then w else pte (k_mem s2) d va).
    { intros va Hva. rewrite Hp3 by done. by rewrite <-Z.lor_assoc. }
    assert (HwP : has w PTE_P = true) by (unfold w; rewrite Z.lor_assoc; by rewrite has_lor).
    assert (Hk3 : kept d (k_mem s2) (k_mem s3)).
    { apply (kept_step _ _ l _ l3); [done..|]. intros va Hva. rewrite Hw, decide_False; [done| |apply user_u32, Hva].
      intros Hsp. destruct Hva as [Hva Hp]. rewrite (page_pte _ _ a) in Hp;
        [|done|by apply user_u32|by symmetry]. rewrite Hm2, Hnp in Hp by done. done. }
    split; [by eapply vkept_trans|]. left. split_and!; [done|done|split; [apply Hs|apply Hs|]|..].
    + apply (user_map kend d s2 l s3 l3 a p w); try done. by rewrite Ea.
    + intros va Hva. rewrite Hw by done. case_decide; [done|]. by apply Hm2.
    + intros x Hx. by apply (fresh_untouched d s2 p l s3 l3).
  - pose proof (dir_step_tabs _ _ _ Hs) as Ht3. split.
    { eapply vkept_trans; [done|]. apply (kept_step _ _ [] _ []); [done..|]. intros va Hva. apply Hm3, user_u32, Hva. }
    right. split_and!; [done..| |by apply (user_ok_ext (k_mem s2))|].
    + apply dir_ok_cons; [apply Hs|]. apply (no_tab_same (k_mem s2)); [done|].
      apply (dir_no_tab _ _ _ _ Hd2). left.
    + intros va Hva. by rewrite Hm3, Hm2.
Qed.

(** The fresh zeroed page [p] is mapped at [a]. *)
Lemma alloc_one d s p l s2 a :
  uvm s d (p :: l) → free_list s2 l → k_mem s2 = memset (k_mem s) p 0 PGSIZE →
  a mod 4096 = 0 → 0 <= a → a + 4096 <= KERNBASE → has (pte (k_mem s) d a) PTE_P = false →
  wp (mappages d a PGSIZE (V2P p) (Z.lor PTE_W PTE_U)) (λ r s3,
    (r = 0 ∧ ∃ l3, grown d a (a + 4096) s s3 l3 ∧ (length (p :: l) <= length l3 + 2)%nat) ∨
    (r = -1 ∧ l = [] ∧ free_list s3 [] ∧ dir_ok (k_mem s3) d [p] ∧ user_ok (k_mem s3) d [p] ∧
     same_map d (k_mem s) (k_mem s3) ∧ kept d (k_mem s) (k_mem s3))) s2.
Proof.
  intros Hu Hf2 Em Hal Ha Hak Hnp.
  pose proof (fl_ok _ _ _ (uv_free _ _ _ _ Hu)) as [Hpp _]%Forall_cons.
  destruct (page_frame kend p Hpp) as (Hb & Hpa & HPV & _).
  eapply wp_mono; [apply (map_fresh d s p l); try done|].
  { intros x Hx. by rewrite Em, memset_zero, decide_False. }
  intros r s3 (l3 & Hs & Hk & [(-> & Hlen & Hu3 & Hw & Hin)|(-> & -> & -> & Hd & Hu3 & Hm)]).
  - left. split; [done|]. exists l3. split; [|cbn; lia]. split; [done|done|..].
    + intros va Hva Hr. rewrite Hw, decide_False; [done| |done]. unfold same_page. change PGSIZE with 4096. dlia.
    + intros va Hr. assert (Hva : 0 <= va < KERNBASE) by lia.
      change (Z.lor (Z.lor PTE_W PTE_U) PTE_P) with 7 in Hw.
      destruct (entry_fields (V2P p) 7) as (_ & Ea & Ef); [unfold PHYSTOP in *; lia|done|lia|].
      assert (Ep : pte (k_mem s3) d va = Z.lor (V2P p) 7).
      { rewrite Hw, decide_True; [done| |by apply user_u32]. unfold same_page. change PGSIZE with 4096. dlia. }
      unfold upresent, ubyte, frame. rewrite Ep, Ef, Ea, HPV. split_and!; try done; try lia.
      * rewrite lor_low by (done || lia). apply has_low. dlia.
      * assert (Hp : in_page p (p + va mod PGSIZE)) by (unfold in_page; change PGSIZE with 4096; dlia).
        rewrite Hin by done. by rewrite Em, memset_zero, decide_True.
  - right. split_and!; try done. apply Hs.
Qed.

(** ** Undoing an allocation *)

(** [s] differs from [s0] only by pages mapped in [lo, hi). *)
Record partial (d lo hi : Z) (s0 s : kmem) : Prop := {
  pt_zero va : lo <= va < hi → pte (k_mem s0) d va = 0;
  pt_kept : kept d (k_mem s0) (k_mem s);
  pt_out va : is_u32 va → ¬ (lo <= va < hi) → pte (k_mem s) d va = pte (k_mem s0) d va }.

Lemma unmapped_partial d lo hi s0 s l s' l' :
  lo mod 4096 = 0 → hi mod 4096 = 0 → partial d lo hi s0 s → uvm s d l → unmapped d lo hi s l s' l' →
  same_map d (k_mem s0) (k_mem s') ∧ kept d (k_mem s0) (k_mem s').
Proof.
  intros Hlo Hhi [Hz Hk Ho] [Hf Hd Hu] [Hu' Hp Ht Hfr Hb].
  assert (Hm : same_map d (k_mem s0) (k_mem s')).
  { intros va Hva. rewrite Hp by done. case_decide; [by rewrite Hz|by apply Ho]. }
  split; [done|]. intros va Hva. split; [apply Hm, user_u32, Hva|].
  destruct (Hk va Hva) as [E B]. intros a Ha. rewrite Hb; [by apply B|..].
  all: assert (Hva1 : upresent (k_mem s) d va) by (unfold upresent in *; by rewrite E).
  all: assert (Ha1 : in_page (frame (k_mem s) d va) a) by (unfold frame; by rewrite E).
  all: destruct (uo_page _ _ _ _ Hu va Hva1) as (Hok & Hnl & _).
  - intros p Hpl Hin. apply Hfr in Hpl as [Hpl|(va' & Hva' & Hr & ->)].
    + apply Hnl. rewrite (page_apart kend _ p a); try done.
      by eapply Forall_forall in Hpl; [|apply (fl_ok _ _ _ Hf)].
    + destruct (uo_page _ _ _ _ Hu va' Hva') as (Hok' & _).
      assert (Hsp : same_page va va').
      { apply (uo_inj _ _ _ _ Hu); try done. by eapply page_apart. }
      destruct Hva as [_ Hva]. rewrite Hz, has_0 in Hva; [done|].
      unfold same_page in Hsp. change PGSIZE with 4096 in Hsp. dlia.
  - intros i Hi Hin. apply (uo_tab _ _ _ _ Hu va i Hva1 Hi). eapply page_apart; try done.
    by apply (do_tab _ _ _ _ Hd).
Qed.

Lemma rollback d s0 s l oldsz newsz :
  0 <= oldsz < newsz → newsz <= KERNBASE → uvm s d l →
  partial d (PGROUNDUP oldsz) (PGROUNDUP newsz) s0 s →
  wp (deallocuvm kend d newsz oldsz) (λ _ s', ∃ l',
    unmapped d (PGROUNDUP oldsz) (PGROUNDUP newsz) s l s' l' ∧
    same_map d (k_mem s0) (k_mem s') ∧ kept d (k_mem s0) (k_mem s')) s.
Proof.
  intros Ho Hn Hu Hp. eapply wp_mono; [by apply deallocuvm_spec|].
  intros r s' (_ & l' & H). exists l'. split; [done|].
  eapply unmapped_partial; [| |done..]; rewrite PGROUNDUP_eq by (unfold KERNBASE in *; lia); dlia.
Qed.

(** As [rollback], with the page [p] to be freed too. *)
Lemma rollback_free d s0 s oldsz newsz p :
  0 <= oldsz < newsz → newsz <= KERNBASE →
  free_list s [] → dir_ok (k_mem s) d [p] → user_ok (k_mem s) d [p] → page_ok p →
  partial d (PGROUNDUP oldsz) (PGROUNDUP newsz) s0 s →
  wp (deallocuvm kend d newsz oldsz;; kfree kend p) (λ _ s', ∃ l', uvm s' d l' ∧
    same_map d (k_mem s0) (k_mem s') ∧ kept d (k_mem s0) (k_mem s')) s.
Proof.
  intros Ho Hn Hf Hd Hu Hp Hpart. apply wp_bind.
  assert (Huvm : uvm s d []).
  { split; [done|eapply dir_ok_sub|eapply user_ok_sub]; try done; by intros ? ?%elem_of_nil. }
  eapply wp_mono; [by apply (rollback d s0 s [])|]. intros r s1 (l1 & H1 & Hm1 & Hk1).
  assert (Hnt : no_tab (k_mem s1) d p).
  { apply (no_tab_same (k_mem s)); [apply H1|]. apply (dir_no_tab _ _ _ _ Hd). left. }
  assert (Hfr : ∀ va, upresent (k_mem s) d va → frame (k_mem s) d va ≠ p).
  { intros va Hva E. destruct (uo_page _ _ _ _ Hu va Hva) as (_ & Hn' & _). apply Hn'. rewrite E. left. }
  assert (Hfr1 : ∀ va, upresent (k_mem s1) d va → frame (k_mem s1) d va ≠ p).
  { intros va [Hr Hpr]. rewrite (um_pte _ _ _ _ _ _ _ H1) in Hpr by auto using user_u32.
    unfold frame. rewrite (um_pte _ _ _ _ _ _ _ H1) by auto using user_u32.
    case_decide; [by rewrite has_0 in Hpr|]. by apply Hfr. }
  destruct (um_uvm _ _ _ _ _ _ _ H1) as [Hf1 Hd1 Hu1].
  eapply wp_mono; [apply (kfree_dir d s1 l1 p); try done|].
  { intros Hin. apply (um_free _ _ _ _ _ _ _ H1) in Hin as [?%elem_of_nil|(va & Hva & _ & E)]; [done|].
    by apply (Hfr va Hva). }
  intros _ s2 (Hf2 & Hd2 & Ht2 & Hm2 & Hout). exists (p :: l1). split_and!.
  - split; [done|done|]. apply (user_ok_ext (k_mem s1)); [done|done|]. by apply user_ok_cons.
  - intros va Hva. by rewrite Hm2, Hm1.
  - eapply vkept_trans; [done|]. intros va Hva. split; [apply Hm2, user_u32, Hva|].
    intros a Ha. apply Hout. intros Hin. apply (Hfr1 va Hva). eapply page_apart; try done.
    by apply (uo_page _ _ _ _ Hu1).
Qed.

(** How [allocuvm] ends: grown, or out of memory and undone. *)
Definition alloc_ends (d oldsz newsz : Z) (s0 : kmem) (r : Z) (s' : kmem) (enough : Prop) : Prop :=
  (r = newsz ∧ ∃ l', grown d (PGROUNDUP oldsz) (Z.max (PGROUNDUP oldsz) (PGROUNDUP newsz)) s0 s' l') ∨
  (r = 0 ∧ ¬ enough ∧ ∃ l', uvm s' d l' ∧ same_map d (k_mem s0) (k_mem s') ∧ kept d (k_mem s0) (k_mem s')).

Lemma grown_partial d lo hi a s0 s l :
  (∀ va, lo <= va < hi → pte (k_mem s0) d va = 0) → a <= hi → grown d lo a s0 s l → partial d lo hi s0 s.
Proof. intros H0 Ha [_ Hk Ho _]. split; try done. intros va Hva Hr. apply Ho; [done|lia]. Qed.

Lemma partial_same d lo hi s0 s s' :
  partial d lo hi s0 s → same_map d (k_mem s) (k_mem s') → kept d (k_mem s) (k_mem s') →
  partial d lo hi s0 s'.
Proof.
  intros [H0 Hk Ho] Hm Hk'. split; [done|by eapply vkept_trans|]. intros va Hva Hr. rewrite Hm by done. by apply Ho.
Qed.

Lemma allocuvm_loop_spec d s0 oldsz newsz fuel : ∀ s l a,
  0 <= oldsz <= newsz → newsz < KERNBASE →
  (∀ va, PGROUNDUP oldsz <= va < PGROUNDUP newsz → pte (k_mem s0) d va = 0) →
  a mod 4096 = 0 → PGROUNDUP oldsz <= a <= Z.max (PGROUNDUP oldsz) (PGROUNDUP newsz) →
  grown d (PGROUNDUP oldsz) a s0 s l →
  newsz - a <= 4096 * (Z.of_nat fuel - 1) → (1 <= fuel)%nat →
  wp (allocuvm_loop kend fuel d a oldsz newsz) (λ r s', alloc_ends d oldsz newsz s0 r s'
    (2 * ((PGROUNDUP newsz - a) / 4096) <= Z.of_nat (length l))) s.
Proof.
  induction fuel as [|fuel IH]; intros s l a Hsz Hk Hun Hal Ha Hg Hfuel Hf1; [lia|].
  assert (Eo : PGROUNDUP oldsz = 4096 * ((oldsz + 4095) / 4096)) by (apply PGROUNDUP_eq; unfold KERNBASE in *; lia).
  assert (En : PGROUNDUP newsz = 4096 * ((newsz + 4095) / 4096)) by (apply PGROUNDUP_eq; unfold KERNBASE in *; lia).
  cbn [allocuvm_loop]. destruct (Z.ltb_spec a newsz) as [Hlt|Hge]; cbn [negb].
  2:{ apply wp_ret. left. split; [done|]. exists l. replace (Z.max _ _) with a by dlia. done. }
  assert (Hlt' : oldsz < newsz) by dlia.
  assert (Ha0 : 0 <= a) by dlia.
  assert (Hak : a + 4096 <= PGROUNDUP newsz) by dlia.
  assert (Hnk : PGROUNDUP newsz <= KERNBASE) by (unfold KERNBASE in *; dlia).
  pose proof (gr_uvm _ _ _ _ _ _ Hg) as Hu. assert (Hpart : partial d (PGROUNDUP oldsz) (PGROUNDUP newsz) s0 s).
  { eapply grown_partial; [done| |done]. lia. }
  apply wp_bind. eapply wp_mono; [apply (kalloc_spec kend s l), Hu|].
  intros r s1 (Em1 & _ & Hl). destruct l as [|p l].
  { destruct Hl as [-> Hf]. cbn [Z.eqb]. apply wp_bind.
    eapply wp_mono; [apply (rollback d s0 s1 []); try done; [lia|lia|..]|].
    - destruct Hu. split; rewrite ?Em1; done.
    - destruct Hpart. split; rewrite ?Em1; done.
    - intros _ s' (l' & H1 & H2 & H3). apply wp_ret. right. split; [done|]. split; [cbn; dlia|].
      exists l'. split_and!; try done. apply H1. }
  destruct Hl as (-> & Hne & Hf). rewrite (proj2 (Z.eqb_neq _ 0)) by done.
  apply wp_bind, wp_modify, wp_bind. set (s2 := Kmem _ _ _).
  eapply wp_mono; [apply (alloc_one d s p l s2 a); [exact Hu| | |exact Hal|lia|lia|]|].
  { apply (free_list_write kend s1); [done|..].
    - intros b. rewrite memset_zero. case_decide; [done|apply (fl_bytes _ _ _ Hf)].
    - intros q b Hq Hb. rewrite memset_zero, decide_False; [done|]. intros Hin.
      pose proof (fl_nodup _ _ _ (uv_free _ _ _ _ Hu)) as [Hn _]%NoDup_cons. apply Hn.
      pose proof (fl_ok _ _ _ (uv_free _ _ _ _ Hu)) as [Hpp Hll]%Forall_cons.
      rewrite (page_apart kend p q b); try done. by eapply Forall_forall in Hq; [|apply Hll]. }
  { cbn [k_mem s2]. rewrite Em1. reflexivity. }
  { rewrite (gr_out _ _ _ _ _ _ Hg), Hun; [apply has_0|lia|apply user_u32; lia|lia]. }
  intros r s3 [(-> & l3 & Hg3 & Hlen)|(-> & -> & Hf3 & Hd3 & Hu3 & Hm3 & Hk3)]; cbn [Z.ltb Z.compare].
  - assert (u32 (a + PGSIZE) = a + 4096) as ->.
    { apply Z.mod_small. change PGSIZE with 4096. unfold KERNBASE in *. lia. }
    eapply wp_mono; [apply (IH s3 l3 (a + 4096)); try done; try lia; [dlia|]|].
    + eapply grown_trans; [| | |done..]; try lia. rewrite Eo. dlia.
    + intros r s' [H|(? & Hno & H)]; [by left|right]. split; [done|]. split; [|done].
      intros Hen. apply Hno. cbn in *. dlia.
  - pose proof (fl_ok _ _ _ (uv_free _ _ _ _ Hu)) as [Hpp _]%Forall_cons.
    apply wp_assoc, wp_bind. eapply wp_mono; [apply (rollback_free d s0 s3 oldsz newsz p); try done; try lia|].
    + by apply (partial_same _ _ _ _ s).
    + intros [] s' H. apply wp_ret. right. split; [done|]. split; [cbn; dlia|exact H].
Qed.

Lemma allocuvm_spec d s l oldsz newsz :
  uvm s d l → 0 <= oldsz <= newsz → newsz < KERNBASE →
  (∀ va, PGROUNDUP oldsz <= va < PGROUNDUP newsz → pte (k_mem s) d va = 0) →
  wp (allocuvm kend d oldsz newsz) (λ r s', alloc_ends d oldsz newsz s r s'
    (2 * ((PGROUNDUP newsz - PGROUNDUP oldsz) / 4096) <= Z.of_nat (length l))) s.
Proof.
  intros Hu Hsz Hk Hun. unfold allocuvm.
  rewrite Z.geb_leb, (proj2 (Z.leb_gt _ _)), (proj2 (Z.ltb_ge _ _)) by lia.
  assert (Eo : PGROUNDUP oldsz = 4096 * ((oldsz + 4095) / 4096)) by (apply PGROUNDUP_eq; unfold KERNBASE in *; lia).
  apply (allocuvm_loop_spec d s oldsz newsz _ s l (PGROUNDUP oldsz)); try done.
  - rewrite Eo. dlia.
  - lia.
  - split; [done|intros va Hva; done|done|intros; lia].
  - rewrite Eo. change PGSIZE with 4096. dlia.
  - lia.
Qed.


End vmalloc.

(** ** A witness *)

(** A zeroed directory at [v] and four free pages after it. *)
Definition demo_base : Z := KERNBASE + EXTMEM.

Definition demo_kmem : kmem :=
  let v := demo_base in
  Kmem (store_word (store_word (store_word (λ _, 0) (v + 4096) (v + 8192)) (v + 8192) (v + 12288))
          (v + 12288) (v + 16384)) 0 (v + 4096).

Definition demo_pages : list Z :=
  [demo_base + 4096; demo_base + 8192; demo_base + 12288; demo_base + 16384].

Lemma demo_zero a : in_page demo_base a → k_mem demo_kmem a = 0.
Proof.
  intros Ha. unfold in_page in Ha. change PGSIZE with 4096 in Ha. cbn [k_mem demo_kmem].
  by rewrite !store_outside by lia.
Qed.

Lemma demo_uvm : uvm demo_base demo_kmem demo_base demo_pages.
Proof.
  destruct (zero_dir_ok demo_base (k_mem demo_kmem) demo_base demo_pages) as [Hd Hu].
  - vm_compute. intuition congruence.
  - unfold demo_pages. rewrite !elem_of_cons, elem_of_nil. lia.
  - exact demo_zero.
  - split; [|done..]. split.
    + repeat apply store_word_byte. done.
    + vm_compute. intuition congruence.
    + apply (bool_decide_unpack _). vm_compute. exact I.
    + repeat constructor; vm_compute; congruence.
Qed.

