(* ===== verification/VmCopy.v ===== *)
(** * vm.c: address spaces that are made, copied and given back

    [setupkvm] maps the kernel into a new directory, [freevm] gives back
    every page of a directory, and [copyuvm] makes a directory with copies
    of the pages of another.  A routine that works on one directory leaves
    the pages of the others alone: the pages it takes were free.  Nothing is
    lost: what was free is free again or belongs to the new directory. *)

From S2P Require Import Prelude Str Mmu Kalloc Vm VmSpec VmAlloc.

Section vmcopy.
Variables kend data : Z.

Abbreviation page_ok := (page_ok kend).
Abbreviation free_list := (free_list kend).
Abbreviation dir_ok := (dir_ok kend).
Abbreviation user_ok := (user_ok kend).
Abbreviation uvm := (uvm kend).
Abbreviation dir_step := (dir_step kend).

(** ** The pages of a directory *)

Definition is_table (m : mem) (d x : Z) : Prop := ∃ i, has_tab m d i ∧ x = tab m d i.
Definition is_frame (m : mem) (d x : Z) : Prop := ∃ va, upresent m d va ∧ x = frame m d va.

#[local] Hint Unfold is_table is_frame : core.

(** The directory itself, its tables and the frames of the user. *)
Definition owned (m : mem) (d x : Z) : Prop := x = d ∨ is_table m d x ∨ is_frame m d x.

Lemma same_tables m m' d x : same_tabs d m m' → is_table m' d x ↔ is_table m d x.
Proof.
  intros Ht. split; intros (i & Hi & ->).
  - destruct (same_tabs_spec _ _ _ i (same_tabs_sym _ _ _ Ht) Hi) as [? ?]. by exists i.
  - destruct (same_tabs_spec _ _ _ i Ht Hi) as [? ?]. by exists i.
Qed.

Lemma same_frames m m' d x : same_map d m m' → is_frame m' d x ↔ is_frame m d x.
Proof.
  intros Hm. split; intros (va & [Hr Hp] & ->); exists va; unfold upresent, frame;
    rewrite ?Hm in * by auto using user_u32; done.
Qed.

Definition pages_kept (X : Z → Prop) (m m' : mem) : Prop := ∀ x a, X x → in_page x a → m' a = m a.

Section keeps.
Context (m m' : mem) (d : Z) (Hk : pages_kept (owned m d) m m').

Lemma owned_pde i : 0 <= i < 1024 → pde m' d i = pde m d i.
Proof. apply pde_ext. intros a. apply Hk. by left. Qed.

Lemma owned_tabs : same_tabs d m m'.
Proof. apply same_tabs_pde, owned_pde. Qed.

Lemma owned_map : same_map d m m'.
Proof.
  intros va Hva. apply pte_ext; [|intros i a Hi|done].
  - intros a. apply Hk. by left.
  - apply Hk. right. left. eauto.
Qed.

Lemma owned_same x : owned m' d x ↔ owned m d x.
Proof. unfold owned. by rewrite (same_tables _ _ _ x owned_tabs), (same_frames _ _ _ x owned_map). Qed.

Lemma owned_kept : kept d m m'.
Proof.
  intros va Hva. split; [apply owned_map, user_u32, Hva|]. intros a Ha.
  apply (Hk (frame m d va)); [|done]. right. right. eauto.
Qed.
End keeps.

(** A directory whose pages are not touched and not freed is still one. *)
Lemma uvm_transfer s s' d l l' :
  uvm s d l → pages_kept (owned (k_mem s) d) (k_mem s) (k_mem s') → free_list s' l' →
  (∀ x, owned (k_mem s) d x → x ∉ l') → uvm s' d l'.
Proof.
  intros [Hf Hd Hu] Hk Hf' Hn. pose proof (owned_tabs _ _ _ Hk) as Ht.
  assert (Hd' : dir_ok (k_mem s) d l').
  { destruct Hd as [[Hpd _] Htab Hs]. split; [split; [done|apply Hn; by left]| |done].
    intros i Hi. destruct (Htab i Hi) as (? & _ & ?). split_and!; [done|apply Hn; right; left; eauto|done]. }
  split; [done|apply (dir_ok_ext kend (k_mem s)); [done|]; intros a; apply Hk; by left|].
  apply (user_ok_ext kend (k_mem s)); [by apply owned_map|done|].
  destruct Hu as [Hp Htb Hi Hz]. split; try done. intros va Hva. destruct (Hp va Hva) as (? & _ & ?).
  split_and!; [done|apply Hn; right; right; eauto|done].
Qed.

Lemma owned_page s d l x : uvm s d l → owned (k_mem s) d x → page_ok x ∧ x ∉ l.
Proof.
  intros [_ Hd Hu] [->|[(i & Hi & ->)|(va & Hva & ->)]].
  - apply Hd.
  - destruct (do_tab _ _ _ _ Hd i Hi) as (? & ? & _). done.
  - destruct (uo_page _ _ _ _ Hu va Hva) as (? & ? & _). done.
Qed.

(** ** freevm *)

Lemma freevm_loop_spec m0 d n : page_ok d →
  (∀ i j, has_tab m0 d i → has_tab m0 d j → tab m0 d i = tab m0 d j → i = j) → ∀ s l i,
  i = 1024 - Z.of_nat n → 0 <= i → free_list s l → (∀ a, in_page d a → k_mem s a = m0 a) →
  (∀ j, i <= j → has_tab m0 d j → page_ok (tab m0 d j) ∧ tab m0 d j ∉ l ∧ tab m0 d j ≠ d) →
  wp (freevm_loop kend n d i) (λ _ s', ∃ l', free_list s' l' ∧
    (∀ x, x ∈ l' ↔ x ∈ l ∨ ∃ j, i <= j ∧ has_tab m0 d j ∧ x = tab m0 d j) ∧
    (∀ a, (∀ j, i <= j → has_tab m0 d j → ¬ in_page (tab m0 d j) a) → k_mem s' a = k_mem s a)) s.
Proof.
  intros Hd Hsep. induction n as [|n IH]; intros s l i Hi Hi0 Hf Hdir Htab; cbn [freevm_loop].
  - apply wp_ret. exists l. split_and!; [done| |done]. intros x. split; [by left|].
    intros [?|(j & Hj & [Hr _] & _)]; [done|lia].
  - apply wp_bind, wp_gets. fold (pde (k_mem s) d i). rewrite (pde_ext m0) by (done || lia).
    destruct (has (pde m0 d i) PTE_P) eqn:Hp.
    + assert (Hti : has_tab m0 d i) by (split; [lia|done]). destruct (Htab i) as (Hpt & Hnl & Hne); [lia|done|].
      fold (tab m0 d i). apply wp_bind. eapply wp_mono; [by apply kfree_spec|].
      intros [] s1 (Hf1 & _ & Hout). fold (in_page (tab m0 d i)) in Hout.
      eapply wp_mono; [apply (IH s1 (tab m0 d i :: l) (i + 1)); [lia|lia|done|..]|].
      * intros a Ha. rewrite Hout; [by apply Hdir|]. intros Hin. by apply Hne, (page_apart kend _ _ a).
      * intros j Hj Hj'. destruct (Htab j) as (? & ? & ?); [lia|done|]. split_and!; try done.
        intros [E|?]%elem_of_cons; [|done]. apply Hsep in E; [lia|done..].
      * intros [] s2 (l' & Hf2 & Hl' & Hb). exists l'. split_and!; [done|..].
        -- intros x. rewrite Hl', elem_of_cons. split.
           ++ intros [[->|?]|(j & ? & ? & ->)]; [right; exists i; auto with lia|by left|right; exists j; auto with lia].
           ++ intros [?|(j & ? & ? & ->)]; [by left; right|]. destruct (decide (j = i)) as [->|]; [by left; left|].
              right. exists j. auto with lia.
        -- intros a Ha. rewrite Hb by (intros j ?; apply Ha; lia). apply Hout, Ha; [lia|done].
    + apply wp_bind, wp_ret. eapply wp_mono; [apply (IH s l (i + 1)); [lia|lia|done|done|]|].
      * intros j Hj. apply Htab. lia.
      * intros [] s2 (l' & Hf2 & Hl' & Hb). exists l'. split_and!; [done|..].
        -- intros x. rewrite Hl'. split; (intros [?|(j & Hj & Hj' & ->)]; [by left|right; exists j]); [auto with lia|].
           destruct (decide (j = i)) as [->|]; [destruct Hj'; congruence|auto with lia].
        -- intros a Ha. apply Hb. intros j Hj. apply Ha. lia.
Qed.

(** All pages of the directory are free again; nothing else changes. *)
Lemma freevm_spec d s l : uvm s d l →
  wp (freevm kend d) (λ _ s', ∃ l', free_list s' l' ∧ (∀ x, x ∈ l' ↔ x ∈ l ∨ owned (k_mem s) d x) ∧
    (∀ a, (∀ x, x ∈ l' → ¬ in_page x a) → k_mem s' a = k_mem s a)) s.
Proof.
  intros Hu. pose proof (do_dir _ _ _ _ (uv_dir _ _ _ _ Hu)) as [Hpd Hdl].
  assert (Hd0 : d ≠ 0) by (destruct Hpd as (_ & _ & ? & _); unfold KERNBASE in *; lia).
  unfold freevm. rewrite (proj2 (Z.eqb_neq _ _) Hd0). apply wp_bind.
  eapply wp_mono; [apply (deallocuvm_spec kend d s l KERNBASE 0); [done|unfold KERNBASE; lia|lia]|].
  intros _ s1 (_ & l1 & [Hu1 Hp1 Ht1 Hl1 Hb1]).
  change (PGROUNDUP 0) with 0 in *. change (PGROUNDUP KERNBASE) with KERNBASE in *.
  pose proof (uv_dir _ _ _ _ Hu1) as Hd1. apply wp_bind.
  eapply wp_mono; [apply (freevm_loop_spec (k_mem s1) d (Z.to_nat NPDENTRIES) Hpd (do_sep _ _ _ _ Hd1) s1 l1 0); try done|].
  { apply Hu1. }
  { intros j _ Hj. by apply (do_tab _ _ _ _ Hd1). }
  intros [] s2 (l2 & Hf2 & Hl2 & Hb2).
  assert (Hdl2 : d ∉ l2).
  { rewrite Hl2. intros [?|(j & _ & Hj & E)]; [by apply (proj2 (do_dir _ _ _ _ Hd1))|].
    by destruct (do_tab _ _ _ _ Hd1 j Hj) as (_ & _ & []). }
  eapply wp_mono; [by apply (kfree_spec kend s2 l2 d)|]. intros [] s3 (Hf3 & _ & Hb3).
  exists (d :: l2). split_and!; [done|..].
  - intros x. rewrite elem_of_cons, Hl2, Hl1. unfold owned. split.
    + intros [->|[[?|(va & ? & ? & ->)]|(j & _ & Hj & ->)]]; [right; by left|by left|right; right; right; eauto|].
      destruct (same_tabs_spec _ _ _ j (same_tabs_sym _ _ _ Ht1) Hj) as [? ?]. right. right. left. eauto.
    + intros [?|[->|[(i & Hi & ->)|(va & Hva & ->)]]]; [right; left; by left|by left|..].
      * destruct (same_tabs_spec _ _ _ i Ht1 Hi) as [Hi' <-]. right. right. exists i. split_and!; [by destruct Hi' as [[]]|done..].
      * right. left. right. exists va. split_and!; [done|apply Hva..|done].
  - intros a Ha. rewrite Hb3 by (apply (Ha d); left). rewrite Hb2; [apply Hb1|].
    + intros x Hx. apply Ha. right. apply Hl2. by left.
    + intros i Hi. destruct (same_tabs_spec _ _ _ i Ht1 Hi) as [Hi' <-]. apply Ha. right. apply Hl2. right.
      exists i. split_and!; [by destruct Hi' as [[]]|done..].
    + intros j Hj Hj'. apply Ha. right. apply Hl2. right. eauto.
Qed.

(** ** A directory under construction *)

(** The routines keep or take pages, as a set of the free ones and tables. *)
Lemma dir_step_pages d s l s' l' x : dir_step d s l s' l' →
  (x ∈ l ∨ is_table (k_mem s) d x) ↔
  (x ∈ l' ∨ is_table (k_mem s') d x).
Proof.
  intros Hs. split.
  - intros [Hx|(i & Hi & ->)]; [by apply (ds_gone _ _ _ _ _ _ Hs)|right].
    destruct (ds_keep _ _ _ _ _ _ Hs i Hi) as [? <-]. eauto.
  - intros [Hx|(i & Hi & ->)].
    + left. destruct (ds_used _ _ _ _ _ _ Hs) as [k ->]. apply elem_of_app. by right.
    + destruct (ds_tabs _ _ _ _ _ _ Hs i Hi) as [[? ->]|?]; [right; eauto|by left].
Qed.

Section building.
Context (X : Z → Prop) (m0 : mem) (l0 : list Z) (HX : ∀ x, X x → page_ok x ∧ x ∉ l0).
Context (Hl0 : NoDup l0) (Hl0ok : Forall page_ok l0).

(** From the free pages [l0] the directory [d] was made, and [l] is left;
    the pages of [X] are as in [m0]. *)
Record building (d : Z) (s : kmem) (l : list Z) : Prop := {
  bl_uvm : uvm s d l;
  bl_keep : pages_kept X m0 (k_mem s);
  bl_cons x : x ∈ l0 ↔ x ∈ l ∨ owned (k_mem s) d x }.

(** All is given back. *)
Definition given_back (s : kmem) : Prop :=
  ∃ l, free_list s l ∧ pages_kept X m0 (k_mem s) ∧ ∀ x, x ∈ l ↔ x ∈ l0.

(** Memory that changes in pages of [l0] only. *)
Lemma keep_outside m m' : pages_kept X m0 m →
  (∀ a, (∀ x, x ∈ l0 → ¬ in_page x a) → m' a = m a) → pages_kept X m0 m'.
Proof.
  intros Hk Hm x a Hx Ha. rewrite Hm; [by apply (Hk x a)|]. intros y Hy Hin.
  destruct (HX x Hx) as [Hpx Hn]. apply Hn. rewrite (page_apart kend x y a); [done|done| |done..].
  by apply (proj1 (Forall_forall _ _) Hl0ok).
Qed.

Lemma building_freevm d s l : building d s l → wp (freevm kend d) (λ _ s', given_back s') s.
Proof.
  intros [Hu Hk Hc]. eapply wp_mono; [by apply freevm_spec|]. intros _ s' (l' & Hf & Hl' & Hb).
  assert (Hl : ∀ x, x ∈ l' ↔ x ∈ l0) by (intros x; by rewrite Hl', Hc).
  exists l'. split_and!; [done| |done]. eapply keep_outside; [done|]. intros a Ha. apply Hb.
  intros x Hx. by apply Ha, Hl.
Qed.

(** [mappages] on the directory. *)
Lemma building_step d s l s' l' :
  building d s l → dir_step d s l s' l' → uvm s' d l' →
  (∀ x, is_frame (k_mem s') d x ↔
        is_frame (k_mem s) d x) →
  building d s' l'.
Proof.
  intros [Hu Hk Hc] Hs Hu' Hfr. split; [done|..].
  - eapply keep_outside; [done|]. intros a Ha. apply (ds_frame _ _ _ _ _ _ Hs).
    + apply Ha, Hc. right. by left.
    + intros i Hi. apply Ha, Hc. right. right. left. eauto.
    + intros x Hx. apply Ha, Hc. by left.
  - intros x. rewrite Hc. unfold owned. rewrite <- Hfr. pose proof (dir_step_pages _ _ _ _ _ x Hs). tauto.
Qed.

(** When nothing is left, the directory, its tables and frames are all. *)
Lemma building_full d s l n :
  building d s l → (∀ va, upresent (k_mem s) d va → va < PGSIZE * Z.of_nat n) →
  (length l0 <= length l + 1025 + n)%nat.
Proof.
  intros [Hu _ Hc] Hn.
  set (all := l ++ d :: ((tab (k_mem s) d <$> seqZ 0 1024) ++
                         ((λ i, frame (k_mem s) d (PGSIZE * i)) <$> seqZ 0 (Z.of_nat n)))).
  assert (Hsub : l0 ⊆ all).
  { intros x [Hx|[->|[(i & [Hi _] & ->)|(va & Hva & ->)]]]%Hc; unfold all; rewrite ?elem_of_app, ?elem_of_cons, ?elem_of_app.
    - by left.
    - by right; left.
    - right. right. left. apply list_elem_of_fmap. exists i. split; [done|]. apply elem_of_seqZ. lia.
    - right. right. right. apply list_elem_of_fmap. pose proof (Hn va Hva) as Hlt. destruct Hva as [Hva _].
      exists (va / PGSIZE). change PGSIZE with 4096 in *. split; [|apply elem_of_seqZ; dlia].
      unfold frame. rewrite (page_pte _ _ va (4096 * (va / 4096))); [done|by apply user_u32|unfold is_u32, KERNBASE in *; dlia|].
      unfold same_page. change PGSIZE with 4096. dlia. }
  apply NoDup_submseteq in Hsub; [|done]. apply submseteq_length in Hsub. unfold all in Hsub.
  rewrite length_app, length_cons, length_app, !length_fmap, !length_seqZ in Hsub. lia.
Qed.

(** *** The kernel part *)

Definition km_size (k : kmap_entry) : Z := u32 (km_end k - km_start k).
Definition in_region (k : kmap_entry) (va : Z) : Prop := km_virt k <= va < km_virt k + km_size k.

(** The regions of the table follow one another above KERNBASE. *)
Record region_ok (k : kmap_entry) : Prop := {
  ro_virt : km_virt k mod 4096 = 0 ∧ KERNBASE <= km_virt k;
  ro_size : 1 <= km_size k ∧ km_size k mod 4096 = 0 ∧ km_virt k + km_size k <= 2 ^ 32;
  ro_start : km_start k mod 4096 = 0 ∧ 0 <= km_start k ∧ km_start k + km_size k <= 2 ^ 32;
  ro_perm : 0 <= km_perm k < 4096 }.

Definition region_before (k k' : kmap_entry) : Prop := km_virt k + km_size k <= km_virt k'.

(** The entry of [va] in a region: its frame, the permissions, present. *)
Definition kentry (k : kmap_entry) (va : Z) : Z :=
  Z.lor (Z.lor (km_start k + PGSIZE * ((va - km_virt k) / PGSIZE)) (km_perm k)) PTE_P.

Definition kmapped (ks : list kmap_entry) (m : mem) (d : Z) : Prop :=
  ∀ k va, k ∈ ks → in_region k va → pte m d va = kentry k va.

(** Nothing is mapped but the regions [ks]. *)
Definition only_regions (ks : list kmap_entry) (m : mem) (d : Z) : Prop :=
  ∀ va, is_u32 va → (∀ k, k ∈ ks → ¬ in_region k va) → pte m d va = 0.

Lemma user_ok_empty m d l : (∀ va, 0 <= va < KERNBASE → pte m d va = 0) → user_ok m d l.
Proof.
  intros H. assert (Hup : ∀ va, ¬ upresent m d va).
  { intros va [Hr Hp]. rewrite H in Hp by done. by rewrite has_0 in Hp. }
  split.
  - by intros va ?%Hup.
  - by intros va i ?%Hup.
  - by intros va va' ?%Hup.
  - intros va Hva _. by apply H.
Qed.

Lemma regions_user ks m d va : Forall region_ok ks → only_regions ks m d → 0 <= va < KERNBASE → pte m d va = 0.
Proof.
  intros Hks Ho Hva. apply Ho; [by apply user_u32|]. intros k Hk Hin.
  destruct (proj1 (Forall_forall _ _) Hks k Hk) as [[_ ?] _ _ _]. unfold in_region in Hin. lia.
Qed.

(** [mappages] of one region. *)
Lemma map_region pre k d s l :
  building d s l → Forall region_ok pre → region_ok k → (∀ k', k' ∈ pre → region_before k' k) →
  kmapped pre (k_mem s) d → only_regions pre (k_mem s) d →
  wp (mappages d (km_virt k) (km_size k) (km_start k) (km_perm k)) (λ r s', ∃ l', building d s' l' ∧
    (r = 0 ∧ kmapped (pre ++ [k]) (k_mem s') d ∧ only_regions (pre ++ [k]) (k_mem s') d ∨
     r = -1 ∧ l' = [] ∧ ∀ va, ¬ upresent (k_mem s') d va)) s.
Proof.
  intros Hb Hdone [[Hv1 Hv2] [Hs1 [Hs2 Hs3]] [Hp1 [Hp2 Hp3]] Hperm] Hbef Hm Ho.
  pose proof (bl_uvm _ _ _ Hb) as Hu.
  assert (Hnot : ∀ va k', in_region k va → k' ∈ pre → ¬ in_region k' va).
  { intros va k' Hin Hk' Hin'. specialize (Hbef k' Hk'). unfold in_region, region_before in *. lia. }
  assert (Hvu : is_u32 (km_virt k)) by (unfold is_u32, KERNBASE in *; lia).
  assert (Hdown : PGROUNDDOWN (km_virt k) = km_virt k) by (rewrite PGROUNDDOWN_eq by done; dlia).
  assert (Hn : PGSIZE * ((km_virt k + km_size k - 1) / PGSIZE - km_virt k / PGSIZE + 1) = km_size k)
    by (change PGSIZE with 4096; dlia).
  eapply wp_mono; [apply (mappages_spec kend d s l); rewrite ?Hn, ?Hdown; try done; try lia; try (unfold KERNBASE in *; lia)|].
  { apply Hu. } { apply Hu. }
  { intros v Hv. rewrite Ho; [done|unfold is_u32, KERNBASE in *; lia|]. intros k' Hk'. by apply Hnot. }
  rewrite Hdown. intros r s' (l' & n & Hst & Hmap & Hr). exists l'.
  assert (H0 : ∀ va, 0 <= va < KERNBASE → pte (k_mem s) d va = 0 ∧ pte (k_mem s') d va = 0).
  { intros va Hva. pose proof (regions_user _ _ _ va Hdone Ho Hva) as E. split; [done|].
    rewrite Hmap, decide_False; [done|lia|by apply user_u32]. }
  assert (Hup : ∀ va, ¬ upresent (k_mem s) d va ∧ ¬ upresent (k_mem s') d va).
  { intros va. split; intros [Hr' Hp]; destruct (H0 va Hr') as [E1 E2]; rewrite ?E1, ?E2, has_0 in Hp; done. }
  split.
  { apply (building_step d s l s' l' Hb Hst).
    - split; [apply Hst|apply Hst|]. apply user_ok_empty. intros va Hva. by apply H0.
    - intros x. split; intros (va & Hva & _); by apply Hup in Hva. }
  destruct Hr as [(-> & -> & _)|(-> & _ & -> & _)]; [left|right; split_and!; [done..|]; intros va; apply Hup].
  unfold mapped in Hmap. rewrite Hn in Hmap. split_and!; [done|..].
  - intros k' va [Hk'| ->%list_elem_of_singleton]%elem_of_app Hin.
    + rewrite Hmap, decide_False; [by apply Hm|intros Hin'; by apply (Hnot va k')|].
      destruct (proj1 (Forall_forall _ _) Hdone k' Hk') as [? ? _ _]. unfold is_u32, in_region, KERNBASE in *. lia.
    + rewrite Hmap, decide_True; [done|done|]. unfold is_u32, in_region, KERNBASE in *. lia.
  - intros va Hva Hno. rewrite Hmap, decide_False by (done || apply Hno; set_solver).
    apply Ho; [done|]. intros k' Hk'. apply Hno. set_solver.
Qed.

(** Failing gives everything back, and takes a shortage of memory. *)
Definition no_memory (n : nat) (r : Z) (s : kmem) : Prop :=
  r = 0 ∧ given_back s ∧ (length l0 <= 1026 + n)%nat.

Lemma setupkvm_loop_spec ks d : ∀ pre s l,
  building d s l → StronglySorted region_before (pre ++ ks) → Forall region_ok (pre ++ ks) →
  kmapped pre (k_mem s) d → only_regions pre (k_mem s) d →
  wp (setupkvm_loop kend d ks) (λ r s',
    (r = d ∧ ∃ l', building d s' l' ∧ kmapped (pre ++ ks) (k_mem s') d ∧ only_regions (pre ++ ks) (k_mem s') d) ∨
    no_memory 0 r s') s.
Proof.
  induction ks as [|k ks IH]; intros pre s l Hb Hs Hok Hm Ho; cbn [setupkvm_loop].
  - apply wp_ret. left. rewrite app_nil_r. eauto.
  - apply Forall_app in Hok as Hok'. destruct Hok' as [Hd [Hk Hks]%Forall_cons].
    apply wp_bind. eapply wp_mono; [apply (map_region pre k d s l); try done|].
    { intros k' Hk'. apply (StronglySorted_app_1_elem_of _ pre (k :: ks)); [done|done|left]. }
    intros r s1 (l1 & Hb1 & [(-> & Hm1 & Ho1)|(-> & -> & Hup)]); cbn [Z.ltb Z.compare].
    + rewrite (app_assoc_middle pre ks) in Hs, Hok |- *. by eapply IH.
    + apply wp_bind. eapply wp_mono; [by eapply building_freevm|]. intros [] s2 Hg. apply wp_ret. right.
      split_and!; [done..|]. pose proof (building_full d s1 [] 0 Hb1) as Hl. simpl in Hl.
      enough (length l0 <= 1025)%nat by lia. apply Hl. by intros va ?%Hup.
Qed.

(** A new directory: one zeroed page. *)
Lemma building_start d l s s1 : l0 = d :: l → free_list s l0 → pages_kept X m0 (k_mem s) →
  free_list s1 l → k_mem s1 = k_mem s →
  let s2 := Kmem (memset (k_mem s1) d 0 PGSIZE) (use_lock s1) (freelist s1) in
  building d s2 l ∧ only_regions [] (k_mem s2) d.
Proof.
  intros El Hf Hk Hf1 Em s2. pose proof Hl0 as Hnd. rewrite El in Hnd. apply NoDup_cons in Hnd as [Hdl _].
  pose proof Hl0ok as Hok. rewrite El in Hok. apply Forall_cons in Hok as [Hpd Hpl].
  assert (Hz : ∀ a, in_page d a → k_mem s2 a = 0).
  { intros a Ha. cbn [k_mem s2]. by rewrite memset_zero, decide_True. }
  assert (Hout : ∀ a, ¬ in_page d a → k_mem s2 a = k_mem s a).
  { intros a Ha. cbn [k_mem s2]. by rewrite memset_zero, decide_False, Em. }
  destruct (zero_dir _ _ Hz) as [Hnt Hp0]. destruct (zero_dir_ok kend _ _ l Hpd Hdl Hz) as [Hd Hu].
  split; [split; [split; [|done|done]|..]|by intros va Hva _; apply Hp0].
  - apply free_list_write; [done|..].
    + intros a. rewrite memset_zero. case_decide; [done|]. apply (fl_bytes _ _ _ Hf1).
    + intros q a Hq Ha. change (k_mem s2 a = k_mem s1 a). rewrite Hout, Em; [done|]. intros Hin. apply Hdl.
      rewrite (page_apart kend d q a); [done|done| |done..]. by apply (proj1 (Forall_forall _ _) Hpl).
  - eapply keep_outside; [done|]. intros a Ha. apply Hout, Ha. rewrite El. left.
  - intros x. rewrite El, elem_of_cons. unfold owned. split.
    + intros [->|?]; [right; by left|by left].
    + intros [?|[->|[(i & Hi & _)|(va & [Hva Hp] & _)]]]; [by right|by left|by apply Hnt in Hi|].
      rewrite Hp0, has_0 in Hp by auto using user_u32. done.
Qed.

(** The kernel's data begin at a page boundary, behind its code. *)
Definition data_ok : Prop := data mod 4096 = 0 ∧ KERNLINK < data < KERNBASE + PHYSTOP.

Lemma kmap_ok : data_ok → StronglySorted region_before (kmap data) ∧ Forall region_ok (kmap data).
Proof.
  intros [Ha Hd]. unfold KERNLINK, KERNBASE, EXTMEM, PHYSTOP in Hd.
  assert (Ev : V2P data = data - 0x80000000) by (unfold V2P, KERNBASE; apply Z.mod_small; lia).
  assert (E1 : u32 (V2P data - V2P KERNLINK) = data - 0x80100000).
  { rewrite Ev. change (V2P KERNLINK) with 0x100000. unfold u32. rewrite Z.mod_small by lia. lia. }
  assert (E2 : u32 (PHYSTOP - V2P data) = 0x8E000000 - data).
  { rewrite Ev. unfold u32, PHYSTOP. rewrite Z.mod_small by lia. lia. }
  assert (E0 : u32 (EXTMEM - 0) = 0x100000) by done.
  assert (E3 : u32 (0 - DEVSPACE) = 0x2000000) by done.
  assert (E4 : V2P KERNLINK = 0x100000) by done.
  unfold kmap, region_before, km_size. split.
  - repeat constructor; cbn [km_virt km_start km_end]; rewrite ?E0, ?E1, ?E2;
      unfold KERNLINK, KERNBASE, EXTMEM, DEVSPACE; lia.
  - repeat (apply Forall_cons; split); [..|done]; split; unfold km_size; cbn [km_virt km_start km_end km_perm];
      rewrite ?E0, ?E1, ?E2, ?E3, ?E4, ?Ev; unfold KERNLINK, KERNBASE, EXTMEM, DEVSPACE, PTE_W; dlia.
Qed.

Lemma kmap_high k va : data_ok → k ∈ kmap data → in_region k va → is_u32 va ∧ KERNBASE <= va.
Proof.
  intros Hd Hk Hin. destruct (kmap_ok Hd) as [_ Hok].
  destruct (proj1 (Forall_forall _ _) Hok k Hk) as [? ? _ _]. unfold is_u32, in_region, KERNBASE in *. lia.
Qed.

Lemma setupkvm_spec s : data_ok → free_list s l0 → pages_kept X m0 (k_mem s) →
  wp (setupkvm kend data) (λ r s',
    (r ≠ 0 ∧ ∃ l', building r s' l' ∧ kmapped (kmap data) (k_mem s') r ∧ only_regions (kmap data) (k_mem s') r) ∨
    no_memory 0 r s') s.
Proof.
  intros Hdata Hf Hk. destruct (kmap_ok Hdata) as [Hs Hok].
  unfold setupkvm. apply wp_bind. eapply wp_mono; [by apply kalloc_spec|]. intros r s1 (Em & _ & Hl).
  assert (Hc : (l0 = [] ∧ r = 0 ∧ free_list s1 []) ∨ ∃ d l, l0 = d :: l ∧ r = d ∧ r ≠ 0 ∧ free_list s1 l)
    by (clear -Hl; destruct l0; naive_solver).
  clear Hl. destruct Hc as [(El & -> & Hf1)|(d & l & El & -> & Hne & Hf1)].
  - apply wp_ret. right. unfold no_memory. split_and!; [done| |rewrite El; simpl; lia].
    exists []. split_and!; [done|by rewrite Em|by rewrite El].
  - rewrite (proj2 (Z.eqb_neq _ _) Hne). apply wp_bind, wp_modify.
    change (P2V PHYSTOP >? DEVSPACE) with false. cbv iota.
    destruct (building_start d l s s1 El Hf Hk Hf1 Em) as [Hb Ho].
    eapply wp_mono; [apply (setupkvm_loop_spec (kmap data) d [] _ _ Hb Hs Hok); [by intros k va ?%elem_of_nil|done]|].
    intros r s2 [[-> Hr]|Hr]; [by left|by right].
Qed.

(** [kvmalloc] loads a directory that maps the kernel and nothing else.  It
    does not look whether there was memory for it: without, the register
    points to the frame of address 0. *)
Lemma kvmalloc_spec (s : kvm) : data_ok → free_list (kv_mem s) l0 → pages_kept X m0 (k_mem (kv_mem s)) →
  wp (kvmalloc kend data) (λ _ s', kv_cr3 s' = V2P (kpgdir s') ∧
    ((kpgdir s' ≠ 0 ∧ ∃ l', building (kpgdir s') (kv_mem s') l' ∧
        kmapped (kmap data) (k_mem (kv_mem s')) (kpgdir s') ∧ only_regions (kmap data) (k_mem (kv_mem s')) (kpgdir s')) ∨
     no_memory 0 (kpgdir s') (kv_mem s'))) s.
Proof.
  intros Hdata Hf Hk. destruct (wp_elim _ _ _ (setupkvm_spec (kv_mem s) Hdata Hf Hk)) as (r & m & E & H).
  unfold kvmalloc. apply wp_bind. unfold wp at 1, lift. rewrite E. apply wp_bind, wp_modify, wp_modify. by split.
Qed.

(** *** The user part *)

Lemma frames_add m m' d q i w x :
  (∀ va, is_u32 va → pte m' d va = if decide (same_page va i) then w else pte m d va) →
  has w PTE_P = true → P2V (PTE_ADDR w) = q → 0 <= i < KERNBASE → pte m d i = 0 →
  is_frame m' d x ↔ x = q ∨ is_frame m d x.
Proof.
  intros Hp Hw Hq Hi H0. split.
  - intros (va & [Hr Hpr] & ->). unfold frame. rewrite Hp in * by auto using user_u32.
    case_decide; [by left|right]. by exists va.
  - intros [->|(va & [Hr Hpr] & ->)].
    + exists i. unfold upresent, frame. rewrite Hp, decide_True; [by rewrite Hq|done|by apply user_u32].
    + exists va. unfold upresent, frame. rewrite Hp, decide_False; [done| |by apply user_u32].
      intros Hsp. rewrite (page_pte _ _ i), H0, has_0 in Hpr; [done|by apply user_u32..|by symmetry].
Qed.

(** The page [q] has been taken and written, and [mappages] was called. *)
Lemma building_took d s q l s2 s3 l3 :
  building d s (q :: l) → (∀ x, ¬ in_page q x → k_mem s2 x = k_mem s x) → same_tabs d (k_mem s) (k_mem s2) →
  dir_step d s2 l s3 l3 →
  pages_kept X m0 (k_mem s3) ∧
  (∀ x, x ∈ l0 ↔ x = q ∨ x ∈ l3 ∨ x = d ∨ is_table (k_mem s3) d x ∨
     is_frame (k_mem s) d x).
Proof.
  intros [Hu Hk Hc] Hout Ht Hs. 
  pose proof (λ x, same_tables _ _ d x Ht) as Htab.
  split.
  - eapply keep_outside; [done|]. intros a Ha. rewrite (ds_frame _ _ _ _ _ _ Hs).
    + apply Hout, Ha, Hc. left. left.
    + apply Ha, Hc. right. by left.
    + intros i Hi. apply Ha, Hc. right. right. left. apply Htab. eauto.
    + intros x Hx. apply Ha, Hc. left. by right.
  - intros x. rewrite Hc, elem_of_cons. unfold owned.
    pose proof (dir_step_pages _ _ _ _ _ x Hs) as Hp. rewrite (Htab x) in Hp. tauto.
Qed.

Lemma flags_present e : has e PTE_P = true → Z.lor (PTE_FLAGS e) PTE_P = PTE_FLAGS e.
Proof.
  intros H. unfold has in H. apply Z.bits_inj'. intros n Hn. rewrite Z.lor_spec.
  destruct (decide (n = 0)) as [->|]; [|change PTE_P with (Z.ones 1); rewrite (Z.ones_spec_high 1 n) by lia; apply orb_false_r].
  change (Z.testbit PTE_P 0) with true. rewrite orb_true_r. symmetry. unfold PTE_FLAGS.
  rewrite Z.land_spec. change (Z.testbit 0xFFF 0) with true. rewrite andb_true_r.
  destruct (Z.testbit e 0) eqn:E; [done|]. exfalso. apply negb_true_iff, Z.eqb_neq in H. apply H.
  change PTE_P with (Z.ones 1). rewrite Z.land_ones by lia. rewrite Z.bit0_odd in E.
  rewrite Zmod_odd. by rewrite E.
Qed.

Section copy.
Context (p : Z) (Hmp : ∀ x, owned m0 p x → X x) (top : Z) (Htop : 0 <= top <= KERNBASE).
Context (Hdata : data_ok) (Hpar : ∀ va, 0 <= va < top → upresent m0 p va) (Hpown : ∃ sp lp, k_mem sp = m0 ∧ uvm sp p lp).

(** The pages below [i] are copied. *)
Record copied (i d : Z) (m : mem) : Prop := {
  cp_new va : 0 <= va < i → upresent m d va ∧ PTE_FLAGS (pte m d va) = PTE_FLAGS (pte m0 p va) ∧
    ubyte m d va = ubyte m0 p va;
  cp_rest va : i <= va < KERNBASE → pte m d va = 0;
  cp_kern : kmapped (kmap data) m d }.

(** The entry of the parent, as [copyuvm] finds it. *)
Lemma parent_entry d s l i : building d s l → 0 <= i < top →
  ∃ a, a ≠ 0 ∧ walkpgdir p i false s = Ret a s ∧ load_word (k_mem s) a = pte m0 p i.
Proof.
  intros Hb Hi. pose proof (Hpar i Hi) as Hup. apply upresent_tab in Hup as Ht.
  assert (Hk : pages_kept (owned m0 p) m0 (k_mem s)).
  { intros x a Hx. by apply (bl_keep _ _ _ Hb), Hmp. }
  destruct (same_tabs_spec _ _ _ _ (owned_tabs _ _ _ Hk) Ht) as [Ht' Et].
  rewrite walk_false, (proj2 Ht'). eexists. split; [|split; [done|]].
  - destruct Hpown as (sp & lp & <- & [_ Hd _]). destruct (do_tab _ _ _ _ Hd _ Ht) as ((_ & _ & ? & _) & _).
    rewrite Et. pose proof (PTX_bound i). unfold KERNBASE in *. lia.
  - rewrite <- (owned_map _ _ _ Hk) by (apply user_u32; lia). unfold pte. by rewrite (proj2 Ht').
Qed.

(** The page [q] taken for a copy of the page of the parent at [i]. *)
Lemma copy_page d s q l s1 i :
  building d s (q :: l) → free_list s1 l → k_mem s1 = k_mem s → 0 <= i < top →
  let s2 := Kmem (memmove (k_mem s1) q (frame m0 p i) PGSIZE) (use_lock s1) (freelist s1) in
  free_list s2 l ∧ (∀ x, ¬ in_page q x → k_mem s2 x = k_mem s x) ∧
  (∀ va, same_page va i → 0 <= va < KERNBASE → k_mem s2 (q + va mod PGSIZE) = ubyte m0 p va).
Proof.
  intros Hb Hf1 Em Hi s2. pose proof (bl_uvm _ _ _ Hb) as Hu.
  pose proof (fl_nodup _ _ _ (uv_free _ _ _ _ Hu)) as [Hql _]%NoDup_cons.
  pose proof (fl_ok _ _ _ (uv_free _ _ _ _ Hu)) as [Hqq Hll]%Forall_cons.
  assert (Hm : ∀ x, k_mem s2 x = if decide (in_page q x) then k_mem s (frame m0 p i + (x - q)) else k_mem s x).
  { intros x. cbn [k_mem s2]. rewrite memmove_copies by done. by rewrite Em. }
  split_and!.
  - apply free_list_write; [done|..].
    + intros a. fold (k_mem s2 a). change (memmove _ _ _ _ a) with (k_mem s2 a). rewrite Hm.
      case_decide; apply (fl_bytes _ _ _ (uv_free _ _ _ _ Hu)).
    + intros y a Hy Ha. change (memmove _ _ _ _ a) with (k_mem s2 a). rewrite Hm, decide_False, Em; [done|].
      intros Hin. apply Hql. rewrite (page_apart kend q y a); [done|done| |done..].
      by apply (proj1 (Forall_forall _ _) Hll).
  - intros x Hx. by rewrite Hm, decide_False.
  - intros va Hsp Hva. rewrite Hm, decide_True by (unfold in_page; change PGSIZE with 4096; dlia).
    replace (q + va mod PGSIZE - q) with (va mod PGSIZE) by lia. unfold ubyte.
    assert (Ef : frame m0 p va = frame m0 p i).
    { unfold frame. by rewrite (page_pte _ _ i va) by (done || apply user_u32; lia). }
    rewrite Ef. apply (bl_keep _ _ _ Hb (frame m0 p i)); [|rewrite <- Ef; apply ubyte_in].
    apply Hmp. right. right. exists i. split; [by apply Hpar|done].
Qed.

Lemma copied_step d s s2 s3 q i :
  copied i d (k_mem s) → kept d (k_mem s) (k_mem s3) → page_ok q → 0 <= i < top → i mod 4096 = 0 →
  (∀ va, is_u32 va → pte (k_mem s3) d va =
     if decide (same_page va i) then Z.lor (V2P q) (Z.lor (PTE_FLAGS (pte m0 p i)) PTE_P) else pte (k_mem s) d va) →
  (∀ x, in_page q x → k_mem s3 x = k_mem s2 x) →
  (∀ va, same_page va i → 0 <= va < KERNBASE → k_mem s2 (q + va mod PGSIZE) = ubyte m0 p va) →
  copied (i + 4096) d (k_mem s3).
Proof.
  intros [Hn Hr Hkn] Hk Hq Hi Hal Hp Hin Hs2. destruct (page_frame kend q Hq) as (Hb & Hqa & HPV & _).
  destruct (entry_fields (V2P q) (Z.lor (PTE_FLAGS (pte m0 p i)) PTE_P)) as (_ & Ea & Ef).
  { unfold PHYSTOP in *. lia. } { done. }
  { apply flags_bound. rewrite PTE_FLAGS_eq. dlia. }
  rewrite flags_present in Ef at 2 by apply (Hpar i Hi).
  assert (Hsame : ∀ va, 0 <= va → same_page va i ↔ i <= va < i + 4096).
  { intros va Hva. unfold same_page. change PGSIZE with 4096. split; dlia. }
  split.
  - intros va Hva. destruct (decide (same_page va i)) as [Hsp|Hsp].
    + assert (Hr' : 0 <= va < KERNBASE) by (apply Hsame in Hsp as ?; [unfold KERNBASE in *; dlia|lia]).
      assert (Ep : pte (k_mem s3) d va = Z.lor (V2P q) (Z.lor (PTE_FLAGS (pte m0 p i)) PTE_P)).
      { by rewrite Hp, decide_True by auto using user_u32. }
      unfold upresent, ubyte at 1, frame. rewrite Ep, Ea, HPV, Ef.
      rewrite (page_pte m0 p i va) by (apply user_u32; unfold KERNBASE in *; lia) || done.
      split_and!; [lia|lia|rewrite Z.lor_assoc; by rewrite has_lor|done|].
      rewrite Hin by (unfold in_page; change PGSIZE with 4096; dlia). by apply Hs2.
    + destruct (Hn va) as (Hup & Hfl & Hby).
      { rewrite Hsame in Hsp by lia. lia. }
      destruct (Hk va Hup) as [E Hbytes]. unfold upresent, ubyte, frame in *. rewrite E.
      split_and!; [apply Hup|apply Hup|apply Hup|done|]. rewrite Hbytes; [done|].
      apply (ubyte_in (k_mem s) d va).
  - intros va Hva. rewrite Hp, decide_False; [apply Hr; lia|rewrite Hsame; lia|apply user_u32; lia].
  - intros k va Hkin Hreg. destruct (kmap_high k va Hdata Hkin Hreg) as [Hva Hhigh].
    rewrite Hp, decide_False; [by apply Hkn|rewrite Hsame; unfold KERNBASE in *; dlia|done].
Qed.

Lemma copied_full d s l i : building d s l → copied i d (k_mem s) → 0 <= i → i mod 4096 = 0 →
  (length l <= 1)%nat → (length l0 <= 1026 + Z.to_nat (i / 4096))%nat.
Proof.
  intros Hb Hc Hi Hal Hl. pose proof (building_full d s l (Z.to_nat (i / 4096)) Hb) as Hn.
  enough (length l0 <= length l + 1025 + Z.to_nat (i / 4096))%nat by lia. apply Hn.
  intros va [Hr Hp]. change PGSIZE with 4096. destruct (decide (va < i)); [dlia|].
  rewrite (cp_rest _ _ _ Hc), has_0 in Hp by lia. done.
Qed.

(** A page that could not be mapped is given back. *)
Lemma spare_page d s s3 q :
  page_ok q → user_ok (k_mem s3) d [q] → free_list s3 [] → dir_ok (k_mem s3) d [q] →
  same_map d (k_mem s) (k_mem s3) → pages_kept X m0 (k_mem s3) →
  (∀ x, x ∈ l0 ↔ x = q ∨ False ∨ x = d ∨ is_table (k_mem s3) d x ∨
     is_frame (k_mem s) d x) →
  wp (kfree kend q) (λ _ s4, building d s4 [q]) s3.
Proof.
  intros Hq Hu Hf Hd Hm Hk Hc.
  assert (Hd' : dir_ok (k_mem s3) d []) by (eapply dir_ok_sub; [done|apply list_subseteq_nil]).
  eapply wp_mono; [apply (kfree_dir kend d s3 [] q); [done|done|done|apply not_elem_of_nil|]|].
  { apply (dir_no_tab kend _ _ [q]); [done|left]. }
  intros _ s4 (Hf4 & Hd4 & Ht4 & Hm4 & Hout). split.
  - split; [done|done|]. by apply (user_ok_ext kend (k_mem s3)).
  - eapply keep_outside; [done|]. intros a Ha. apply Hout, Ha, Hc. by left.
  - intros x. rewrite Hc. unfold owned.
    rewrite (same_frames _ _ _ x Hm4), (same_frames _ _ _ x Hm), (same_tables _ _ _ x Ht4), list_elem_of_singleton.
    tauto.
Qed.

(** One round of the loop, when there is a page. *)
Lemma copy_one d s q l s1 i :
  building d s (q :: l) → free_list s1 l → k_mem s1 = k_mem s → copied i d (k_mem s) →
  0 <= i < top → i mod 4096 = 0 →
  let s2 := Kmem (memmove (k_mem s1) q (frame m0 p i) PGSIZE) (use_lock s1) (freelist s1) in
  wp (mappages d i PGSIZE (V2P q) (PTE_FLAGS (pte m0 p i))) (λ r s3,
    (r = 0 ∧ ∃ l3, building d s3 l3 ∧ copied (i + 4096) d (k_mem s3)) ∨
    (r = -1 ∧ (length l0 <= 1026 + Z.to_nat (i / 4096))%nat ∧
     wp (kfree kend q) (λ _ s4, building d s4 [q]) s3)) s2.
Proof.
  intros Hb Hf1 Em Hc Hi Hal s2. pose proof (bl_uvm _ _ _ Hb) as Hu.
  destruct (copy_page d s q l s1 i Hb Hf1 Em Hi) as (Hf2 & Hout & Hbytes). fold s2 in Hf2, Hout, Hbytes.
  pose proof (fl_ok _ _ _ (uv_free _ _ _ _ Hu)) as [Hqq _]%Forall_cons.
  destruct (write_free kend d s (q :: l) (k_mem s2) q Hu) as (_ & _ & _ & Ht2 & _); [left|done|].
  assert (H0 : pte (k_mem s) d i = 0) by (apply Hc; lia).
  assert (Hik : i + 4096 <= KERNBASE) by (unfold KERNBASE in *; dlia).
  eapply wp_mono; [apply (map_fresh kend d s q l s2 i); try done; [lia|rewrite PTE_FLAGS_eq; dlia|rewrite H0; apply has_0]|].
  intros r s3 (l3 & Hs & Hk & [(-> & _ & Hu3 & Hp & Hin)|(-> & -> & -> & Hd3 & Hu3 & Hm)]);
    destruct (building_took d s q _ s2 s3 _ Hb Hout Ht2 Hs) as [Hkeep Hcons].
  - left. split; [done|]. exists l3. assert (Hc3 : copied (i + 4096) d (k_mem s3)) by by eapply copied_step.
    split; [|done]. split; [done|done|]. intros x. rewrite Hcons. unfold owned.
    destruct (page_frame kend q Hqq) as (? & ? & HPV & _).
    destruct (entry_fields (V2P q) (Z.lor (PTE_FLAGS (pte m0 p i)) PTE_P)) as (_ & Ea & _);
      [unfold PHYSTOP in *; lia|done|apply flags_bound; rewrite PTE_FLAGS_eq; dlia|].
    rewrite (frames_add (k_mem s) (k_mem s3) d q i _ x Hp); [| |by rewrite Ea|lia|done]; [tauto|].
    rewrite Z.lor_assoc. by rewrite has_lor.
  - right. split_and!; [done|eapply (copied_full d s [q]); [done|done|lia|done|simpl; lia]|].
    eapply spare_page; [done|done|apply Hs|done|done|done|]. intros x. rewrite Hcons. by rewrite elem_of_nil.
Qed.

Lemma copyuvm_loop_spec sz d fuel : ∀ s l i,
  building d s l → copied i d (k_mem s) → 0 <= sz <= KERNBASE → top = PGROUNDUP sz → 0 <= i <= top → i mod 4096 = 0 →
  top - i <= 4096 * (Z.of_nat fuel - 1) → (1 <= fuel)%nat →
  wp (copyuvm_loop kend fuel p d i sz) (λ r s',
    (r = d ∧ ∃ l', building d s' l' ∧ copied top d (k_mem s')) ∨
    no_memory (Z.to_nat (top / 4096)) r s') s.
Proof.
  intros s l i Hb Hc Hsz Et. revert s l i Hb Hc.
  rewrite PGROUNDUP_eq in Et by (unfold KERNBASE in *; lia).
  induction fuel as [|fuel IH]; intros s l i Hb Hc Hi Hal Hf Hf1; [lia|]. cbn [copyuvm_loop].
  destruct (Z.ltb_spec i sz) as [Hlt|Hge]; cbn [negb].
  2: { apply wp_ret. left. split; [done|]. exists l. split; [done|]. by replace top with i by dlia. }
  assert (Hit : i + 4096 <= top) by dlia.
  destruct (parent_entry d s l i Hb) as (a & Ha & Hw & He); [lia|].
  apply wp_bind. eapply wp_intro; [exact Hw|]. rewrite (proj2 (Z.eqb_neq _ _) Ha).
  apply wp_bind, wp_gets. rewrite He. rewrite (proj2 (Hpar i ltac:(lia))). cbn [negb].
  apply wp_bind. eapply wp_mono; [apply (kalloc_spec kend s l), Hb|]. intros r s1 (Em & _ & Hl).
  assert (Hmono : (Z.to_nat (i / 4096) <= Z.to_nat (top / 4096))%nat) by (apply Z2Nat.inj_le; dlia).
  assert (Hfail : ∀ sf lf, building d sf lf → (length l0 <= 1026 + Z.to_nat (i / 4096))%nat →
    wp (freevm kend d;; mret 0) (no_memory (Z.to_nat (top / 4096))) sf).
  { intros sf lf Hbf Hlen. apply wp_bind. eapply wp_mono; [by eapply building_freevm|]. intros [] s' Hg.
    apply wp_ret. split_and!; [done|done|lia]. }
  destruct l as [|q l].
  - destruct Hl as [-> Hfl]. cbn [Z.eqb]. eapply wp_mono; [eapply (Hfail s1 []); [|eapply (copied_full d s []); [done|done|lia|done|simpl; lia]]|by right].
    destruct Hb as [Hu Hk Hcn]. split; [|by rewrite Em|by rewrite Em]. destruct Hu as [_ ? ?]. by split; rewrite ?Em.
  - destruct Hl as (-> & Hne & Hfl). rewrite (proj2 (Z.eqb_neq _ _) Hne). apply wp_bind, wp_modify, wp_bind.
    fold (frame m0 p i). eapply wp_mono; [eapply copy_one; [done|done|done|done|lia|done]|].
    intros r s3 [(-> & l3 & Hb3 & Hc3)|(-> & Hlen & Hkf)]; cbn [Z.ltb Z.compare].
    + replace (u32 (i + PGSIZE)) with (i + 4096).
      2: { symmetry. apply Z.mod_small. change PGSIZE with 4096. unfold KERNBASE in *. lia. }
      eapply IH; [done..|lia|dlia|lia|lia].
    + apply wp_bind. eapply wp_mono; [exact Hkf|]. intros [] s4 Hb4.
      eapply wp_mono; [by eapply Hfail|by right].
Qed.
End copy.
End building.

(** The parent, when only pages that were free have changed. *)
Definition parent_same (p : Z) (s s' : kmem) (l' : list Z) : Prop :=
  uvm s' p l' ∧ same_map p (k_mem s) (k_mem s') ∧
  ∀ va, upresent (k_mem s) p va → ubyte (k_mem s') p va = ubyte (k_mem s) p va.

Lemma parent_kept p s l s' l' :
  uvm s p l → free_list s' l' → pages_kept (owned (k_mem s) p) (k_mem s) (k_mem s') →
  (∀ x, x ∈ l' → x ∈ l) → parent_same p s s' l'.
Proof.
  intros Hu Hf' Hk Hsub. split_and!; [|by apply owned_map|].
  - apply (uvm_transfer s s' p l l' Hu Hk Hf'). intros x Hx Hin.
    by apply (owned_page _ _ _ _ Hu Hx), Hsub.
  - intros va Hva. destruct (owned_kept _ _ _ Hk va Hva) as [E Hb]. unfold ubyte, frame. rewrite E.
    apply Hb, ubyte_in.
Qed.

Lemma parent_back p s l n r s' :
  uvm s p l → no_memory (owned (k_mem s) p) (k_mem s) l n r s' →
  r = 0 ∧ ∃ l', parent_same p s s' l' ∧ l' ≡ₚ l ∧ (length l <= 1026 + n)%nat.
Proof.
  intros Hu (-> & (l' & Hf' & Hk & Hl) & Hlen). split; [done|]. exists l'. split_and!; [|..|done].
  - apply (parent_kept p s l); [done..|]. by apply Hl.
  - apply NoDup_Permutation; [apply Hf'|apply Hu|done].
Qed.

(** C11: fork copies the memory of a process.  When the pages of the parent
    [p] below [sz] are mapped, [copyuvm] returns a new directory whose user
    memory below [sz] holds the same bytes with the same permissions, in
    pages that are not those of the parent, and nothing above; it maps the
    kernel as the table [kmap] says.  Or it returns null, which happens only
    when there are few free pages, and then all pages that were free are
    free again.  The parent keeps its pages and their contents. *)
Theorem copyuvm_copies p s l sz :
  data_ok → uvm s p l → 0 <= sz <= KERNBASE →
  (∀ va, 0 <= va < PGROUNDUP sz → upresent (k_mem s) p va) →
  wp (copyuvm kend data p sz) (λ d s', ∃ l', parent_same p s s' l' ∧
    ((d ≠ 0 ∧ uvm s' d l' ∧ kmapped (kmap data) (k_mem s') d ∧
      (∀ va, 0 <= va < PGROUNDUP sz →
         upresent (k_mem s') d va ∧ ubyte (k_mem s') d va = ubyte (k_mem s) p va ∧
         PTE_FLAGS (pte (k_mem s') d va) = PTE_FLAGS (pte (k_mem s) p va) ∧
         ¬ owned (k_mem s') p (frame (k_mem s') d va)) ∧
      (∀ va, PGROUNDUP sz <= va < KERNBASE → pte (k_mem s') d va = 0)) ∨
     (d = 0 ∧ l' ≡ₚ l ∧ (length l <= 1026 + Z.to_nat (PGROUNDUP sz / PGSIZE))%nat))) s.
Proof.
  intros Hdata Hu Hsz Hpar. set (X := owned (k_mem s) p).
  destruct (uv_free _ _ _ _ Hu) as [_ _ Hnd Hok].
  assert (HX : ∀ x, X x → page_ok x ∧ x ∉ l) by (intros x Hx; by eapply owned_page).
  assert (Htop : 0 <= PGROUNDUP sz <= KERNBASE) by (rewrite PGROUNDUP_eq; unfold KERNBASE in *; dlia).
  unfold copyuvm. apply wp_bind.
  eapply wp_mono; [apply (setupkvm_spec X (k_mem s) l HX Hnd Hok s Hdata); [apply Hu|done]|].
  intros d s1 [(Hd & l1 & Hb1 & Hk1 & Ho1)|Hno].
  2: { destruct (parent_back p s l _ _ _ Hu Hno) as (-> & l' & Hp & Hl & Hlen). apply wp_ret.
       exists l'. split; [done|]. right. split_and!; [done..|lia]. }
  rewrite (proj2 (Z.eqb_neq _ _) Hd).
  assert (Hc1 : copied (k_mem s) p 0 d (k_mem s1)).
  { split; [lia| |done]. intros va Hva. eapply regions_user; [by apply kmap_ok|done|done]. }
  eapply wp_mono; [eapply (copyuvm_loop_spec X (k_mem s) l HX Hnd Hok p); try done; try lia; [by eauto|change PGSIZE with 4096; rewrite PGROUNDUP_eq; unfold KERNBASE in *; dlia]|].
  intros r s2 [(-> & l2 & Hb2 & Hc2)|Hno].
  - exists l2. split; [apply (parent_kept p s l); [done|apply Hb2|apply Hb2|]; intros x Hx; apply Hb2; by left|].
    left. split_and!; [done|apply Hb2|apply Hc2| |apply Hc2]. intros va Hva.
    destruct (cp_new _ _ _ _ _ Hc2 va Hva) as (H1 & H2 & H3). split_and!; [done..|].
    rewrite (owned_same _ _ _ (bl_keep _ _ _ _ _ _ Hb2)). intros Hx. apply (HX _ Hx).
    apply (bl_cons _ _ _ _ _ _ Hb2). right. right. right. eauto.
  - destruct (parent_back p s l _ _ _ Hu Hno) as (-> & l' & Hp & Hl & Hlen).
    exists l'. split; [done|]. right. by split_and!.
Qed.
End vmcopy.

(** A process with two pages, made by [allocuvm]. *)
Lemma demo_process : ∃ s l, uvm demo_base s demo_base l ∧
  ∀ va, 0 <= va < PGROUNDUP 5000 → upresent (k_mem s) demo_base va.
Proof.
  assert (Hun : ∀ va, PGROUNDUP 0 <= va < PGROUNDUP 5000 → pte (k_mem demo_kmem) demo_base va = 0).
  { intros va Hva. apply zero_dir; [exact demo_zero|]. change (0 <= va < 8192) in Hva. unfold is_u32. lia. }
  destruct (wp_elim _ _ _ (allocuvm_spec demo_base demo_base demo_kmem demo_pages 0 5000 demo_uvm
    ltac:(lia) ltac:(reflexivity) Hun)) as (r & s & _ & [(_ & l & Hg)|(_ & Hl & _)]).
  - exists s, l. split; [apply Hg|]. intros va Hva. by apply Hg.
  - exfalso. apply Hl. by vm_compute.
Qed.

Lemma copyuvm_copies_witness : ∃ s l d s',
  uvm demo_base s demo_base l ∧ (∀ va, 0 <= va < PGROUNDUP 5000 → upresent (k_mem s) demo_base va) ∧
  copyuvm demo_base (KERNLINK + 4096) demo_base 5000 s = Ret d s' ∧
  same_map demo_base (k_mem s) (k_mem s') ∧ ubyte (k_mem s') demo_base 4999 = ubyte (k_mem s) demo_base 4999.
Proof.
  destruct demo_process as (s & l & Hu & Hp).
  assert (Hd : data_ok (KERNLINK + 4096)) by (split; [reflexivity|split; reflexivity]).
  assert (Hsz : 0 <= 5000 <= KERNBASE) by (split; discriminate).
  destruct (wp_elim _ _ _ (copyuvm_copies demo_base (KERNLINK + 4096) demo_base s l 5000 Hd Hu Hsz Hp))
    as (d & s' & E & l' & (_ & Hm & Hb) & _).
  exists s, l, d, s'. split_and!; [exact Hu|exact Hp|exact E|exact Hm|]. apply Hb, Hp. change (PGROUNDUP 5000) with 8192. lia.
Defined.
