(* ===== verification/Sleeplock.v ===== *)
(** * sleeplock.c: long-term locks

    A sleep lock seen by the thread of process [pid].  The spin lock
    inside it makes each routine one atomic step; [acquiresleep] on a
    held lock puts the caller to sleep. *)

From S2P Require Import Prelude.

Record sleeplock := Sleeplock { lk_locked : Z; lk_pid : Z }.

Definition initsleeplock : sleeplock := Sleeplock 0 0.

Definition acquiresleep (pid : Z) : M sleeplock unit :=
  lk ← getS;
  if negb (lk_locked lk =? 0) then sleeps else putS (Sleeplock 1 pid).

Definition releasesleep : M sleeplock unit := putS (Sleeplock 0 0).

Definition holdingsleep (pid : Z) : M sleeplock bool :=
  gets (λ lk, negb (lk_locked lk =? 0) && (lk_pid lk =? pid)).

Lemma holdingsleep_held pid : holdingsleep pid (Sleeplock 1 pid) = Ret true (Sleeplock 1 pid).
Proof. unfold holdingsleep, gets; cbn. by rewrite Z.eqb_refl. Qed.
