(* ===== verification/Bio.v ===== *)
(** * bio.c over memide.c: the buffer cache and its disk

    The cache is the array [bcache.buf] with the list head [bcache.head]
    as its last element ([HEAD]); buffers point at each other by index.
    The disk is the in-memory disk of memide.c, with the list of block
    writes that reached it.  [me] is the pid of the running process;
    regions under [bcache.lock] are single steps. *)

From S2P Require Import Prelude Layout Sleeplock.

Record buf := Buf {
  b_flags : Z; b_dev : Z; b_blockno : Z; b_lock : sleeplock; b_refcnt : Z;
  b_prev : nat; b_next : nat; b_data : block }.

#[global] Instance buf_inhabited : Inhabited buf :=
  populate (Buf 0 0 0 initsleeplock 0 0%nat 0%nat zero_block).

Record bio := Bio {
  bufs : list buf;
  disk : gmap Z block;
  disksize : Z;
  writes : list (Z * block) }.

Definition HEAD : nat := NBUF.

(** ** Field updates *)

Definition with_flags (v : Z) (b : buf) : buf :=
  Buf v (b_dev b) (b_blockno b) (b_lock b) (b_refcnt b) (b_prev b) (b_next b) (b_data b).
Definition with_refcnt (v : Z) (b : buf) : buf :=
  Buf (b_flags b) (b_dev b) (b_blockno b) (b_lock b) v (b_prev b) (b_next b) (b_data b).
Definition with_lock (v : sleeplock) (b : buf) : buf :=
  Buf (b_flags b) (b_dev b) (b_blockno b) v (b_refcnt b) (b_prev b) (b_next b) (b_data b).
Definition with_prev (v : nat) (b : buf) : buf :=
  Buf (b_flags b) (b_dev b) (b_blockno b) (b_lock b) (b_refcnt b) v (b_next b) (b_data b).
Definition with_next (v : nat) (b : buf) : buf :=
  Buf (b_flags b) (b_dev b) (b_blockno b) (b_lock b) (b_refcnt b) (b_prev b) v (b_data b).
Definition with_data (v : block) (b : buf) : buf :=
  Buf (b_flags b) (b_dev b) (b_blockno b) (b_lock b) (b_refcnt b) (b_prev b) (b_next b) v.

Definition with_bufs (f : list buf → list buf) (s : bio) : bio :=
  Bio (f (bufs s)) (disk s) (disksize s) (writes s).

(** [&bcache.buf[i]] *)
Definition buf_at (s : bio) (i : nat) : buf := bufs s !!! i.

(** Apply an update to buffer [i]. *)
Definition upd_buf (i : nat) (f : buf → buf) (s : bio) : bio := with_bufs (alter f i) s.

Definition on_lock {A} (i : nat) (m : M sleeplock A) : M bio A :=
  lift (λ s, b_lock (buf_at s i)) (λ lk, upd_buf i (with_lock lk)) m.

(** The stored content of a disk block. *)
Definition disk_block (s : bio) (b : Z) : block := default zero_block (disk s !! b).

Section bio_code.
Variable me : Z.

(** ** binit *)

(** One iteration of the loop: insert [b] between [head] and
    [head.next]. *)
Definition push_front (b : nat) (bs : list buf) : list buf :=
  let bs := alter (with_next (b_next (bs !!! HEAD))) b bs in
  let bs := alter (with_prev HEAD) b bs in
  let bs := alter (with_prev b) (b_next (bs !!! HEAD)) bs in
  alter (with_next b) HEAD bs.

Definition binit_loop (bs : list buf) : list buf :=
  foldl (λ bs b, push_front b (alter (with_lock initsleeplock) b bs)) bs (seq 0 NBUF).

Definition binit (s : bio) : bio :=
  with_bufs (λ bs,
    binit_loop (alter (with_next HEAD) HEAD (alter (with_prev HEAD) HEAD bs))) s.

(** ** bget *)

(** "Is the block already cached?": walk [next] from [b].  The outer
    [None] is a walk longer than the fuel. *)
Fixpoint bget_hit (fuel : nat) (bs : list buf) (dev blockno : Z) (b : nat)
    : option (option nat) :=
  match fuel with
  | O => None
  | S fuel' =>
    if (b =? HEAD)%nat then Some None
    else if (b_dev (bs !!! b) =? dev) && (b_blockno (bs !!! b) =? blockno)
    then Some (Some b)
    else bget_hit fuel' bs dev blockno (b_next (bs !!! b))
  end.

(** "Recycle an unused buffer": walk [prev] from [b]. *)
Fixpoint bget_victim (fuel : nat) (bs : list buf) (b : nat) : option (option nat) :=
  match fuel with
  | O => None
  | S fuel' =>
    if (b =? HEAD)%nat then Some None
    else if (b_refcnt (bs !!! b) =? 0) && (Z.land (b_flags (bs !!! b)) B_DIRTY =? 0)
    then Some (Some b)
    else bget_victim fuel' bs (b_prev (bs !!! b))
  end.

Definition recycle (dev blockno : Z) (b : buf) : buf :=
  Buf 0 dev blockno (b_lock b) 1 (b_prev b) (b_next b) (b_data b).

Definition bget (dev blockno : Z) : M bio nat :=
  s ← getS;
  match bget_hit (S NBUF) (bufs s) dev blockno (b_next (buf_at s HEAD)) with
  | None => diverge
  | Some (Some b) =>
    modify (upd_buf b (λ x, with_refcnt (u32 (b_refcnt x + 1)) x));;
    on_lock b (acquiresleep me);;
    mret b
  | Some None =>
    match bget_victim (S NBUF) (bufs s) (b_prev (buf_at s HEAD)) with
    | None => diverge
    | Some (Some b) =>
      modify (upd_buf b (recycle dev blockno));;
      on_lock b (acquiresleep me);;
      mret b
    | Some None => panic "bget: no buffers"
    end
  end.

(** ** memide.c *)

Definition write_disk (b : Z) (d : block) (s : bio) : bio :=
  Bio (bufs s) (<[b := d]> (disk s)) (disksize s) (writes s ++ [(b, d)]).

Definition iderw (i : nat) : M bio unit :=
  held ← on_lock i (holdingsleep me);
  if negb held then panic "iderw: buf not locked" else
  s ← getS;
  let b := buf_at s i in
  if Z.land (b_flags b) (Z.lor B_VALID B_DIRTY) =? B_VALID
  then panic "iderw: nothing to do" else
  if negb (b_dev b =? 1) then panic "iderw: request not for disk 1" else
  if b_blockno b >=? disksize s then panic "iderw: block out of range" else
  (if negb (Z.land (b_flags b) B_DIRTY =? 0) then
     modify (upd_buf i (λ x, with_flags (Z.ldiff (b_flags x) B_DIRTY) x));;
     modify (write_disk (b_blockno b) (b_data b))
   else
     modify (upd_buf i (with_data (disk_block s (b_blockno b)))));;
  modify (upd_buf i (λ x, with_flags (Z.lor (b_flags x) B_VALID) x)).

(** ** bread, bwrite, brelse *)

Definition bread (dev blockno : Z) : M bio nat :=
  b ← bget dev blockno;
  s ← getS;
  (if Z.land (b_flags (buf_at s b)) B_VALID =? 0 then iderw b else mret tt);;
  mret b.

Definition bwrite (b : nat) : M bio unit :=
  held ← on_lock b (holdingsleep me);
  if negb held then panic "bwrite" else
  modify (upd_buf b (λ x, with_flags (Z.lor (b_flags x) B_DIRTY) x));;
  iderw b.

(** Unlink [b] from its neighbours. *)
Definition unlink (b : nat) (bs : list buf) : list buf :=
  let bs := alter (with_prev (b_prev (bs !!! b))) (b_next (bs !!! b)) bs in
  alter (with_next (b_next (bs !!! b))) (b_prev (bs !!! b)) bs.

Definition brelse (b : nat) : M bio unit :=
  held ← on_lock b (holdingsleep me);
  if negb held then panic "brelse" else
  on_lock b releasesleep;;
  modify (upd_buf b (λ x, with_refcnt (u32 (b_refcnt x - 1)) x));;
  s ← getS;
  if b_refcnt (buf_at s b) =? 0 then
    modify (with_bufs (λ bs, push_front b (unlink b bs)))
  else mret tt.
End bio_code.
