(* ===== verification/Ide.v ===== *)
(** * ide.c: the disk driver

    The driver keeps the buffers that wait for the disk in a linked list,
    [idequeue]; the first one is being transferred.  [iderw] appends a
    buffer and sleeps; the interrupt handler finishes the first request and
    starts the next.  The controller is known by its ports only and is a
    parameter, the class [AtaPorts]; regions under [idelock] are single
    steps. *)

From S2P Require Import Prelude Layout Sleeplock Bio.

(** The ports of the controller, on the state [D] of the hardware. *)
Class AtaPorts (D : Type) := {
  ata_inb : D → Z * D;              (* inb(0x1f7) *)
  ata_outb : Z → Z → D → D;         (* outb(port, value) *)
  ata_insl : D → block * D;         (* insl(0x1f0, data, BSIZE/4) *)
  ata_outsl : block → D → D }.      (* outsl(0x1f0, data, BSIZE/4) *)

Definition SECTOR_SIZE : Z := 512.
Definition IDE_BSY : Z := 0x80.
Definition IDE_DRDY : Z := 0x40.
Definition IDE_DF : Z := 0x20.
Definition IDE_ERR : Z := 0x01.
Definition IDE_CMD_READ : Z := 0x20.
Definition IDE_CMD_WRITE : Z := 0x30.
Definition IDE_CMD_RDMUL : Z := 0xc4.
Definition IDE_CMD_WRMUL : Z := 0xc5.

(** The buffers with their [qnext] fields, the queue, and the buffers
    whose processes sleep in [iderw]. *)
Record ide (D : Type) := Ide {
  d_bufs : list buf;
  d_qnext : list (option nat);
  d_queue : option nat;
  d_disk1 : bool;                   (* havedisk1 *)
  d_asleep : gset nat;
  d_dev : D }.
Arguments Ide {D}.
Arguments d_bufs {D}.
Arguments d_qnext {D}.
Arguments d_queue {D}.
Arguments d_disk1 {D}.
Arguments d_asleep {D}.
Arguments d_dev {D}.

Section ide_code.
Context {D : Type} `{!AtaPorts D}.
Variable me : Z.                    (* myproc()->pid *)
Variable patience : D → nat.        (* status reads until the disk is ready *)

Local Abbreviation K := (M (ide D)).

Definition set_bufs (f : list buf → list buf) (s : ide D) : ide D :=
  Ide (f (d_bufs s)) (d_qnext s) (d_queue s) (d_disk1 s) (d_asleep s) (d_dev s).
Definition set_qnext (f : list (option nat) → list (option nat)) (s : ide D) : ide D :=
  Ide (d_bufs s) (f (d_qnext s)) (d_queue s) (d_disk1 s) (d_asleep s) (d_dev s).
Definition set_queue (q : option nat) (s : ide D) : ide D :=
  Ide (d_bufs s) (d_qnext s) q (d_disk1 s) (d_asleep s) (d_dev s).
Definition set_disk1 (b : bool) (s : ide D) : ide D :=
  Ide (d_bufs s) (d_qnext s) (d_queue s) b (d_asleep s) (d_dev s).
Definition set_asleep (f : gset nat → gset nat) (s : ide D) : ide D :=
  Ide (d_bufs s) (d_qnext s) (d_queue s) (d_disk1 s) (f (d_asleep s)) (d_dev s).
Definition set_dev (d : D) (s : ide D) : ide D :=
  Ide (d_bufs s) (d_qnext s) (d_queue s) (d_disk1 s) (d_asleep s) d.

Definition inb : K Z := λ s, let '(r, d) := ata_inb (d_dev s) in Ret r (set_dev d s).
Definition outb (port v : Z) : K unit := modify (λ s, set_dev (ata_outb port v (d_dev s)) s).
Definition insl : K block := λ s, let '(r, d) := ata_insl (d_dev s) in Ret r (set_dev d s).
Definition outsl (b : block) : K unit := modify (λ s, set_dev (ata_outsl b (d_dev s)) s).

(** The buffer [i]. *)
Definition bufp (i : nat) : K buf := gets (λ s, d_bufs s !!! i).
Definition upd_bufp (i : nat) (f : buf → buf) : K unit := modify (set_bufs (alter f i)).

Definition wakeup_on (b : nat) : K unit := modify (set_asleep (λ X, X ∖ {[b]})).
Definition sleep_on (b : nat) : K unit := λ s, Sleeps (set_asleep (λ X, {[b]} ∪ X) s).

Fixpoint idewait_loop (fuel : nat) : K Z :=
  match fuel with
  | O => diverge
  | S fuel' =>
    r ← inb;
    if negb (Z.land r (Z.lor IDE_BSY IDE_DRDY) =? IDE_DRDY) then idewait_loop fuel' else mret r
  end.

Definition idewait (checkerr : bool) : K Z :=
  d ← gets d_dev;
  r ← idewait_loop (S (patience d));
  mret (if checkerr && negb (Z.land r (Z.lor IDE_DF IDE_ERR) =? 0) then -1 else 0).

(** The loop of [ideinit]: at most [n] reads of the status. *)
Fixpoint ideinit_loop (n : nat) : K unit :=
  match n with
  | O => mret tt
  | S n' =>
    r ← inb;
    if negb (r =? 0) then modify (set_disk1 true) else ideinit_loop n'
  end.

Definition ideinit : K unit :=
  idewait false;;
  outb 0x1f6 (Z.lor 0xe0 (Z.shiftl 1 4));;
  ideinit_loop 1000;;
  outb 0x1f6 (Z.lor 0xe0 (Z.shiftl 0 4)).

Definition idestart (b : option nat) : K unit :=
  match b with
  | None => panic "idestart"
  | Some i =>
    b ← bufp i;
    if b_blockno b >=? FSSIZE then panic "incorrect blockno"
    else
      let sector_per_block := BSIZE / SECTOR_SIZE in
      let sector := s32 (b_blockno b * sector_per_block) in
      let read_cmd := if sector_per_block =? 1 then IDE_CMD_READ else IDE_CMD_RDMUL in
      let write_cmd := if sector_per_block =? 1 then IDE_CMD_WRITE else IDE_CMD_WRMUL in
      if sector_per_block >? 7 then panic "idestart"
      else
        idewait false;;
        outb 0x3f6 0;;
        outb 0x1f2 sector_per_block;;
        outb 0x1f3 (Z.land sector 0xff);;
        outb 0x1f4 (Z.land (Z.shiftr sector 8) 0xff);;
        outb 0x1f5 (Z.land (Z.shiftr sector 16) 0xff);;
        outb 0x1f6 (Z.lor (Z.lor 0xe0 (Z.shiftl (Z.land (b_dev b) 1) 4))
          (Z.land (Z.shiftr sector 24) 0x0f));;
        (if negb (Z.land (b_flags b) B_DIRTY =? 0) then
           outb 0x1f7 write_cmd;;
           outsl (b_data b)
         else outb 0x1f7 read_cmd)
  end.

Definition ideintr : K unit :=
  q ← gets d_queue;
  match q with
  | None => mret tt
  | Some i =>
    next ← gets (λ s, d_qnext s !!! i);
    modify (set_queue next);;
    b ← bufp i;
    (if Z.land (b_flags b) B_DIRTY =? 0 then
       r ← idewait true;
       if r >=? 0 then data ← insl; upd_bufp i (with_data data) else mret tt
     else mret tt);;
    upd_bufp i (λ b, with_flags (Z.lor (b_flags b) B_VALID) b);;
    upd_bufp i (λ b, with_flags (Z.ldiff (b_flags b) B_DIRTY) b);;
    wakeup_on i;;
    q ← gets d_queue;
    match q with
    | Some j => idestart (Some j)
    | None => mret tt
    end
  end.

(** The loop over the queue in [iderw]: the last buffer from [i] on. *)
Fixpoint last_queued (fuel : nat) (qnext : list (option nat)) (i : nat) : option nat :=
  match fuel with
  | O => None
  | S fuel' =>
    match qnext !!! i with
    | None => Some i
    | Some j => last_queued fuel' qnext j
    end
  end.

(** [b->qnext = 0], the loop, and the store of [b] behind the last one. *)
Definition enqueue (i : nat) : K unit :=
  modify (set_qnext (<[i := None]>));;
  q ← gets d_queue;
  match q with
  | None => modify (set_queue (Some i))
  | Some j =>
    qnext ← gets d_qnext;
    match last_queued (S (length qnext)) qnext j with
    | None => diverge
    | Some k => modify (set_qnext (<[k := Some i]>))
    end
  end.

(** The flags say that the transfer is over. *)
Definition finished (b : buf) : bool := Z.land (b_flags b) (Z.lor B_VALID B_DIRTY) =? B_VALID.

(** A round of the loop at the end of [iderw]; also where a process goes
    on after it is woken up. *)
Definition iderw_wait (i : nat) : K unit :=
  b ← bufp i;
  if negb (finished b) then sleep_on i else mret tt.

Definition iderw (i : nat) : K unit :=
  b ← bufp i;
  if negb (negb (lk_locked (b_lock b) =? 0) && (lk_pid (b_lock b) =? me))
  then panic "iderw: buf not locked"
  else if finished b then panic "iderw: nothing to do"
  else
    disk1 ← gets d_disk1;
    if negb (b_dev b =? 0) && negb disk1 then panic "iderw: ide disk 1 not present"
    else
      enqueue i;;
      q ← gets d_queue;
      (if decide (q = Some i) then idestart q else mret tt);;
      iderw_wait i.
End ide_code.
