(* ===== verification/IdeSpec.v ===== *)
(** * The disk driver serves requests in order

    [AtaDisk] states what the driver relies on in the controller: the
    registers select drive and sector, a command starts a transfer, the
    status tells when the next step may be made.  Against it, the driver is
    a queue: the buffers that processes pass to [iderw], at any time and in
    any interleaving with interrupts, are served one after the other with
    the results of a disk that executes one request at a time. *)

From S2P Require Import Prelude Layout Sleeplock Bio Ide.

(** ** The controller *)

Inductive phase := Idle | Reading (drive sector : Z) | WantData (drive sector : Z).

Record ata := Ata {
  at_disk : Z → Z → block;          (* drive and sector *)
  at_reg : Z → Z;
  at_phase : phase;
  at_ready : bool }.                (* a status read said so *)

Definition set_reg (port v : Z) (st : ata) : ata :=
  Ata (at_disk st) (λ p, if p =? port then v else at_reg st p) (at_phase st) (at_ready st).
Definition set_ready (b : bool) (st : ata) : ata :=
  Ata (at_disk st) (at_reg st) (at_phase st) b.
Definition set_phase (ph : phase) (st : ata) : ata :=
  Ata (at_disk st) (at_reg st) ph false.
Definition put_disk (drive sector : Z) (d : block) (disk : Z → Z → block) : Z → Z → block :=
  λ x y, if (x =? drive) && (y =? sector) then d else disk x y.

(** The drive and the 28 bit sector number in the registers. *)
Definition at_drive (st : ata) : Z := Z.land (Z.shiftr (at_reg st 0x1f6) 4) 1.
Definition at_lba (st : ata) : Z :=
  at_reg st 0x1f3 + 2 ^ 8 * at_reg st 0x1f4 + 2 ^ 16 * at_reg st 0x1f5 +
  2 ^ 24 * Z.land (at_reg st 0x1f6) 0x0f.

Definition ready_status (r : Z) : bool := Z.land r (Z.lor IDE_BSY IDE_DRDY) =? IDE_DRDY.

Class AtaDisk (D : Type) `{!AtaPorts D} (patience : D → nat) := {
  ata_rep : D → ata → Prop;
  ata_status d st r d' : ata_rep d st → ata_inb d = (r, d') →
    Z.land r (Z.lor IDE_DF IDE_ERR) = 0 ∧
    if ready_status r then ata_rep d' (set_ready true st)
    else ata_rep d' st ∧ (patience d' < patience d)%nat;
  ata_register d st port v :
    ata_rep d st → at_phase st = Idle → at_ready st = true →
    port ∈ [0x1f2; 0x1f3; 0x1f4; 0x1f5; 0x1f6; 0x3f6] →
    ata_rep (ata_outb port v d) (set_reg port v st);
  ata_read d st :
    ata_rep d st → at_phase st = Idle → at_ready st = true → at_reg st 0x1f2 = 1 →
    ata_rep (ata_outb 0x1f7 IDE_CMD_READ d) (set_phase (Reading (at_drive st) (at_lba st)) st);
  ata_write d st :
    ata_rep d st → at_phase st = Idle → at_ready st = true → at_reg st 0x1f2 = 1 →
    ata_rep (ata_outb 0x1f7 IDE_CMD_WRITE d) (set_phase (WantData (at_drive st) (at_lba st)) st);
  ata_take d st drive sector b :
    ata_rep d st → at_phase st = WantData drive sector → wf_block b →
    ata_rep (ata_outsl b d) (Ata (put_disk drive sector b (at_disk st)) (at_reg st) Idle false);
  ata_give d st drive sector b d' :
    ata_rep d st → at_phase st = Reading drive sector → at_ready st = true →
    ata_insl d = (b, d') →
    b = at_disk st drive sector ∧ wf_block b ∧ ata_rep d' (set_phase Idle st) }.

(** ** Requests *)

Record request := Req { q_buf : nat; q_drive : Z; q_block : Z; q_data : option block }.

Definition dirty (b : buf) : bool := negb (Z.land (b_flags b) B_DIRTY =? 0).
Definition req_of (i : nat) (b : buf) : request :=
  Req i (Z.land (b_dev b) 1) (b_blockno b) (if dirty b then Some (b_data b) else None).

(** A disk that executes one request at a time: the new contents, and the
    block the buffer holds in the end. *)
Definition exec_req (disk : Z → Z → block) (r : request) : (Z → Z → block) * block :=
  match q_data r with
  | Some d => (put_disk (q_drive r) (q_block r) d disk, d)
  | None => (disk, disk (q_drive r) (q_block r))
  end.

Fixpoint serve (disk : Z → Z → block) (rs : list request) : (Z → Z → block) * list block :=
  match rs with
  | [] => (disk, [])
  | r :: rs' =>
    let '(disk1, d) := exec_req disk r in
    let '(disk2, ds) := serve disk1 rs' in (disk2, d :: ds)
  end.

Lemma serve_snoc disk rs r :
  serve disk (rs ++ [r]) =
    let '(disk1, ds) := serve disk rs in let '(disk2, d) := exec_req disk1 r in (disk2, ds ++ [d]).
Proof.
  revert disk; induction rs as [|q rs IH]; intros disk; cbn [serve app].
  - by destruct (exec_req disk r).
  - destruct (exec_req disk q) as [disk1 d]. rewrite IH. destruct (serve disk1 rs) as [disk2 ds].
    by destruct (exec_req disk2 r).
Qed.

(** ** The linked list *)

Fixpoint queue_is (qn : list (option nat)) (q : option nat) (l : list nat) : Prop :=
  match l with
  | [] => q = None
  | i :: l' => q = Some i ∧ (i < length qn)%nat ∧ queue_is qn (qn !!! i) l'
  end.

Lemma queue_is_insert qn q l i x : queue_is qn q l → i ∉ l → queue_is (<[i := x]> qn) q l.
Proof.
  revert q; induction l as [|j l IH]; intros q; [done|]. cbn [queue_is].
  intros (-> & Hj & H) [Hij Hil]%not_elem_of_cons. split; [done|]. split; [by rewrite length_insert|].
  rewrite list_lookup_total_insert_ne by done. by apply IH.
Qed.

Lemma last_queued_spec fuel qn i l :
  queue_is qn (Some i) (i :: l) → (length l < fuel)%nat → last_queued fuel qn i = last (i :: l).
Proof.
  revert fuel i; induction l as [|j l IH]; intros [|fuel] i; [cbn; lia| |cbn; lia|]; cbn [queue_is last_queued].
  - intros (_ & _ & ->) _. done.
  - intros (_ & _ & E & Hj & H) Hf. rewrite E, last_cons_cons. apply IH; [|cbn in Hf; lia]. by cbn [queue_is].
Qed.

Lemma queue_is_length qn q l : queue_is qn q l → NoDup l → (length l ≤ length qn)%nat.
Proof.
  intros H Hnd. rewrite <-(length_seq (length qn) 0) at 1. apply submseteq_length, NoDup_submseteq; [done|].
  intros x Hx. apply elem_of_seq. revert q H Hnd Hx.
  induction l as [|j l IH]; intros q; [by intros _ _ ?%elem_of_nil|]. cbn [queue_is].
  intros (_ & Hj & H) [_ Hnd]%NoDup_cons [->|Hx]%elem_of_cons; [lia|by apply (IH _ H)].
Qed.

(** Storing [i] behind the last buffer. *)
Lemma queue_is_snoc qn q l i :
  queue_is qn q l → NoDup l → i ∉ l → (i < length qn)%nat → qn !!! i = None → l ≠ [] →
  ∃ k, last l = Some k ∧ queue_is (<[k := Some i]> qn) q (l ++ [i]).
Proof.
  revert q; induction l as [|j l IH]; intros q; [done|]. cbn [queue_is].
  intros (-> & Hj & H) [Hjl Hnd]%NoDup_cons [Hij Hil]%not_elem_of_cons Hi Hn _.
  destruct l as [|j' l'].
  - exists j. split; [done|]. cbn [app queue_is]. rewrite !length_insert.
    rewrite list_lookup_total_insert_eq, list_lookup_total_insert_ne by done. done.
  - destruct (IH _ H Hnd Hil Hi Hn ltac:(done)) as (k & Hk & Hq). exists k. rewrite last_cons_cons.
    split; [done|]. cbn [app queue_is] in *. rewrite length_insert in *.
    assert (k ≠ j). { intros ->. apply Hjl. by apply last_Some_elem_of. }
    rewrite list_lookup_total_insert_ne by done. done.
Qed.

(** ** The routines *)

Section driver.
Context {D : Type} `{!AtaPorts D} (patience : D → nat) `{!AtaDisk D patience}.
Implicit Types s : ide D.

Lemma idewait_spec ce s st :
  ata_rep (d_dev s) st →
  wp (idewait patience ce) (λ r s', r = 0 ∧ ∃ d, s' = set_dev d s ∧ ata_rep d (set_ready true st)) s.
Proof.
  intros R. unfold idewait. apply wp_bind, wp_gets, wp_bind.
  assert (W : ∀ fuel s1, (patience (d_dev s1) < fuel)%nat → ata_rep (d_dev s1) st → (∃ d, s1 = set_dev d s) →
    wp (idewait_loop fuel) (λ r s', Z.land r (Z.lor IDE_DF IDE_ERR) = 0 ∧
      ∃ d, s' = set_dev d s ∧ ata_rep d (set_ready true st)) s1).
  { induction fuel as [|fuel IH]; intros s1 Hf R1 [d1 ->]; [lia|]. cbn [idewait_loop d_dev set_dev] in *.
    unfold inb, wp, mbind, M_bind. cbn [d_dev set_dev]. destruct (ata_inb d1) as [r d2] eqn:E.
    destruct (ata_status d1 st r d2 R1 E) as [Herr H]. fold (ready_status r).
    destruct (ready_status r); cbn [negb]; [split; [done|]; by exists d2|].
    destruct H as [R2 Hp]. apply IH; [cbn; lia|done|]. by exists d2. }
  eapply wp_mono; [apply (W _ s); [lia|done|by exists (d_dev s); destruct s]|].
  intros r s' [Herr H]. apply wp_ret. rewrite Herr. cbn [Z.eqb negb]. rewrite andb_false_r. split; [done|exact H].
Qed.

(** The registers after the writes of [idestart] hold the request. *)
Lemma start_registers n dv :
  0 <= n < FSSIZE →
  n = Z.land n 0xff + 2 ^ 8 * Z.land (Z.shiftr n 8) 0xff + 2 ^ 16 * Z.land (Z.shiftr n 16) 0xff +
    2 ^ 24 * Z.land (Z.lor (Z.lor 0xe0 (Z.shiftl (Z.land dv 1) 4)) (Z.land (Z.shiftr n 24) 0x0f)) 0x0f ∧
  Z.land (Z.shiftr (Z.lor (Z.lor 0xe0 (Z.shiftl (Z.land dv 1) 4)) (Z.land (Z.shiftr n 24) 0x0f)) 4) 1 =
    Z.land dv 1.
Proof.
  intros Hn. change FSSIZE with 1000 in Hn. change 0xff with (Z.ones 8). rewrite !Z.land_ones by lia.
  rewrite !Z.shiftr_div_pow2 by lia.
  assert (Hd : dv mod 2 = 0 ∨ dv mod 2 = 1) by dlia.
  change (Z.land dv 1) with (Z.land dv (Z.ones 1)). rewrite Z.land_ones by lia. change (2 ^ 1) with 2.
  assert (E24 : n / 2 ^ 24 = 0) by (apply Z.div_small; lia). rewrite E24.
  assert (E16 : n / 2 ^ 16 = 0) by (apply Z.div_small; lia). rewrite E16.
  destruct Hd as [-> | ->]; (split; [|reflexivity]).
  - change (Z.land (Z.lor (Z.lor 0xe0 (Z.shiftl 0 4)) (Z.land 0 0x0f)) 0x0f) with 0.
    rewrite Z.mod_0_l by done. dlia.
  - change (Z.land (Z.lor (Z.lor 0xe0 (Z.shiftl 1 4)) (Z.land 0 0x0f)) 0x0f) with 0.
    rewrite Z.mod_0_l by done. dlia.
Qed.

(** What starting a request does to the controller. *)
Definition started (b : buf) (st st' : ata) : Prop :=
  if dirty b then
    at_phase st' = Idle ∧ at_disk st' = put_disk (Z.land (b_dev b) 1) (b_blockno b) (b_data b) (at_disk st)
  else at_phase st' = Reading (Z.land (b_dev b) 1) (b_blockno b) ∧ at_disk st' = at_disk st.

Lemma outb_rule {B} s port v (k : M (ide D) B) Q :
  wp k Q (set_dev (ata_outb port v (d_dev s)) s) → wp (outb port v;; k) Q s.
Proof. intros H. by apply wp_bind, wp_modify. Qed.

Lemma idestart_spec s i b st :
  ata_rep (d_dev s) st → at_phase st = Idle → d_bufs s !! i = Some b →
  0 <= b_blockno b < FSSIZE → wf_block (b_data b) →
  wp (idestart patience (Some i)) (λ _ s', ∃ d st', s' = set_dev d s ∧ ata_rep d st' ∧ started b st st') s.
Proof.
  intros R Hid Hb Hn Hwf. unfold idestart. apply wp_bind, wp_gets.
  rewrite (list_lookup_total_correct _ _ _ Hb). change (BSIZE / SECTOR_SIZE) with 1. rewrite Z.mul_1_r.
  change (1 =? 1) with true. change (1 >? 7) with false. cbn iota.
  rewrite Z.geb_leb, (proj2 (Z.leb_gt _ _)) by lia.
  rewrite s32_id by (change FSSIZE with 1000 in Hn; lia).
  apply wp_bind. eapply wp_mono; [by apply (idewait_spec false s st)|].
  intros _ _ (_ & d & -> & R1).
  do 6 (apply outb_rule; cbn [d_dev set_dev]).
  set (w6 := Z.lor _ _).
  assert (R2 : ata_rep (ata_outb 502 w6 (ata_outb 501 (Z.land (Z.shiftr (b_blockno b) 16) 255)
    (ata_outb 500 (Z.land (Z.shiftr (b_blockno b) 8) 255) (ata_outb 499 (Z.land (b_blockno b) 255)
    (ata_outb 498 1 (ata_outb 1014 0 d))))))
    (set_reg 502 w6 (set_reg 501 (Z.land (Z.shiftr (b_blockno b) 16) 255)
      (set_reg 500 (Z.land (Z.shiftr (b_blockno b) 8) 255) (set_reg 499 (Z.land (b_blockno b) 255)
      (set_reg 498 1 (set_reg 1014 0 (set_ready true st)))))))).
  { repeat (apply ata_register; [|done|done|set_solver]). done. }
  set (st2 := set_reg 502 w6 _) in R2.
  destruct (start_registers (b_blockno b) (b_dev b) Hn) as [Elba Edrv]. fold w6 in Elba, Edrv.
  assert (E1 : at_lba st2 = b_blockno b) by (symmetry; exact Elba).
  assert (E2 : at_drive st2 = Z.land (b_dev b) 1) by exact Edrv.
  unfold started. fold (dirty b). destruct (dirty b).
  - apply outb_rule. cbn [d_dev set_dev]. pose proof (ata_write _ st2 R2 Hid eq_refl eq_refl) as R3.
    apply wp_modify. cbn [d_dev set_dev].
    pose proof (ata_take _ _ _ _ (b_data b) R3 eq_refl Hwf) as R4. rewrite E1, E2 in R4.
    eexists _, _. split; [reflexivity|]. split; [exact R4|done].
  - apply wp_modify. cbn [d_dev set_dev]. pose proof (ata_read _ st2 R2 Hid eq_refl eq_refl) as R3.
    rewrite E1, E2 in R3. eexists _, _. split; [reflexivity|]. split; [exact R3|done].
Qed.

(** ** The system *)

(** The driver, the requests in the order of their arrival, the blocks the
    finished ones left in their buffers, and the buffers whose processes are
    inside [iderw]. *)
Record sys := Sys {
  y_ide : ide D; y_arrived : list request; y_results : list block; y_inside : gset nat }.

(** Processes use buffers that are not inside [iderw] as they like, call
    [iderw] and are resumed in it; interrupts come at any time. *)
Inductive istep : sys → sys → Prop :=
| is_use s arr res ins bs :
    (∀ i, i ∈ ins → bs !! i = d_bufs s !! i) → length bs = length (d_bufs s) →
    Forall (λ b, wf_block (b_data b)) bs →
    istep (Sys s arr res ins) (Sys (set_bufs (λ _, bs) s) arr res ins)
| is_rw s arr res ins me i b s' :
    i ∉ ins → d_bufs s !! i = Some b → 0 <= b_blockno b < FSSIZE →
    iderw me patience i s = Sleeps s' →
    istep (Sys s arr res ins) (Sys s' (arr ++ [req_of i b]) res ({[i]} ∪ ins))
| is_rw_done s arr res ins me i b s' :
    i ∉ ins → d_bufs s !! i = Some b → 0 <= b_blockno b < FSSIZE →
    iderw me patience i s = Ret tt s' →
    istep (Sys s arr res ins) (Sys s' (arr ++ [req_of i b]) res ins)
| is_intr s arr res ins s' :
    ideintr patience s = Ret tt s' →
    istep (Sys s arr res ins) (Sys s' arr
      (res ++ match d_queue s with Some i => [b_data (d_bufs s' !!! i)] | None => [] end) ins)
| is_return s arr res ins i s' :
    i ∈ ins → i ∉ d_asleep s → iderw_wait i s = Ret tt s' →
    istep (Sys s arr res ins) (Sys s' arr res (ins ∖ {[i]}))
| is_again s arr res ins i s' :
    i ∈ ins → i ∉ d_asleep s → iderw_wait i s = Sleeps s' →
    istep (Sys s arr res ins) (Sys s' arr res ins).

Definition pending_ok s (r : request) : Prop :=
  ∃ b, d_bufs s !! q_buf r = Some b ∧ r = req_of (q_buf r) b ∧ finished b = false ∧
    0 <= b_blockno b < FSSIZE.

(** The controller executes the first pending request, on the contents
    [dk]. *)
Definition device_at s (dk : Z → Z → block) (pending : list request) : Prop :=
  ∃ st, ata_rep (d_dev s) st ∧
  match pending with
  | [] => at_phase st = Idle ∧ at_disk st = dk
  | r :: _ => at_disk st = (exec_req dk r).1 ∧
      at_phase st = match q_data r with Some _ => Idle | None => Reading (q_drive r) (q_block r) end
  end.

(** Buffer [i] holds the result of the last request for it. *)
Definition holds_result s (served : list request) (res : list block) (i : nat) : Prop :=
  ∃ b j r, d_bufs s !! i = Some b ∧ finished b = true ∧ served !! j = Some r ∧ q_buf r = i ∧
    res !! j = Some (b_data b) ∧
    ∀ j' r', (j < j')%nat → served !! j' = Some r' → q_buf r' ≠ i.

Record iinv (disk0 : Z → Z → block) (served pending : list request) (y : sys) : Prop := {
  iv_len : length (d_qnext (y_ide y)) = length (d_bufs (y_ide y));
  iv_wf : Forall (λ b, wf_block (b_data b)) (d_bufs (y_ide y));
  iv_arrived : y_arrived y = served ++ pending;
  iv_results : y_results y = (serve disk0 served).2;
  iv_queue : queue_is (d_qnext (y_ide y)) (d_queue (y_ide y)) (q_buf <$> pending);
  iv_nodup : NoDup (q_buf <$> pending);
  iv_pending : Forall (pending_ok (y_ide y)) pending;
  iv_device : device_at (y_ide y) (serve disk0 served).1 pending;
  iv_inside i : i ∈ q_buf <$> pending → i ∈ y_inside y;
  iv_asleep i : i ∈ d_asleep (y_ide y) → i ∈ q_buf <$> pending;
  iv_holds i : i ∈ y_inside y → i ∉ q_buf <$> pending →
    holds_result (y_ide y) served (y_results y) i }.

Lemma started_device s s' i b st st' l :
  started b st st' → ata_rep (d_dev s') st' → device_at s' (at_disk st) (req_of i b :: l).
Proof.
  intros H R. exists st'. split; [done|]. unfold started in H. unfold exec_req. cbn [q_data q_drive q_block req_of].
  destruct (dirty b); cbn [fst]; [by destruct H|by destruct H].
Qed.

(** Setting B_VALID and clearing B_DIRTY. *)
Lemma finish_flags f : Z.land (Z.ldiff (Z.lor f B_VALID) B_DIRTY) (Z.lor B_VALID B_DIRTY) = B_VALID.
Proof.
  apply Z.bits_inj'. intros n Hn. rewrite Z.land_spec, Z.ldiff_spec, !Z.lor_spec.
  destruct (decide (n = 1)) as [->|]; [change (Z.testbit B_VALID 1) with true;
    change (Z.testbit B_DIRTY 1) with false; by rewrite orb_true_r|].
  assert (E : Z.testbit B_VALID n = false) by (by apply (Z.pow2_bits_false 1)).
  rewrite E, !orb_false_r. cbn [orb]. rewrite <-andb_assoc.
  destruct (Z.testbit B_DIRTY n); by rewrite ?andb_false_r.
Qed.

(** The buffer of a request when it is finished. *)
Definition fin (data : block) (b : buf) : buf :=
  with_flags (Z.ldiff (Z.lor (b_flags b) B_VALID) B_DIRTY) (with_data data b).

Lemma finished_fin data b : finished (fin data b) = true.
Proof. unfold finished, fin. cbn [b_flags with_flags with_data]. by rewrite finish_flags. Qed.

Lemma alter_insert_eq (f : buf → buf) i y l :
  (i < length l)%nat → alter f i (<[i := y]> l) = <[i := f y]> l.
Proof.
  intros Hi. rewrite (alter_insert _ _ _ y) by (by apply list_lookup_insert_eq).
  apply list_insert_insert_eq.
Qed.

(** The first part of [ideintr]: finish the request. *)
Lemma ideintr_finish {B} s i b dk l (k : M (ide D) B) Q :
  let r := req_of i b in
  d_bufs s !! i = Some b → wf_block (b_data b) → device_at s dk (r :: l) →
  (∀ d st, ata_rep d st → at_phase st = Idle → at_disk st = (exec_req dk r).1 →
    wf_block (exec_req dk r).2 → wp k Q
    (Ide (<[i := fin (exec_req dk r).2 b]> (d_bufs s)) (d_qnext s) (d_qnext s !!! i) (d_disk1 s)
      (d_asleep s ∖ {[i]}) d)) →
  wp (next ← gets (λ s, d_qnext s !!! i);
      modify (set_queue next);;
      b ← bufp i;
      (if Z.land (b_flags b) B_DIRTY =? 0 then
         r ← idewait patience true;
         if r >=? 0 then data ← insl; upd_bufp i (with_data data) else mret tt
       else mret tt);;
      upd_bufp i (λ b, with_flags (Z.lor (b_flags b) B_VALID) b);;
      upd_bufp i (λ b, with_flags (Z.ldiff (b_flags b) B_DIRTY) b);;
      wakeup_on i;; k) Q s.
Proof.
  intros r Hb Hwf (st & R & Hdk & Hph) Hk. pose proof (lookup_lt_Some _ _ _ Hb) as Hlt.
  apply wp_bind, wp_gets, wp_bind, wp_modify, wp_bind, wp_gets. cbn [d_bufs set_queue].
  rewrite (list_lookup_total_correct _ _ _ Hb). apply wp_bind.
  assert (Hend : ∀ d st1 data, ata_rep d st1 → at_phase st1 = Idle → at_disk st1 = (exec_req dk r).1 →
    data = (exec_req dk r).2 → wf_block data →
    wp (upd_bufp i (λ b, with_flags (Z.lor (b_flags b) B_VALID) b);;
        upd_bufp i (λ b, with_flags (Z.ldiff (b_flags b) B_DIRTY) b);; wakeup_on i;; k) Q
      (Ide (<[i := with_data data b]> (d_bufs s)) (d_qnext s) (d_qnext s !!! i) (d_disk1 s) (d_asleep s) d)).
  { intros d st1 data R1 H1 H2 -> H3. do 3 apply wp_bind, wp_modify.
    unfold set_bufs, set_asleep. cbn [d_bufs d_qnext d_queue d_disk1 d_asleep d_dev].
    rewrite !alter_insert_eq by done. by apply (Hk d st1). }
  unfold exec_req in *. cbn [q_data r req_of q_drive q_block] in *. unfold dirty in *.
  destruct (Z.eqb_spec (Z.land (b_flags b) B_DIRTY) 0) as [H0|H0]; cbn [negb fst snd] in *.
  - apply wp_bind. eapply wp_mono; [by apply (idewait_spec true _ st)|]. intros _ _ (-> & d & -> & R1).
    change (0 >=? 0) with true. cbn iota. unfold insl. apply wp_bind. unfold wp at 1.
    cbn [d_dev set_dev set_queue]. destruct (ata_insl d) as [data d'] eqn:E.
    destruct (ata_give d _ _ _ _ _ R1 Hph eq_refl E) as (-> & Hw & R2).
    apply wp_modify. unfold set_bufs, set_dev, set_queue. cbn [d_bufs d_qnext d_queue d_disk1 d_asleep d_dev].
    rewrite (alter_insert _ _ _ b) by done. cbn [at_disk set_ready] in *.
    apply (Hend d' _ _ R2); [done|done|by rewrite Hdk|done].
  - apply wp_ret. unfold set_queue. specialize (Hend (d_dev s) st (b_data b) R Hph Hdk eq_refl Hwf).
    rewrite (list_insert_id (d_bufs s) i) in Hend; [done|]. by destruct b.
Qed.

Lemma holds_result_snoc s s' served res r data i :
  holds_result s served res i → d_bufs s' !! i = d_bufs s !! i → q_buf r ≠ i → length res = length served →
  holds_result s' (served ++ [r]) (res ++ [data]) i.
Proof.
  intros (b & j & q & Hb & Hf & Hq & Hi & Hr & Hlast) E Hne Hlen.
  pose proof (lookup_lt_Some _ _ _ Hq) as Hlt. exists b, j, q. rewrite E. split_and!; try done.
  - by rewrite lookup_app_l.
  - by rewrite lookup_app_l by lia.
  - intros j' r' Hj Hr'. apply lookup_app_Some in Hr' as [Hr'|[_ Hr']]; [by eapply Hlast|].
    apply list_lookup_singleton_Some in Hr' as [_ <-]. done.
Qed.

Lemma serve_length disk rs : length (serve disk rs).2 = length rs.
Proof.
  revert disk; induction rs as [|r rs IH]; intros disk; [done|]. cbn [serve].
  destruct (exec_req disk r) as [disk1 d]. specialize (IH disk1). destruct (serve disk1 rs). cbn in *. lia.
Qed.

(** The state after the first request is finished, whatever starts next. *)
Lemma finish_inv disk0 served r pending y s' :
  let i := q_buf r in
  let s := y_ide y in
  iinv disk0 served (r :: pending) y → d_qnext s' = d_qnext s → d_queue s' = d_qnext s !!! i →
  (∀ b, d_bufs s !! i = Some b →
    d_bufs s' = <[i := fin (exec_req (serve disk0 served).1 r).2 b]> (d_bufs s)) →
  d_asleep s' = d_asleep s ∖ {[i]} → wf_block (exec_req (serve disk0 served).1 r).2 →
  device_at s' (exec_req (serve disk0 served).1 r).1 pending →
  iinv disk0 (served ++ [r]) pending
    (Sys s' (y_arrived y) (y_results y ++ [b_data (d_bufs s' !!! i)]) (y_inside y)).
Proof.
  intros i s [Hlen Hwf Harr Hres Hq Hnd Hpend Hdev Hins Has Hho] Eq Equ Eb Eas Hdata Hdev'.
  cbn [fmap list_fmap] in Hq, Hnd, Has, Hho. apply NoDup_cons in Hnd as [Hni Hnd].
  apply Forall_cons in Hpend as [(b & Hb & Hr & _) Hpend]. destruct Hq as (_ & Hlt & Hq).
  specialize (Eb b Hb). pose proof (lookup_lt_Some _ _ _ Hb) as Hltb.
  assert (Elen : length (y_results y) = length served) by (rewrite Hres; apply serve_length).
  assert (Ei : d_bufs s' !! i = Some (fin (exec_req (serve disk0 served).1 r).2 b))
    by (rewrite Eb; by apply list_lookup_insert_eq).
  assert (Ene : ∀ j, j ≠ i → d_bufs s' !! j = d_bufs s !! j)
    by (intros j Hj; rewrite Eb; by apply list_lookup_insert_ne).
  rewrite (list_lookup_total_correct _ _ _ Ei). cbn [fin b_data with_flags with_data].
  split; cbn [y_ide y_arrived y_results y_inside].
  - by rewrite Eq, Eb, length_insert.
  - rewrite Eb. by apply Forall_insert.
  - by rewrite Harr, <-app_assoc.
  - rewrite serve_snoc, Hres. destruct (serve disk0 served) as [dk ds]. cbn [fst snd].
    by destruct (exec_req dk r).
  - by rewrite Eq, Equ.
  - done.
  - apply Forall_forall. intros r' Hr'. rewrite Forall_forall in Hpend.
    destruct (Hpend r' Hr') as (b' & Hb' & ?). exists b'. rewrite Ene; [done|].
    intros E. apply Hni. fold i. rewrite <-E. by apply list_elem_of_fmap_2.
  - rewrite serve_snoc. destruct (serve disk0 served) as [dk ds]. cbn [fst] in *.
    destruct (exec_req dk r) as [dk' d]. exact Hdev'.
  - intros j Hj. apply Hins. cbn [fmap list_fmap]. by right.
  - intros j. rewrite Eas. intros [Hj Hji]%elem_of_difference. apply Has in Hj.
    apply elem_of_cons in Hj as [->|]; [|done]. by rewrite elem_of_singleton in Hji.
  - intros j Hj Hjp. destruct (decide (j = i)) as [->|Hne].
    + exists (fin (exec_req (serve disk0 served).1 r).2 b), (length served), r. split_and!; try done.
      * apply finished_fin.
      * by apply list_lookup_middle.
      * by apply list_lookup_middle.
      * intros j' r' Hj' Hr'. apply lookup_lt_Some in Hr'. rewrite length_app in Hr'. cbn in Hr'. lia.
    + apply (holds_result_snoc s); [|by apply Ene|by apply not_eq_sym|done].
      apply Hho; [done|]. by apply not_elem_of_cons.
Qed.

Lemma ideintr_inv disk0 served r pending y :
  iinv disk0 served (r :: pending) y →
  wp (ideintr patience) (λ _ s',
    d_bufs s' = alter (fin (exec_req (serve disk0 served).1 r).2) (q_buf r) (d_bufs (y_ide y)) ∧
    iinv disk0 (served ++ [r]) pending (Sys s' (y_arrived y) (y_results y ++ [b_data (d_bufs s' !!! q_buf r)]) (y_inside y))) (y_ide y).
Proof.
  intros I. pose proof (iv_queue _ _ _ _ I) as Hq. cbn [fmap list_fmap queue_is] in Hq.
  destruct Hq as (Eq & Hlt & Hq'). pose proof (iv_pending _ _ _ _ I) as Hp.
  apply Forall_cons in Hp as [(b & Hb & Hr & _) Hp].
  unfold ideintr. apply wp_bind, wp_gets. rewrite Eq.
  eapply (ideintr_finish (y_ide y) (q_buf r) b (serve disk0 served).1 pending); [done| | |].
  { by apply (Forall_lookup_1 _ _ _ _ (iv_wf _ _ _ _ I) Hb). }
  { rewrite <-Hr. apply I. }
  rewrite <-Hr. intros d st R Hid Hdk Hwf. set (s1 := Ide _ _ _ _ _ _).
  pose proof (NoDup_cons_1_1 _ _ (iv_nodup _ _ _ _ I)) as Hni.
  apply wp_bind, wp_gets. change (d_queue s1) with (d_qnext (y_ide y) !!! q_buf r).
  destruct pending as [|r' pending].
  - cbn [fmap list_fmap queue_is] in Hq'. rewrite Hq'. apply wp_ret.
    split; [by rewrite (alter_insert _ _ _ b)|]. apply finish_inv; try done. { intros b' Hb'. by simplify_eq. } by exists st.
  - cbn [fmap list_fmap queue_is] in Hq'. destruct Hq' as (E' & Hlt' & _). rewrite E'.
    apply Forall_cons in Hp as [(b' & Hb' & Hr' & _ & Hn') _].
    assert (Hb1 : d_bufs s1 !! q_buf r' = Some b').
    { cbn. rewrite list_lookup_insert_ne; [done|]. intros E. apply Hni. rewrite E. cbn. by left. }
    eapply wp_mono; [apply (idestart_spec s1 (q_buf r') b' st R Hid Hb1 Hn')|].
    { by apply (Forall_lookup_1 _ _ _ _ (iv_wf _ _ _ _ I) Hb'). }
    intros [] s2 (d2 & st2 & -> & R2 & Hst).
    split; [by rewrite (alter_insert _ _ _ b)|]. apply finish_inv; try done.
    + intros b2 Hb2. by simplify_eq.
    + rewrite <-Hdk, Hr'. by eapply started_device.
Qed.

(** ** [iderw] *)

Lemma enqueue_spec s l i :
  queue_is (d_qnext s) (d_queue s) l → NoDup l → i ∉ l → (i < length (d_qnext s))%nat →
  wp (enqueue i) (λ _ s', ∃ qn q, s' = Ide (d_bufs s) qn q (d_disk1 s) (d_asleep s) (d_dev s) ∧
    length qn = length (d_qnext s) ∧ queue_is qn q (l ++ [i])) s.
Proof.
  intros Hq Hnd Hi Hlt. unfold enqueue. apply wp_bind, wp_modify, wp_bind, wp_gets.
  cbn [d_queue set_qnext]. set (qn1 := <[i := None]> (d_qnext s)).
  assert (E1 : qn1 !!! i = None) by (by apply list_lookup_total_insert_eq).
  assert (L1 : length qn1 = length (d_qnext s)) by apply length_insert.
  pose proof (queue_is_insert _ _ _ i None Hq Hi) as Hq1. fold qn1 in Hq1.
  destruct l as [|j l].
  - cbn [queue_is] in Hq. rewrite Hq. apply wp_modify. eexists qn1, (Some i).
    split_and!; [done|done|]. cbn [app queue_is]. by rewrite L1.
  - destruct (queue_is_snoc _ _ _ i Hq1 Hnd Hi ltac:(lia) E1 ltac:(done)) as (k & Hk & Hq2).
    pose proof (queue_is_length _ _ _ Hq1 Hnd) as Hlen.
    assert (Eq : d_queue s = Some j) by apply Hq. rewrite Eq in *. apply wp_bind, wp_gets.
    cbn [d_qnext set_qnext]. fold qn1.
    rewrite (last_queued_spec _ _ _ l Hq1) by (cbn in Hlen; lia). rewrite Hk. apply wp_modify.
    exists (<[k := Some i]> qn1), (d_queue s). split_and!; [done|by rewrite length_insert|by rewrite Eq].
Qed.

(** The checks at the start of [iderw]. *)
Definition iderw_ok (me : Z) s (b : buf) : bool :=
  negb (lk_locked (b_lock b) =? 0) && (lk_pid (b_lock b) =? me) && negb (finished b) &&
  ((b_dev b =? 0) || d_disk1 s).

Lemma iderw_checks me s i b :
  d_bufs s !! i = Some b → iderw_ok me s b = false → ∃ msg, iderw me patience i s = Panic msg.
Proof.
  intros Hb. unfold iderw_ok, iderw, bufp, gets, mbind, M_bind.
  rewrite (list_lookup_total_correct _ _ _ Hb).
  destruct (negb (lk_locked (b_lock b) =? 0) && (lk_pid (b_lock b) =? me)); cbn [negb andb]; [|by eexists].
  destruct (finished b); cbn [negb andb]; [by eexists|].
  destruct (b_dev b =? 0), (d_disk1 s); cbn [negb andb orb]; [done|done|done|by eexists].
Qed.

(** A new request at the end of the queue, by a process that sleeps. *)
Lemma arrive_inv disk0 served pending y i b s' :
  let s := y_ide y in
  let r := req_of i b in
  iinv disk0 served pending y → i ∉ y_inside y → d_bufs s !! i = Some b → finished b = false →
  0 <= b_blockno b < FSSIZE → d_bufs s' = d_bufs s → length (d_qnext s') = length (d_qnext s) →
  queue_is (d_qnext s') (d_queue s') ((q_buf <$> pending) ++ [i]) →
  d_asleep s' = {[i]} ∪ d_asleep s → device_at s' (serve disk0 served).1 (pending ++ [r]) →
  iinv disk0 served (pending ++ [r]) (Sys s' (y_arrived y ++ [r]) (y_results y) ({[i]} ∪ y_inside y)).
Proof.
  intros s r [Hlen Hwf Harr Hres Hq Hnd Hpend Hdev Hins Has Hho] Hi Hb Hf Hn Eb El Hq' Ea Hdev'.
  assert (Ef : q_buf <$> (pending ++ [r]) = (q_buf <$> pending) ++ [i]) by (by rewrite fmap_app).
  split; cbn [y_ide y_arrived y_results y_inside]; rewrite ?Ef; try done.
  - by rewrite El, Eb.
  - by rewrite Eb.
  - by rewrite Harr, app_assoc.
  - apply NoDup_app. split_and!; [done| |apply NoDup_singleton]. intros j Hj Hji%list_elem_of_singleton.
    subst j. by apply Hi, Hins.
  - apply Forall_app. split.
    + eapply Forall_impl; [exact Hpend|]. intros r' (b' & Hb' & ?). exists b'. by rewrite Eb.
    + apply Forall_singleton. exists b. by rewrite Eb.
  - intros j. rewrite elem_of_app, list_elem_of_singleton. set_solver.
  - intros j. rewrite Ea, elem_of_app, list_elem_of_singleton. set_solver.
  - intros j Hj Hjp. rewrite elem_of_app, list_elem_of_singleton in Hjp.
    assert (Hj' : j ∈ y_inside y) by set_solver.
    destruct (Hho j Hj' ltac:(tauto)) as (b' & k & ?). exists b', k. by rewrite Eb.
Qed.

Lemma iderw_inv disk0 served pending y me i b :
  let r := req_of i b in
  iinv disk0 served pending y → i ∉ y_inside y → d_bufs (y_ide y) !! i = Some b →
  0 <= b_blockno b < FSSIZE → iderw_ok me (y_ide y) b = true →
  ∃ s', iderw me patience i (y_ide y) = Sleeps s' ∧ d_bufs s' = d_bufs (y_ide y) ∧ iinv disk0 served (pending ++ [r])
    (Sys s' (y_arrived y ++ [r]) (y_results y) ({[i]} ∪ y_inside y)).
Proof.
  intros r I Hi Hb Hn Hok. unfold iderw_ok in Hok. rewrite !andb_true_iff in Hok.
  destruct Hok as [[[Hl Hp] Hf] Hd]. apply negb_true_iff in Hf.
  set (s := y_ide y) in *. pose proof (lookup_lt_Some _ _ _ Hb) as Hlt.
  assert (Hip : i ∉ q_buf <$> pending) by (intros H; by apply Hi, (iv_inside _ _ _ _ I)).
  assert (W : wp (enqueue i;; q ← gets d_queue; (if decide (q = Some i) then idestart patience q else mret tt))
    (λ _ s1, d_bufs s1 = d_bufs s ∧ iinv disk0 served (pending ++ [r])
       (Sys (set_asleep (λ X, {[i]} ∪ X) s1) (y_arrived y ++ [r]) (y_results y) ({[i]} ∪ y_inside y))) s).
  { apply wp_bind. eapply wp_mono; [apply (enqueue_spec s _ i (iv_queue _ _ _ _ I) (iv_nodup _ _ _ _ I) Hip)|].
    { unfold s. rewrite (iv_len _ _ _ _ I). done. }
    intros [] _ (qn & q & -> & El & Hq). apply wp_bind, wp_gets. cbn [d_queue].
    pose proof (iv_device _ _ _ _ I) as Hdev. destruct pending as [|r' pending].
    - cbn [fmap list_fmap app queue_is] in Hq. destruct Hq as (-> & Hq). rewrite decide_True by done.
      destruct Hdev as (st & R & Hid & Hdk). set (s1 := Ide _ _ _ _ _ _).
      eapply wp_mono; [apply (idestart_spec s1 i b st R Hid Hb Hn)|].
      { by apply (Forall_lookup_1 _ _ _ _ (iv_wf _ _ _ _ I) Hb). }
      intros [] _ (d & st' & -> & R' & Hst). split; [done|].
      eapply arrive_inv; try done. rewrite <-Hdk. by eapply started_device.
    - cbn [fmap list_fmap app queue_is] in Hq. destruct Hq as (-> & Hq).
      rewrite decide_False by (intros E; simplify_eq; apply Hip; by left).
      apply wp_ret. split; [done|]. by eapply arrive_inv. }
  apply wp_elim in W as ([] & s1 & E & Eb & I1). exists (set_asleep (λ X, {[i]} ∪ X) s1).
  split; [|split; [exact Eb|exact I1]]. unfold iderw.
  rewrite (bind_ret _ _ _ b s) by (unfold bufp, gets; by rewrite (list_lookup_total_correct _ _ _ Hb)).
  rewrite Hl, Hp, Hf. cbn [negb andb]. rewrite (bind_ret _ _ _ (d_disk1 s) s) by done.
  replace (negb (b_dev b =? 0) && negb (d_disk1 s)) with false by (by destruct (b_dev b =? 0), (d_disk1 s)).
  unfold mbind, M_bind in E |- *. destruct (enqueue i s) as [[] s2| | |]; try done. cbn [gets] in *.
  destruct (if decide _ then _ else _) as [[] s3| | |]; try done. simplify_eq.
  unfold iderw_wait, bufp, gets, mbind, M_bind. rewrite Eb, (list_lookup_total_correct _ _ _ Hb), Hf. done.
Qed.

(** ** Every step *)

Lemma use_inv disk0 served pending s arr res ins bs :
  iinv disk0 served pending (Sys s arr res ins) → (∀ i, i ∈ ins → bs !! i = d_bufs s !! i) →
  length bs = length (d_bufs s) → Forall (λ b, wf_block (b_data b)) bs →
  iinv disk0 served pending (Sys (set_bufs (λ _, bs) s) arr res ins).
Proof.
  intros [Hlen Hwf Harr Hres Hq Hnd Hpend Hdev Hins Has Hho] E El Hbs. cbn [y_ide y_inside y_results] in *.
  split; cbn [y_ide y_arrived y_results y_inside set_bufs d_bufs d_qnext]; try done.
  - by rewrite El.
  - apply Forall_forall. intros r Hr. rewrite Forall_forall in Hpend.
    destruct (Hpend r Hr) as (b & Hb & ?). exists b. cbn [d_bufs set_bufs].
    rewrite E; [done|]. apply Hins. by apply list_elem_of_fmap_2.
  - intros i Hi Hp. destruct (Hho i Hi Hp) as (b & j & r & Hb & ?). exists b, j, r.
    cbn [d_bufs set_bufs]. by rewrite E.
Qed.

(** A process inside [iderw] whose request is pending finds it unfinished,
    another one finds it finished. *)
Lemma wait_inv disk0 served pending y i :
  iinv disk0 served pending y → i ∈ y_inside y →
  iderw_wait i (y_ide y) = if decide (i ∈ q_buf <$> pending)
    then Sleeps (set_asleep (λ X, {[i]} ∪ X) (y_ide y)) else Ret tt (y_ide y).
Proof.
  intros I Hi. unfold iderw_wait, bufp, gets, mbind, M_bind.
  destruct (decide _) as [Hp|Hp].
  - apply list_elem_of_fmap in Hp as (r & -> & Hr).
    destruct (proj1 (Forall_forall _ _) (iv_pending _ _ _ _ I) r Hr) as (b & Hb & _ & Hf & _).
    by rewrite (list_lookup_total_correct _ _ _ Hb), Hf.
  - destruct (iv_holds _ _ _ _ I i Hi Hp) as (b & _ & _ & Hb & Hf & _).
    by rewrite (list_lookup_total_correct _ _ _ Hb), Hf.
Qed.

Lemma istep_inv disk0 served pending y y' :
  iinv disk0 served pending y → istep y y' → ∃ served' pending', iinv disk0 served' pending' y'.
Proof.
  intros I H. destruct H as [s arr res ins bs E El Hbs|s arr res ins me i b s' Hi Hb Hn E
    |s arr res ins me i b s' Hi Hb Hn E|s arr res ins s' E|s arr res ins i s' Hi Has E|s arr res ins i s' Hi Has E].
  - exists served, pending. by apply use_inv.
  - destruct (iderw_ok me s b) eqn:Ok; [|destruct (iderw_checks me s i b Hb Ok) as [? ?]; congruence].
    destruct (iderw_inv _ _ _ _ me i b I Hi Hb Hn Ok) as (s1 & E1 & _ & I1). cbn [y_ide] in E1. rewrite E in E1. simplify_eq.
    by eexists _, _.
  - destruct (iderw_ok me s b) eqn:Ok; [|destruct (iderw_checks me s i b Hb Ok) as [? ?]; congruence].
    destruct (iderw_inv _ _ _ _ me i b I Hi Hb Hn Ok) as (s1 & E1 & _). cbn [y_ide] in E1. rewrite E in E1. simplify_eq.
  - pose proof (iv_queue _ _ _ _ I) as Hq. destruct pending as [|r pending]; cbn [fmap list_fmap queue_is y_ide] in Hq.
    + rewrite Hq, app_nil_r. unfold ideintr, mbind, M_bind, gets in E. rewrite Hq in E. injection E as <-.
      exists served, []. exact I.
    + destruct Hq as [-> _]. pose proof (ideintr_inv _ _ _ _ _ I) as W.
      apply wp_elim in W as ([] & s1 & E1 & _ & I1). cbn [y_ide] in E1. rewrite E in E1. simplify_eq. by eexists _, _.
  - pose proof (wait_inv _ _ _ _ i I Hi) as W. cbn [y_ide] in W. rewrite W in E. destruct (decide _) as [|Hp]; simplify_eq.
    exists served, pending. destruct I as [Hlen Hwf Harr Hres Hq Hnd Hpend Hdev Hins Has' Hho].
    split; try done; cbn [y_ide y_inside y_results] in *; set_solver.
  - pose proof (wait_inv _ _ _ _ i I Hi) as W. cbn [y_ide] in W. rewrite W in E. destruct (decide _) as [Hp|]; simplify_eq.
    exists served, pending. destruct I as [Hlen Hwf Harr Hres Hq Hnd Hpend Hdev Hins Has' Hho].
    split; try done. cbn [y_ide d_asleep set_asleep] in *. set_solver.
Qed.

(** The driver after [ideinit], with the contents [disk0] on the disks. *)
Definition ide_init (disk0 : Z → Z → block) (y : sys) : Prop :=
  y_arrived y = [] ∧ y_results y = [] ∧ y_inside y = ∅ ∧
  d_queue (y_ide y) = None ∧ d_asleep (y_ide y) = ∅ ∧
  length (d_qnext (y_ide y)) = length (d_bufs (y_ide y)) ∧
  Forall (λ b, wf_block (b_data b)) (d_bufs (y_ide y)) ∧
  ∃ st, ata_rep (d_dev (y_ide y)) st ∧ at_phase st = Idle ∧ at_disk st = disk0.

Lemma init_inv disk0 y : ide_init disk0 y → iinv disk0 [] [] y.
Proof.
  intros (E1 & E2 & E3 & E4 & E5 & E6 & E7 & st & R & Hst).
  split; rewrite ?E1, ?E2, ?E3, ?E4, ?E5; try done; try set_solver; [constructor|by exists st].
Qed.

Lemma reachable_inv disk0 y0 y :
  ide_init disk0 y0 → rtc istep y0 y → ∃ served pending, iinv disk0 served pending y.
Proof.
  intros H0%init_inv Hr. assert (H : ∃ served pending, iinv disk0 served pending y0) by eauto. clear H0.
  induction Hr as [|x y z Hs _ IH]; [done|]. apply IH. destruct H as (a & b & I).
  by apply (istep_inv _ a b x).
Qed.

(** [n] interrupts. *)
Fixpoint interrupts (n : nat) : M (ide D) unit :=
  match n with
  | O => mret tt
  | S n' => ideintr patience;; interrupts n'
  end.

Lemma interrupts_inv disk0 pending : ∀ served y,
  iinv disk0 served pending y →
  wp (interrupts (length pending)) (λ _ s', ∃ res,
    iinv disk0 (served ++ pending) [] (Sys s' (y_arrived y) res (y_inside y))) (y_ide y).
Proof.
  induction pending as [|r pending IH]; intros served y I; cbn [interrupts length].
  - apply wp_ret. rewrite app_nil_r. exists (y_results y). by destruct y.
  - apply wp_bind. eapply wp_mono; [by apply (ideintr_inv disk0 served r pending)|].
    intros [] s1 [_ I1]. specialize (IH _ _ I1). eapply wp_mono; [exact IH|].
    intros [] s2 [res I2]. exists res. by rewrite <-app_assoc in I2.
Qed.

(** ** Beside memide.c *)

Lemma fin_memide (f : Z) :
  Z.ldiff (Z.lor f B_VALID) B_DIRTY = Z.lor (Z.ldiff f B_DIRTY) B_VALID ∧
  (Z.land f B_DIRTY = 0 → Z.ldiff (Z.lor f B_VALID) B_DIRTY = Z.lor f B_VALID).
Proof.
  assert (E : Z.ldiff (Z.lor f B_VALID) B_DIRTY = Z.lor (Z.ldiff f B_DIRTY) B_VALID).
  { apply Z.bits_inj'. intros n Hn. rewrite Z.ldiff_spec, !Z.lor_spec, Z.ldiff_spec.
    destruct (decide (n = 1)) as [->|]; [change (Z.testbit B_VALID 1) with true;
      change (Z.testbit B_DIRTY 1) with false; by rewrite !orb_true_r|].
    assert (E : Z.testbit B_VALID n = false) by (by apply (Z.pow2_bits_false 1)).
    by rewrite E, !orb_false_r. }
  split; [exact E|]. intros H. rewrite E. f_equal.
  apply Z.bits_inj'. intros n Hn. rewrite Z.ldiff_spec. apply (f_equal (λ z, Z.testbit z n)) in H.
  rewrite Z.land_spec, Z.bits_0 in H. by destruct (Z.testbit f n), (Z.testbit B_DIRTY n).
Qed.

Lemma alter_twice (f g h : buf → buf) i (l : list buf) b :
  l !! i = Some b → g (f b) = h b → alter g i (alter f i l) = alter h i l.
Proof.
  intros Hb E. rewrite (alter_insert f _ _ b), alter_insert_eq, (alter_insert h _ _ b) by eauto using lookup_lt_Some.
  by rewrite E.
Qed.

(** What memide.c's [iderw] does when it returns. *)
Lemma memide_effect me i (s s' : bio) b :
  bufs s !! i = Some b → Bio.iderw me i s = Ret tt s' →
  let data := if dirty b then b_data b else disk_block s (b_blockno b) in
  negb (lk_locked (b_lock b) =? 0) && (lk_pid (b_lock b) =? me) = true ∧ finished b = false ∧
  b_dev b = 1 ∧ b_blockno b < disksize s ∧ bufs s' = alter (fin data) i (bufs s) ∧
  disk s' = if dirty b then <[b_blockno b := b_data b]> (disk s) else disk s.
Proof.
  intros Hb E. cbn zeta. assert (Eb : buf_at s i = b) by (by apply list_lookup_total_correct).
  assert (Eh : on_lock i (holdingsleep me) s =
    Ret (negb (lk_locked (b_lock b) =? 0) && (lk_pid (b_lock b) =? me)) s).
  { unfold on_lock, lift, holdingsleep, gets. rewrite Eb. f_equal. destruct s as [bs dk n w]. unfold upd_buf, with_bufs.
    cbn [bufs disk disksize writes] in *. f_equal. rewrite (alter_insert _ _ _ b) by done.
    apply list_insert_id. by destruct b. }
  unfold Bio.iderw, mbind, M_bind in E. rewrite Eh in E. unfold getS, modify, gets, panic in E.
  destruct (negb (lk_locked (b_lock b) =? 0) && _); cbn [negb] in E; [|done].
  rewrite Eb in E. unfold finished. destruct (_ =? B_VALID); [done|].
  destruct (Z.eqb_spec (b_dev b) 1) as [Hd|]; cbn [negb] in E; [|done].
  rewrite Z.geb_leb in E. destruct (Z.leb_spec (disksize s) (b_blockno b)); [done|].
  unfold dirty, fin. destruct (Z.eqb_spec (Z.land (b_flags b) B_DIRTY) 0) as [H0|H0]; cbn [negb] in *;
    simplify_eq E; intros <-; split_and!; try done; unfold upd_buf, with_bufs; cbn [bufs write_disk].
  - apply (alter_twice _ _ _ _ _ b Hb). cbn [with_data b_flags]. by rewrite (proj2 (fin_memide _) H0).
  - apply (alter_twice _ _ _ _ _ b Hb). cbn [with_flags b_flags]. rewrite (proj1 (fin_memide _)). by destruct b.
Qed.

(** ** The driver's promises *)


(** The two drivers agree.  Where memide.c's [iderw] returns, the one of
    ide.c, on an idle controller with the same buffers and the same blocks on
    disk 1, sleeps until the next interrupt and then returns, with the same
    buffers and the same blocks again: what is shown of the buffer cache
    over one driver holds over the other. *)
Theorem ide_agrees_with_memide me i (m m' : bio) (s : ide D) disk0 :
  ide_init disk0 (Sys s [] [] ∅) → d_bufs s = bufs m → d_disk1 s = true →
  (∀ n, 0 <= n < FSSIZE → disk0 1 n = disk_block m n) →
  (i < length (bufs m))%nat → 0 <= b_blockno (buf_at m i) → disksize m <= FSSIZE →
  Bio.iderw me i m = Ret tt m' →
  ∃ s1 s2 st, iderw me patience i s = Sleeps s1 ∧ ideintr patience s1 = Ret tt s2 ∧
    iderw_wait i s2 = Ret tt s2 ∧ d_bufs s2 = bufs m' ∧ d_queue s2 = None ∧
    ata_rep (d_dev s2) st ∧ at_phase st = Idle ∧
    ∀ n, 0 <= n < FSSIZE → at_disk st 1 n = disk_block m' n.
Proof.
  intros H0 Ebs Hd1 Hdk Hi Hn Hsz E. destruct (lookup_lt_is_Some_2 _ _ Hi) as [b Hb].
  unfold buf_at in Hn. rewrite (list_lookup_total_correct _ _ _ Hb) in Hn.
  destruct (memide_effect _ _ _ _ _ Hb E) as (Hl & Hf & Hdev & Hlt & Eb' & Ed').
  pose proof (init_inv _ _ H0) as I0. rewrite <-Ebs in Hb.
  destruct (iderw_inv _ _ _ _ me i b I0 ltac:(set_solver) Hb ltac:(lia)) as (s1 & E1 & Eb1 & I1).
  { unfold iderw_ok. cbn [y_ide]. by rewrite Hl, Hf, Hd1, orb_true_r. }
  destruct (wp_elim _ _ _ (ideintr_inv _ _ _ _ _ I1)) as ([] & s2 & E2 & Eb2 & I2).
  destruct (iv_device _ _ _ _ I2) as (st & R & Hid & Hat).
  cbn [y_ide] in *. exists s1, s2, st. split_and!; try done.
  - pose proof (wait_inv _ _ _ _ i I2 ltac:(set_solver)) as W. exact W.
  - rewrite Eb2, Eb1, Ebs, Eb'. f_equal. f_equal. unfold exec_req. cbn [serve fst req_of q_data q_drive q_block].
    destruct (dirty b); [done|]. cbn [snd]. rewrite Hdev. by apply Hdk; lia.
  - apply (iv_queue _ _ _ _ I2).
  - intros n Hn'. rewrite Hat. unfold disk_block. rewrite Ed'. cbn [serve app]. unfold exec_req.
    cbn [req_of q_data q_drive q_block]. rewrite Hdev.
    destruct (dirty b); cbn [fst]; [|by apply Hdk]. unfold put_disk. change (Z.land 1 1) with 1. cbn [Z.eqb andb].
    destruct (Z.eqb_spec n (b_blockno b)) as [->|]; [by rewrite lookup_insert_eq|].
    rewrite lookup_insert_ne by done. by apply Hdk.
Qed.

(** C14: From every reachable state, one interrupt for each request that is
    not served drains the queue: none of them panics or waits for ever, the
    disks then hold what the requests leave on them in the order of their
    arrival, nobody sleeps, and every process inside [iderw] returns. *)
Theorem ide_interrupts_drain disk0 y0 y :
  ide_init disk0 y0 → rtc istep y0 y →
  ∃ n s' st,
    (n + length (y_results y) = length (y_arrived y))%nat ∧
    interrupts n (y_ide y) = Ret tt s' ∧ d_queue s' = None ∧ d_asleep s' = ∅ ∧
    (∀ i, i ∈ y_inside y → iderw_wait i s' = Ret tt s') ∧
    ata_rep (d_dev s') st ∧ at_phase st = Idle ∧ at_disk st = (serve disk0 (y_arrived y)).1.
Proof.
  intros H0 Hr. destruct (reachable_inv _ _ _ H0 Hr) as (served & pending & I).
  destruct (wp_elim _ _ _ (interrupts_inv _ _ _ _ I)) as ([] & s' & E & res & I').
  destruct (iv_device _ _ _ _ I') as (st & R & Hid & Hdk). exists (length pending), s', st.
  rewrite (iv_results _ _ _ _ I), serve_length, (iv_arrived _ _ _ _ I), length_app.
  split_and!; [lia|done| | | |done|done|done].
  - apply (iv_queue _ _ _ _ I').
  - apply elem_of_equiv_empty_L. intros i Hi. by apply (iv_asleep _ _ _ _ I'), elem_of_nil in Hi.
  - intros i Hi. apply (wait_inv _ _ _ _ i I' Hi).
Qed.
End driver.
