(* ===== verification/IdeDemo.v ===== *)
(** * A disk that keeps the controller's promises

    The state [AtaDisk] speaks of, with a count of the status reads the
    drive stays busy after a command; and two processes that use it, one
    writing a block and one reading it. *)

From S2P Require Import Prelude Layout Sleeplock Bio Ide IdeSpec.

Definition drive : Type := ata * nat.

#[global] Instance drive_ports : AtaPorts drive := {
  ata_inb := λ '(a, n),
    match n with
    | O => (IDE_DRDY, (set_ready true a, O))
    | S n' => (IDE_BSY, (a, n'))
    end;
  ata_outb := λ port v '(a, n),
    if port =? 0x1f7 then
      if v =? IDE_CMD_READ then (set_phase (Reading (at_drive a) (at_lba a)) a, 3%nat)
      else if v =? IDE_CMD_WRITE then (set_phase (WantData (at_drive a) (at_lba a)) a, 0%nat)
      else (a, n)
    else (set_reg port v a, n);
  ata_insl := λ '(a, n),
    match at_phase a with
    | Reading x y => (at_disk a x y, (set_phase Idle a, n))
    | _ => (zero_block, (a, n))
    end;
  ata_outsl := λ b '(a, n),
    match at_phase a with
    | WantData x y => (Ata (put_disk x y b (at_disk a)) (at_reg a) Idle false, 3%nat)
    | _ => (a, n)
    end }.

#[global] Program Instance drive_disk : AtaDisk drive snd := {
  ata_rep d st := d.1 = st ∧ ∀ x y, wf_block (at_disk st x y) }.
Next Obligation.
  intros [a [|n]] st r d' [<- Hwf] [= <- <-]; (split; [done|]); cbn -[set_ready]; [by split|].
  split; [by split|lia].
Qed.
Next Obligation.
  intros [a n] st port v [<- Hwf] _ _ Hp. cbn -[set_reg Z.eqb].
  assert (E : (port =? 0x1f7) = false) by (apply Z.eqb_neq; set_solver). by rewrite E.
Qed.
Next Obligation. intros [a n] st [<- Hwf] _ _ _. by split. Qed.
Next Obligation. intros [a n] st [<- Hwf] _ _ _. by split. Qed.
Next Obligation.
  intros [a n] st x y b [<- Hwf] Hp Hb. cbn in Hp |- *. rewrite Hp. split; [done|].
  intros x' y'. cbn. unfold put_disk. by destruct (_ && _).
Qed.
Next Obligation.
  intros [a n] st x y b d' [<- Hwf] Hp _ E. cbn in Hp, E. rewrite Hp in E. by simplify_eq.
Qed.

(** Block 5 of drive 0 is written from buffer 0 and read into buffer 1. *)
Definition demo_disk (x y : Z) : block := replicate (Z.to_nat BSIZE) 1.
Definition demo_ide : ide drive :=
  Ide [Buf B_DIRTY 0 5 (Sleeplock 1 7) 1 0%nat 0%nat (replicate (Z.to_nat BSIZE) 9);
       Buf 0 0 5 (Sleeplock 1 8) 1 0%nat 0%nat zero_block]
    [None; None] None false ∅ (Ata demo_disk (λ _, 0) Idle false, 2%nat).
Definition slept (o : outcome (ide drive) unit) : ide drive :=
  match o with Ret _ s | Sleeps s => s | _ => demo_ide end.

(** Both call [iderw], then one interrupt comes. *)
Definition demo_ide1 : ide drive := slept (iderw 7 snd 0 demo_ide).
Definition demo_ide2 : ide drive := slept (iderw 8 snd 1 demo_ide1).
Definition demo_ide3 : ide drive := slept (ideintr snd demo_ide2).

Definition demo_sys0 : sys := Sys demo_ide [] [] ∅.
Definition demo_sys2 : sys :=
  Sys demo_ide2 [req_of 0 (d_bufs demo_ide !!! 0%nat); req_of 1 (d_bufs demo_ide1 !!! 1%nat)] []
    ({[1%nat]} ∪ ({[0%nat]} ∪ ∅)).
Definition demo_sys3 : sys :=
  Sys demo_ide3 (y_arrived demo_sys2) [replicate (Z.to_nat BSIZE) 9] (y_inside demo_sys2).

Lemma wf_replicate x : is_byte x → wf_block (replicate (Z.to_nat BSIZE) x).
Proof. intros H. split; [apply length_replicate|by apply Forall_replicate]. Qed.

Lemma demo_ide_init : ide_init snd demo_disk demo_sys0.
Proof.
  split_and!; try done.
  - apply Forall_cons; split; [by apply wf_replicate|]. apply Forall_singleton, wf_zero_block.
  - eexists. split; [split; [reflexivity|]|done]. intros x y. by apply wf_replicate.
Qed.

Lemma demo_ide_steps2 : rtc (istep snd) demo_sys0 demo_sys2.
Proof.
  eapply rtc_l; [|eapply rtc_once].
  - apply (is_rw snd _ _ _ _ 7 0 (d_bufs demo_ide !!! 0%nat) demo_ide1); [set_solver|done|done|].
    vm_compute. reflexivity.
  - refine (is_rw snd demo_ide1 [_] [] _ 8 1 (d_bufs demo_ide1 !!! 1%nat) demo_ide2 _ _ _ _);
      [set_solver|by vm_compute|by vm_compute|].
    vm_compute. reflexivity.
Qed.

Lemma demo_ide_steps3 : rtc (istep snd) demo_sys0 demo_sys3.
Proof.
  eapply rtc_r; [apply demo_ide_steps2|]. refine (eq_rect _ (istep snd demo_sys2) (is_intr snd _ _ _ _ demo_ide3 _) _ _).
  - vm_compute. reflexivity.
  - vm_compute. reflexivity.
Qed.


(** The reader gets what the writer wrote. *)
Lemma ide_interrupts_drain_witness :
  ∃ n s' st, interrupts snd n demo_ide2 = Ret tt s' ∧ ata_rep (d_dev s') st ∧
    at_disk st 0 5 = replicate (Z.to_nat BSIZE) 9.
Proof.
  destruct (ide_interrupts_drain snd demo_disk demo_sys0 demo_sys2 demo_ide_init demo_ide_steps2)
    as (n & s' & st & _ & E & _ & _ & _ & R & _ & Hdk).
  exists n, s', st. split_and!; [exact E|exact R|]. rewrite Hdk. by vm_compute.
Defined.

(** Disk 1, empty, under both drivers. *)
Definition demo_mem : bio :=
  Bio [Buf B_DIRTY 1 5 (Sleeplock 1 7) 1 0%nat 0%nat (replicate (Z.to_nat BSIZE) 9)] ∅ FSSIZE [].
Definition demo_one : ide drive :=
  Ide (bufs demo_mem) [None] None true ∅ (Ata (λ _ _, zero_block) (λ _, 0) Idle false, 2%nat).
Definition demo_mem' : bio :=
  match Bio.iderw 7 0 demo_mem with Ret _ m => m | _ => demo_mem end.

Lemma demo_one_init : ide_init snd (λ _ _, zero_block) (Sys demo_one [] [] ∅).
Proof.
  split_and!; try done.
  - apply Forall_singleton. by apply wf_replicate.
  - eexists. split; [split; [reflexivity|]|done]. intros x y. apply wf_zero_block.
Qed.

Lemma ide_agrees_with_memide_witness :
  ∃ s1 s2 st, iderw 7 snd 0 demo_one = Sleeps s1 ∧ ideintr snd s1 = Ret tt s2 ∧
    d_bufs s2 = bufs demo_mem' ∧ ata_rep (d_dev s2) st ∧ at_disk st 1 5 = disk_block demo_mem' 5.
Proof.
  destruct (ide_agrees_with_memide snd 7 0 demo_mem demo_mem' demo_one (λ _ _, zero_block) demo_one_init)
    as (s1 & s2 & st & E1 & E2 & _ & E3 & _ & R & _ & E4);
    [reflexivity|reflexivity|intros; reflexivity|cbn; lia|vm_compute; discriminate|apply Z.le_refl|
     vm_compute; reflexivity|].
  exists s1, s2, st. split_and!; [exact E1|exact E2|exact E3|exact R|].
  apply E4. change FSSIZE with 1000. lia.
Defined.
