(* ===== verification/BioRing.v ===== *)
(** * The LRU list of bio.c

    The doubly linked list threaded through [bcache] is a ring: starting
    at [HEAD], the [next] pointers visit a list of buffers and come back,
    and the [prev] pointers visit the same list backwards.  [unlink] and
    [push_front] act on that list as expected, and the two walks of
    [bget] are searches in it. *)

From S2P Require Import Prelude Layout Sleeplock Bio.

(** ** Adjacent pairs of a list *)

Fixpoint adj {A} (R : A → A → Prop) (l : list A) : Prop :=
  match l with
  | x :: ((y :: _) as t) => R x y ∧ adj R t
  | _ => True
  end.

Section adj.
Context {A : Type}.
Implicit Types (R : A → A → Prop) (l : list A).

Lemma adj_cons2 R x y l : adj R (x :: y :: l) ↔ R x y ∧ adj R (y :: l).
Proof. done. Qed.

Lemma adj_app R l1 x l2 : adj R (l1 ++ x :: l2) ↔ adj R (l1 ++ [x]) ∧ adj R (x :: l2).
Proof.
  induction l1 as [|a l1 IH]; [cbn; tauto|].
  destruct l1 as [|b l1]; [cbn; tauto|].
  cbn [app adj] in *. rewrite IH. tauto.
Qed.

Lemma adj_rev R l : adj R (reverse l) ↔ adj (flip R) l.
Proof.
  induction l as [|a l IH]; [done|]. rewrite reverse_cons.
  destruct l as [|b l]; [done|].
  change (adj (flip R) (a :: b :: l)) with (R b a ∧ adj (flip R) (b :: l)).
  rewrite <-IH, reverse_cons, <-app_assoc. cbn [app].
  rewrite adj_app. cbn [adj]. tauto.
Qed.

Lemma adj_impl R R' l z :
  (∀ x y, x ∈ l → y ∈ tail (l ++ [z]) → R x y → R' x y) →
  adj R (l ++ [z]) → adj R' (l ++ [z]).
Proof.
  induction l as [|a l IH]; [done|]. intros H.
  destruct l as [|b l]; cbn [app adj tail] in *.
  - intros [? _]. split; [|done]. apply H; set_solver.
  - intros [? ?]. split; [apply H; set_solver|]. apply IH; [|done].
    intros. apply H; set_solver.
Qed.
End adj.

(** ** The ring *)

Definition linked (bs : list buf) (x y : nat) : Prop :=
  b_next (bs !!! x) = y ∧ b_prev (bs !!! y) = x.

Definition ring (bs : list buf) (l : list nat) : Prop :=
  adj (linked bs) (HEAD :: l ++ [HEAD]).

Section ring.
Implicit Types (bs : list buf) (l : list nat) (b : nat).
Local Open Scope nat_scope.

Lemma next_alter f i bs j :
  (∀ x, b_next (f x) = b_next x) → b_next (alter f i bs !!! j) = b_next (bs !!! j).
Proof.
  intros Hf. rewrite !list_lookup_total_alt. destruct (decide (i = j)) as [->|].
  - rewrite list_lookup_alter_eq. by destruct (bs !! j); cbn.
  - by rewrite list_lookup_alter_ne.
Qed.

Lemma prev_alter f i bs j :
  (∀ x, b_prev (f x) = b_prev x) → b_prev (alter f i bs !!! j) = b_prev (bs !!! j).
Proof.
  intros Hf. rewrite !list_lookup_total_alt. destruct (decide (i = j)) as [->|].
  - rewrite list_lookup_alter_eq. by destruct (bs !! j); cbn.
  - by rewrite list_lookup_alter_ne.
Qed.

Lemma alter_eq f i bs : i < length bs → alter f i bs !!! i = f (bs !!! i).
Proof. intros. by apply list_lookup_total_alter_eq. Qed.

Lemma alter_ne f i bs j : i ≠ j → alter f i bs !!! j = bs !!! j.
Proof. intros. rewrite !list_lookup_total_alt. by rewrite list_lookup_alter_ne. Qed.

Lemma next_with_next v i bs j :
  i < length bs →
  b_next (alter (with_next v) i bs !!! j) = if decide (i = j) then v else b_next (bs !!! j).
Proof.
  intros. case_decide as E; [subst j|]; [by rewrite alter_eq|by rewrite alter_ne].
Qed.

Lemma prev_with_prev v i bs j :
  i < length bs →
  b_prev (alter (with_prev v) i bs !!! j) = if decide (i = j) then v else b_prev (bs !!! j).
Proof.
  intros. case_decide as E; [subst j|]; [by rewrite alter_eq|by rewrite alter_ne].
Qed.

(** An update that keeps the pointers keeps the ring. *)
Lemma ring_alter f i bs l :
  (∀ x, b_next (f x) = b_next x) → (∀ x, b_prev (f x) = b_prev x) →
  ring bs l → ring (alter f i bs) l.
Proof.
  intros Hn Hp. unfold ring. rewrite !app_comm_cons. apply adj_impl.
  intros x y _ _ [H1 H2]. split; [by rewrite next_alter|by rewrite prev_alter].
Qed.

Lemma last_cons_snoc (x : nat) l : ∃ l' p, x :: l = l' ++ [p].
Proof. destruct (exists_last (l := x :: l)) as (l' & p & ->); [done|eauto]. Qed.

(** The pointers after [unlink b], when [p] and [n] are its neighbours. *)
Lemma unlink_links bs p b n x y :
  p < length bs → n < length bs → b ≠ n → linked bs p b → linked bs b n →
  b_next (unlink b bs !!! x) = (if decide (p = x) then n else b_next (bs !!! x)) ∧
  b_prev (unlink b bs !!! y) = (if decide (n = y) then p else b_prev (bs !!! y)).
Proof.
  intros Hp Hn Hbn [Hpb Hbp] [Hbn' Hnb]. unfold unlink. rewrite Hbn', Hbp.
  assert (E1 : b_next (alter (with_prev p) n bs !!! b) = n) by (by rewrite next_alter).
  assert (E2 : b_prev (alter (with_prev p) n bs !!! b) = p).
  { rewrite prev_with_prev by done. case_decide; [done|done]. }
  rewrite E1, E2. split.
  - rewrite next_with_next by (rewrite length_alter; lia).
    case_decide; [done|]. by rewrite next_alter.
  - rewrite prev_alter by done. by rewrite prev_with_prev.
Qed.

Lemma unlink_path bs A p b n B z :
  p < length bs → n < length bs → b ≠ n →
  NoDup (A ++ [p]) → NoDup (n :: B) → n :: B = z ++ [HEAD] →
  (∀ x, x ∈ tail (A ++ [p]) → x ≠ n) → p ∉ z →
  adj (linked bs) (A ++ p :: b :: n :: B) →
  adj (linked (unlink b bs)) (A ++ p :: n :: B).
Proof.
  intros Hp Hn Hbn HndA HndB HB HAn Hpz Hr.
  apply adj_app in Hr as [Hr1 Hr2].
  rewrite !adj_cons2 in Hr2. destruct Hr2 as (Hpb & Hbn' & Hr2).
  pose proof (λ x y, unlink_links bs p b n x y Hp Hn Hbn Hpb Hbn') as Hlk.
  apply adj_app. rewrite adj_cons2. split_and!.
  - revert Hr1. apply adj_impl. intros x y Hx Hy [H1 H2].
    assert (x ≠ p). { intros ->. apply NoDup_app in HndA as (_ & H & _).
      apply (H p); [done|by left]. }
    assert (n ≠ y) by (intros <-; by apply (HAn n)).
    destruct (Hlk x y) as [E1 E2]. split; [rewrite E1|rewrite E2]; by rewrite decide_False by done.
  - destruct (Hlk p n) as [E1 E2]. split; [rewrite E1|rewrite E2]; by rewrite decide_True.
  - rewrite HB in Hr2 |- *. revert Hr2. apply adj_impl. intros x y Hx Hy [H1 H2].
    assert (p ≠ x) by (intros ->; done).
    assert (n ≠ y). { rewrite <-HB in Hy. cbn [tail] in Hy. intros ->.
      by apply NoDup_cons in HndB as [? _]. }
    destruct (Hlk x y) as [E1 E2]. split; [rewrite E1|rewrite E2]; by rewrite decide_False by done.
Qed.

(** The buffers of a ring are distinct and are not [HEAD]. *)
Definition bufs_ok (l : list nat) : Prop := NoDup l ∧ Forall (λ i, i < NBUF) l.

Lemma bufs_ok_head l : bufs_ok l → HEAD ∉ l.
Proof. intros [_ H] Hin. rewrite Forall_forall in H. apply H in Hin. unfold HEAD in Hin. lia. Qed.

Lemma bufs_ok_cons l : bufs_ok l → NoDup (HEAD :: l).
Proof. intros H. apply NoDup_cons. split; [by apply bufs_ok_head|apply H]. Qed.

Lemma bufs_ok_snoc l : bufs_ok l → NoDup (l ++ [HEAD]).
Proof.
  intros H. apply NoDup_app. split_and!; [apply H| |apply NoDup_singleton].
  intros x Hx ->%list_elem_of_singleton. by apply (bufs_ok_head l).
Qed.

Lemma bufs_ok_app l1 b l2 :
  bufs_ok (l1 ++ b :: l2) → bufs_ok l1 ∧ bufs_ok l2 ∧ b < NBUF ∧
    (∀ x, x ∈ l1 → x ∉ l2) ∧ b ∉ l1 ∧ b ∉ l2.
Proof.
  intros [(H1 & H2 & [Hb H3]%NoDup_cons)%NoDup_app [H4 [H5 H6]%Forall_cons]%Forall_app].
  unfold bufs_ok. split_and!; auto; [set_solver|]. intros H. by apply (H2 b); [|left].
Qed.

Lemma bufs_ok_lt l x : bufs_ok l → x ∈ HEAD :: l → x < S NBUF.
Proof.
  intros [_ H]. rewrite elem_of_cons, Forall_forall in *. unfold HEAD.
  intros [->|Hx%H]; lia.
Qed.

Lemma unlink_ring bs l1 b l2 :
  length bs = S NBUF → bufs_ok (l1 ++ b :: l2) →
  ring bs (l1 ++ b :: l2) → ring (unlink b bs) (l1 ++ l2).
Proof.
  intros Hlen Hok Hr. destruct (bufs_ok_app _ _ _ Hok) as (Hok1 & Hok2 & Hb & Hdis & Hb1 & Hb2).
  destruct (last_cons_snoc HEAD l1) as (A & p & HA).
  assert (∃ n B, n :: B = l2 ++ [HEAD]) as (n & B & HB) by (destruct l2; cbn; eauto).
  assert (Hp : p ∈ HEAD :: l1) by (rewrite HA; set_solver).
  assert (Hn : n = HEAD ∨ n ∈ l2).
  { assert (n ∈ l2 ++ [HEAD]) as H by (rewrite <-HB; left). set_solver. }
  unfold ring in *. rewrite <-!app_assoc in Hr |- *. cbn [app] in Hr.
  rewrite app_comm_cons, HA, <-HB, <-app_assoc in Hr |- *. cbn [app] in Hr |- *.
  eapply unlink_path; try done.
  - rewrite Hlen. by apply (bufs_ok_lt l1).
  - rewrite Hlen. apply (bufs_ok_lt l2); [done|set_solver].
  - destruct Hn as [->|Hn]; [unfold HEAD; lia|set_solver].
  - rewrite <-HA. by apply bufs_ok_cons.
  - rewrite HB. by apply bufs_ok_snoc.
  - rewrite <-HA. cbn [tail]. intros x Hx ->. destruct Hn as [->|Hn].
    + by apply (bufs_ok_head l1).
    + by apply (Hdis n).
  - intros Hp2. rewrite elem_of_cons in Hp. destruct Hp as [->|Hp].
    + by apply (bufs_ok_head l2).
    + by apply (Hdis p).
Qed.

(** The pointers after [push_front b], when [n] was the first buffer. *)
Lemma push_links bs b n x y :
  length bs = S NBUF → b < NBUF → n < length bs → b_next (bs !!! HEAD) = n →
  b_next (push_front b bs !!! x) =
    (if decide (HEAD = x) then b else if decide (b = x) then n else b_next (bs !!! x)) ∧
  b_prev (push_front b bs !!! y) =
    (if decide (n = y) then b else if decide (b = y) then HEAD else b_prev (bs !!! y)).
Proof.
  intros Hlen Hb Hnl Hn1.
  assert (HH : HEAD < length bs) by (rewrite Hlen; unfold HEAD; lia).
  assert (HbH : HEAD ≠ b) by (unfold HEAD; lia).
  unfold push_front. rewrite Hn1.
  rewrite (next_alter (with_prev HEAD)) by done.
  rewrite (next_with_next n b bs HEAD) by lia. rewrite decide_False, Hn1 by done. split.
  - rewrite next_with_next by (rewrite !length_alter; lia). case_decide; [done|].
    rewrite !(next_alter (with_prev _)) by done. rewrite next_with_next by lia. done.
  - rewrite (prev_alter (with_next b)) by done.
    rewrite prev_with_prev by (rewrite !length_alter; lia). case_decide; [done|].
    rewrite prev_with_prev by (rewrite !length_alter; lia). case_decide; [done|].
    by rewrite prev_alter.
Qed.

Lemma push_front_ring bs b l :
  length bs = S NBUF → bufs_ok (b :: l) → ring bs l → ring (push_front b bs) (b :: l).
Proof.
  intros Hlen [[Hbl Hnd]%NoDup_cons [Hb Hlt]%Forall_cons] Hr.
  assert (Hok : bufs_ok l) by done.
  assert (HbH : HEAD ≠ b) by (unfold HEAD; lia).
  assert (∃ n B, n :: B = l ++ [HEAD]) as (n & B & HB) by (destruct l; cbn; eauto).
  assert (Hn : n = HEAD ∨ n ∈ l).
  { assert (n ∈ l ++ [HEAD]) as H by (rewrite <-HB; left). set_solver. }
  assert (Hnl : n < length bs).
  { rewrite Hlen. apply (bufs_ok_lt l); [done|set_solver]. }
  assert (Hnb : n ≠ b) by (destruct Hn as [->|]; [done|set_solver]).
  unfold ring in *. cbn [app]. rewrite <-HB in *. rewrite !adj_cons2 in *.
  destruct Hr as [[Hn1 Hn2] Hr].
  pose proof (λ x y, push_links bs b n x y Hlen Hb Hnl Hn1) as Hlk.
  split_and!.
  - destruct (Hlk HEAD b) as [E1 E2]. split; [rewrite E1|rewrite E2].
    + by rewrite decide_True.
    + by rewrite decide_False, decide_True.
  - destruct (Hlk b n) as [E1 E2]. split; [rewrite E1|rewrite E2].
    + by rewrite decide_False, decide_True.
    + by rewrite decide_True.
  - rewrite HB in Hr |- *. revert Hr. apply adj_impl. intros x y Hx Hy [H1 H2].
    assert (HEAD ≠ x) by (intros <-; by apply (bufs_ok_head l)).
    assert (b ≠ x) by (intros <-; done).
    assert (n ≠ y ∧ b ≠ y) as [??].
    { rewrite <-HB in Hy. cbn [tail] in Hy.
      pose proof (bufs_ok_snoc l Hok) as HndB. rewrite <-HB in HndB.
      apply NoDup_cons in HndB as [HnB _]. split; [by intros ->|]. intros ->.
      assert (y ∈ l ++ [HEAD]) by (rewrite <-HB; by right). set_solver. }
    destruct (Hlk x y) as [E1 E2]. split; [rewrite E1|rewrite E2];
      by rewrite !decide_False.
Qed.

(** ** The walks of [bget] are searches in the ring *)

Lemma bget_hit_walk bs dev blockno x l fuel :
  adj (linked bs) (x :: l ++ [HEAD]) → HEAD ∉ l → length l < fuel →
  bget_hit fuel bs dev blockno (b_next (bs !!! x)) =
    Some (find (λ i, (b_dev (bs !!! i) =? dev)%Z && (b_blockno (bs !!! i) =? blockno)%Z) l).
Proof.
  revert x fuel; induction l as [|y l IH]; intros x fuel Hadj Hnin Hf.
  - destruct fuel as [|fuel]; [lia|]. destruct Hadj as [[-> _] _]. done.
  - destruct fuel as [|fuel]; [cbn in Hf; lia|].
    cbn [app] in Hadj. rewrite adj_cons2 in Hadj. destruct Hadj as [[-> _] Hadj].
    cbn [bget_hit find]. rewrite (proj2 (Nat.eqb_neq y HEAD)) by set_solver.
    case_match; [done|]. apply IH; [done|set_solver|cbn in Hf; lia].
Qed.

Lemma bget_victim_walk bs x l fuel :
  adj (flip (linked bs)) (x :: l ++ [HEAD]) → HEAD ∉ l → length l < fuel →
  bget_victim fuel bs (b_prev (bs !!! x)) =
    Some (find (λ i, (b_refcnt (bs !!! i) =? 0)%Z &&
                     (Z.land (b_flags (bs !!! i)) B_DIRTY =? 0)%Z) l).
Proof.
  revert x fuel; induction l as [|y l IH]; intros x fuel Hadj Hnin Hf.
  - destruct fuel as [|fuel]; [lia|]. destruct Hadj as [[_ ->] _]. done.
  - destruct fuel as [|fuel]; [cbn in Hf; lia|].
    cbn [app] in Hadj. rewrite adj_cons2 in Hadj. destruct Hadj as [[_ ->] Hadj].
    cbn [bget_victim find]. rewrite (proj2 (Nat.eqb_neq y HEAD)) by set_solver.
    case_match; [done|]. apply IH; [done|set_solver|cbn in Hf; lia].
Qed.

(** Both walks, from a ring that holds every buffer. *)
Lemma bget_hit_ring bs dev blockno l :
  ring bs l → l ≡ₚ seq 0 NBUF →
  bget_hit (S NBUF) bs dev blockno (b_next (bs !!! HEAD)) =
    Some (find (λ i, (b_dev (bs !!! i) =? dev)%Z && (b_blockno (bs !!! i) =? blockno)%Z) l).
Proof.
  intros Hr Hl. apply bget_hit_walk; [done| |].
  - rewrite Hl, elem_of_seq. unfold HEAD. lia.
  - rewrite Hl, length_seq. lia.
Qed.

Lemma bget_victim_ring bs l :
  ring bs l → l ≡ₚ seq 0 NBUF →
  bget_victim (S NBUF) bs (b_prev (bs !!! HEAD)) =
    Some (find (λ i, (b_refcnt (bs !!! i) =? 0)%Z &&
                     (Z.land (b_flags (bs !!! i)) B_DIRTY =? 0)%Z) (reverse l)).
Proof.
  intros Hr Hl. apply bget_victim_walk.
  - apply (adj_rev (linked bs)). rewrite reverse_cons, reverse_app, reverse_involutive.
    done.
  - rewrite elem_of_reverse, Hl, elem_of_seq. unfold HEAD. lia.
  - rewrite length_reverse, Hl, length_seq. lia.
Qed.

Lemma bufs_ok_perm l : l ≡ₚ seq 0 NBUF → bufs_ok l.
Proof.
  intros Hl. split; [rewrite Hl; apply NoDup_seq|].
  rewrite Hl, Forall_forall. intros x Hx%elem_of_seq. lia.
Qed.

(** [brelse]'s list surgery moves the buffer to the front. *)
Lemma move_front_ring bs b l :
  length bs = S NBUF → ring bs l → l ≡ₚ seq 0 NBUF → b < NBUF →
  ∃ l', ring (push_front b (unlink b bs)) l' ∧ l' ≡ₚ seq 0 NBUF ∧ head l' = Some b.
Proof.
  intros Hlen Hr Hl Hb. pose proof (bufs_ok_perm l Hl) as Hok.
  assert (b ∈ l) as (l1 & l2 & ->)%list_elem_of_split by (rewrite Hl, elem_of_seq; lia).
  assert (Hl' : b :: l1 ++ l2 ≡ₚ seq 0 NBUF) by (rewrite <-Hl; apply Permutation_middle).
  exists (b :: l1 ++ l2). split_and!; [|done|done].
  apply push_front_ring.
  - unfold unlink. by rewrite !length_alter.
  - by apply bufs_ok_perm.
  - by apply unlink_ring.
Qed.
End ring.
