(* ===== verification/BlockLayer.v ===== *)
(** * What the block layer promises to the file system

    fs.c reaches the disk only through [bread], [log_write] and [brelse].
    [astore] is the client's view of the layer below: the current content
    of every block, the blocks pinned in the open transaction, and the
    buffers the running thread holds.  [BlockLayer] states the contract
    of the three routines on that view; LogLayer.v proves that bio.c and log.c
    fulfil it, and the fs.c files are proved against the class. *)

From S2P Require Import Prelude Layout.

(** Where the log is, on a disk of [g_size] blocks. *)
Record geometry := Geometry { g_size : Z; g_logstart : Z; g_logsize : Z }.

Record astore := AStore {
  a_view : Z → block;       (* content of a block, as [bread] returns it *)
  a_dirty : gset Z;         (* blocks of the open transaction *)
  a_held : gmap Z nat;      (* held blocks and their buffers *)
  a_geo : geometry }.

Definition a_size (a : astore) : Z := g_size (a_geo a).

(** Blocks of the file system proper: past the boot block and the super
    block, outside the log. *)
Definition home (g : geometry) (b : Z) : Prop :=
  2 <= b < g_size g ∧ ¬ (g_logstart g <= b < g_logstart g + g_logsize g).

(** How many blocks a transaction may hold before [log_write] panics. *)
Definition log_cap (g : geometry) : Z := Z.min LOGSIZE (g_logsize g - 1).

Definition a_hold (b : Z) (i : nat) (a : astore) : astore :=
  AStore (a_view a) (a_dirty a) (<[b := i]> (a_held a)) (a_geo a).
Definition a_release (b : Z) (a : astore) : astore :=
  AStore (a_view a) (a_dirty a) (delete b (a_held a)) (a_geo a).
Definition view_set (b : Z) (d : block) (v : Z → block) : Z → block :=
  λ x, if x =? b then d else v x.
Definition a_update (b : Z) (d : block) (a : astore) : astore :=
  AStore (view_set b d (a_view a)) ({[b]} ∪ a_dirty a) (a_held a) (a_geo a).
Definition a_clean (b : Z) (d : block) (a : astore) : astore :=
  AStore (view_set b d (a_view a)) (a_dirty a ∖ {[b]}) (a_held a) (a_geo a).

(** Bounds on block numbers: the operations keep the geometry. *)
Ltac size_lia :=
  unfold a_size in *; cbn [a_geo a_hold a_release a_update a_clean] in *; lia.

(** Blocks that occupy a buffer that cannot be recycled. *)
Definition a_busy (a : astore) : gset Z := dom (a_held a) ∪ a_dirty a.

Lemma view_set_eq b d v : view_set b d v b = d.
Proof. unfold view_set. by rewrite Z.eqb_refl. Qed.

Lemma view_set_ne b d v x : x ≠ b → view_set b d v x = v x.
Proof. unfold view_set. intros H%Z.eqb_neq. by rewrite H. Qed.

(** Two views are the same when they agree block by block. *)
#[global] Instance astore_equiv : Equiv astore := λ a a',
  (∀ b, a_view a b = a_view a' b) ∧ a_dirty a = a_dirty a' ∧ a_held a = a_held a' ∧
  a_geo a = a_geo a'.

#[global] Instance astore_equivalence : Equivalence (≡@{astore}).
Proof.
  split.
  - by intros a; split_and!.
  - intros a a' (? & ? & ? & ?). by split_and!.
  - intros a a' a'' (? & ? & ? & ?) (? & ? & ? & ?).
    split_and!; congruence.
Qed.

Class BlockLayer (S : Type) := {
  bl_bread : Z → Z → M S nat;
  bl_brelse : nat → M S unit;
  bl_log_write : nat → M S unit;
  bl_data : S → nat → block;
  bl_set : nat → block → S → S;
  bl_rep : S → astore → Prop;
  bl_proper s :: Proper ((≡) ==> iff) (bl_rep s);
  bl_wf s a b : bl_rep s a → wf_block (a_view a b);
  bl_data_view s a b i :
    bl_rep s a → a_held a !! b = Some i → bl_data s i = a_view a b;
  bl_bread_ok s a b :
    bl_rep s a → 0 <= b < a_size a → a_held a !! b = None →
    (size ({[b]} ∪ a_busy a) ≤ NBUF)%nat →
    wp (bl_bread ROOTDEV b) (λ i s', bl_rep s' (a_hold b i a)) s;
  bl_brelse_ok s a b i :
    bl_rep s a → a_held a !! b = Some i →
    wp (bl_brelse i) (λ _ s', bl_rep s' (a_release b a)) s;
  bl_update_ok s a b i d :
    bl_rep s a → a_held a !! b = Some i → wf_block d → home (a_geo a) b →
    Z.of_nat (size (a_dirty a)) < log_cap (a_geo a) →
    wp (bl_log_write i) (λ _ s', bl_rep s' (a_update b d a)) (bl_set i d s) }.
