(* ===== verification/BioSpec.v ===== *)
(** * The buffer cache implements a coherent view of the disk

    [bio_rep] relates a cache state to the view [astore] of its client:
    each buffer of device 1 caches a different block and holds the
    current content of it, clean blocks agree with the disk, and a buffer
    is referenced and locked exactly when its block is held. *)

From S2P Require Import Prelude Layout Sleeplock Bio BioRing BlockLayer.

(** A buffer without its list pointers. *)
Definition body (b : buf) : buf := with_prev 0%nat (with_next 0%nat b).

Section spec.
Variable me : Z.
Implicit Types (s : bio) (a : astore) (i j : nat).

Definition buf_rep a i (x : buf) : Prop :=
  (b_dev x ≠ 1 ∧ b_flags x = 0 ∧ b_refcnt x = 0 ∧ b_lock x = initsleeplock) ∨
  (b_dev x = 1 ∧ 0 <= b_blockno x < a_size a ∧ b_data x = a_view a (b_blockno x) ∧
   ((b_refcnt x = 0 ∧ b_lock x = initsleeplock ∧ a_held a !! b_blockno x = None) ∨
    (b_refcnt x = 1 ∧ b_lock x = Sleeplock 1 me ∧ a_held a !! b_blockno x = Some i)) ∧
   ((b_flags x = 2 ∧ b_blockno x ∉ a_dirty a) ∨ (b_flags x = 6 ∧ b_blockno x ∈ a_dirty a))).

Record bio_rep s a : Prop := {
  rep_len : length (bufs s) = S NBUF;
  rep_ring : ∃ l, ring (bufs s) l ∧ l ≡ₚ seq 0 NBUF;
  rep_buf i : (i < NBUF)%nat → buf_rep a i (buf_at s i);
  rep_uniq i j : (i < NBUF)%nat → (j < NBUF)%nat →
    b_dev (buf_at s i) = 1 → b_dev (buf_at s j) = 1 →
    b_blockno (buf_at s i) = b_blockno (buf_at s j) → i = j;
  rep_held b i : a_held a !! b = Some i →
    (i < NBUF)%nat ∧ b_dev (buf_at s i) = 1 ∧ b_blockno (buf_at s i) = b;
  rep_dirty b : b ∈ a_dirty a →
    ∃ i, (i < NBUF)%nat ∧ b_dev (buf_at s i) = 1 ∧ b_blockno (buf_at s i) = b;
  rep_disk b : b ∉ a_dirty a → a_view a b = disk_block s b;
  rep_wf b : wf_block (a_view a b);
  rep_size : a_size a = disksize s }.

Definition agree_off (b : Z) a a' : Prop :=
  a_size a' = a_size a ∧
  ∀ b', b' ≠ b → a_view a' b' = a_view a b' ∧ a_held a' !! b' = a_held a !! b' ∧
    (b' ∈ a_dirty a' ↔ b' ∈ a_dirty a).

Lemma body_inj x y : body x = body y →
  b_flags x = b_flags y ∧ b_dev x = b_dev y ∧ b_blockno x = b_blockno y ∧
  b_lock x = b_lock y ∧ b_refcnt x = b_refcnt y ∧ b_data x = b_data y.
Proof. destruct x, y. unfold body; cbn. intros [=]. by subst. Qed.

Lemma buf_rep_body a i x y : body x = body y → buf_rep a i x → buf_rep a i y.
Proof.
  intros (E1 & E2 & E3 & E4 & E5 & E6)%body_inj. unfold buf_rep.
  by rewrite E1, E2, E3, E4, E5, E6.
Qed.

Lemma buf_rep_agree b a a' i x :
  agree_off b a a' → (b_dev x = 1 → b_blockno x ≠ b) → buf_rep a i x → buf_rep a' i x.
Proof.
  intros [Hsz Hag] Hb [H|(H1 & H2 & H3 & H4 & H5)]; [by left|right].
  destruct (Hag (b_blockno x)) as (E1 & E2 & E3); [by apply Hb|].
  by rewrite Hsz, E1, E2, E3.
Qed.

(** Any step of the cache changes one buffer [i], which ends up caching
    block [b], and the view at [b] only. *)
Lemma rep_change s s' a a' i b x' :
  bio_rep s a → (i < NBUF)%nat →
  length (bufs s') = length (bufs s) →
  (∃ l, ring (bufs s') l ∧ l ≡ₚ seq 0 NBUF) →
  (∀ j, j ≠ i → (j < NBUF)%nat → body (buf_at s' j) = body (buf_at s j)) →
  body (buf_at s' i) = body x' →
  disksize s' = disksize s → (∀ b', b' ≠ b → disk_block s' b' = disk_block s b') →
  agree_off b a a' → b_dev x' = 1 → b_blockno x' = b → buf_rep a' i x' →
  (∀ j, j ≠ i → (j < NBUF)%nat → b_dev (buf_at s j) = 1 → b_blockno (buf_at s j) ≠ b) →
  (b_dev (buf_at s i) = 1 → b_blockno (buf_at s i) = b ∨
    (a_held a !! b_blockno (buf_at s i) = None ∧ b_blockno (buf_at s i) ∉ a_dirty a)) →
  (b ∉ a_dirty a' → a_view a' b = disk_block s' b) → wf_block (a_view a' b) →
  bio_rep s' a'.
Proof.
  intros R Hi Hlen Hring Hoth Hbi Hds Hdb Hag Hdx Hbx Hrx Huniq Hold Hvd Hwf.
  destruct (body_inj _ _ Hbi) as (_ & E2 & E3 & _).
  assert (Hoth' : ∀ j, j ≠ i → (j < NBUF)%nat →
    b_dev (buf_at s' j) = b_dev (buf_at s j) ∧ b_blockno (buf_at s' j) = b_blockno (buf_at s j)).
  { intros j ? ?. destruct (body_inj _ _ (Hoth j ltac:(done) ltac:(done))) as (_ & ? & ? & _). done. }
  assert (Hkeep : ∀ b' j, b' ≠ b → (j < NBUF)%nat →
    (a_held a !! b' = None ∧ b' ∉ a_dirty a → False) →
    b_dev (buf_at s j) = 1 ∧ b_blockno (buf_at s j) = b' →
    b_dev (buf_at s' j) = 1 ∧ b_blockno (buf_at s' j) = b').
  { intros b' j Hb' Hj Hk [Hd Hbn]. destruct (decide (j = i)) as [->|Hji].
    - destruct (Hold Hd) as [E|Ho]; [congruence|]. rewrite Hbn in Ho. by destruct Hk.
    - destruct (Hoth' j Hji Hj) as [-> ->]. done. }
  split; [rewrite Hlen; apply R|done| | | | | | |destruct Hag as [-> _]; rewrite Hds; apply R].
  - intros j Hj. destruct (decide (j = i)) as [->|Hji].
    + by apply (buf_rep_body _ _ x').
    + apply (buf_rep_body _ _ (buf_at s j)); [by rewrite Hoth|].
      apply (buf_rep_agree b a); [done|by apply Huniq|by apply R].
  - intros j k Hj Hk. destruct (decide (j = i)) as [->|Hji], (decide (k = i)) as [->|Hki]; [done| | |].
    + destruct (Hoth' k Hki Hk) as [-> ->]. rewrite E3, Hbx. intros _ Hd Hb.
      by destruct (Huniq k Hki Hk Hd).
    + destruct (Hoth' j Hji Hj) as [-> ->]. rewrite E3, Hbx. intros Hd _ Hb.
      by destruct (Huniq j Hji Hj Hd).
    + destruct (Hoth' j Hji Hj) as [-> ->]. destruct (Hoth' k Hki Hk) as [-> ->]. by apply R.
  - intros b' j Hh. destruct (decide (b' = b)) as [->|Hb'].
    + destruct (decide (j = i)) as [->|Hji]; [by rewrite E2, E3|].
      destruct Hrx as [(? & _)|(_ & _ & _ & [(_ & _ & Hn)|(_ & _ & Hn)] & _)]; [done| |];
        rewrite Hbx in Hn; congruence.
    + destruct (proj2 Hag b' Hb') as (_ & Eh & _). rewrite Eh in Hh.
      destruct (rep_held _ _ R _ _ Hh) as [Hj Hjd]. split; [done|].
      apply Hkeep; [done|done| |done]. intros [? _]. congruence.
  - intros b' Hd. destruct (decide (b' = b)) as [->|Hb'].
    + exists i. by rewrite E2, E3.
    + destruct (proj2 Hag b' Hb') as (_ & _ & Ed). rewrite Ed in Hd.
      destruct (rep_dirty _ _ R _ Hd) as (j & Hj & Hjd). exists j. split; [done|].
      apply Hkeep; [done|done| |done]. by intros [_ ?].
  - intros b' Hd. destruct (decide (b' = b)) as [->|Hb']; [by apply Hvd|].
    destruct (proj2 Hag b' Hb') as (Ev & _ & Ed). rewrite Ev, Hdb by done.
    apply (rep_disk _ _ R). by rewrite <-Ed.
  - intros b'. destruct (decide (b' = b)) as [->|Hb']; [done|].
    destruct (proj2 Hag b' Hb') as (-> & _). apply R.
Qed.

(** ** Single steps *)

Lemma buf_at_upd f i s j :
  (i < length (bufs s))%nat →
  buf_at (upd_buf i f s) j = if decide (i = j) then f (buf_at s i) else buf_at s j.
Proof.
  intros. unfold buf_at, upd_buf, with_bufs; cbn. case_decide as E; [subst j|].
  - by rewrite alter_eq.
  - by rewrite alter_ne.
Qed.

Lemma buf_at_upd_eq f i s :
  (i < length (bufs s))%nat → buf_at (upd_buf i f s) i = f (buf_at s i).
Proof. intros. rewrite buf_at_upd by done. by rewrite decide_True. Qed.

Lemma length_upd_buf f i s : length (bufs (upd_buf i f s)) = length (bufs s).
Proof. unfold upd_buf, with_bufs; cbn. apply length_alter. Qed.

Lemma upd_buf_id f i s :
  f (buf_at s i) = buf_at s i → upd_buf i f s = s.
Proof.
  intros Hf. destruct s as [bs d n w]. unfold upd_buf, with_bufs, buf_at in *; cbn in *.
  f_equal. apply list_eq; intros j.
  destruct (decide (i = j)) as [->|]; [|by rewrite list_lookup_alter_ne].
  rewrite list_lookup_alter_eq. destruct (bs !! j) eqn:E; [cbn|done].
  apply list_lookup_total_correct in E. congruence.
Qed.

Lemma on_lock_acquire i s :
  b_lock (buf_at s i) = initsleeplock →
  on_lock i (acquiresleep me) s = Ret tt (upd_buf i (with_lock (Sleeplock 1 me)) s).
Proof. intros H. unfold on_lock, lift. by rewrite H. Qed.

Lemma on_lock_holding i s :
  b_lock (buf_at s i) = Sleeplock 1 me → on_lock i (holdingsleep me) s = Ret true s.
Proof.
  intros H. unfold on_lock, lift. rewrite H, holdingsleep_held. f_equal.
  apply upd_buf_id. rewrite <-H. by destruct (buf_at s i).
Qed.

Lemma ring_upd f i s :
  (∀ x, b_next (f x) = b_next x) → (∀ x, b_prev (f x) = b_prev x) →
  (∃ l, ring (bufs s) l ∧ l ≡ₚ seq 0 NBUF) →
  ∃ l, ring (bufs (upd_buf i f s)) l ∧ l ≡ₚ seq 0 NBUF.
Proof. intros Hn Hp (l & Hr & Hl). exists l. split; [|done]. by apply ring_alter. Qed.

(** ** Which buffer [bget] finds *)

Definition caches s (b : Z) i : Prop :=
  (i < NBUF)%nat ∧ b_dev (buf_at s i) = 1 ∧ b_blockno (buf_at s i) = b.

Lemma bget_hit_spec s a b :
  bio_rep s a →
  ∃ r, bget_hit (S NBUF) (bufs s) ROOTDEV b (b_next (buf_at s HEAD)) = Some r ∧
    match r with Some i => caches s b i | None => ∀ i, ¬ caches s b i end.
Proof.
  intros R. destruct (rep_ring _ _ R) as (l & Hr & Hl).
  unfold buf_at at 1. rewrite (bget_hit_ring _ _ _ l Hr Hl). eexists; split; [done|].
  case_match eqn:E.
  - apply find_some in E as [Hin E]. apply andb_prop in E as [E1%Z.eqb_eq E2%Z.eqb_eq].
    apply list_elem_of_In in Hin. rewrite Hl, elem_of_seq in Hin. split_and!; [lia|done|done].
  - intros i (Hi & Hd & Hb). pose proof (find_none _ _ E i) as Hn. cbn in Hn.
    unfold buf_at in Hd, Hb. rewrite Hd, Hb, !Z.eqb_refl in Hn. discriminate Hn.
    apply list_elem_of_In. rewrite Hl, elem_of_seq. lia.
Qed.

Definition evictable s i : Prop :=
  (i < NBUF)%nat ∧ b_refcnt (buf_at s i) = 0 ∧ Z.land (b_flags (buf_at s i)) B_DIRTY = 0.

Lemma bget_victim_spec s a :
  bio_rep s a →
  ∃ r, bget_victim (S NBUF) (bufs s) (b_prev (buf_at s HEAD)) = Some r ∧
    match r with Some i => evictable s i | None => ∀ i, ¬ evictable s i end.
Proof.
  intros R. destruct (rep_ring _ _ R) as (l & Hr & Hl).
  unfold buf_at at 1. rewrite (bget_victim_ring _ l Hr Hl). eexists; split; [done|].
  case_match eqn:E.
  - apply find_some in E as [Hin E]. apply andb_prop in E as [E1%Z.eqb_eq E2%Z.eqb_eq].
    apply list_elem_of_In in Hin. rewrite elem_of_reverse, Hl, elem_of_seq in Hin.
    split_and!; [lia|done|done].
  - intros i (Hi & Hd & Hb). pose proof (find_none _ _ E i) as Hn. cbn in Hn.
    unfold buf_at in Hd, Hb. rewrite Hd, Hb in Hn. discriminate Hn.
    apply list_elem_of_In. rewrite elem_of_reverse, Hl, elem_of_seq. lia.
Qed.

(** With every buffer busy, there are [NBUF] busy blocks. *)
Lemma no_victim_full s a :
  bio_rep s a → (∀ i, ¬ evictable s i) → (NBUF ≤ size (a_busy a))%nat.
Proof.
  intros R Hno.
  set (bn := λ i, b_blockno (buf_at s i)).
  assert (Hb : ∀ i, (i < NBUF)%nat → b_dev (buf_at s i) = 1 ∧ bn i ∈ a_busy a).
  { intros i Hi. destruct (rep_buf _ _ R i Hi) as [(_ & Hf & Hr & _)|(Hd & _ & _ & Hr & Hf)].
    - exfalso. apply (Hno i). split_and!; [done|done|by rewrite Hf].
    - split; [done|]. unfold a_busy, bn. apply elem_of_union.
      destruct Hr as [(Hr & _)|(_ & _ & Hr)].
      + right. destruct Hf as [[Hf _]|[_ Hf]]; [|done].
        exfalso. apply (Hno i). split_and!; [done|done|by rewrite Hf].
      + left. apply elem_of_dom. eauto. }
  assert (Hnd : NoDup (bn <$> seq 0 NBUF)).
  { apply NoDup_fmap_2_strong; [|apply NoDup_seq]. intros i j Hi%elem_of_seq Hj%elem_of_seq E.
    apply (rep_uniq _ _ R); try done; try lia; apply Hb; lia. }
  transitivity (size (list_to_set (bn <$> seq 0 NBUF) : gset Z)).
  - rewrite size_list_to_set by done. by rewrite length_fmap, length_seq.
  - apply subseteq_size. intros x. rewrite elem_of_list_to_set, list_elem_of_fmap.
    intros (i & -> & Hi%elem_of_seq). apply Hb. lia.
Qed.

(** ** bread *)

(** Two updates of the same buffer. *)
Lemma upd_buf_compose f g i s : upd_buf i g (upd_buf i f s) = upd_buf i (g ∘ f) s.
Proof.
  unfold upd_buf, with_bufs; cbn. f_equal. by rewrite list_alter_alter_eq.
Qed.

(** The buffer [bread] returns for block [b], starting from buffer [x]. *)
Definition loaded (b : Z) (d : block) (x : buf) : buf :=
  Buf 2 ROOTDEV b (Sleeplock 1 me) 1 (b_prev x) (b_next x) d.
Definition taken (x : buf) : buf :=
  with_lock (Sleeplock 1 me) (with_refcnt (u32 (b_refcnt x + 1)) x).

Lemma bread_hit s a b i :
  bio_rep s a → bget_hit (S NBUF) (bufs s) ROOTDEV b (b_next (buf_at s HEAD)) = Some (Some i) →
  caches s b i → a_held a !! b = None → bread me ROOTDEV b s = Ret i (upd_buf i taken s).
Proof.
  intros R Hhit (Hi & Hd & Hb) Hh.
  assert (Hlen : (i < length (bufs s))%nat) by (rewrite (rep_len _ _ R); lia).
  destruct (rep_buf _ _ R i Hi) as [(? & _)|(_ & _ & _ & Hr & Hf)]; [done|].
  destruct Hr as [(Hr & Hl & _)|(_ & _ & Hr)]; [|rewrite Hb in Hr; congruence].
  unfold bread, bget, mbind, M_bind, getS; cbn -[bget_hit]. rewrite Hhit.
  unfold modify; cbn. rewrite on_lock_acquire by (by rewrite buf_at_upd_eq).
  rewrite upd_buf_compose; cbn. rewrite buf_at_upd_eq by done; cbn.
  by destruct Hf as [[-> _]|[-> _]].
Qed.

Lemma bread_miss s a b i :
  bio_rep s a → 0 <= b < a_size a →
  bget_hit (S NBUF) (bufs s) ROOTDEV b (b_next (buf_at s HEAD)) = Some None →
  bget_victim (S NBUF) (bufs s) (b_prev (buf_at s HEAD)) = Some (Some i) → evictable s i →
  bread me ROOTDEV b s = Ret i (upd_buf i (loaded b (disk_block s b)) s).
Proof.
  intros R Hb Hhit Hvic (Hi & Hr & Hf).
  assert (Hlen : (i < length (bufs s))%nat) by (rewrite (rep_len _ _ R); lia).
  assert (Hl : b_lock (buf_at s i) = initsleeplock).
  { destruct (rep_buf _ _ R i Hi) as [(_ & _ & _ & ?)|(_ & _ & _ & [(_ & ? & _)|(E & _)] & _)];
      [done|done|congruence]. }
  unfold bread, bget, mbind, M_bind, getS; cbn -[bget_hit bget_victim]. rewrite Hhit, Hvic.
  unfold modify; cbn. rewrite on_lock_acquire by (by rewrite buf_at_upd_eq).
  rewrite upd_buf_compose; cbn. rewrite buf_at_upd_eq by done; cbn.
  eval_eqb. unfold iderw, mbind, M_bind.
  rewrite on_lock_holding by (by rewrite buf_at_upd_eq).
  unfold getS; cbn. rewrite !buf_at_upd_eq by done; cbn. eval_eqb.
  destruct (Z.geb_spec b (disksize s)); [rewrite (rep_size _ _ R) in Hb; lia|].
  unfold modify; cbn. by rewrite !upd_buf_compose.
Qed.

Lemma agree_hold b i a : agree_off b a (a_hold b i a).
Proof. split; [done|]. intros b' Hb'; cbn. by rewrite lookup_insert_ne by done. Qed.
Lemma agree_release b a : agree_off b a (a_release b a).
Proof. split; [done|]. intros b' Hb'; cbn. by rewrite lookup_delete_ne by done. Qed.
Lemma agree_update b d a : agree_off b a (a_update b d a).
Proof. split; [done|]. intros b' Hb'; cbn. rewrite view_set_ne by done. set_solver. Qed.
Lemma agree_clean b d a : agree_off b a (a_clean b d a).
Proof. split; [done|]. intros b' Hb'; cbn. rewrite view_set_ne by done. set_solver. Qed.

(** [rep_change] for an update of one buffer by a function that keeps
    its pointers. *)
Lemma rep_upd s s' a a' i b f :
  bio_rep s a → (i < NBUF)%nat → bufs s' = bufs (upd_buf i f s) →
  (∀ x, b_next (f x) = b_next x) → (∀ x, b_prev (f x) = b_prev x) →
  disksize s' = disksize s → (∀ b', b' ≠ b → disk_block s' b' = disk_block s b') →
  agree_off b a a' → b_dev (f (buf_at s i)) = 1 → b_blockno (f (buf_at s i)) = b →
  buf_rep a' i (f (buf_at s i)) →
  (∀ j, j ≠ i → (j < NBUF)%nat → b_dev (buf_at s j) = 1 → b_blockno (buf_at s j) ≠ b) →
  (b_dev (buf_at s i) = 1 → b_blockno (buf_at s i) = b ∨
    (a_held a !! b_blockno (buf_at s i) = None ∧ b_blockno (buf_at s i) ∉ a_dirty a)) →
  (b ∉ a_dirty a' → a_view a' b = disk_block s' b) → wf_block (a_view a' b) →
  bio_rep s' a'.
Proof.
  intros R Hi Hbs Hn Hp. intros.
  assert (Hlen : (i < length (bufs s))%nat) by (rewrite (rep_len _ _ R); lia).
  assert (Hat : ∀ j, buf_at s' j = buf_at (upd_buf i f s) j).
  { intros j. unfold buf_at. by rewrite Hbs. }
  apply (rep_change s s' a a' i b (f (buf_at s i))); try done.
  - rewrite Hbs. apply length_upd_buf.
  - rewrite Hbs. by apply ring_upd; [..|apply R].
  - intros j Hj _. by rewrite Hat, buf_at_upd, decide_False.
  - by rewrite Hat, buf_at_upd_eq.
Qed.

(** Distinct buffers cache distinct blocks. *)
Lemma rep_others s a b i :
  bio_rep s a → caches s b i →
  ∀ j, j ≠ i → (j < NBUF)%nat → b_dev (buf_at s j) = 1 → b_blockno (buf_at s j) ≠ b.
Proof.
  intros R (Hi & Hd & Hb) j Hji Hj Hdj Hbj. apply Hji.
  by apply (rep_uniq _ _ R); rewrite ?Hbj.
Qed.

(** What a held block says of its buffer. *)
Lemma held_buf s a b i :
  bio_rep s a → a_held a !! b = Some i →
  caches s b i ∧ 0 <= b < a_size a ∧ b_data (buf_at s i) = a_view a b ∧
  b_refcnt (buf_at s i) = 1 ∧ b_lock (buf_at s i) = Sleeplock 1 me ∧
  ((b_flags (buf_at s i) = 2 ∧ b ∉ a_dirty a) ∨ (b_flags (buf_at s i) = 6 ∧ b ∈ a_dirty a)).
Proof.
  intros R Hh. destruct (rep_held _ _ R _ _ Hh) as (Hi & Hd & Hb).
  destruct (rep_buf _ _ R i Hi) as [(? & _)|(_ & Hbd & Hda & Hr & Hf)]; [done|].
  rewrite Hb in *. destruct Hr as [(_ & _ & Hr)|(? & ? & _)]; [congruence|].
  unfold caches. auto 10.
Qed.

Definition same_disk s s' : Prop :=
  disk s' = disk s ∧ disksize s' = disksize s ∧ writes s' = writes s.

Lemma bread_spec s a b :
  bio_rep s a → 0 <= b < a_size a → a_held a !! b = None →
  (size ({[b]} ∪ a_busy a) ≤ NBUF)%nat →
  wp (bread me ROOTDEV b) (λ i s', bio_rep s' (a_hold b i a) ∧ same_disk s s') s.
Proof.
  intros R Hb Hh Hsz. destruct (bget_hit_spec s a b R) as (r & Hhit & Hr).
  destruct r as [i|].
  - apply (wp_intro _ _ _ _ _ (bread_hit s a b i R Hhit Hr Hh)). split; [|done].
    pose proof Hr as (Hi & Hd & Hbi).
    destruct (rep_buf _ _ R i Hi) as [(? & _)|(_ & Hbd & Hda & Hrc & Hf)]; [done|].
    rewrite Hbi in *. destruct Hrc as [(Hrc & Hl & _)|(_ & _ & ?)]; [|congruence].
    apply (rep_upd s _ a _ i b taken R Hi); [done..|apply agree_hold|done|done| | | | |].
    + right. unfold taken; cbn. rewrite Hbi, Hrc, lookup_insert_eq. split_and!; auto; size_lia.
    + by apply (rep_others s a).
    + intros _. by left.
    + apply R.
    + apply R.
  - destruct (bget_victim_spec s a R) as (r & Hvic & Hv).
    assert (Hnb : b ∉ a_busy a).
    { unfold a_busy. rewrite elem_of_union, elem_of_dom. intros [[i Hi]|Hd]; [congruence|].
      destruct (rep_dirty _ _ R _ Hd) as (i & Hi). by apply (Hr i). }
    destruct r as [i|]; last first.
    { exfalso. pose proof (no_victim_full s a R Hv) as Hfull.
      rewrite size_union, size_singleton in Hsz by (clear -Hnb; set_solver). lia. }
    apply (wp_intro _ _ _ _ _ (bread_miss s a b i R Hb Hhit Hvic Hv)).
    split; [|done]. pose proof Hv as (Hi & Hrc & Hfl).
    assert (Hnd : b ∉ a_dirty a) by (clear -Hnb; set_solver).
    apply (rep_upd s _ a _ i b (loaded b (disk_block s b)) R Hi);
      [done..|apply agree_hold|done|done| | | | |].
    + right. unfold loaded; cbn. rewrite lookup_insert_eq, (rep_disk _ _ R) by done.
      split_and!; auto; size_lia.
    + intros j _ Hj Hd Hbj. by apply (Hr j).
    + intros Hd. right. destruct (rep_buf _ _ R i Hi) as [(? & _)|(_ & _ & _ & H1 & H2)]; [done|].
      destruct H1 as [(_ & _ & H1)|(E & _)]; [|congruence].
      destruct H2 as [[_ H2]|[E _]]; [done|]. by rewrite E in Hfl.
    + apply R.
    + apply R.
Qed.

(** ** brelse *)

Lemma body_alter f i (bs : list buf) j :
  (∀ x, body (f x) = body x) → body (alter f i bs !!! j) = body (bs !!! j).
Proof.
  intros Hf. rewrite !list_lookup_total_alt. destruct (decide (i = j)) as [->|].
  - rewrite list_lookup_alter_eq. by destruct (bs !! j); cbn.
  - by rewrite list_lookup_alter_ne.
Qed.

Lemma body_move_front b (bs : list buf) j : body (push_front b (unlink b bs) !!! j) = body (bs !!! j).
Proof. unfold push_front, unlink. by rewrite !body_alter. Qed.

Lemma length_move_front b bs : length (push_front b (unlink b bs)) = length bs.
Proof. unfold push_front, unlink. by rewrite !length_alter. Qed.

Definition dropped (x : buf) : buf :=
  with_refcnt (u32 (b_refcnt x - 1)) (with_lock (Sleeplock 0 0) x).

Lemma brelse_eq s a b i :
  bio_rep s a → a_held a !! b = Some i →
  brelse me i s =
    Ret tt (with_bufs (λ bs, push_front i (unlink i bs)) (upd_buf i dropped s)).
Proof.
  intros R Hh. destruct (held_buf s a b i R Hh) as ((Hi & _) & _ & _ & Hr & Hl & _).
  assert (Hlen : (i < length (bufs s))%nat) by (rewrite (rep_len _ _ R); lia).
  unfold brelse, mbind, M_bind. rewrite on_lock_holding by done. cbn [negb].
  unfold on_lock, lift, releasesleep, putS, modify, getS.
  rewrite upd_buf_compose, buf_at_upd_eq by done. cbn -[upd_buf u32]. by rewrite Hr.
Qed.

Lemma brelse_spec s a b i :
  bio_rep s a → a_held a !! b = Some i →
  wp (brelse me i) (λ _ s', bio_rep s' (a_release b a) ∧ same_disk s s') s.
Proof.
  intros R Hh. apply (wp_intro _ _ _ _ _ (brelse_eq s a b i R Hh)). split; [|done].
  destruct (held_buf s a b i R Hh) as (Hc & Hb & Hd & Hr & Hl & Hf).
  pose proof Hc as (Hi & Hdev & Hbn).
  assert (Hlen : (i < length (bufs s))%nat) by (rewrite (rep_len _ _ R); lia).
  apply (rep_change s _ a _ i b (dropped (buf_at s i)) R Hi).
  - unfold with_bufs; cbn. by rewrite length_move_front, length_alter.
  - destruct (ring_upd dropped i s) as (l & Hrg & Hl'); [done|done|apply R|].
    destruct (move_front_ring (bufs (upd_buf i dropped s)) i l) as (l' & ? & ? & _);
      [by rewrite length_upd_buf, (rep_len _ _ R)|done..|eauto].
  - intros j Hj _. unfold buf_at, with_bufs; cbn -[upd_buf]. rewrite body_move_front.
    unfold upd_buf, with_bufs; cbn. by rewrite alter_ne.
  - unfold buf_at, with_bufs; cbn -[upd_buf]. rewrite body_move_front.
    unfold upd_buf, with_bufs; cbn. by rewrite alter_eq.
  - done.
  - done.
  - apply agree_release.
  - done.
  - done.
  - right. unfold dropped; cbn. rewrite Hbn, Hr, lookup_delete_eq. split_and!; auto; size_lia.
  - by apply (rep_others s a).
  - intros _. by left.
  - apply R.
  - apply R.
Qed.

(** ** Modifying a held buffer *)

Definition bset (i : nat) (d : block) (s : bio) : bio := upd_buf i (with_data d) s.

Definition mark_dirty (i : nat) (s : bio) : bio :=
  upd_buf i (λ x, with_flags (Z.lor (b_flags x) B_DIRTY) x) s.

Lemma mark_dirty_spec s a b i d :
  bio_rep s a → a_held a !! b = Some i → wf_block d →
  bio_rep (mark_dirty i (bset i d s)) (a_update b d a).
Proof.
  intros R Hh Hwf. destruct (held_buf s a b i R Hh) as (Hc & Hb & Hd & Hr & Hl & Hf).
  pose proof Hc as (Hi & Hdev & Hbn).
  unfold mark_dirty, bset. rewrite upd_buf_compose.
  apply (rep_upd s _ a _ i b (λ x, with_flags (Z.lor (b_flags x) B_DIRTY) (with_data d x)) R Hi);
    [done..|apply agree_update|done|done| | | | |].
  - right. cbn. rewrite Hbn, view_set_eq. split_and!; [done|size_lia|size_lia|done|by right; auto|].
    right. split; [by destruct Hf as [[-> _]|[-> _]]|set_solver].
  - by apply (rep_others s a).
  - intros _. by left.
  - cbn. set_solver.
  - cbn. by rewrite view_set_eq.
Qed.

(** ** bwrite *)

Definition synced (d : block) (x : buf) : buf := with_flags 2 (with_data d x).

Lemma upd_write_disk f i b d s : upd_buf i f (write_disk b d s) = write_disk b d (upd_buf i f s).
Proof. done. Qed.

Lemma upd_buf_ext f g i s :
  f (buf_at s i) = g (buf_at s i) → upd_buf i f s = upd_buf i g s.
Proof.
  intros Hfg. unfold upd_buf, with_bufs. f_equal. apply list_alter_ext; [|done].
  intros x Hx. apply list_lookup_total_correct in Hx. unfold buf_at in Hfg. congruence.
Qed.

Lemma bwrite_eq s a b i d :
  bio_rep s a → a_held a !! b = Some i →
  bwrite me i (bset i d s) = Ret tt (write_disk b d (upd_buf i (synced d) s)).
Proof.
  intros R Hh. destruct (held_buf s a b i R Hh) as (Hc & Hb & Hd & Hr & Hl & Hf).
  pose proof Hc as (Hi & Hdev & Hbn).
  assert (Hlen : (i < length (bufs s))%nat) by (rewrite (rep_len _ _ R); lia).
  unfold bwrite, bset, mbind, M_bind. rewrite on_lock_holding by (by rewrite buf_at_upd_eq).
  unfold modify; cbn. unfold iderw, mbind, M_bind. rewrite !upd_buf_compose.
  rewrite on_lock_holding by (by rewrite buf_at_upd_eq).
  unfold getS; cbn -[upd_buf]. rewrite !buf_at_upd_eq by done; cbn -[upd_buf].
  rewrite Hdev, Hbn. destruct (Z.geb_spec b (disksize (upd_buf i
    ((λ x, with_flags (Z.lor (b_flags x) B_DIRTY) x) ∘ with_data d) s))) as [Hge|_].
  { cbn in Hge. rewrite (rep_size _ _ R) in Hb. lia. }
  destruct Hf as [[Hf _]|[Hf _]]; rewrite Hf; cbn -[upd_buf write_disk]; eval_eqb;
    unfold modify; f_equal; rewrite upd_write_disk; f_equal; rewrite !upd_buf_compose;
    apply upd_buf_ext; unfold synced; cbn; rewrite Hf; done.
Qed.

Lemma bwrite_spec s a b i d :
  bio_rep s a → a_held a !! b = Some i → wf_block d →
  wp (bwrite me i) (λ _ s', bio_rep s' (a_clean b d a) ∧ disk s' = <[b := d]> (disk s) ∧
    disksize s' = disksize s ∧ writes s' = writes s ++ [(b, d)]) (bset i d s).
Proof.
  intros R Hh Hwf. apply (wp_intro _ _ _ _ _ (bwrite_eq s a b i d R Hh)). split; [|done].
  destruct (held_buf s a b i R Hh) as (Hc & Hb & Hd & Hr & Hl & Hf).
  pose proof Hc as (Hi & Hdev & Hbn).
  apply (rep_upd s _ a _ i b (synced d) R Hi); [done..| |apply agree_clean|done|done| | | | |].
  - intros b' Hb'. unfold disk_block; cbn. by rewrite lookup_insert_ne.
  - right. cbn. rewrite Hbn, view_set_eq. split_and!; [done|size_lia|size_lia|done|by right; auto|].
    left. split; [done|]. clear. set_solver.
  - by apply (rep_others s a).
  - intros _. by left.
  - intros _. cbn. unfold disk_block; cbn. by rewrite view_set_eq, lookup_insert_eq.
  - cbn. by rewrite view_set_eq.
Qed.

Lemma bio_rep_equiv s a a' : a ≡ a' → bio_rep s a → bio_rep s a'.
Proof.
  intros (Hv & Hd & Hh & Hg) R.
  assert (Hs : a_size a = a_size a') by (unfold a_size; by rewrite Hg).
  split; rewrite <-?Hd, <-?Hh, <-?Hs; try apply R.
  - intros i Hi. destruct (rep_buf _ _ R i Hi) as [H|H]; [by left|right].
    by rewrite <-Hd, <-Hh, <-Hs, <-Hv.
  - intros b Hb. rewrite <-Hv. by apply R.
  - intros b. rewrite <-Hv. apply R.
Qed.

#[export] Instance bio_rep_proper s : Proper ((≡) ==> iff) (bio_rep s).
Proof. intros a a' E. split; by apply bio_rep_equiv. Qed.

(** ** Boot *)

(** The cache after [binit] on zeroed memory. *)
Definition boot (d : gmap Z block) (n : Z) : bio :=
  binit (Bio (replicate (S NBUF) inhabitant) d n []).

Definition boot_view (d : gmap Z block) (g : geometry) : astore :=
  AStore (λ b, default zero_block (d !! b)) ∅ ∅ g.

Lemma boot_rep d g :
  (∀ b, wf_block (default zero_block (d !! b))) →
  bio_rep (boot d (g_size g)) (boot_view d g).
Proof.
  intros Hwf. set (n := g_size g).
  assert (Hb : ∀ i, (i < NBUF)%nat → b_dev (buf_at (boot d n) i) = 0 ∧
    b_flags (buf_at (boot d n) i) = 0 ∧ b_refcnt (buf_at (boot d n) i) = 0 ∧
    b_lock (buf_at (boot d n) i) = initsleeplock).
  { intros i Hi.
    assert (H : Forall (λ x, b_dev x = 0 ∧ b_flags x = 0 ∧ b_refcnt x = 0 ∧
      b_lock x = initsleeplock) (bufs (boot d n))).
    { vm_compute. repeat constructor. }
    rewrite Forall_lookup in H. unfold buf_at.
    destruct (bufs (boot d n) !! i) as [x|] eqn:E.
    - rewrite (list_lookup_total_correct _ _ _ E). by apply (H i).
    - apply lookup_ge_None in E. vm_compute in E, Hi. lia. }
  split.
  - done.
  - exists (reverse (seq 0 NBUF)). split; [|apply reverse_Permutation].
    vm_compute. repeat constructor.
  - intros i Hi. left. destruct (Hb i Hi) as (E & ? & ? & ?).
    rewrite E. split_and!; [lia|assumption..].
  - intros i j Hi Hj Hd. destruct (Hb i Hi) as (E & _). rewrite E in Hd. lia.
  - intros b i. cbn. by rewrite lookup_empty.
  - intros b H. cbn in H. by apply elem_of_empty in H.
  - intros b _. reflexivity.
  - apply Hwf.
  - reflexivity.
Qed.
End spec.
