(* ===== verification/Log.v ===== *)
(** * log.c: the redo log

    The in-memory log header and the routines of log.c over the buffer
    cache.  [log.lock] regions are single steps; [begin_op] goes to sleep
    when it has to wait.  [readsb] (fs.c) is here because [initlog] calls
    it. *)

From S2P Require Import Prelude Layout Sleeplock Bio BioRing BlockLayer BioSpec.

Record log := Log {
  l_start : Z; l_size : Z; l_outstanding : Z; l_committing : Z; l_dev : Z;
  lh_n : Z; lh_block : list Z }.

(** The block layer's state: cache, disk and log. *)
Record store := Store { st_bio : bio; st_log : log }.

Definition with_log (f : log → log) (s : store) : store := Store (st_bio s) (f (st_log s)).
Definition set_n (n : Z) (l : log) : log :=
  Log (l_start l) (l_size l) (l_outstanding l) (l_committing l) (l_dev l) n (lh_block l).
Definition set_blocks (bs : list Z) (l : log) : log :=
  Log (l_start l) (l_size l) (l_outstanding l) (l_committing l) (l_dev l) (lh_n l) bs.
Definition set_outstanding (v : Z) (l : log) : log :=
  Log (l_start l) (l_size l) v (l_committing l) (l_dev l) (lh_n l) (lh_block l).
Definition set_committing (v : Z) (l : log) : log :=
  Log (l_start l) (l_size l) (l_outstanding l) v (l_dev l) (lh_n l) (lh_block l).

(** Run a routine of the buffer cache. *)
Definition on_bio {A} (m : M bio A) : M store A :=
  lift st_bio (λ b s, Store b (st_log s)) m.

Section log_code.
Variable me : Z.

Definition data_of (i : nat) : M bio block := gets (λ s, b_data (buf_at s i)).

(** fs.c: read the super block. *)
Definition readsb (dev : Z) : M bio superblock :=
  bp ← bread me dev 1;
  d ← data_of bp;
  brelse me bp;;
  mret (superblock_at d).

(** Copy committed blocks from log to their home location: the iterations
    from [tail] on, [n] of them left. *)
Fixpoint install_loop (dev start : Z) (blocks : list Z) (n : nat) (tail : Z) : M bio unit :=
  match n with
  | O => mret tt
  | S n' =>
    lbuf ← bread me dev (start + tail + 1);
    dbuf ← bread me dev (blocks !!! Z.to_nat tail);
    d ← data_of lbuf;
    modify (bset dbuf d);;
    bwrite me dbuf;;
    brelse me lbuf;;
    brelse me dbuf;;
    install_loop dev start blocks n' (tail + 1)
  end.

Definition install_trans : M store unit :=
  l ← gets st_log;
  on_bio (install_loop (l_dev l) (l_start l) (lh_block l) (Z.to_nat (lh_n l)) 0).

(** [log.lh.block[i] = lh->block[i]] for [i < n]. *)
Fixpoint read_blocks (d : block) (n : nat) (i : nat) (blocks : list Z) : list Z :=
  match n with
  | O => blocks
  | S n' => read_blocks d n' (S i) (<[i := s32 (get32 (4 + 4 * i) d)]> blocks)
  end.

Definition read_head : M store unit :=
  l ← gets st_log;
  d ← on_bio (buf ← bread me (l_dev l) (l_start l);
              d ← data_of buf;
              brelse me buf;;
              mret d);
  let n := s32 (get32 0 d) in
  modify (with_log (λ l, set_blocks (read_blocks d (Z.to_nat n) 0 (lh_block l)) (set_n n l))).

(** [hb->block[i] = log.lh.block[i]] for [i < n]. *)
Fixpoint write_blocks (blocks : list Z) (n : nat) (i : nat) (d : block) : block :=
  match n with
  | O => d
  | S n' => write_blocks blocks n' (S i) (put32 (4 + 4 * i) (u32 (blocks !!! i)) d)
  end.

Definition head_block (n : Z) (blocks : list Z) (d : block) : block :=
  write_blocks blocks (Z.to_nat n) 0 (put32 0 (u32 n) d).

Definition write_head : M store unit :=
  l ← gets st_log;
  on_bio (buf ← bread me (l_dev l) (l_start l);
          d ← data_of buf;
          modify (bset buf (head_block (lh_n l) (lh_block l) d));;
          bwrite me buf;;
          brelse me buf).

Definition recover_from_log : M store unit :=
  read_head;;
  install_trans;;
  modify (with_log (set_n 0));;
  write_head.

(** [sizeof(struct logheader)] *)
Definition LOGHEADER_SIZE : Z := 4 + 4 * LOGSIZE.

Definition initlog (dev : Z) : M store unit :=
  if LOGHEADER_SIZE >=? BSIZE then panic "initlog: too big logheader" else
  sb ← on_bio (readsb dev);
  modify (with_log (λ l, Log (s32 (sb_logstart sb)) (s32 (sb_nlog sb)) (l_outstanding l)
    (l_committing l) dev (lh_n l) (lh_block l)));;
  recover_from_log.

Definition begin_op : M store unit :=
  l ← gets st_log;
  if negb (l_committing l =? 0) then sleeps
  else if lh_n l + (l_outstanding l + 1) * MAXOPBLOCKS >? LOGSIZE then sleeps
  else modify (with_log (set_outstanding (l_outstanding l + 1))).

(** Copy modified blocks from cache to log. *)
Fixpoint write_log_loop (dev start : Z) (blocks : list Z) (n : nat) (tail : Z) : M bio unit :=
  match n with
  | O => mret tt
  | S n' =>
    to ← bread me dev (start + tail + 1);
    from ← bread me dev (blocks !!! Z.to_nat tail);
    d ← data_of from;
    modify (bset to d);;
    bwrite me to;;
    brelse me from;;
    brelse me to;;
    write_log_loop dev start blocks n' (tail + 1)
  end.

Definition write_log : M store unit :=
  l ← gets st_log;
  on_bio (write_log_loop (l_dev l) (l_start l) (lh_block l) (Z.to_nat (lh_n l)) 0).

Definition commit : M store unit :=
  l ← gets st_log;
  if lh_n l >? 0 then
    write_log;;
    write_head;;
    install_trans;;
    modify (with_log (set_n 0));;
    write_head
  else mret tt.

Definition end_op : M store unit :=
  modify (with_log (λ l, set_outstanding (l_outstanding l - 1) l));;
  l ← gets st_log;
  if negb (l_committing l =? 0) then panic "log.committing"
  else if l_outstanding l =? 0 then
    modify (with_log (set_committing 1));;
    commit;;
    modify (with_log (set_committing 0))
  else mret tt.

(** The scan of [log_write] for the block number, from slot [i]. *)
Fixpoint log_slot (blocks : list Z) (b : Z) (n i : nat) : nat :=
  match n with
  | O => i
  | S n' => if blocks !!! i =? b then i else log_slot blocks b n' (S i)
  end.

Definition log_write (i : nat) : M store unit :=
  l ← gets st_log;
  if (lh_n l >=? LOGSIZE) || (lh_n l >=? l_size l - 1) then panic "too big a transaction"
  else if l_outstanding l <? 1 then panic "log_write outside of trans"
  else
    b ← gets (λ s, b_blockno (buf_at (st_bio s) i));
    let k := log_slot (lh_block l) b (Z.to_nat (lh_n l)) 0 in
    modify (with_log (set_blocks (<[k := b]> (lh_block l))));;
    (if Z.of_nat k =? lh_n l then modify (with_log (set_n (lh_n l + 1))) else mret tt);;
    on_bio (modify (mark_dirty i)).
End log_code.
