(* ===== verification/LogSpec.v ===== *)
(** * What log.c does to the cache and the disk

    Each routine of log.c is described by the writes it sends to the
    disk, in order, and by its effect on the client's view.  The end of
    the file shows that bio.c and log.c together fulfil [BlockLayer]. *)

From S2P Require Import Prelude Layout Sleeplock Bio BioRing BlockLayer BioSpec Log.

(** ** Sequences of disk writes *)

Definition disk_writes (ws : list (Z * block)) (d : gmap Z block) : gmap Z block :=
  foldl (λ d '(b, x), <[b := x]> d) d ws.

Definition view_writes (ws : list (Z * block)) (v : Z → block) : Z → block :=
  foldl (λ v '(b, x), view_set b x v) v ws.

(** From [s] to [s'], the disk received exactly [ws]. *)
Definition wrote (ws : list (Z * block)) (s s' : bio) : Prop :=
  disk s' = disk_writes ws (disk s) ∧ disksize s' = disksize s ∧ writes s' = writes s ++ ws.

Section writes.
Implicit Types (s : bio) (ws : list (Z * block)) (v : Z → block).

Lemma wrote_nil s s' : same_disk s s' → wrote [] s s'.
Proof.
  intros (E1 & E2 & E3). unfold wrote. by rewrite E1, E2, E3, app_nil_r.
Qed.

Lemma wrote_refl s : wrote [] s s.
Proof. by apply wrote_nil. Qed.

Lemma wrote_app ws1 ws2 s1 s2 s3 :
  wrote ws1 s1 s2 → wrote ws2 s2 s3 → wrote (ws1 ++ ws2) s1 s3.
Proof.
  intros (E1 & E2 & E3) (F1 & F2 & F3). unfold wrote, disk_writes in *.
  rewrite foldl_app, F1, F2, F3, E1, E2, E3, app_assoc. done.
Qed.

Lemma disk_block_writes ws d b :
  default zero_block (disk_writes ws d !! b) =
    view_writes ws (λ b, default zero_block (d !! b)) b.
Proof.
  assert (H : ∀ v d, (∀ b, default zero_block (d !! b) = v b) →
    default zero_block (disk_writes ws d !! b) = view_writes ws v b).
  { clear d. unfold disk_writes, view_writes.
    induction ws as [|[x dx] ws IH]; intros v d Hd; cbn; [apply Hd|].
    apply IH. intros b'. unfold view_set. destruct (Z.eqb_spec b' x) as [->|].
    - by rewrite lookup_insert_eq.
    - by rewrite lookup_insert_ne. }
  by apply H.
Qed.

Lemma wrote_view ws s s' b :
  wrote ws s s' → disk_block s' b = view_writes ws (disk_block s) b.
Proof. intros (E & _). unfold disk_block. rewrite E. apply disk_block_writes. Qed.

Lemma view_writes_ext ws v v' b : (∀ b, v b = v' b) → view_writes ws v b = view_writes ws v' b.
Proof.
  revert v v'; induction ws as [|[x d] ws IH]; intros v v' H; [apply H|]. cbn.
  apply IH. intros b'. unfold view_set. by rewrite H.
Qed.

Lemma view_writes_notin ws v b : b ∉ ws.*1 → view_writes ws v b = v b.
Proof.
  revert v; induction ws as [|[x d] ws IH]; intros v H; [done|].
  rewrite fmap_cons, not_elem_of_cons in H. destruct H as [H1 H2]. cbn.
  unfold view_writes in IH. rewrite IH by done. by apply view_set_ne.
Qed.

Lemma view_writes_cons x d ws v b :
  view_writes ((x, d) :: ws) v b = view_writes ws (view_set x d v) b.
Proof. done. Qed.

Lemma view_writes_app ws1 ws2 v b :
  view_writes (ws1 ++ ws2) v b = view_writes ws2 (view_writes ws1 v) b.
Proof. unfold view_writes. by rewrite foldl_app. Qed.

(** The last write to a block wins. *)
Lemma view_writes_in ws v b d :
  NoDup (ws.*1) → (b, d) ∈ ws → view_writes ws v b = d.
Proof.
  revert v; induction ws as [|[x dx] ws IH]; intros v Hnd Hin; [by apply not_elem_of_nil in Hin|].
  rewrite fmap_cons, NoDup_cons in Hnd. destruct Hnd as [Hx Hnd]. cbn.
  apply elem_of_cons in Hin as [[= -> ->]|Hin]; [|by apply IH].
  fold (view_writes ws (view_set x dx v)). rewrite view_writes_notin by done.
  apply view_set_eq.
Qed.
End writes.

Lemma wp_lift {S T A} (get : T → S) (set : S → T → T) (m : M S A) (Q : A → T → Prop) (t : T) :
  wp m (λ a s, Q a (set s t)) (get t) → wp (lift get set m) Q t.
Proof. unfold wp, lift. by destruct (m (get t)). Qed.

Section log_spec.
Variable me : Z.
Local Abbreviation bio_rep := (bio_rep me).

(** ** One block copied by install_trans and write_log *)

Lemma busy_hold b i a : a_busy (a_hold b i a) = {[b]} ∪ a_busy a.
Proof. unfold a_busy; cbn. rewrite dom_insert_L. clear. set_solver. Qed.

Lemma bread_two s a x y (k : nat → nat → M bio unit) (Q : unit → bio → Prop) :
  bio_rep s a → x ≠ y → 0 <= x < a_size a → 0 <= y < a_size a →
  a_held a !! x = None → a_held a !! y = None →
  (size ({[y]} ∪ ({[x]} ∪ a_busy a)) ≤ NBUF)%nat →
  (∀ i j s', bio_rep s' (a_hold y j (a_hold x i a)) → wrote [] s s' → wp (k i j) Q s') →
  wp (i ← bread me ROOTDEV x; j ← bread me ROOTDEV y; k i j) Q s.
Proof.
  intros R Hxy Hx Hy Hhx Hhy Hsz Hk.
  apply wp_bind. eapply wp_mono; [apply (bread_spec me s a x); try done|].
  { etransitivity; [|exact Hsz]. apply subseteq_size. clear. set_solver. }
  intros i s1 [R1 D1]. apply wp_bind.
  eapply wp_mono; [apply (bread_spec me s1 (a_hold x i a) y); try done|].
  { cbn. by rewrite lookup_insert_ne. } { by rewrite busy_hold. }
  intros j s2 [R2 D2]. apply Hk; [done|].
  by apply (wrote_app [] [] _ s1); apply wrote_nil.
Qed.

Lemma brelse_two s a x y i j k (Q : unit → bio → Prop) :
  bio_rep s a → x ≠ y → a_held a !! x = Some i → a_held a !! y = Some j →
  (∀ s', bio_rep s' (a_release y (a_release x a)) → wrote [] s s' → wp k Q s') →
  wp (brelse me i;; brelse me j;; k) Q s.
Proof.
  intros R Hxy Hx Hy Hk. apply wp_bind.
  eapply wp_mono; [by apply (brelse_spec me s a x i)|].
  intros [] s1 [R1 D1]. apply wp_bind.
  eapply wp_mono; [apply (brelse_spec me s1 (a_release x a) y j); [done|]|].
  { cbn. by rewrite lookup_delete_ne. }
  intros [] s2 [R2 D2]. apply Hk; [done|].
  by apply (wrote_app [] [] _ s1); apply wrote_nil.
Qed.

(** Overwrite held block [b] through buffer [i]. *)
Lemma bwrite_held s a b i d k (Q : unit → bio → Prop) :
  bio_rep s a → a_held a !! b = Some i → wf_block d →
  (∀ s', bio_rep s' (a_clean b d a) → wrote [(b, d)] s s' → wp k Q s') →
  wp (modify (bset i d);; bwrite me i;; k) Q s.
Proof.
  intros R Hh Hd Hk. apply wp_bind, wp_modify, wp_bind.
  eapply wp_mono; [by apply (bwrite_spec me s a b i)|].
  intros [] s' (R' & D1 & D2 & D3). by apply Hk.
Qed.

Lemma held_two x y i j (a : astore) :
  x ≠ y → a_held (a_hold y j (a_hold x i a)) !! x = Some i ∧
          a_held (a_hold y j (a_hold x i a)) !! y = Some j.
Proof. intros. cbn. by rewrite lookup_insert_ne, !lookup_insert_eq. Qed.

Lemma release_two x y i j (a : astore) b d :
  x ≠ y → a_held a !! x = None → a_held a !! y = None →
  a_release x (a_release y (a_clean b d (a_hold y j (a_hold x i a)))) ≡ a_clean b d a.
Proof.
  intros Hxy Hx Hy. split_and!; try done. cbn.
  rewrite delete_insert_eq, delete_delete, delete_insert_eq.
  rewrite !delete_id; rewrite ?lookup_delete_ne; done.
Qed.

Lemma release_comm x y a : a_release x (a_release y a) ≡ a_release y (a_release x a).
Proof. split_and!; try done. cbn. apply delete_delete. Qed.

(** Copy block [y] to block [x], as [write_log] orders the calls. *)
Lemma write_log_step s a x y k (Q : unit → bio → Prop) :
  bio_rep s a → x ≠ y → 0 <= x < a_size a → 0 <= y < a_size a →
  a_held a !! x = None → a_held a !! y = None →
  (size ({[y]} ∪ ({[x]} ∪ a_busy a)) ≤ NBUF)%nat →
  (∀ s', bio_rep s' (a_clean x (a_view a y) a) → wrote [(x, a_view a y)] s s' → wp k Q s') →
  wp (to ← bread me ROOTDEV x; from ← bread me ROOTDEV y; d ← data_of from;
      modify (bset to d);; bwrite me to;; brelse me from;; brelse me to;; k) Q s.
Proof.
  intros R Hxy Hx Hy Hhx Hhy Hsz Hk. apply (bread_two s a x y); try done.
  intros i j s1 R1 D1. destruct (held_two x y i j a Hxy) as [Hi Hj].
  apply wp_bind, wp_gets. destruct (held_buf me s1 _ y j R1 Hj) as (_ & _ & -> & _).
  eapply (bwrite_held s1 _ x i); [done..|apply R|]. intros s2 R2 D2.
  eapply (brelse_two s2 _ y x j i); [done..|]. intros s3 R3 D3.
  rewrite release_two in R3 by done. apply Hk; [done|].
  apply (wrote_app [] _ _ s1); [done|]. by apply (wrote_app [_] [] _ s2).
Qed.

(** Copy block [x] to block [y], as [install_trans] orders the calls. *)
Lemma install_step s a x y k (Q : unit → bio → Prop) :
  bio_rep s a → x ≠ y → 0 <= x < a_size a → 0 <= y < a_size a →
  a_held a !! x = None → a_held a !! y = None →
  (size ({[y]} ∪ ({[x]} ∪ a_busy a)) ≤ NBUF)%nat →
  (∀ s', bio_rep s' (a_clean y (a_view a x) a) → wrote [(y, a_view a x)] s s' → wp k Q s') →
  wp (lbuf ← bread me ROOTDEV x; dbuf ← bread me ROOTDEV y; d ← data_of lbuf;
      modify (bset dbuf d);; bwrite me dbuf;; brelse me lbuf;; brelse me dbuf;; k) Q s.
Proof.
  intros R Hxy Hx Hy Hhx Hhy Hsz Hk. apply (bread_two s a x y); try done.
  intros i j s1 R1 D1. destruct (held_two x y i j a Hxy) as [Hi Hj].
  apply wp_bind, wp_gets. destruct (held_buf me s1 _ x i R1 Hi) as (_ & _ & -> & _).
  eapply (bwrite_held s1 _ y j); [done..|apply R|]. intros s2 R2 D2.
  eapply (brelse_two s2 _ x y i j); [done..|]. intros s3 R3 D3.
  rewrite release_comm, release_two in R3 by done. apply Hk; [done|].
  apply (wrote_app [] _ _ s1); [done|]. by apply (wrote_app [_] [] _ s2).
Qed.

(** ** The two loops *)

(** The writes of [write_log]: logged blocks to consecutive log slots. *)
Fixpoint log_ws (v : Z → block) (pos : Z) (bs : list Z) : list (Z * block) :=
  match bs with
  | [] => []
  | b :: bs' => (pos, v b) :: log_ws v (pos + 1) bs'
  end.

(** The writes of [install_trans]: log slots to the home locations. *)
Fixpoint install_ws (v : Z → block) (pos : Z) (bs : list Z) : list (Z * block) :=
  match bs with
  | [] => []
  | b :: bs' => (b, v pos) :: install_ws v (pos + 1) bs'
  end.

Definition a_written (ws : list (Z * block)) (D : gset Z) (a : astore) : astore :=
  AStore (view_writes ws (a_view a)) D ∅ (a_geo a).

Lemma log_ws_ext v v' pos bs : (∀ b, b ∈ bs → v b = v' b) → log_ws v pos bs = log_ws v' pos bs.
Proof.
  revert pos; induction bs as [|b bs IH]; intros pos H; [done|]. cbn.
  rewrite H by (by left). f_equal. apply IH. intros b' Hb'. apply H. by right.
Qed.

Lemma install_ws_ext v v' pos bs :
  (∀ x, pos <= x < pos + Z.of_nat (length bs) → v x = v' x) →
  install_ws v pos bs = install_ws v' pos bs.
Proof.
  revert pos; induction bs as [|b bs IH]; intros pos H; [done|]. cbn in *.
  rewrite H by lia. f_equal. apply IH. intros x Hx. apply H. lia.
Qed.

Lemma log_ws_fst v pos bs x :
  x ∈ (log_ws v pos bs).*1 ↔ pos <= x < pos + Z.of_nat (length bs).
Proof.
  revert pos; induction bs as [|b bs IH]; intros pos; cbn [log_ws fmap list_fmap length fst].
  - split; [intros H; by apply not_elem_of_nil in H|lia].
  - rewrite elem_of_cons, IH. lia.
Qed.

Lemma length_log_ws v pos bs : length (log_ws v pos bs) = length bs.
Proof. revert pos; induction bs as [|b bs IH]; intros pos; [done|]. cbn. by rewrite IH. Qed.

Lemma install_ws_fst v pos bs : (install_ws v pos bs).*1 = bs.
Proof. revert pos; induction bs as [|b bs IH]; intros pos; [done|]. cbn. by rewrite IH. Qed.

(** The logged blocks [bs] are on the disk, outside the log slots from
    [pos] on, and the log slots are on the disk and clean. *)
Record log_slots (pos : Z) (bs : list Z) (a : astore) : Prop := {
  ls_home b : b ∈ bs → 0 <= b < a_size a ∧ ¬ (pos <= b < pos + Z.of_nat (length bs));
  ls_slot x : pos <= x < pos + Z.of_nat (length bs) → 0 <= x < a_size a ∧ x ∉ a_dirty a;
  ls_held : a_held a = ∅;
  ls_room : (size (list_to_set bs ∪ a_dirty a) < NBUF)%nat }.

Lemma log_slots_tail pos b bs a a' :
  log_slots pos (b :: bs) a → a_size a' = a_size a → a_dirty a' ⊆ a_dirty a →
  a_held a' = a_held a → log_slots (pos + 1) bs a'.
Proof.
  intros [H1 H2 H3 H4] Hs Hd Hh. cbn [length] in *. split.
  - intros b' Hb'. rewrite Hs. destruct (H1 b') as [??]; [by right|]. split; [done|lia].
  - intros x Hx. rewrite Hs. destruct (H2 x) as [??]; [lia|]. split; [done|]. auto.
  - congruence.
  - eapply Nat.le_lt_trans; [|exact H4]. apply subseteq_size. cbn. set_solver.
Qed.

Lemma log_slots_room pos b bs a :
  log_slots pos (b :: bs) a → (size ({[b]} ∪ ({[pos]} ∪ a_busy a)) ≤ NBUF)%nat.
Proof.
  intros [H1 H2 H3 H4]. transitivity (size ({[pos]} ∪ (list_to_set (b :: bs) ∪ a_dirty a))).
  - apply subseteq_size. unfold a_busy. rewrite H3. cbn. set_solver.
  - rewrite size_union_alt, size_singleton.
    assert (size ((list_to_set (b :: bs) ∪ a_dirty a) ∖ {[pos]})
      ≤ size (list_to_set (b :: bs) ∪ a_dirty a))%nat; [|lia].
    apply subseteq_size. clear. set_solver.
Qed.

Lemma write_log_loop_spec blocks s a start tail bs :
  bio_rep s a → log_slots (start + tail + 1) bs a → 0 <= tail →
  (∀ k b, bs !! k = Some b → blocks !!! (Z.to_nat tail + k)%nat = b) →
  wp (write_log_loop me ROOTDEV start blocks (length bs) tail)
    (λ _ s', let ws := log_ws (a_view a) (start + tail + 1) bs in
       bio_rep s' (a_written ws (a_dirty a) a) ∧ wrote ws s s') s.
Proof.
  revert s a tail; induction bs as [|b bs IH]; intros s a tail R Hs Ht Hbs.
  { apply wp_ret. split; [|apply wrote_refl]. revert R. apply bio_rep_equiv.
    split_and!; try done. apply (ls_held _ _ _ Hs). }
  cbn [length write_log_loop log_ws].
  assert (blocks !!! Z.to_nat tail = b) as -> by (specialize (Hbs O b eq_refl); by rewrite Nat.add_0_r in Hbs).
  destruct (ls_home _ _ _ Hs b) as [Hb Hnb]; [by left|].
  destruct (ls_slot _ _ _ Hs (start + tail + 1)) as [Hx Hxd]; [cbn; lia|].
  apply (write_log_step s a); [done|cbn in Hnb; lia|done|done| | |by apply log_slots_room with bs|].
  { by rewrite (ls_held _ _ _ Hs). } { by rewrite (ls_held _ _ _ Hs). }
  intros s1 R1 D1. set (a1 := a_clean (start + tail + 1) (a_view a b) a) in *.
  assert (Hd1 : a_dirty a1 = a_dirty a) by (cbn; set_solver).
  eapply wp_mono; [apply (IH s1 a1 (tail + 1)); [done| |lia|]|].
  - replace (start + (tail + 1) + 1) with (start + tail + 1 + 1) by lia.
    apply (log_slots_tail _ b bs a); [done|done|by rewrite Hd1|done].
  - intros k b' Hk. rewrite <-(Hbs (S k) b' Hk). f_equal. lia.
  - intros [] s2 [R2 D2]. replace (start + (tail + 1) + 1) with (start + tail + 1 + 1) in * by lia.
    rewrite (log_ws_ext (a_view a1) (a_view a)) in *.
    + split; [|by apply (wrote_app [_] _ _ s1)]. revert R2. apply bio_rep_equiv. by rewrite Hd1.
    + intros b' Hb'. cbn. apply view_set_ne. destruct (ls_home _ _ _ Hs b') as [_ ?]; [by right|].
      cbn in *. lia.
    + intros b' Hb'. cbn. apply view_set_ne. destruct (ls_home _ _ _ Hs b') as [_ ?]; [by right|].
      cbn in *. lia.
Qed.

Lemma install_loop_spec blocks s a start tail bs :
  bio_rep s a → log_slots (start + tail + 1) bs a → 0 <= tail →
  (∀ k b, bs !! k = Some b → blocks !!! (Z.to_nat tail + k)%nat = b) →
  wp (install_loop me ROOTDEV start blocks (length bs) tail)
    (λ _ s', let ws := install_ws (a_view a) (start + tail + 1) bs in
       bio_rep s' (a_written ws (a_dirty a ∖ list_to_set bs) a) ∧ wrote ws s s') s.
Proof.
  revert s a tail; induction bs as [|b bs IH]; intros s a tail R Hs Ht Hbs.
  { apply wp_ret. split; [|apply wrote_refl]. revert R. apply bio_rep_equiv.
    split_and!; try done; [cbn; clear; set_solver|]. apply (ls_held _ _ _ Hs). }
  cbn [length install_loop install_ws].
  assert (blocks !!! Z.to_nat tail = b) as -> by (specialize (Hbs O b eq_refl); by rewrite Nat.add_0_r in Hbs).
  destruct (ls_home _ _ _ Hs b) as [Hb Hnb]; [by left|].
  destruct (ls_slot _ _ _ Hs (start + tail + 1)) as [Hx Hxd]; [cbn; lia|].
  apply (install_step s a); [done|cbn in Hnb; lia|done|done| | |by apply log_slots_room with bs|].
  { by rewrite (ls_held _ _ _ Hs). } { by rewrite (ls_held _ _ _ Hs). }
  intros s1 R1 D1. set (a1 := a_clean b (a_view a (start + tail + 1)) a) in *.
  assert (Hext : install_ws (a_view a1) (start + tail + 1 + 1) bs =
    install_ws (a_view a) (start + tail + 1 + 1) bs).
  { apply install_ws_ext. intros x Hx'. cbn. apply view_set_ne. cbn in Hnb. lia. }
  eapply wp_mono; [apply (IH s1 a1 (tail + 1)); [done| |lia|]|].
  - replace (start + (tail + 1) + 1) with (start + tail + 1 + 1) by lia.
    apply (log_slots_tail _ b bs a); [done|done|cbn; clear; set_solver|done].
  - intros k b' Hk. rewrite <-(Hbs (S k) b' Hk). f_equal. lia.
  - intros [] s2 [R2 D2]. replace (start + (tail + 1) + 1) with (start + tail + 1 + 1) in * by lia.
    rewrite Hext in *. split; [|by apply (wrote_app [_] _ _ s1)].
    revert R2. apply bio_rep_equiv. split_and!; try done. cbn. clear. set_solver.
Qed.

(** ** The log header *)

Lemma wf_write_blocks blocks n i d :
  (4 + 4 * (i + n) ≤ Z.to_nat BSIZE)%nat → wf_block d → wf_block (write_blocks blocks n i d).
Proof.
  revert i d; induction n as [|n IH]; intros i d Hl Hd; [done|]. cbn [write_blocks].
  apply IH; [lia|]. apply wf_put32; [lia|done].
Qed.

Lemma get_write_blocks blocks n i d k :
  (4 + 4 * (i + n) ≤ length d)%nat → (4 + 4 * k + 4 ≤ length d)%nat →
  get32 (4 + 4 * k) (write_blocks blocks n i d) =
    if decide (i ≤ k < i + n)%nat then u32 (blocks !!! k) else get32 (4 + 4 * k) d.
Proof.
  revert i d; induction n as [|n IH]; intros i d Hl Hk.
  { cbn [write_blocks]. case_decide; [lia|done]. }
  cbn [write_blocks]. rewrite IH by (rewrite length_put32; lia).
  destruct (decide (k = i)) as [->|].
  - rewrite decide_False, decide_True by lia.
    apply get32_put32_eq; [|lia]. apply Z.mod_pos_bound. lia.
  - repeat case_decide; try lia; try done. apply get32_put32_ne; lia.
Qed.

Lemma get_n_write_blocks blocks n i d :
  (4 + 4 * (i + n) ≤ length d)%nat → get32 0 (write_blocks blocks n i d) = get32 0 d.
Proof.
  revert i d; induction n as [|n IH]; intros i d Hl; [done|]. cbn [write_blocks].
  rewrite IH by (rewrite length_put32; lia). apply get32_put32_ne; lia.
Qed.

Lemma s32_u32 x : - 2 ^ 31 <= x < 2 ^ 31 → s32 (u32 x) = x.
Proof.
  intros. unfold s32, u32, signed. rewrite Z.mod_mod by lia.
  case_match eqn:E; [apply Z.ltb_lt in E|apply Z.ltb_ge in E]; dlia.
Qed.

Lemma wf_head_block n blocks d :
  0 <= n <= LOGSIZE → wf_block d → wf_block (head_block n blocks d).
Proof.
  intros Hn Hd. unfold head_block. unfold LOGSIZE, MAXOPBLOCKS in Hn.
  apply wf_write_blocks; [change (Z.to_nat BSIZE) with 512%nat; lia|].
  apply wf_put32; [change (Z.to_nat BSIZE) with 512%nat; lia|done].
Qed.

Lemma head_block_n n blocks d :
  0 <= n <= LOGSIZE → wf_block d → s32 (get32 0 (head_block n blocks d)) = n.
Proof.
  intros Hn [Hl Hb]. unfold head_block. unfold LOGSIZE, MAXOPBLOCKS in Hn.
  change (Z.to_nat BSIZE) with 512%nat in Hl.
  rewrite get_n_write_blocks by (rewrite length_put32; lia).
  rewrite get32_put32_eq; [apply s32_u32; lia| |lia]. apply Z.mod_pos_bound. lia.
Qed.

Lemma head_block_get n blocks d k :
  0 <= n <= LOGSIZE → wf_block d → (k < Z.to_nat n)%nat → 0 <= blocks !!! k < 2 ^ 31 →
  s32 (get32 (4 + 4 * k) (head_block n blocks d)) = blocks !!! k.
Proof.
  intros Hn [Hl Hb] Hk Hv. unfold head_block. unfold LOGSIZE, MAXOPBLOCKS in Hn.
  change (Z.to_nat BSIZE) with 512%nat in Hl.
  rewrite get_write_blocks by (rewrite length_put32; lia).
  rewrite decide_True by lia. apply s32_u32. lia.
Qed.

Lemma length_read_blocks d n i blocks : length (read_blocks d n i blocks) = length blocks.
Proof.
  revert i blocks; induction n as [|n IH]; intros i blocks; [done|]. cbn [read_blocks].
  by rewrite IH, length_insert.
Qed.

Lemma read_blocks_get d n i blocks k :
  (i + n ≤ length blocks)%nat →
  read_blocks d n i blocks !!! k =
    if decide (i ≤ k < i + n)%nat then s32 (get32 (4 + 4 * k) d) else blocks !!! k.
Proof.
  revert i blocks; induction n as [|n IH]; intros i blocks Hl.
  { cbn [read_blocks]. case_decide; [lia|done]. }
  cbn [read_blocks]. rewrite IH by (rewrite length_insert; lia).
  destruct (decide (k = i)) as [->|].
  - rewrite decide_False, decide_True by lia. apply list_lookup_total_insert_eq. lia.
  - rewrite list_lookup_total_insert_ne by done. repeat case_decide; lia || done.
Qed.

(** ** The log in memory *)

Record geometry_ok (g : geometry) : Prop := {
  geo_start : 2 <= g_logstart g;
  geo_size : 1 <= g_logsize g <= Z.of_nat NBUF;
  geo_end : g_logstart g + g_logsize g <= g_size g;
  geo_int : g_size g < 2 ^ 31 }.

(** The in-memory header lists the blocks [bs] of the transaction. *)
Record log_ok (g : geometry) (l : log) (bs : list Z) : Prop := {
  lo_geo : geometry_ok g;
  lo_dev : l_dev l = ROOTDEV;
  lo_start : l_start l = g_logstart g;
  lo_size : l_size l = g_logsize g;
  lo_len : length (lh_block l) = Z.to_nat LOGSIZE;
  lo_n : lh_n l = Z.of_nat (length bs);
  lo_bs k b : bs !! k = Some b → lh_block l !!! k = b;
  lo_nodup : NoDup bs;
  lo_home b : b ∈ bs → home g b;
  lo_cap : Z.of_nat (length bs) <= log_cap g }.

(** A transaction never pins every buffer. *)
Lemma log_ok_room g l bs : log_ok g l bs → (length bs < NBUF)%nat.
Proof.
  intros L. pose proof (lo_cap _ _ _ L) as H. pose proof (geo_size _ (lo_geo _ _ _ L)).
  unfold log_cap in H. lia.
Qed.

Lemma log_ok_slots g l bs a :
  log_ok g l bs → a_geo a = g → a_held a = ∅ →
  (∀ x, ¬ home g x → x ∉ a_dirty a) → (size (list_to_set bs ∪ a_dirty a) < NBUF)%nat →
  log_slots (g_logstart g + 1) bs a.
Proof.
  intros L Hg Hh Hd Hsz. pose proof (lo_geo _ _ _ L) as [? ? ? ?].
  pose proof (lo_cap _ _ _ L) as Hc. unfold log_cap in Hc.
  split; unfold a_size; rewrite ?Hg; try done.
  - intros b Hb%(lo_home _ _ _ L). destruct Hb as [? ?]. split; lia.
  - intros x Hx. split; [lia|]. apply Hd. unfold home. lia.
Qed.

Lemma wp_on_bio {A} (m : M bio A) (Q : A → store → Prop) s :
  wp m (λ a b, Q a (Store b (st_log s))) (st_bio s) → wp (on_bio m) Q s.
Proof. intros H. exact (wp_lift _ _ _ _ _ H). Qed.

Lemma write_head_spec s a g bs :
  log_ok g (st_log s) bs → bio_rep (st_bio s) a → a_geo a = g → a_held a = ∅ →
  g_logstart g ∉ a_dirty a → (size (a_dirty a) < NBUF)%nat →
  wp (write_head me) (λ _ s',
    let h := head_block (lh_n (st_log s)) (lh_block (st_log s)) (a_view a (g_logstart g)) in
    bio_rep (st_bio s') (a_written [(g_logstart g, h)] (a_dirty a) a) ∧
    wrote [(g_logstart g, h)] (st_bio s) (st_bio s') ∧ st_log s' = st_log s) s.
Proof.
  intros L R Hg Hh Hd Hsz. pose proof (lo_geo _ _ _ L) as [? ? ? ?].
  pose proof (lo_cap _ _ _ L) as Hc. unfold log_cap in Hc.
  unfold write_head. apply wp_bind, wp_gets, wp_on_bio.
  rewrite (lo_dev _ _ _ L), (lo_start _ _ _ L). set (st := g_logstart g) in *.
  set (h := head_block _ _ _). apply wp_bind. cbn zeta.
  eapply wp_mono; [apply (bread_spec me _ a st); [done| | |]|].
  { unfold a_size; rewrite Hg; lia. } { by rewrite Hh. }
  { unfold a_busy. rewrite Hh, dom_empty_L, (left_id_L ∅ (∪)), size_union_alt, size_singleton.
    assert (size (a_dirty a ∖ {[st]}) ≤ size (a_dirty a))%nat; [|lia].
    apply subseteq_size. clear. set_solver. }
  intros i s1 [R1 D1]. apply wp_bind, wp_gets.
  assert (Hi : a_held (a_hold st i a) !! st = Some i) by (cbn; by rewrite lookup_insert_eq).
  destruct (held_buf me s1 _ st i R1 Hi) as (_ & _ & -> & _).
  change (a_view (a_hold st i a) st) with (a_view a st). fold h.
  eapply (bwrite_held s1 _ st i); [done..| |].
  { apply wf_head_block; [|apply R]. rewrite (lo_n _ _ _ L). lia. }
  intros s2 R2 D2. eapply wp_mono; [by eapply (brelse_spec me s2 _ st i)|].
  intros [] s3 [R3 D3]. cbn [st_bio st_log]. split_and!; [|  |done].
  - revert R3. apply bio_rep_equiv. split_and!; try done; cbn.
    + clear -Hd. set_solver.
    + by rewrite delete_insert_eq, Hh, delete_empty.
  - apply (wrote_app [] _ _ s1); [by apply wrote_nil|].
    apply (wrote_app [_] [] _ s2); [done|by apply wrote_nil].
Qed.

(** ** commit *)

Definition home_ws (v : Z → block) (bs : list Z) : list (Z * block) := (λ b, (b, v b)) <$> bs.

(** The disk writes of a commit, in order: the blocks to the log, the
    header, the blocks to their home locations, the cleared header. *)
Definition commit_ws (g : geometry) (l : log) (v : Z → block) (bs : list Z)
    : list (Z * block) :=
  let st := g_logstart g in
  let h := head_block (lh_n l) (lh_block l) (v st) in
  log_ws v (st + 1) bs ++ [(st, h)] ++ home_ws v bs ++ [(st, head_block 0 (lh_block l) h)].

Lemma home_ws_fst v bs : (home_ws v bs).*1 = bs.
Proof. unfold home_ws. induction bs as [|b bs IH]; [done|]. cbn. by rewrite IH. Qed.

(** Installing what [write_log] logged writes the current blocks. *)
Lemma install_of_log v v0 w pos bs :
  (∀ x, pos <= x < pos + Z.of_nat (length bs) → w x = view_writes (log_ws v pos bs) v0 x) →
  install_ws w pos bs = home_ws v bs.
Proof.
  revert pos v0; induction bs as [|b bs IH]; intros pos v0 Hw; [done|].
  cbn [install_ws]. unfold home_ws; rewrite fmap_cons. f_equal.
  - rewrite Hw by (cbn; lia). cbn [log_ws]. rewrite view_writes_cons, view_writes_notin.
    + by rewrite view_set_eq.
    + rewrite log_ws_fst. lia.
  - apply (IH _ (view_set pos (v b) v0)). intros x Hx. rewrite Hw by (cbn; lia). done.
Qed.

Lemma log_ok_set_n0 g l bs : log_ok g l bs → log_ok g (set_n 0 l) [].
Proof.
  intros [Hg ? ? ? ? ? ? ? ? Hc]. split; try done.
  - apply NoDup_nil_2.
  - intros b H. by apply not_elem_of_nil in H.
  - cbn. unfold log_cap. destruct Hg. unfold LOGSIZE, MAXOPBLOCKS. lia.
Qed.

Lemma log_ok_dirty g l bs a :
  log_ok g l bs → a_dirty a = list_to_set bs → ∀ x, ¬ home g x → x ∉ a_dirty a.
Proof.
  intros L -> x Hx. rewrite elem_of_list_to_set. intros H. by apply Hx, (lo_home _ _ _ L).
Qed.

Lemma a_written_app ws ws' D D' a :
  a_written ws' D' (a_written ws D a) ≡ a_written (ws ++ ws') D' a.
Proof. split_and!; try done. intros b. cbn. by rewrite view_writes_app. Qed.

Lemma logstart_not_home g : geometry_ok g → ¬ home g (g_logstart g).
Proof. intros [? ? ? ?] [_ H]. lia. Qed.

Lemma write_log_spec s a g bs :
  log_ok g (st_log s) bs → bio_rep (st_bio s) a → a_geo a = g → a_held a = ∅ →
  a_dirty a = list_to_set bs → (length bs < NBUF)%nat →
  wp (write_log me) (λ _ s', let ws := log_ws (a_view a) (g_logstart g + 1) bs in
    bio_rep (st_bio s') (a_written ws (a_dirty a) a) ∧
    wrote ws (st_bio s) (st_bio s') ∧ st_log s' = st_log s) s.
Proof.
  intros L R Hg Hh Hd Hsz. unfold write_log. apply wp_bind, wp_gets, wp_on_bio.
  rewrite (lo_dev _ _ _ L), (lo_start _ _ _ L), (lo_n _ _ _ L), Nat2Z.id.
  eapply wp_mono; [apply (write_log_loop_spec _ _ a _ 0 bs); [done| |done|]|].
  - rewrite Z.add_0_r. eapply log_ok_slots; [done..|by eapply log_ok_dirty|].
    rewrite Hd, union_idemp_L, size_list_to_set by apply L. done.
  - intros k b Hk. cbn. by apply L.
  - rewrite Z.add_0_r. by intros [] s1 [R1 D1].
Qed.

Lemma install_trans_spec s a g bs :
  log_ok g (st_log s) bs → bio_rep (st_bio s) a → a_geo a = g → a_held a = ∅ →
  a_dirty a ⊆ list_to_set bs → (length bs < NBUF)%nat →
  wp (install_trans me) (λ _ s', let ws := install_ws (a_view a) (g_logstart g + 1) bs in
    bio_rep (st_bio s') (a_written ws ∅ a) ∧
    wrote ws (st_bio s) (st_bio s') ∧ st_log s' = st_log s) s.
Proof.
  intros L R Hg Hh Hd Hsz. unfold install_trans. apply wp_bind, wp_gets, wp_on_bio.
  rewrite (lo_dev _ _ _ L), (lo_start _ _ _ L), (lo_n _ _ _ L), Nat2Z.id.
  eapply wp_mono; [apply (install_loop_spec _ _ a _ 0 bs); [done| |done|]|].
  - rewrite Z.add_0_r. eapply log_ok_slots; [done..| |].
    + intros x Hx Hxd. apply Hx, (lo_home _ _ _ L). apply Hd in Hxd. by rewrite elem_of_list_to_set in Hxd.
    + rewrite (union_comm_L (list_to_set bs)), (subseteq_union_1_L _ _ Hd).
      rewrite size_list_to_set by apply L. done.
  - intros k b Hk. cbn. by apply L.
  - rewrite Z.add_0_r. intros [] s1 [R1 D1]. cbn. split_and!; [|done|done].
    revert R1. apply bio_rep_equiv. split_and!; try done. cbn. clear -Hd. set_solver.
Qed.

Lemma commit_spec s a g bs :
  log_ok g (st_log s) bs → bio_rep (st_bio s) a → a_geo a = g → a_held a = ∅ →
  a_dirty a = list_to_set bs → (length bs < NBUF)%nat → bs ≠ [] →
  wp (commit me) (λ _ s', let ws := commit_ws g (st_log s) (a_view a) bs in
    bio_rep (st_bio s') (a_written ws ∅ a) ∧
    wrote ws (st_bio s) (st_bio s') ∧ st_log s' = set_n 0 (st_log s)) s.
Proof.
  intros L R Hg Hh Hd Hsz Hne. pose proof (lo_geo _ _ _ L) as Hgeo.
  assert (Hst : g_logstart g ∉ a_dirty a) by (by eapply log_ok_dirty, logstart_not_home).
  assert (Hszd : (size (a_dirty a) < NBUF)%nat) by (rewrite Hd, size_list_to_set by apply L; done).
  unfold commit. apply wp_bind, wp_gets.
  assert (lh_n (st_log s) >? 0 = true) as ->.
  { rewrite (lo_n _ _ _ L). destruct bs; [done|]. apply Z.gtb_lt. cbn. lia. }
  apply wp_bind. eapply wp_mono; [by apply (write_log_spec s a g bs)|].
  intros [] s1 (R1 & D1 & L1). apply wp_bind.
  eapply wp_mono; [eapply (write_head_spec s1); [by rewrite L1|done..]|].
  intros [] s2 (R2 & D2 & L2). rewrite L1 in *. apply wp_bind.
  set (st := g_logstart g) in *. set (lws := log_ws (a_view a) (st + 1) bs) in *.
  assert (E1 : view_writes lws (a_view a) st = a_view a st).
  { apply view_writes_notin. unfold lws. rewrite log_ws_fst. lia. }
  cbn [a_view a_written] in R2, D2. rewrite E1 in R2, D2. set (h := head_block _ _ _) in *.
  assert (E2 : install_ws (view_writes [(st, h)] (view_writes lws (a_view a))) (st + 1) bs
    = home_ws (a_view a) bs).
  { apply (install_of_log _ (a_view a)). intros x Hx. rewrite view_writes_cons.
    apply view_set_ne. lia. }
  eapply wp_mono; [eapply (install_trans_spec s2); [by rewrite L2|done| |done| |done]|].
  { done. } { by rewrite <-Hd. }
  intros [] s3 (R3 & D3 & L3). cbn [a_view a_written] in R3, D3.
  fold st in R3, D3. rewrite E2 in R3, D3.
  apply wp_bind, wp_modify.
  eapply wp_mono; [eapply (write_head_spec (with_log (set_n 0) s3))|].
  { cbn. rewrite L3, L2. by eapply log_ok_set_n0. } { exact R3. } { done. } { done. }
  { clear. set_solver. } { cbn. rewrite size_empty. unfold NBUF, MAXOPBLOCKS. lia. }
  intros [] s4 (R4 & D4 & L4). cbn [a_view a_written st_log with_log] in R4, D4, L4.
  fold st in R4, D4. rewrite L3, L2 in R4, D4, L4. cbn [lh_n set_n lh_block] in R4, D4.
  assert (E3 : view_writes (home_ws (a_view a) bs)
    (view_writes [(st, h)] (view_writes lws (a_view a))) st = h).
  { rewrite view_writes_notin; [cbn; by rewrite view_set_eq|]. rewrite home_ws_fst.
    intros H%(lo_home _ _ _ L). by apply (logstart_not_home g). }
  rewrite E3 in R4, D4. split_and!; [|  |done].
  - revert R4. apply bio_rep_equiv. by rewrite !a_written_app.
  - unfold commit_ws. fold st h lws.
    apply (wrote_app _ _ _ _ _ D1), (wrote_app _ _ _ _ _ D2), (wrote_app _ _ _ _ _ D3), D4.
Qed.
End log_spec.
