(* ===== verification/Crash.v ===== *)
(** * Recovery and crash safety

    A crash during [commit] keeps a prefix of its disk writes and loses
    the memory.  The next boot runs [initlog] on an empty cache: all the
    home blocks then have their contents from before the transaction, or
    all of them have the new ones. *)

From S2P Require Import Prelude Layout Sleeplock Bio BioRing BlockLayer BioSpec Log LogSpec.

(** The zeroed [struct log] of a fresh kernel. *)
Definition log0 : log := Log 0 0 0 0 0 0 (replicate (Z.to_nat LOGSIZE) 0).

(** The on-disk header [d] lists the blocks [bs]. *)
Definition header_lists (d : block) (bs : list Z) : Prop :=
  s32 (get32 0 d) = Z.of_nat (length bs) ∧
  ∀ k b, bs !! k = Some b → s32 (get32 (4 + 4 * k) d) = b.

(** The on-disk superblock [d] places the log as [g] says. *)
Definition superblock_places (d : block) (g : geometry) : Prop :=
  sb_logstart (superblock_at d) = g_logstart g ∧ sb_nlog (superblock_at d) = g_logsize g.

(** The counts of running operations are unchanged. *)
Definition same_ops (l l' : log) : Prop :=
  l_outstanding l' = l_outstanding l ∧ l_committing l' = l_committing l.

Section recovery.
Variable me : Z.
Local Abbreviation bio_rep := (bio_rep me).

(** A single block read and released. *)
Lemma read_block_spec s a b {A} (f : block → A) :
  bio_rep s a → 0 <= b < a_size a → a_held a = ∅ → (size (a_dirty a) < NBUF)%nat →
  wp (bp ← bread me ROOTDEV b; d ← data_of bp; brelse me bp;; mret (f d))
    (λ r s', r = f (a_view a b) ∧ bio_rep s' a ∧ wrote [] s s') s.
Proof.
  intros R Hb Hh Hsz. apply wp_bind.
  eapply wp_mono; [apply (bread_spec me s a b); [done|done|by rewrite Hh|]|].
  { unfold a_busy. rewrite Hh, dom_empty_L, (left_id_L ∅ (∪)), size_union_alt, size_singleton.
    assert (size (a_dirty a ∖ {[b]}) ≤ size (a_dirty a))%nat; [|lia].
    apply subseteq_size. clear. set_solver. }
  intros i s1 [R1 D1]. apply wp_bind, wp_gets, wp_bind.
  assert (Hi : a_held (a_hold b i a) !! b = Some i) by (cbn; by rewrite lookup_insert_eq).
  destruct (held_buf me s1 _ b i R1 Hi) as (_ & _ & -> & _).
  eapply wp_mono; [by eapply (brelse_spec me s1 _ b i)|].
  intros [] s2 [R2 D2]. apply wp_ret. split_and!; [done| |].
  - revert R2. apply bio_rep_equiv. split_and!; try done. cbn.
    by rewrite delete_insert_eq, Hh, delete_empty.
  - by apply (wrote_app [] [] _ s1); apply wrote_nil.
Qed.

Lemma read_head_spec s a g bs :
  bio_rep (st_bio s) a → a_geo a = g → a_held a = ∅ → a_dirty a = ∅ → geometry_ok g →
  l_dev (st_log s) = ROOTDEV → l_start (st_log s) = g_logstart g →
  l_size (st_log s) = g_logsize g → length (lh_block (st_log s)) = Z.to_nat LOGSIZE →
  header_lists (a_view a (g_logstart g)) bs → NoDup bs → (∀ b, b ∈ bs → home g b) →
  Z.of_nat (length bs) <= log_cap g →
  wp (read_head me) (λ _ s', bio_rep (st_bio s') a ∧ wrote [] (st_bio s) (st_bio s') ∧
    log_ok g (st_log s') bs ∧ same_ops (st_log s) (st_log s')) s.
Proof.
  intros R Hg Hh Hd Hgeo Hdev Hst Hsz Hlen [Hn Hbs] Hnd Hhome Hcap.
  unfold read_head. apply wp_bind, wp_gets, wp_bind, wp_on_bio. rewrite Hdev, Hst.
  pose proof Hgeo as [? ? ? ?].
  eapply wp_mono; [apply (read_block_spec _ a _ id); [done| |done|]|].
  { unfold a_size. rewrite Hg. lia. } { rewrite Hd, size_empty. unfold NBUF, MAXOPBLOCKS. lia. }
  intros d s1 (-> & R1 & D1). apply wp_modify. split; [done|]. split; [done|]. unfold id; cbn.
  rewrite Hn, Nat2Z.id. unfold log_cap, LOGSIZE, MAXOPBLOCKS in *.
  split; [|done]. split; try done; cbn.
  - by rewrite length_read_blocks.
  - intros k b Hk. pose proof (lookup_lt_Some _ _ _ Hk).
    rewrite read_blocks_get by lia. rewrite decide_True by lia. by apply Hbs.
Qed.

(** The writes of [recover_from_log]. *)
Definition recover_ws (g : geometry) (v : Z → block) (blocks bs : list Z) : list (Z * block) :=
  install_ws v (g_logstart g + 1) bs ++
    [(g_logstart g, head_block 0 blocks (v (g_logstart g)))].

Lemma recover_spec s a g bs :
  bio_rep (st_bio s) a → a_geo a = g → a_held a = ∅ → a_dirty a = ∅ → geometry_ok g →
  l_dev (st_log s) = ROOTDEV → l_start (st_log s) = g_logstart g →
  l_size (st_log s) = g_logsize g → length (lh_block (st_log s)) = Z.to_nat LOGSIZE →
  header_lists (a_view a (g_logstart g)) bs → NoDup bs → (∀ b, b ∈ bs → home g b) →
  Z.of_nat (length bs) <= log_cap g → (length bs < NBUF)%nat →
  wp (recover_from_log me) (λ _ s', ∃ blocks,
    let ws := recover_ws g (a_view a) blocks bs in
    bio_rep (st_bio s') (a_written ws ∅ a) ∧ wrote ws (st_bio s) (st_bio s') ∧
    log_ok g (st_log s') [] ∧ same_ops (st_log s) (st_log s')) s.
Proof.
  intros R Hg Hh Hd Hgeo Hdev Hst Hsz Hlen Hhdr Hnd Hhome Hcap Hroom.
  unfold recover_from_log. apply wp_bind.
  eapply wp_mono; [by apply (read_head_spec s a g bs)|].
  intros [] s1 (R1 & D1 & L1 & O1). apply wp_bind.
  eapply wp_mono; [apply (install_trans_spec me s1 a g bs); try done|].
  { rewrite Hd. apply empty_subseteq. }
  intros [] s2 (R2 & D2 & L2). apply wp_bind, wp_modify.
  eapply wp_mono; [eapply (write_head_spec me (with_log (set_n 0) s2))|].
  { cbn. rewrite L2. by eapply log_ok_set_n0. } { exact R2. } { done. } { done. }
  { clear. set_solver. } { cbn. rewrite size_empty. unfold NBUF, MAXOPBLOCKS. lia. }
  intros [] s3 (R3 & D3 & L3). exists (lh_block (st_log s1)).
  cbn [a_view a_written st_log with_log] in R3, D3, L3. rewrite L2 in R3, D3, L3.
  cbn [lh_n set_n lh_block] in R3, D3.
  assert (E : view_writes (install_ws (a_view a) (g_logstart g + 1) bs) (a_view a)
    (g_logstart g) = a_view a (g_logstart g)).
  { apply view_writes_notin. rewrite install_ws_fst. intros H%Hhome.
    by apply (logstart_not_home g). }
  rewrite E in R3, D3. split_and!.
  - revert R3. apply bio_rep_equiv. by rewrite a_written_app.
  - apply (wrote_app [] _ _ _ _ D1). by apply (wrote_app _ [_] _ (st_bio s2)).
  - rewrite L3. by eapply log_ok_set_n0.
  - by rewrite L3.
Qed.

(** Booting on disk [d]: the file system is recovered from the blocks
    [bs] the on-disk header lists. *)
Lemma initlog_spec d g bs :
  (∀ b, wf_block (default zero_block (d !! b))) → geometry_ok g →
  superblock_places (default zero_block (d !! 1)) g →
  header_lists (default zero_block (d !! g_logstart g)) bs →
  NoDup bs → (∀ b, b ∈ bs → home g b) → Z.of_nat (length bs) <= log_cap g →
  (length bs < NBUF)%nat →
  wp (initlog me ROOTDEV) (λ _ s', ∃ blocks,
    let ws := recover_ws g (a_view (boot_view d g)) blocks bs in
    bio_rep (st_bio s') (a_written ws ∅ (boot_view d g)) ∧
    (∀ b, disk_block (st_bio s') b = view_writes ws (a_view (boot_view d g)) b) ∧
    log_ok g (st_log s') [] ∧ same_ops log0 (st_log s'))
    (Store (boot d (g_size g)) log0).
Proof.
  intros Hwf Hgeo [Hs1 Hs2] Hhdr Hnd Hhome Hcap Hroom. pose proof Hgeo as [? ? ? ?].
  pose proof (boot_rep me d g Hwf) as R.
  unfold initlog. change (LOGHEADER_SIZE >=? BSIZE) with false.
  apply wp_bind, wp_on_bio. cbn [st_bio st_log].
  eapply wp_mono; [apply (read_block_spec _ (boot_view d g) 1 superblock_at); [done| |done|]|].
  { unfold a_size; cbn. lia. } { cbn. rewrite size_empty. unfold NBUF, MAXOPBLOCKS. lia. }
  intros sb s1 (-> & R1 & D1). apply wp_bind, wp_modify.
  eapply wp_mono; [apply (recover_spec _ (boot_view d g) g bs); try done|].
  - cbn -[superblock_at]. rewrite Hs1. apply s32_id. lia.
  - cbn -[superblock_at]. rewrite Hs2. apply s32_id. lia.
  - intros [] s2 (blocks & R2 & D2 & L2 & O2). exists blocks.
    split; [exact R2|]. split; [|split; [exact L2|exact O2]]. intros b.
    pose proof (wrote_app _ _ _ _ _ D1 D2) as D. cbn [app] in D.
    rewrite (wrote_view _ _ _ b D). reflexivity.
Qed.
End recovery.

(** ** Crashes during commit *)

(** The disk between transactions: a super block that places the log, and
    a clear log header. *)
Record disk_ok (s : bio) (g : geometry) : Prop := {
  dk_wf b : wf_block (disk_block s b);
  dk_header : s32 (get32 0 (disk_block s (g_logstart g))) = 0;
  dk_super : superblock_places (disk_block s 1) g }.

(** The last operation of a transaction has ended and [commit] is about
    to run: the transaction updates the blocks [bs], nobody holds a
    buffer, and the on-disk header is clear. *)
Record ready (me : Z) (s : store) (a : astore) (g : geometry) (bs : list Z) : Prop := {
  rd_log : log_ok g (st_log s) bs;
  rd_rep : bio_rep me (st_bio s) a;
  rd_geo : a_geo a = g;
  rd_held : a_held a = ∅;
  rd_dirty : a_dirty a = list_to_set bs;
  rd_disk : disk_ok (st_bio s) g }.

Lemma view_writes_wf ws v b :
  Forall (λ w, wf_block w.2) ws → (∀ b, wf_block (v b)) → wf_block (view_writes ws v b).
Proof.
  intros Hws. revert v; induction Hws as [|[x d] ws Hd Hws IH]; intros v Hv; [apply Hv|].
  rewrite view_writes_cons. apply IH. intros b'. unfold view_set. by case_match.
Qed.

Section crash.
Context (me me' : Z) (s : store) (a : astore) (g : geometry) (bs : list Z).
Hypothesis Hready : ready me s a g bs.

Local Abbreviation st := (g_logstart g).
Local Abbreviation v := (a_view a).
Local Abbreviation v0 := (disk_block (st_bio s)).
Local Abbreviation h := (head_block (lh_n (st_log s)) (lh_block (st_log s)) (v st)).
Local Abbreviation lws := (log_ws v (st + 1) bs).

(** The outcome of a reboot on the disk left by the writes [pre]. *)
Definition recovers_to (pre : list (Z * block)) (want : Z → block) : Prop :=
  ∃ s', initlog me' ROOTDEV
    (Store (boot (disk_writes pre (disk (st_bio s))) (g_size g)) log0) = Ret tt s' ∧
  ∀ b, home g b → disk_block (st_bio s') b = want b.

Lemma recovers pre bs' want :
  Forall (λ w, wf_block w.2) pre → 1 ∉ pre.*1 →
  header_lists (view_writes pre v0 st) bs' → NoDup bs' → (∀ b, b ∈ bs' → home g b) →
  Z.of_nat (length bs') <= log_cap g → (length bs' < NBUF)%nat →
  (∀ b, home g b →
    view_writes (install_ws (view_writes pre v0) (st + 1) bs') (view_writes pre v0) b = want b) →
  recovers_to pre want.
Proof.
  intros Hwf H1 Hhdr Hnd Hhome Hcap Hroom Hw. destruct Hready. destruct rd_disk0.
  pose proof (lo_geo _ _ _ rd_log0) as Hgeo.
  apply wp_returns. eapply wp_mono.
  - apply (initlog_spec me' _ g bs'); [|assumption| | |assumption..].
    + intros b. rewrite disk_block_writes. by apply view_writes_wf.
    + rewrite disk_block_writes, view_writes_notin; assumption.
    + rewrite disk_block_writes. assumption.
  - intros [] s' (blocks & _ & E & _) b Hb. rewrite E, <-Hw by done.
    unfold recover_ws. rewrite view_writes_app, view_writes_cons. cbn.
    rewrite view_set_ne by (intros ->; by apply (logstart_not_home g)).
    rewrite (install_ws_ext _ (view_writes pre v0)) by (intros; apply disk_block_writes).
    apply view_writes_ext. intros b'. apply disk_block_writes.
Qed.

Lemma slots_not_home x : st + 1 <= x < st + 1 + Z.of_nat (length bs) → ¬ home g x.
Proof.
  intros Hx [_ H]. destruct Hready. pose proof (lo_cap _ _ _ rd_log0).
  unfold log_cap in *. lia.
Qed.

Lemma log_ws_wf pos cs : Forall (λ w, wf_block w.2) (log_ws v pos cs).
Proof.
  revert pos; induction cs as [|c cs IH]; intros pos; cbn; constructor; [|done].
  apply (rep_wf _ _ _ (rd_rep _ _ _ _ _ Hready)).
Qed.

Lemma home_ws_wf cs : Forall (λ w, wf_block w.2) (home_ws v cs).
Proof.
  unfold home_ws. rewrite Forall_fmap, Forall_forall. intros b _.
  apply (rep_wf _ _ _ (rd_rep _ _ _ _ _ Hready)).
Qed.

Lemma count_bounds : 0 <= lh_n (st_log s) <= LOGSIZE.
Proof.
  destruct Hready. rewrite (lo_n _ _ _ rd_log0). pose proof (lo_cap _ _ _ rd_log0).
  unfold log_cap in *. lia.
Qed.

Lemma wf_h : wf_block h.
Proof. apply wf_head_block; [apply count_bounds|]. apply (rep_wf _ _ _ (rd_rep _ _ _ _ _ Hready)). Qed.

(** Before the header is written, the old contents come back. *)
Lemma recovers_old pre :
  Forall (λ w, wf_block w.2) pre →
  (∀ x, x ∈ pre.*1 → st + 1 <= x < st + 1 + Z.of_nat (length bs)) →
  recovers_to pre v0.
Proof.
  intros Hwf Hpre. pose proof Hready as [L _ _ _ _ [_ Hh _]].
  assert (Hnh : ∀ b, home g b → b ∉ pre.*1).
  { intros b Hb Hin%Hpre. by apply (slots_not_home b). }
  apply (recovers pre []); [done| | | | | | |].
  - pose proof (geo_start _ (lo_geo _ _ _ L)). intros Hx%Hpre. lia.
  - split; [|intros k b Hk; by rewrite lookup_nil in Hk].
    rewrite view_writes_notin; [done|]. intros H%Hpre. lia.
  - apply NoDup_nil_2.
  - intros b H. by apply not_elem_of_nil in H.
  - cbn. destruct (lo_geo _ _ _ L). unfold log_cap, LOGSIZE, MAXOPBLOCKS. lia.
  - unfold NBUF, MAXOPBLOCKS. cbn. lia.
  - intros b Hb. cbn. by rewrite view_writes_notin by (by apply Hnh).
Qed.

(** The header of a committed transaction lists its blocks. *)
Lemma header_commit : header_lists h bs.
Proof.
  pose proof Hready as [L R _ _ _ _]. destruct (lo_geo _ _ _ L). split.
  - rewrite head_block_n; [apply (lo_n _ _ _ L)|apply count_bounds|apply (rep_wf _ _ _ R)].
  - intros k b Hk. pose proof (lookup_lt_Some _ _ _ Hk).
    pose proof (lo_bs _ _ _ L k b Hk) as E.
    assert (home g b) as [? _] by (apply (lo_home _ _ _ L), list_elem_of_lookup; eauto).
    rewrite head_block_get; [done|apply count_bounds|apply (rep_wf _ _ _ R)| |].
    + rewrite (lo_n _ _ _ L). lia.
    + rewrite E. lia.
Qed.

(** A block outside the transaction is the same on disk and in the view. *)
Lemma untouched b : b ∉ bs → v0 b = v b.
Proof.
  intros Hb. destruct Hready. symmetry. apply (rep_disk _ _ _ rd_rep0).
  by rewrite rd_dirty0, elem_of_list_to_set.
Qed.

(** After the home writes, on top of any [w] that agrees with the disk
    outside the transaction. *)
Lemma home_writes_new w b :
  (b ∉ bs → w b = v0 b) → view_writes (home_ws v bs) w b = v b.
Proof.
  intros Hw. destruct (decide (b ∈ bs)) as [Hb|Hb].
  - apply view_writes_in.
    + rewrite home_ws_fst. apply (lo_nodup _ _ _ (rd_log _ _ _ _ _ Hready)).
    + unfold home_ws. apply list_elem_of_fmap. eauto.
  - rewrite view_writes_notin by (by rewrite home_ws_fst). rewrite Hw by done. by apply untouched.
Qed.

(** Blocks written before or with the header are never home blocks. *)
Lemma log_not_home x : x ∈ (lws ++ [(st, h)]).*1 → ¬ home g x.
Proof.
  rewrite fmap_app, elem_of_app, log_ws_fst. cbn. rewrite list_elem_of_singleton.
  intros [Hx| ->]; [by apply slots_not_home|].
  apply logstart_not_home, (lo_geo _ _ _ (rd_log _ _ _ _ _ Hready)).
Qed.

Lemma log_home b : home g b → view_writes (lws ++ [(st, h)]) v0 b = v0 b.
Proof. intros Hb. apply view_writes_notin. intros H. by apply (log_not_home b). Qed.

Lemma take_home_fst j x : x ∈ (take j (home_ws v bs)).*1 → x ∈ bs.
Proof. rewrite fmap_take, home_ws_fst. apply subseteq_take. Qed.

Lemma bs_home x : x ∈ bs → home g x.
Proof. apply (lo_home _ _ _ (rd_log _ _ _ _ _ Hready)). Qed.

(** The log area is not changed by home writes. *)
Lemma log_area pre x :
  ¬ home g x → (∀ y, y ∈ pre.*1 → y ∈ bs) →
  view_writes ((lws ++ [(st, h)]) ++ pre) v0 x = view_writes (lws ++ [(st, h)]) v0 x.
Proof.
  intros Hx Hpre. rewrite view_writes_app. apply view_writes_notin.
  intros H%Hpre%bs_home. done.
Qed.

Lemma log_wf : Forall (λ w, wf_block w.2) (lws ++ [(st, h)]).
Proof.
  apply Forall_app; split; [apply log_ws_wf|]. constructor; [apply wf_h|constructor].
Qed.

Lemma super_not_written pre :
  (∀ y, y ∈ pre.*1 → y ∈ bs) → 1 ∉ ((lws ++ [(st, h)]) ++ pre).*1.
Proof.
  intros Hpre. pose proof (geo_start _ (lo_geo _ _ _ (rd_log _ _ _ _ _ Hready))).
  rewrite !fmap_app, !elem_of_app, log_ws_fst. cbn. rewrite list_elem_of_singleton.
  intros [[?|?]|[? ?]%Hpre%bs_home]; lia.
Qed.

(** Once the header is on disk, the new contents come back. *)
Lemma recovers_new j :
  recovers_to ((lws ++ [(st, h)]) ++ take j (home_ws v bs)) v.
Proof.
  pose proof Hready as [L R _ _ _ _]. pose proof (lo_geo _ _ _ L) as Hgeo.
  assert (Hst : ¬ home g st) by (by apply logstart_not_home).
  apply (recovers _ bs); [| | |apply L|apply L|apply L|by eapply log_ok_room|].
  - apply Forall_app; split; [apply log_wf|]. apply Forall_take, home_ws_wf.
  - apply super_not_written, take_home_fst.
  - rewrite log_area by (done || apply take_home_fst).
    rewrite view_writes_app, view_writes_cons. cbn. rewrite view_set_eq. apply header_commit.
  - intros b Hb. rewrite (install_of_log v v0).
    + apply home_writes_new. intros Hn. rewrite view_writes_app, view_writes_notin.
      * by apply log_home.
      * by intros ?%take_home_fst.
    + intros x Hx. rewrite log_area by (by apply slots_not_home || apply take_home_fst).
      rewrite view_writes_app, view_writes_cons. cbn. rewrite view_set_ne; [done|]. lia.
Qed.

(** The disk after the whole commit. *)
Lemma commit_ws_split :
  commit_ws g (st_log s) v bs =
    ((lws ++ [(st, h)]) ++ home_ws v bs) ++ [(st, head_block 0 (lh_block (st_log s)) h)].
Proof. unfold commit_ws. by rewrite <-!app_assoc. Qed.

Lemma none_logged : 0 <= 0 <= LOGSIZE.
Proof. unfold LOGSIZE, MAXOPBLOCKS. lia. Qed.

Lemma commit_ws_wf : Forall (λ w, wf_block w.2) (commit_ws g (st_log s) v bs).
Proof.
  rewrite commit_ws_split.
  apply Forall_app; split; [apply Forall_app; split; [apply log_wf|apply home_ws_wf]|].
  constructor; [|constructor]. apply wf_head_block; [apply none_logged|apply wf_h].
Qed.

Lemma commit_ws_super : 1 ∉ (commit_ws g (st_log s) v bs).*1.
Proof.
  rewrite commit_ws_split, fmap_app, elem_of_app. intros [H|H].
  - revert H. apply super_not_written. by rewrite home_ws_fst.
  - cbn in H. apply list_elem_of_singleton in H.
    destruct (lo_geo _ _ _ (rd_log _ _ _ _ _ Hready)). lia.
Qed.

Lemma commit_ws_header w : s32 (get32 0 (view_writes (commit_ws g (st_log s) v bs) w st)) = 0.
Proof.
  rewrite commit_ws_split, view_writes_app, view_writes_cons. cbn. rewrite view_set_eq.
  apply head_block_n; [apply none_logged|apply wf_h].
Qed.

Lemma commit_ws_home b :
  home g b → view_writes (commit_ws g (st_log s) v bs) v0 b = v b.
Proof.
  intros Hb. rewrite commit_ws_split, view_writes_app, view_writes_cons. cbn.
  rewrite view_set_ne by (intros ->; by eapply logstart_not_home, Hb; eapply lo_geo, Hready).
  rewrite view_writes_app. apply home_writes_new. intros _. by apply log_home.
Qed.

(** And after the header has been cleared as well. *)
Lemma recovers_done :
  recovers_to (commit_ws g (st_log s) v bs) v.
Proof.
  pose proof (lo_geo _ _ _ (rd_log _ _ _ _ _ Hready)) as Hgeo.
  apply (recovers _ []); [apply commit_ws_wf|apply commit_ws_super| | | | | |].
  - split; [apply commit_ws_header|intros k b Hk; by rewrite lookup_nil in Hk].
  - apply NoDup_nil_2.
  - intros b Hb. by apply not_elem_of_nil in Hb.
  - cbn. destruct Hgeo. unfold log_cap, LOGSIZE, MAXOPBLOCKS. lia.
  - cbn. unfold NBUF, MAXOPBLOCKS. lia.
  - intros b Hb. cbn [install_ws]. change (view_writes [] ?w b) with (w b).
    by apply commit_ws_home.
Qed.

(** Every prefix of the commit's writes recovers to the state before or
    after the transaction. *)
Lemma recovers_prefix k :
  recovers_to (take k (commit_ws g (st_log s) v bs))
    (if (k <=? length bs)%nat then v0 else v).
Proof.
  set (n := length bs).
  assert (Hl : length lws = n) by apply length_log_ws.
  destruct (Nat.leb_spec k n) as [Hk|Hk].
  - unfold commit_ws. cbn zeta. rewrite take_app_le by lia. apply recovers_old.
    + apply Forall_take, log_ws_wf.
    + intros x. rewrite fmap_take. intros Hx%subseteq_take. by apply log_ws_fst in Hx.
  - destruct (Nat.leb_spec k (n + 1 + n)) as [Hk'|Hk'].
    + assert (E : take k (commit_ws g (st_log s) v bs) =
        (lws ++ [(st, h)]) ++ take (k - (n + 1)) (home_ws v bs)).
      { unfold commit_ws. cbn zeta. rewrite app_assoc, take_app_ge; rewrite length_app, Hl; cbn; [|lia].
        f_equal. apply take_app_le. unfold home_ws. rewrite length_fmap. fold n. lia. }
      rewrite E. apply recovers_new.
    + rewrite take_ge; [apply recovers_done|]. unfold commit_ws, home_ws.
      rewrite !length_app, Hl, length_fmap. cbn. fold n. lia.
Qed.
End crash.

Lemma recovers_elim me' s g pre want d n :
  recovers_to me' s g pre want → n = g_size g → d = disk_writes pre (disk (st_bio s)) →
  ∃ s', initlog me' ROOTDEV (Store (boot d n) log0) = Ret tt s' ∧
  ∀ b, home g b → disk_block (st_bio s') b = want b.
Proof. by intros H -> ->. Qed.
