(* ===== verification/LogLayer.v ===== *)
(** * Transactions

    What log.c promises: [log_write] absorbs repeated writes, [begin_op]
    and [end_op] bracket transactions, the last [end_op] makes all the
    updates durable, and a crash anywhere in between leaves either all of
    them or none.  bio.c and log.c together fulfil the [BlockLayer]
    contract. *)

From S2P Require Import Prelude Layout Sleeplock Bio BioRing BlockLayer BioSpec Log LogSpec Crash.

(** ** log_write *)

(** The slot of [b]: its position among the first [n] blocks, or the
    first free one. *)
Lemma log_slot_spec blocks b n i :
  let k := log_slot blocks b n i in
  (i ≤ k ≤ i + n)%nat ∧ (∀ j, (i ≤ j < k)%nat → blocks !!! j ≠ b) ∧
  ((k < i + n)%nat → blocks !!! k = b).
Proof.
  cbn zeta. revert i; induction n as [|n IH]; intros i; cbn.
  - split_and!; [lia..|]. intros; lia.
  - destruct (Z.eqb_spec (blocks !!! i) b) as [E|E].
    + split_and!; [lia..| |done]. intros; lia.
    + destruct (IH (S i)) as (H1 & H2 & H3). split_and!; [lia..| |intros; apply H3; lia].
      intros j Hj. destruct (decide (j = i)) as [->|]; [done|]. apply H2. lia.
Qed.

(** The log header after [log_write] of block [b]. *)
Definition absorb (b : Z) (bs : list Z) : list Z := if decide (b ∈ bs) then bs else bs ++ [b].

Definition logged (b : Z) (l : log) : log :=
  let k := log_slot (lh_block l) b (Z.to_nat (lh_n l)) 0 in
  let l' := set_blocks (<[k := b]> (lh_block l)) l in
  if Z.of_nat k =? lh_n l then set_n (lh_n l + 1) l' else l'.

Lemma logged_ops b l : same_ops l (logged b l).
Proof. unfold logged. by case_match. Qed.

Lemma log_slot_in g l bs b :
  log_ok g l bs → b ∈ bs →
  ∃ k, bs !! k = Some b ∧ log_slot (lh_block l) b (Z.to_nat (lh_n l)) 0 = k.
Proof.
  intros L Hb. destruct (list_elem_of_lookup_1 _ _ Hb) as [j Hj].
  pose proof (lookup_lt_Some _ _ _ Hj).
  destruct (log_slot_spec (lh_block l) b (Z.to_nat (lh_n l)) 0) as (H1 & H2 & H3).
  set (k := log_slot _ _ _ _) in *. exists k. split; [|done].
  rewrite (lo_n _ _ _ L), Nat2Z.id in *.
  assert (k ≤ j)%nat.
  { destruct (decide (k ≤ j)%nat); [done|]. exfalso. apply (H2 j); [lia|].
    by apply (lo_bs _ _ _ L). }
  destruct (lookup_lt_is_Some_2 bs k) as [x Hx]; [lia|].
  rewrite Hx. f_equal. rewrite <-(lo_bs _ _ _ L k x Hx). apply H3. lia.
Qed.

Lemma log_slot_notin g l bs b :
  log_ok g l bs → b ∉ bs →
  log_slot (lh_block l) b (Z.to_nat (lh_n l)) 0 = length bs.
Proof.
  intros L Hb. destruct (log_slot_spec (lh_block l) b (Z.to_nat (lh_n l)) 0) as (H1 & H2 & H3).
  set (k := log_slot _ _ _ _) in *. rewrite (lo_n _ _ _ L), Nat2Z.id in *.
  destruct (decide (k < length bs)%nat) as [Hk|]; [|lia].
  destruct (lookup_lt_is_Some_2 bs k Hk) as [x Hx].
  exfalso. apply Hb. apply list_elem_of_lookup. exists k. rewrite Hx. f_equal.
  rewrite <-(lo_bs _ _ _ L k x Hx). apply H3. lia.
Qed.

(** [log_write] records the block, once. *)
Lemma log_ok_logged g l bs b :
  log_ok g l bs → home g b → Z.of_nat (length bs) < log_cap g →
  log_ok g (logged b l) (absorb b bs).
Proof.
  intros L Hb Hcap. unfold logged, absorb.
  pose proof (lo_n _ _ _ L) as Hn.
  destruct (decide (b ∈ bs)) as [Hin|Hin].
  - destruct (log_slot_in g l bs b L Hin) as (k & Hk & ->).
    pose proof (lookup_lt_Some _ _ _ Hk).
    rewrite (proj2 (Z.eqb_neq _ _)) by lia. rewrite list_insert_id'.
    + by destruct L; split.
    + intros _. rewrite <-(lo_bs _ _ _ L k b Hk). apply list_lookup_lookup_total_lt.
      rewrite (lo_len _ _ _ L). unfold log_cap in Hcap. lia.
  - rewrite (log_slot_notin g l bs b L Hin), Hn, Z.eqb_refl.
    destruct L. split; try done; cbn.
    + by rewrite length_insert.
    + rewrite length_app. cbn. lia.
    + intros k x Hk. apply lookup_snoc_Some in Hk as [[Hlt Hk]|[-> <-]].
      * rewrite list_lookup_total_insert_ne by lia. by apply lo_bs.
      * apply list_lookup_total_insert_eq. unfold log_cap in Hcap. lia.
    + apply NoDup_app; split_and!; [done| |apply NoDup_singleton].
      intros x Hx ->%list_elem_of_singleton. done.
    + intros x [Hx| ->%list_elem_of_singleton]%elem_of_app; [by apply lo_home|done].
    + rewrite length_app. cbn. lia.
Qed.

Lemma absorb_set b bs :
  (list_to_set (absorb b bs) : gset Z) = {[b]} ∪ list_to_set bs.
Proof.
  unfold absorb. destruct (decide _) as [H|_].
  - apply (elem_of_list_to_set (C := gset Z)) in H. clear -H. set_solver.
  - rewrite list_to_set_app_L. clear. set_solver.
Qed.

(** ** The block layer inside a transaction *)

Record store_rep (me : Z) (s : store) (a : astore) : Prop := {
  sr_bio : bio_rep me (st_bio s) a;
  sr_log : ∃ bs, log_ok (a_geo a) (st_log s) bs ∧ a_dirty a = list_to_set bs;
  sr_ops : 1 <= l_outstanding (st_log s) ∧ l_committing (st_log s) = 0;
  sr_disk : disk_ok (st_bio s) (a_geo a) }.

Lemma disk_ok_same s s' g : same_disk s s' → disk_ok s g → disk_ok s' g.
Proof.
  intros (Hd & _ & _) [H1 H2 H3]. unfold disk_block in *.
  split; unfold disk_block; by rewrite Hd.
Qed.

Lemma store_rep_equiv me s a a' : a ≡ a' → store_rep me s a → store_rep me s a'.
Proof.
  intros E [R L O D]. pose proof E as (_ & Ed & _ & Eg). split; [|by rewrite <-Ed, <-Eg|done|].
  - revert R. by apply bio_rep_equiv.
  - by rewrite <-Eg.
Qed.

Lemma log_write_eq i s :
  lh_n (st_log s) < LOGSIZE → lh_n (st_log s) < l_size (st_log s) - 1 →
  1 <= l_outstanding (st_log s) →
  log_write i s = Ret tt (Store (mark_dirty i (st_bio s))
    (logged (b_blockno (buf_at (st_bio s) i)) (st_log s))).
Proof.
  intros H1 H2 H3. unfold log_write, mbind, M_bind, gets.
  rewrite Z.geb_leb, (proj2 (Z.leb_gt _ _)) by lia.
  rewrite Z.geb_leb, (proj2 (Z.leb_gt _ _)) by lia. cbn [orb].
  rewrite (proj2 (Z.ltb_ge _ _)) by lia. unfold logged. cbn zeta beta iota. by destruct (_ =? _).
Qed.

(** The transaction the store is in. *)
Lemma store_rep_size me s a :
  store_rep me s a → lh_n (st_log s) = Z.of_nat (size (a_dirty a)).
Proof.
  intros [_ (bs & L & ->) _ _]. rewrite (lo_n _ _ _ L).
  by rewrite size_list_to_set by exact (lo_nodup _ _ _ L).
Qed.

Lemma log_write_spec me s a b i d :
  store_rep me s a → a_held a !! b = Some i → wf_block d → home (a_geo a) b →
  Z.of_nat (size (a_dirty a)) < log_cap (a_geo a) →
  wp (log_write i) (λ _ s', store_rep me s' (a_update b d a))
    (Store (bset i d (st_bio s)) (st_log s)).
Proof.
  intros SR Hh Hd Hb Hcap. pose proof (store_rep_size me s a SR) as Hn.
  destruct SR as [R (bs & L & Hbs) [O C] D].
  destruct (held_buf me _ _ _ _ R Hh) as ((Hi & _ & Hbn) & _).
  assert (E : b_blockno (buf_at (bset i d (st_bio s)) i) = b).
  { unfold bset. by rewrite buf_at_upd_eq by (rewrite (rep_len _ _ _ R); lia). }
  eapply wp_intro; [apply log_write_eq; cbn [st_log]; try done|].
  { unfold log_cap in Hcap. lia. }
  { rewrite (lo_size _ _ _ L). unfold log_cap in Hcap. lia. }
  cbn [st_log st_bio]. rewrite E. split; cbn [st_bio st_log].
  - by apply mark_dirty_spec.
  - exists (absorb b bs). rewrite absorb_set, <-Hbs. split; [|done].
    apply log_ok_logged; [done..|]. cbn [a_geo a_update]. rewrite <-(lo_n _ _ _ L). lia.
  - by destruct (logged_ops b (st_log s)) as [-> ->].
  - revert D. by apply disk_ok_same.
Qed.

Lemma on_bio_rep {A} me (m : M bio A) (f : A → astore) s a :
  store_rep me s a → (∀ x, a_geo (f x) = a_geo a) → (∀ x, a_dirty (f x) = a_dirty a) →
  wp m (λ x b, bio_rep me b (f x) ∧ same_disk (st_bio s) b) (st_bio s) →
  wp (on_bio m) (λ x s', store_rep me s' (f x)) s.
Proof.
  intros [R L O D] Hg Hd Hm. apply wp_on_bio. eapply wp_mono; [exact Hm|].
  intros x b [R' D']. split; cbn [st_bio st_log]; [done|by rewrite Hg, Hd|done|].
  rewrite Hg. by apply (disk_ok_same (st_bio s)).
Qed.

#[global, refine] Instance store_block_layer (me : Z) : BlockLayer store := {
  bl_bread dev b := on_bio (bread me dev b);
  bl_brelse i := on_bio (brelse me i);
  bl_log_write := log_write;
  bl_data s i := b_data (buf_at (st_bio s) i);
  bl_set i d s := Store (bset i d (st_bio s)) (st_log s);
  bl_rep := store_rep me }.
Proof.
  - intros s a a' E. split; apply store_rep_equiv; by rewrite E.
  - intros s a b [R _ _ _]. apply R.
  - intros s a b i [R _ _ _] Hh. by apply (held_buf me _ a b i).
  - intros s a b SR Hb Hh Hsz. apply (on_bio_rep _ _ _ s a SR); [done..|].
    apply bread_spec; [apply SR|done..].
  - intros s a b i SR Hh. apply (on_bio_rep _ _ (λ _, a_release b a) s a SR); [done..|].
    apply brelse_spec; [apply SR|done].
  - intros s a b i d. apply log_write_spec.
Defined.

(** ** Ending a transaction *)

(** No operation is running and nothing is held. *)
Record idle (me : Z) (s : store) (g : geometry) (v : Z → block) : Prop := {
  id_bio : bio_rep me (st_bio s) (AStore v ∅ ∅ g);
  id_log : log_ok g (st_log s) [];
  id_ops : l_outstanding (st_log s) = 0 ∧ l_committing (st_log s) = 0;
  id_disk : disk_ok (st_bio s) g }.

Lemma begin_op_idle me s g v :
  idle me s g v → wp begin_op (λ _ s', store_rep me s' (AStore v ∅ ∅ g)) s.
Proof.
  intros [R L [O C] D]. apply wp_bind, wp_gets. rewrite O, C, (lo_n _ _ _ L). eval_eqb.
  change (_ >? LOGSIZE) with false. cbn iota. apply wp_modify. split; cbn; [done| |lia|done].
  exists []. split; [|done]. by destruct L; split.
Qed.

Lemma log_ok_ops g l bs o c : log_ok g l bs → log_ok g (set_committing c (set_outstanding o l)) bs.
Proof. intros []. by split. Qed.

(** The log header [end_op] commits with. *)
Definition last_op (l : log) : log := set_committing 1 (set_outstanding 0 l).

Lemma end_op_last me s Q :
  l_outstanding (st_log s) = 1 → l_committing (st_log s) = 0 →
  wp (commit me) (λ _ s', Q tt (with_log (set_committing 0) s')) (with_log last_op s) →
  wp (end_op me) Q s.
Proof.
  intros O C H. unfold end_op. apply wp_bind, wp_modify, wp_bind, wp_gets.
  cbn [with_log st_log set_outstanding l_outstanding l_committing]. rewrite O, C. eval_eqb.
  apply wp_bind, wp_modify, wp_bind.
  unfold with_log in *; cbn [st_log st_bio]. rewrite O. eapply wp_mono; [exact H|].
  intros [] s' HQ. by apply wp_modify.
Qed.

Lemma ready_last me s a bs :
  store_rep me s a → a_held a = ∅ → log_ok (a_geo a) (st_log s) bs →
  a_dirty a = list_to_set bs → ready me (with_log last_op s) a (a_geo a) bs.
Proof. intros [R _ _ D] Hh L Hd. split; try done. by apply log_ok_ops. Qed.

(** Ending the last operation: the writes [ws] reach the disk, and the
    store is idle again. *)
Definition end_ws (s : store) (a : astore) (bs : list Z) : list (Z * block) :=
  match bs with [] => [] | _ => commit_ws (a_geo a) (st_log s) (a_view a) bs end.

Lemma end_op_spec me s a bs :
  store_rep me s a → a_held a = ∅ → l_outstanding (st_log s) = 1 →
  log_ok (a_geo a) (st_log s) bs → a_dirty a = list_to_set bs →
  wp (end_op me) (λ _ s', let ws := end_ws s a bs in
    bio_rep me (st_bio s') (a_written ws ∅ a) ∧ wrote ws (st_bio s) (st_bio s') ∧
    log_ok (a_geo a) (st_log s') [] ∧
    l_outstanding (st_log s') = 0 ∧ l_committing (st_log s') = 0) s.
Proof.
  intros SR Hh O L Hd. pose proof (ready_last me s a bs SR Hh L Hd) as [L' R' _ _ _ _].
  apply end_op_last; [done|apply SR|]. destruct bs as [|b bs].
  - cbn [end_ws]. unfold commit. apply wp_bind, wp_gets. rewrite (lo_n _ _ _ L').
    apply wp_ret. cbn [st_bio with_log st_log]. split_and!; [|by apply wrote_refl| |done|done].
    + revert R'. by apply bio_rep_equiv.
    + by apply (log_ok_ops _ _ _ 0 0).
  - eapply wp_mono; [by apply (commit_spec me _ a (a_geo a) (b :: bs)); try eapply log_ok_room|].
    intros [] s' (R & W & E). cbn [st_bio with_log st_log]. split_and!; [done|done| |by rewrite E|done].
    rewrite E. exact (log_ok_set_n0 _ _ (b :: bs) (log_ok_ops _ _ _ 0 0 L)).
Qed.

(** The disk after the last operation. *)
Lemma end_op_disk me s s' a bs :
  store_rep me s a → a_held a = ∅ → log_ok (a_geo a) (st_log s) bs →
  a_dirty a = list_to_set bs → wrote (end_ws s a bs) (st_bio s) (st_bio s') →
  disk_ok (st_bio s') (a_geo a) ∧
  ∀ b, home (a_geo a) b → disk_block (st_bio s') b = a_view a b.
Proof.
  intros SR Hh L Hd W. pose proof (ready_last me s a bs SR Hh L Hd) as RD.
  pose proof (rd_disk _ _ _ _ _ RD) as [D1 D2 D3]. cbn [st_bio with_log] in D1, D2, D3.
  assert (E : ∀ b, disk_block (st_bio s') b =
    view_writes (end_ws s a bs) (disk_block (st_bio s)) b) by (intros b; by apply wrote_view).
  destruct bs as [|b0 bs].
  - split; [split; intros; rewrite E; [apply D1|exact D2|exact D3]|]. intros b Hb. rewrite E. cbn.
    symmetry. apply (sr_bio _ _ _ SR). by rewrite Hd.
  - split; [split|]; intros; rewrite E; cbn [end_ws].
    + by eapply view_writes_wf, D1; eapply (commit_ws_wf me (with_log last_op s)).
    + by eapply (commit_ws_header me (with_log last_op s)).
    + rewrite view_writes_notin; [exact D3|]. by eapply (commit_ws_super me (with_log last_op s)).
    + by eapply (commit_ws_home me (with_log last_op s)).
Qed.

(** ** Crash safety *)

(** C1: Crash safety of a transaction.  The last running operation calls
    [end_op], which returns.  Whatever prefix [take k] of the disk writes
    it made survives a crash, booting again ([initlog] on an empty cache)
    succeeds and leaves every home block with its old content when the
    prefix does not include the log header, and with its new content when
    it does. *)
Theorem end_op_crash_safe me me' s a :
  store_rep me s a → a_held a = ∅ → l_outstanding (st_log s) = 1 → a_dirty a ≠ ∅ →
  ∃ s', end_op me s = Ret tt s' ∧
  ∀ k, let ws := drop (length (writes (st_bio s))) (writes (st_bio s')) in
    let crashed := disk_writes (take k ws) (disk (st_bio s)) in
    ∃ s'', initlog me' ROOTDEV (Store (boot crashed (a_size a)) log0) = Ret tt s'' ∧
    ∀ b, home (a_geo a) b → disk_block (st_bio s'') b =
      (if (k <=? size (a_dirty a))%nat then disk_block (st_bio s) else a_view a) b.
Proof.
  intros SR Hh O Hne. destruct (sr_log _ _ _ SR) as (bs & L & Hd).
  destruct (wp_elim _ _ _ (end_op_spec me s a bs SR Hh O L Hd)) as ([] & s' & Hrun & _ & W & _).
  exists s'. split; [done|]. intros k ws crashed.
  assert (Hws : ws = commit_ws (a_geo a) (last_op (st_log s)) (a_view a) bs).
  { subst ws. destruct W as (_ & _ & ->). rewrite drop_app_length. by destruct bs. }
  eapply recovers_elim.
  - pose proof (recovers_prefix me me' _ _ _ _ (ready_last me s a bs SR Hh L Hd) k) as Hk.
    rewrite Hd, size_list_to_set by exact (lo_nodup _ _ _ L).
    destruct (k <=? length bs)%nat; exact Hk.
  - reflexivity.
  - subst crashed. by rewrite Hws.
Qed.

(** A transaction that ends without a crash is durable: after the
    last [end_op] the disk holds the current content of every home block,
    no block is pinned and the on-disk log is empty. *)
Theorem end_op_durable me s a :
  store_rep me s a → a_held a = ∅ → l_outstanding (st_log s) = 1 →
  ∃ s' v, end_op me s = Ret tt s' ∧ idle me s' (a_geo a) v ∧
  ∀ b, home (a_geo a) b → disk_block (st_bio s') b = a_view a b ∧ v b = a_view a b.
Proof.
  intros SR Hh O. destruct (sr_log _ _ _ SR) as (bs & L & Hd).
  destruct (wp_elim _ _ _ (end_op_spec me s a bs SR Hh O L Hd))
    as ([] & s' & Hrun & R & W & L' & O').
  destruct (end_op_disk me s s' a bs SR Hh L Hd W) as [D Hb].
  exists s', (view_writes (end_ws s a bs) (a_view a)). split; [done|]. split.
  - by split.
  - intros b Hhb. split; [by apply Hb|]. rewrite <-(Hb b Hhb). apply (rep_disk _ _ _ R).
    apply not_elem_of_empty.
Qed.

(** ** Booting and a first transaction *)

(** A disk whose log is clear boots into an idle store that shows the
    contents of the disk. *)
Lemma initlog_idle me d g :
  (∀ b, wf_block (default zero_block (d !! b))) → geometry_ok g →
  superblock_places (default zero_block (d !! 1)) g →
  header_lists (default zero_block (d !! g_logstart g)) [] →
  wp (initlog me ROOTDEV) (λ _ s', ∃ v, idle me s' g v ∧
    ∀ b, b ≠ g_logstart g → v b = default zero_block (d !! b))
    (Store (boot d (g_size g)) log0).
Proof.
  intros Hwf Hgeo Hs Hh. pose proof Hgeo as [? ? ? ?].
  eapply wp_mono.
  { apply (initlog_spec me d g []); [done..|apply NoDup_nil_2| | |].
    - intros b H'. by apply not_elem_of_nil in H'.
    - cbn. unfold log_cap, LOGSIZE, MAXOPBLOCKS. lia.
    - cbn. lia. }
  intros [] s' (blocks & R & D & L & O). cbn [boot_view a_view] in D.
  unfold recover_ws in R, D. cbn [install_ws app] in R, D.
  eexists. split; [split|].
  - exact R.
  - exact L.
  - exact O.
  - split.
    + intros b. rewrite D, view_writes_cons. cbn. unfold view_set. case_match; [|done].
      apply wf_head_block; [apply none_logged|done].
    + rewrite D, view_writes_cons. cbn. rewrite view_set_eq.
      apply head_block_n; [apply none_logged|done].
    + rewrite D, view_writes_cons. cbn. rewrite view_set_ne by lia. done.
  - intros b Hb. cbn [boot_view a_view]. rewrite view_writes_cons. cbn. by apply view_set_ne.
Qed.

(** Write [d] to block [b] inside a transaction. *)
Definition write_block (me : Z) (b : Z) (d : block) : M store unit :=
  i ← on_bio (bread me ROOTDEV b);
  modify (λ s, Store (bset i d (st_bio s)) (st_log s));;
  log_write i;;
  on_bio (brelse me i).

Lemma write_block_spec me s a b d :
  store_rep me s a → a_held a = ∅ → home (a_geo a) b → wf_block d →
  Z.of_nat (size (a_dirty a)) < log_cap (a_geo a) →
  wp (write_block me b d) (λ _ s', store_rep me s' (a_update b d a)) s.
Proof.
  intros SR Hh Hb Hd Hcap. destruct (sr_log _ _ _ SR) as (bs & L & _).
  pose proof (geo_size _ (lo_geo _ _ _ L)). unfold log_cap in Hcap.
  unfold write_block. apply wp_bind.
  eapply wp_mono; [apply (bl_bread_ok (BlockLayer := store_block_layer me) s a b SR)|].
  { destruct Hb. unfold a_size. lia. } { by rewrite Hh. }
  { unfold a_busy. rewrite Hh, dom_empty_L, (left_id_L ∅ (∪)), size_union_alt, size_singleton.
    assert (size (a_dirty a ∖ {[b]}) ≤ size (a_dirty a))%nat; [|lia].
    apply subseteq_size. clear. set_solver. }
  intros i s1 SR1. apply wp_bind, wp_modify, wp_bind.
  assert (Hi : a_held (a_hold b i a) !! b = Some i) by apply lookup_insert_eq.
  eapply wp_mono; [apply (log_write_spec me s1 _ b i d SR1 Hi Hd Hb Hcap)|].
  intros [] s2 SR2.
  eapply wp_mono; [apply (bl_brelse_ok (BlockLayer := store_block_layer me) s2 _ b i SR2 Hi)|].
  intros [] s3 SR3. revert SR3. apply store_rep_equiv. split_and!; try done. cbn.
  by rewrite delete_insert_eq, Hh, delete_empty.
Qed.

(** ** Effects on the counts of operations *)

Lemma on_bio_log {A} (m : M bio A) s x s' : on_bio m s = Ret x s' → st_log s' = st_log s.
Proof. unfold on_bio, lift. destruct (m (st_bio s)); by intros [= <- <-]. Qed.

Lemma log_write_inv i s x s' :
  log_write i s = Ret x s' →
  lh_n (st_log s) < LOGSIZE ∧ lh_n (st_log s) < l_size (st_log s) - 1 ∧
  1 <= l_outstanding (st_log s) ∧
  s' = Store (mark_dirty i (st_bio s)) (logged (b_blockno (buf_at (st_bio s) i)) (st_log s)).
Proof.
  intros H. pose proof H as H'. unfold log_write, mbind at 1, M_bind at 1, gets at 1 in H.
  destruct ((_ >=? _) || _) eqn:E1; [done|]. apply orb_false_iff in E1 as [E1 E2].
  destruct (_ <? 1) eqn:E3; [done|]. clear H.
  rewrite Z.geb_leb, Z.leb_gt in E1, E2. apply Z.ltb_ge in E3.
  rewrite log_write_eq in H' by lia. injection H' as <- <-. split_and!; [lia..|done].
Qed.

(** ** A concrete disk *)

(** A file system image's super block for a log of [n] blocks. *)
Definition small_disk (n : Z) : gmap Z block :=
  {[1 := take (Z.to_nat BSIZE) (superblock_bytes (Superblock 100 60 8 n 2 (n + 2) (n + 3))
      ++ replicate (Z.to_nat BSIZE) 0)]}.

Definition small_geo : geometry := Geometry 100 2 30.

Lemma small_disk_wf b : wf_block (default zero_block (small_disk 30 !! b)).
Proof.
  unfold small_disk. destruct (decide (b = 1)) as [->|Hb].
  - rewrite lookup_singleton_eq. split; [done|].
    unfold is_byte. apply (bool_decide_eq_true _). vm_compute. reflexivity.
  - rewrite lookup_singleton_ne by done. apply wf_zero_block.
Qed.

(** The running operation after one [log_write]. *)
Definition one_write : M store unit :=
  initlog 1 ROOTDEV;; begin_op;; write_block 1 40 (replicate 512 7).

Lemma wf_sevens : wf_block (replicate 512 7).
Proof. split; [done|]. apply Forall_replicate. unfold is_byte. lia. Qed.

Lemma one_write_rep :
  wp one_write (λ _ s, ∃ a, store_rep 1 s a ∧ a_held a = ∅ ∧ l_outstanding (st_log s) = 1 ∧
    a_dirty a = {[40]} ∧ a_geo a = small_geo ∧ a_view a 40 = replicate 512 7)
    (Store (boot (small_disk 30) 100) log0).
Proof.
  assert (W : wp one_write (λ _ s, ∃ a, store_rep 1 s a ∧ a_held a = ∅ ∧
    a_dirty a = {[40]} ∧ a_geo a = small_geo ∧ a_view a 40 = replicate 512 7)
    (Store (boot (small_disk 30) 100) log0)).
  { apply wp_bind. eapply wp_mono; [apply (initlog_idle 1 (small_disk 30) small_geo)|].
    { apply small_disk_wf. }
    { split; unfold small_geo, NBUF, MAXOPBLOCKS; cbn; lia. }
    { split; vm_compute; reflexivity. }
    { split; [vm_compute; reflexivity|]. intros k b H. by rewrite lookup_nil in H. }
    intros [] s1 (v & I & _). apply wp_bind. eapply wp_mono; [by apply begin_op_idle|].
    intros [] s2 SR. eapply wp_mono; [apply (write_block_spec _ _ _ 40 _ SR); [done| | |]|].
    { unfold home; cbn. lia. } { apply wf_sevens. } { done. }
    intros [] s3 SR3. eexists. split; [done|]. split_and!; [done| |done|].
    - cbn. clear. set_solver.
    - apply view_set_eq. }
  apply wp_elim in W as ([] & s & E & a & SR & H1 & H2 & H3 & H4).
  apply (wp_intro _ _ _ _ _ E). exists a. do 2 (split; [assumption|]).
  split; [|split; [exact H2|split; [exact H3|exact H4]]]. clear -E.
  change s with (match Ret tt s : outcome store unit with Ret _ s => s | _ => s end).
  rewrite <-E. vm_compute. reflexivity.
Qed.

Lemma end_op_crash_safe_witness :
  ∃ s s', one_write (Store (boot (small_disk 30) 100) log0) = Ret tt s ∧
  end_op 1 s = Ret tt s' ∧
  ∀ k, let ws := drop (length (writes (st_bio s))) (writes (st_bio s')) in
    let crashed := disk_writes (take k ws) (disk (st_bio s)) in
    ∃ s'', initlog 2 ROOTDEV (Store (boot crashed 100) log0) = Ret tt s'' ∧
    disk_block (st_bio s'') 40 = if (k <=? 1)%nat then disk_block (st_bio s) 40 else replicate 512 7.
Proof.
  destruct (wp_elim _ _ _ one_write_rep) as ([] & s & E & a & SR & Hh & O & Hd & Hg & Hv).
  destruct (end_op_crash_safe 1 2 s a SR Hh O) as (s' & E' & H).
  { rewrite Hd. apply non_empty_singleton_L. }
  exists s, s'. split; [exact E|]. split; [exact E'|]. intros k ws crashed.
  destruct (H k) as (s'' & E'' & Hb). exists s''. split.
  - unfold a_size in E''. rewrite Hg in E''. exact E''.
  - rewrite Hb, Hd, size_singleton.
    + by rewrite <-Hv; destruct (k <=? 1)%nat.
    + rewrite Hg. unfold home, small_geo; cbn. lia.
Defined.

Lemma end_op_durable_witness :
  ∃ s s', one_write (Store (boot (small_disk 30) 100) log0) = Ret tt s ∧
  end_op 1 s = Ret tt s' ∧ disk_block (st_bio s') 40 = replicate 512 7.
Proof.
  destruct (wp_elim _ _ _ one_write_rep) as ([] & s & E & a & SR & Hh & O & Hd & Hg & Hv).
  destruct (end_op_durable 1 s a SR Hh O) as (s' & v & E' & _ & H).
  exists s, s'. split; [exact E|]. split; [exact E'|]. rewrite <-Hv. apply (H 40).
  rewrite Hg. unfold home, small_geo; cbn. lia.
Defined.
