(* ===== verification/LogAdmit.v ===== *)
(** * How many operations [begin_op] admits

    Concurrent system calls interleave their [begin_op], [log_write] and
    [end_op] calls.  [begin_op] reserves MAXOPBLOCKS log blocks for each
    operation it lets in; as long as every operation keeps to its
    reservation the transaction fits in LOGSIZE blocks. *)

From S2P Require Import Prelude Layout Sleeplock Bio BioRing BlockLayer BioSpec Log LogSpec Crash LogLayer.

Section admission.
Variable me : Z.

(** The store, and for every running operation the number of [log_write]
    calls it made.  Buffer cache routines may run at any time. *)
Inductive op_step : store * list Z → store * list Z → Prop :=
| os_begin s ws s' : begin_op s = Ret tt s' → op_step (s, ws) (s', 0 :: ws)
| os_write s ws s' j w i :
    ws !! j = Some w → w < MAXOPBLOCKS → log_write i s = Ret tt s' →
    op_step (s, ws) (s', <[j := w + 1]> ws)
| os_end s ws s' j : is_Some (ws !! j) → end_op me s = Ret tt s' → op_step (s, ws) (s', delete j ws)
| os_cache {A} (m : M bio A) s ws s' x : on_bio m s = Ret x s' → op_step (s, ws) (s', ws).

(** Log blocks reserved and not used yet. *)
Fixpoint reserved (ws : list Z) : Z :=
  match ws with [] => 0 | w :: ws' => (MAXOPBLOCKS - w) + reserved ws' end.

Record admitted (size : Z) (s : store) (ws : list Z) : Prop := {
  ad_ops : l_outstanding (st_log s) = Z.of_nat (length ws);
  ad_committing : l_committing (st_log s) = 0;
  ad_size : l_size (st_log s) = size;
  ad_used : Forall (λ w, 0 <= w <= MAXOPBLOCKS) ws;
  ad_n : 0 <= lh_n (st_log s);
  ad_room : lh_n (st_log s) + reserved ws <= LOGSIZE }.

Lemma reserved_insert ws j w :
  ws !! j = Some w → reserved (<[j := w + 1]> ws) = reserved ws - 1.
Proof.
  revert j; induction ws as [|w0 ws IH]; intros [|j] H; try done; cbn in *.
  - injection H as ->. lia.
  - rewrite IH by done. lia.
Qed.

Lemma reserved_delete ws j :
  Forall (λ w, 0 <= w <= MAXOPBLOCKS) ws → reserved (delete j ws) <= reserved ws.
Proof.
  intros H. revert j; induction H as [|w ws Hw H IH]; intros [|j]; cbn [reserved]; [done|done| |].
  - change (delete 0%nat (w :: ws)) with ws. lia.
  - change (delete (S j) (w :: ws)) with (w :: delete j ws). cbn [reserved].
    specialize (IH j). lia.
Qed.

Lemma reserved_bound ws :
  Forall (λ w, 0 <= w <= MAXOPBLOCKS) ws →
  0 <= reserved ws <= Z.of_nat (length ws) * MAXOPBLOCKS.
Proof. induction 1; cbn -[MAXOPBLOCKS Z.mul]; lia. Qed.

Lemma reserved_lookup ws j w :
  Forall (λ w, 0 <= w <= MAXOPBLOCKS) ws → ws !! j = Some w → MAXOPBLOCKS - w <= reserved ws.
Proof.
  intros H. revert j; induction H as [|w0 ws Hw H IH]; intros [|j] E; try done; cbn in *.
  - injection E as ->. pose proof (reserved_bound ws H). lia.
  - specialize (IH j E). lia.
Qed.

Lemma begin_op_inv s x s' :
  begin_op s = Ret x s' →
  l_committing (st_log s) = 0 ∧
  lh_n (st_log s) + (l_outstanding (st_log s) + 1) * MAXOPBLOCKS <= LOGSIZE ∧
  s' = with_log (set_outstanding (l_outstanding (st_log s) + 1)) s.
Proof.
  unfold begin_op, mbind, M_bind, gets.
  destruct (Z.eqb_spec (l_committing (st_log s)) 0) as [C|]; [|done]. cbn [negb].
  rewrite Z.gtb_ltb. destruct (Z.ltb_spec LOGSIZE (lh_n (st_log s) +
    (l_outstanding (st_log s) + 1) * MAXOPBLOCKS)); [done|].
  intros [= <- <-]. done.
Qed.

Lemma commit_inv s x s' :
  commit me s = Ret x s' →
  st_log s' = if lh_n (st_log s) >? 0 then set_n 0 (st_log s) else st_log s.
Proof.
  unfold commit. intros (l & s0 & [= <- <-] & H)%bind_inv.
  destruct (_ >? 0); [|by injection H as <- <-].
  apply bind_inv in H as (? & s1 & (? & ? & [= <- <-] & E1%on_bio_log)%bind_inv & H).
  apply bind_inv in H as (? & s2 & (? & ? & [= <- <-] & E2%on_bio_log)%bind_inv & H).
  apply bind_inv in H as (? & s3 & (? & ? & [= <- <-] & E3%on_bio_log)%bind_inv & H).
  apply bind_inv in H as (? & s4 & [= <- <-] & (? & ? & [= <- <-] & E4%on_bio_log)%bind_inv).
  by rewrite E4; cbn; rewrite E3, E2, E1.
Qed.

Lemma end_op_inv s x s' :
  end_op me s = Ret x s' → let l := st_log s in
  l_committing l = 0 ∧ l_committing (st_log s') = 0 ∧ l_size (st_log s') = l_size l ∧
  l_outstanding (st_log s') = l_outstanding l - 1 ∧
  (lh_n (st_log s') = lh_n l ∨ lh_n (st_log s') = 0).
Proof.
  unfold end_op. intros (? & ? & [= <- <-] & (? & ? & [= <- <-] & H)%bind_inv)%bind_inv.
  cbn [st_log with_log set_outstanding l_committing l_outstanding] in H.
  destruct (Z.eqb_spec (l_committing (st_log s)) 0) as [C|]; [|done]. cbn [negb] in H.
  destruct (_ =? 0); [|injection H as <- <-; cbn; auto 6].
  apply bind_inv in H as (? & ? & [= <- <-] & (? & s1 & E%commit_inv & [= <- <-])%bind_inv).
  cbn. rewrite E. cbn. by destruct (_ >? 0); cbn; auto 6.
Qed.

Lemma logged_n b l :
  l_size (logged b l) = l_size l ∧ lh_n l <= lh_n (logged b l) <= lh_n l + 1.
Proof. unfold logged. case_match; cbn; split; lia. Qed.

Lemma op_step_admitted size c c' :
  op_step c c' → admitted size c.1 c.2 → admitted size c'.1 c'.2.
Proof.
  intros St [A1 A2 A3 A4 A5 A6].
  destruct St as [s ws s' H|s ws s' j w i Hj Hw H|s ws s' j [w Hj] H|A m s ws s' x H];
    cbn [fst snd] in *.
  - apply begin_op_inv in H as (_ & Hroom & ->).
    pose proof (reserved_bound ws A4). rewrite A1 in Hroom.
    split; cbn -[MAXOPBLOCKS LOGSIZE]; [|done|done| |done|].
    + rewrite A1. lia.
    + constructor; [unfold MAXOPBLOCKS; lia|done].
    + lia.
  - apply log_write_inv in H as (_ & _ & _ & ->). cbn [st_log].
    destruct (logged_ops (b_blockno (buf_at (st_bio s) i)) (st_log s)) as [O C].
    destruct (logged_n (b_blockno (buf_at (st_bio s) i)) (st_log s)) as [Z N].
    split; cbn [st_log]; [by rewrite O, length_insert|by rewrite C|by rewrite Z| |lia|].
    + apply Forall_insert; [done|]. pose proof (Forall_lookup_1 _ _ _ _ A4 Hj). cbn in *. lia.
    + rewrite (reserved_insert ws j w Hj). lia.
  - apply end_op_inv in H as (_ & C & Z & O & N).
    pose proof (reserved_delete ws j A4). pose proof (reserved_bound _ A4).
    pose proof (lookup_lt_Some _ _ _ Hj).
    split; [|done|by rewrite Z|by apply Forall_delete|lia|lia].
    rewrite O, A1, length_delete by eauto. lia.
  - apply on_bio_log in H. by split; rewrite ?H.
Qed.

Lemma op_steps_admitted size c c' :
  rtc op_step c c' → admitted size c.1 c.2 → admitted size c'.1 c'.2.
Proof. induction 1; eauto using op_step_admitted. Qed.

Lemma admitted_start s :
  l_outstanding (st_log s) = 0 → l_committing (st_log s) = 0 → lh_n (st_log s) = 0 →
  admitted (l_size (st_log s)) s [].
Proof. intros O C N. split; rewrite ?O, ?C, ?N; try done. Qed.

(** C34: The reservation protocol is sound for a log of more than LOGSIZE
    blocks.  From an idle log, after any interleaving of operations in
    which each made at most MAXOPBLOCKS [log_write] calls, an operation
    that has calls left can make one: it does not panic. *)
Theorem admitted_write_ok s0 s ws j w i :
  l_outstanding (st_log s0) = 0 → l_committing (st_log s0) = 0 → lh_n (st_log s0) = 0 →
  LOGSIZE < l_size (st_log s0) →
  rtc op_step (s0, []) (s, ws) → ws !! j = Some w → w < MAXOPBLOCKS →
  ∃ s', log_write i s = Ret tt s'.
Proof.
  intros O C N Hs Hr Hj Hw.
  pose proof (op_steps_admitted _ _ _ Hr (admitted_start s0 O C N)) as [A1 A2 A3 A4 A5 A6].
  cbn [fst snd] in *. pose proof (reserved_lookup ws j w A4 Hj).
  pose proof (lookup_lt_Some _ _ _ Hj).
  eexists. apply log_write_eq; lia.
Qed.
End admission.

(** ** The log that mkfs makes *)

Fixpoint write_each (me : Z) (bs : list Z) : M store unit :=
  match bs with
  | [] => mret tt
  | b :: bs' => write_block me b zero_block;; write_each me bs'
  end.

(** Three operations are admitted and write ten different blocks each. *)
Definition three_ops (me : Z) : M store unit :=
  initlog me ROOTDEV;;
  begin_op;; begin_op;; begin_op;;
  write_each me (seqZ 40 30).


(** With one log block more the same operations are accepted, but the
    transaction then pins every one of the NBUF = LOGSIZE buffers, and the
    commit in the last [end_op] finds no buffer to write the log with. *)
Theorem full_transaction_starves_commit :
  ∃ s, three_ops 1 (Store (boot (small_disk (LOGSIZE + 1)) 100) log0) = Ret tt s ∧
  (end_op 1;; end_op 1;; end_op 1) s = Panic "bget: no buffers".
Proof.
  destruct (three_ops 1 (Store (boot (small_disk (LOGSIZE + 1)) 100) log0))
    as [[] s| | |] eqn:E; [|exfalso; revert E; vm_compute; discriminate..].
  exists s. split; [done|].
  assert (H : (three_ops 1;; end_op 1;; end_op 1;; end_op 1)
    (Store (boot (small_disk (LOGSIZE + 1)) 100) log0) = Panic "bget: no buffers")
    by (vm_compute; reflexivity).
  by rewrite (bind_ret _ _ _ _ _ E) in H.
Qed.

Lemma admitted_write_ok_witness :
  ∃ s0 s1 s, initlog 1 ROOTDEV (Store (boot (small_disk 31) 100) log0) = Ret tt s0 ∧
  begin_op s0 = Ret tt s1 ∧ log_write 0 s1 = Ret tt s ∧
  ∃ s', log_write 0 s = Ret tt s'.
Proof.
  destruct (initlog 1 ROOTDEV (Store (boot (small_disk 31) 100) log0))
    as [[] s0| | |] eqn:E0; [|exfalso; revert E0; vm_compute; discriminate..].
  assert (F : (l_outstanding (st_log s0) =? 0) && (l_committing (st_log s0) =? 0) &&
    (lh_n (st_log s0) =? 0) && (LOGSIZE <? l_size (st_log s0)) = true).
  { change s0 with (match Ret tt s0 : outcome store unit with Ret _ s => s | _ => s0 end).
    rewrite <-E0. vm_compute. reflexivity. }
  rewrite !andb_true_iff, !Z.eqb_eq, Z.ltb_lt in F. destruct F as [[[O C] N] S].
  destruct (begin_op s0) as [[] s1| | |] eqn:E1;
    [|revert E1; unfold begin_op, mbind, M_bind, gets; rewrite O, C, N; discriminate..].
  pose proof (os_begin 1 s0 [] s1 E1) as St1.
  destruct (admitted_write_ok 1 s0 s1 [0] 0 0 0 O C N S) as [s E2];
    [by apply rtc_once|done|done|].
  exists s0, s1, s. split; [done|]. split; [done|]. split; [done|].
  apply (admitted_write_ok 1 s0 s [1] 0 1 0 O C N S); [|done|done].
  apply (rtc_l _ _ (s1, [0])); [done|]. apply rtc_once.
  by apply (os_write 1 s1 [0] s 0 0 0).
Defined.
