(* ===== verification/Fs.v ===== *)
(** * fs.c: the file system

    The five layers of fs.c over the block layer: block allocation,
    inodes, inode contents, directories and path names.  An inode pointer
    is an index into [icache.inode]; the null pointer is [None] where a
    routine can return it.  A C string is the list of its bytes, read as 0
    past the end. *)

From S2P Require Import Prelude Str Layout Sleeplock BlockLayer.

Record inode := Inode {
  i_dev : Z; i_inum : Z; i_ref : Z; i_lock : sleeplock; i_valid : Z;
  i_type : Z; i_major : Z; i_minor : Z; i_nlink : Z; i_size : Z; i_addrs : list Z }.

#[global] Instance inode_inhabited : Inhabited inode :=
  populate (Inode 0 0 0 initsleeplock 0 0 0 0 0 0 (replicate 13 0)).

Record fs (T : Type) := Fs { f_st : T; f_sb : superblock; f_icache : list inode }.
Arguments Fs {T}.
Arguments f_st {T}.
Arguments f_sb {T}.
Arguments f_icache {T}.

Definition with_ref (r : Z) (ip : inode) : inode :=
  Inode (i_dev ip) (i_inum ip) r (i_lock ip) (i_valid ip) (i_type ip) (i_major ip)
    (i_minor ip) (i_nlink ip) (i_size ip) (i_addrs ip).
Definition with_lock (l : sleeplock) (ip : inode) : inode :=
  Inode (i_dev ip) (i_inum ip) (i_ref ip) l (i_valid ip) (i_type ip) (i_major ip)
    (i_minor ip) (i_nlink ip) (i_size ip) (i_addrs ip).
Definition with_valid (v : Z) (ip : inode) : inode :=
  Inode (i_dev ip) (i_inum ip) (i_ref ip) (i_lock ip) v (i_type ip) (i_major ip)
    (i_minor ip) (i_nlink ip) (i_size ip) (i_addrs ip).
Definition with_type (t : Z) (ip : inode) : inode :=
  Inode (i_dev ip) (i_inum ip) (i_ref ip) (i_lock ip) (i_valid ip) t (i_major ip)
    (i_minor ip) (i_nlink ip) (i_size ip) (i_addrs ip).
Definition with_nlink (n : Z) (ip : inode) : inode :=
  Inode (i_dev ip) (i_inum ip) (i_ref ip) (i_lock ip) (i_valid ip) (i_type ip) (i_major ip)
    (i_minor ip) n (i_size ip) (i_addrs ip).
Definition with_size (n : Z) (ip : inode) : inode :=
  Inode (i_dev ip) (i_inum ip) (i_ref ip) (i_lock ip) (i_valid ip) (i_type ip) (i_major ip)
    (i_minor ip) (i_nlink ip) n (i_addrs ip).
Definition with_addrs (l : list Z) (ip : inode) : inode :=
  Inode (i_dev ip) (i_inum ip) (i_ref ip) (i_lock ip) (i_valid ip) (i_type ip) (i_major ip)
    (i_minor ip) (i_nlink ip) (i_size ip) l.
Definition with_dinode (d : dinode) (ip : inode) : inode :=
  Inode (i_dev ip) (i_inum ip) (i_ref ip) (i_lock ip) (i_valid ip) (di_type d) (di_major d)
    (di_minor d) (di_nlink d) (di_size d) (di_addrs d).

(** The on-disk fields of an in-memory inode. *)
Definition dinode_of (ip : inode) : dinode :=
  Dinode (i_type ip) (i_major ip) (i_minor ip) (i_nlink ip) (i_size ip) (i_addrs ip).

Record stat := Stat { s_type : Z; s_dev : Z; s_ino : Z; s_nlink : Z; s_size : Z }.

(** A string as a function from offsets to bytes. *)
Definition rd (s : list Z) (i : Z) : Z := default 0 (s !! Z.to_nat i).

Section fs_code.
Context {T : Type} `{!BlockLayer T}.
Variable me : Z.                                   (* myproc()->pid *)
Variable cwd : nat.                                (* myproc()->cwd *)

Local Abbreviation K := (M (fs T)).

Definition on_st {A} (m : M T A) : K A := lift f_st (λ x s, Fs x (f_sb s) (f_icache s)) m.
Definition bread (dev b : Z) : K nat := on_st (bl_bread dev b).
Definition brelse (bp : nat) : K unit := on_st (bl_brelse bp).
Definition log_write (bp : nat) : K unit := on_st (bl_log_write bp).
Definition b_data (bp : nat) : K block := gets (λ s, bl_data (f_st s) bp).
Definition set_data (bp : nat) (d : block) : K unit :=
  modify (λ s, Fs (bl_set bp d (f_st s)) (f_sb s) (f_icache s)).

Definition inode_at (s : fs T) (ip : nat) : inode := f_icache s !!! ip.
Definition get_inode (ip : nat) : K inode := gets (λ s, inode_at s ip).
Definition upd_inode (ip : nat) (f : inode → inode) : K unit :=
  modify (λ s, Fs (f_st s) (f_sb s) (alter f ip (f_icache s))).
Definition on_ilock {A} (ip : nat) (m : M sleeplock A) : K A :=
  lift (λ s, i_lock (inode_at s ip))
    (λ l s, Fs (f_st s) (f_sb s) (alter (with_lock l) ip (f_icache s))) m.

(** ** Blocks *)

Definition readsb (dev : Z) : K superblock :=
  bp ← bread dev 1;
  d ← b_data bp;
  brelse bp;;
  mret (superblock_at d).

Definition bzero (dev bno : Z) : K unit :=
  bp ← bread dev bno;
  set_data bp zero_block;;
  log_write bp;;
  brelse bp.

(** [data[bi/8] & m] with [m = 1 << (bi % 8)]. *)
Definition bit_of (bi : Z) : Z := Z.shiftl 1 (bi mod 8).
Definition byte_at (d : block) (bi : Z) : Z := d !!! Z.to_nat (bi / 8).

(** The inner loop of [balloc]: the first free bit from [bi] on, among
    [n] candidates. *)
Fixpoint balloc_scan (d : block) (size b : Z) (n : nat) (bi : Z) : option Z :=
  match n with
  | O => None
  | S n' =>
    if negb (b + bi <? size) then None
    else if Z.land (byte_at d bi) (bit_of bi) =? 0 then Some bi
    else balloc_scan d size b n' (bi + 1)
  end.

Fixpoint balloc_loop (dev : Z) (n : nat) (b : Z) : K Z :=
  match n with
  | O => diverge
  | S n' =>
    sb ← gets f_sb;
    if negb (b <? sb_size sb) then panic "balloc: out of blocks"
    else
      bp ← bread dev (BBLOCK b sb);
      d ← b_data bp;
      match balloc_scan d (sb_size sb) b (Z.to_nat BPB) 0 with
      | Some bi =>
        set_data bp (<[Z.to_nat (bi / 8) := Z.lor (byte_at d bi) (bit_of bi)]> d);;
        log_write bp;;
        brelse bp;;
        bzero dev (b + bi);;
        mret (b + bi)
      | None =>
        brelse bp;;
        balloc_loop dev n' (b + BPB)
      end
  end.

Definition balloc (dev : Z) : K Z :=
  sb ← gets f_sb;
  balloc_loop dev (2 + Z.to_nat (sb_size sb / BPB)) 0.

Definition bfree (dev b : Z) : K unit :=
  sb ← gets f_sb;
  bp ← bread dev (BBLOCK b sb);
  d ← b_data bp;
  let bi := b mod BPB in
  let m := bit_of bi in
  if Z.land (byte_at d bi) m =? 0 then panic "freeing free block"
  else
    set_data bp (<[Z.to_nat (bi / 8) := Z.land (byte_at d bi) (u8 (Z.lnot m))]> d);;
    log_write bp;;
    brelse bp.

(** ** Inodes *)

(** Console output is not part of the state; [iinit] prints the super
    block it read. *)
Definition iinit (dev : Z) : K unit :=
  modify (λ s, Fs (f_st s) (f_sb s) (with_lock initsleeplock <$> f_icache s));;
  sb ← readsb dev;
  modify (λ s, Fs (f_st s) sb (f_icache s)).

(** The scan of [iget]: a referenced entry for the inode, or the first
    empty one. *)
Fixpoint iget_scan (dev inum : Z) (l : list inode) (i : nat) (empty : option nat)
    : nat + option nat :=
  match l with
  | [] => inr empty
  | ip :: l' =>
    if (i_ref ip >? 0) && (i_dev ip =? dev) && (i_inum ip =? inum) then inl i
    else iget_scan dev inum l' (S i)
      (match empty with None => if i_ref ip =? 0 then Some i else None | _ => empty end)
  end.

Definition iget (dev inum : Z) : K nat :=
  l ← gets f_icache;
  match iget_scan dev inum l 0 None with
  | inl ip => upd_inode ip (λ x, with_ref (i_ref x + 1) x);; mret ip
  | inr None => panic "iget: no inodes"
  | inr (Some ip) =>
    upd_inode ip (λ x, Inode dev inum 1 (i_lock x) 0 (i_type x) (i_major x) (i_minor x)
      (i_nlink x) (i_size x) (i_addrs x));;
    mret ip
  end.

Fixpoint ialloc_loop (dev type : Z) (n : nat) (inum : Z) : K nat :=
  match n with
  | O => diverge
  | S n' =>
    sb ← gets f_sb;
    if negb (inum <? sb_ninodes sb) then panic "ialloc: no inodes"
    else
      bp ← bread dev (IBLOCK inum sb);
      d ← b_data bp;
      let i := Z.to_nat (inum mod IPB) in
      if di_type (dinode_at i d) =? 0 then
        set_data bp (put_dinode i (Dinode type 0 0 0 0 (replicate 13 0)) d);;
        log_write bp;;
        brelse bp;;
        iget dev inum
      else
        brelse bp;;
        ialloc_loop dev type n' (inum + 1)
  end.

Definition ialloc (dev type : Z) : K nat :=
  sb ← gets f_sb;
  ialloc_loop dev type (1 + Z.to_nat (sb_ninodes sb)) 1.

Definition iupdate (ip : nat) : K unit :=
  x ← get_inode ip;
  sb ← gets f_sb;
  bp ← bread (i_dev x) (IBLOCK (i_inum x) sb);
  d ← b_data bp;
  set_data bp (put_dinode (Z.to_nat (i_inum x mod IPB)) (dinode_of x) d);;
  log_write bp;;
  brelse bp.

Definition idup (ip : nat) : K nat :=
  upd_inode ip (λ x, with_ref (i_ref x + 1) x);; mret ip.

Definition ilock (ip : nat) : K unit :=
  x ← get_inode ip;
  if i_ref x <? 1 then panic "ilock"
  else
    on_ilock ip (acquiresleep me);;
    x ← get_inode ip;
    if i_valid x =? 0 then
      sb ← gets f_sb;
      bp ← bread (i_dev x) (IBLOCK (i_inum x) sb);
      d ← b_data bp;
      upd_inode ip (with_dinode (dinode_at (Z.to_nat (i_inum x mod IPB)) d));;
      brelse bp;;
      upd_inode ip (with_valid 1);;
      x ← get_inode ip;
      if i_type x =? 0 then panic "ilock: no type" else mret tt
    else mret tt.

Definition iunlock (ip : nat) : K unit :=
  h ← on_ilock ip (holdingsleep me);
  x ← get_inode ip;
  if negb h || (i_ref x <? 1) then panic "iunlock"
  else on_ilock ip releasesleep.

(** ** Inode contents *)

Definition bmap (ip : nat) (bn : Z) : K Z :=
  x ← get_inode ip;
  if bn <? NDIRECT then
    let addr := i_addrs x !!! Z.to_nat bn in
    if addr =? 0 then
      addr ← balloc (i_dev x);
      upd_inode ip (λ x, with_addrs (<[Z.to_nat bn := addr]> (i_addrs x)) x);;
      mret addr
    else mret addr
  else
    let bn := bn - NDIRECT in
    if bn <? NINDIRECT then
      addr ← (let addr := i_addrs x !!! Z.to_nat NDIRECT in
              if addr =? 0 then
                addr ← balloc (i_dev x);
                upd_inode ip (λ x, with_addrs (<[Z.to_nat NDIRECT := addr]> (i_addrs x)) x);;
                mret addr
              else mret addr);
      bp ← bread (i_dev x) addr;
      d ← b_data bp;
      let o := (4 * Z.to_nat bn)%nat in
      addr ← (if get32 o d =? 0 then
                addr ← balloc (i_dev x);
                d ← b_data bp;
                set_data bp (put32 o addr d);;
                log_write bp;;
                mret addr
              else mret (get32 o d));
      brelse bp;;
      mret addr
    else panic "bmap: out of range".

(** Free the direct blocks [i .. NDIRECT-1], [n] of them. *)
Fixpoint itrunc_direct (ip : nat) (n : nat) (i : nat) : K unit :=
  match n with
  | O => mret tt
  | S n' =>
    x ← get_inode ip;
    (if negb (i_addrs x !!! i =? 0) then
       bfree (i_dev x) (i_addrs x !!! i);;
       upd_inode ip (λ x, with_addrs (<[i := 0]> (i_addrs x)) x)
     else mret tt);;
    itrunc_direct ip n' (S i)
  end.

(** Free the blocks listed in the indirect block held in [bp]. *)
Fixpoint itrunc_indirect (dev : Z) (bp : nat) (n : nat) (j : nat) : K unit :=
  match n with
  | O => mret tt
  | S n' =>
    d ← b_data bp;
    (if negb (get32 (4 * j) d =? 0) then bfree dev (get32 (4 * j) d) else mret tt);;
    itrunc_indirect dev bp n' (S j)
  end.

Definition itrunc (ip : nat) : K unit :=
  itrunc_direct ip (Z.to_nat NDIRECT) 0;;
  x ← get_inode ip;
  let ind := i_addrs x !!! Z.to_nat NDIRECT in
  (if negb (ind =? 0) then
     bp ← bread (i_dev x) ind;
     itrunc_indirect (i_dev x) bp (Z.to_nat NINDIRECT) 0;;
     brelse bp;;
     x ← get_inode ip;
     bfree (i_dev x) (i_addrs x !!! Z.to_nat NDIRECT);;
     upd_inode ip (λ x, with_addrs (<[Z.to_nat NDIRECT := 0]> (i_addrs x)) x)
   else mret tt);;
  upd_inode ip (with_size 0);;
  iupdate ip.

Definition iput (ip : nat) : K unit :=
  on_ilock ip (acquiresleep me);;
  x ← get_inode ip;
  (if negb (i_valid x =? 0) && (i_nlink x =? 0) then
     if i_ref x =? 1 then
       itrunc ip;;
       upd_inode ip (with_type 0);;
       iupdate ip;;
       upd_inode ip (with_valid 0)
     else mret tt
   else mret tt);;
  on_ilock ip releasesleep;;
  upd_inode ip (λ x, with_ref (i_ref x - 1) x).

Definition iunlockput (ip : nat) : K unit := iunlock ip;; iput ip.

Definition stati (ip : nat) : K stat :=
  x ← get_inode ip;
  mret (Stat (i_type x) (i_dev x) (i_inum x) (i_nlink x) (i_size x)).

(** [devsw], filled in by the device drivers. *)
Variable devsw_read : Z → option (nat → Z → K (Z * list Z)).
Variable devsw_write : Z → option (nat → list Z → K Z).

(** The loop of [readi]: [n - tot] bytes are left; returns them. *)
Fixpoint readi_loop (fuel : nat) (ip : nat) (off n tot : Z) : K (list Z) :=
  match fuel with
  | O => diverge
  | S fuel' =>
    if negb (tot <? n) then mret []
    else
      x ← get_inode ip;
      addr ← bmap ip (off / BSIZE);
      bp ← bread (i_dev x) addr;
      let m := Z.min (n - tot) (BSIZE - off mod BSIZE) in
      d ← b_data bp;
      let out := slice (Z.to_nat (off mod BSIZE)) (Z.to_nat m) d in
      brelse bp;;
      rest ← readi_loop fuel' ip (off + m) n (tot + m);
      mret (out ++ rest)
  end.

(** [readi(ip, dst, off, n)]: the result and the bytes stored at [dst]. *)
Definition readi (ip : nat) (off n : Z) : K (Z * list Z) :=
  x ← get_inode ip;
  if i_type x =? T_DEV then
    if (i_major x <? 0) || (i_major x >=? NDEV) then mret (-1, [])
    else match devsw_read (i_major x) with
         | None => mret (-1, [])
         | Some read => read ip n
         end
  else if (off >? i_size x) || (u32 (off + n) <? off) then mret (-1, [])
  else
    let n := if u32 (off + n) >? i_size x then i_size x - off else n in
    out ← readi_loop (1 + Z.to_nat n) ip off n 0;
    mret (s32 n, out).

(** The loop of [writei]: [src] holds the bytes that are left; returns
    the final offset. *)
Fixpoint writei_loop (fuel : nat) (ip : nat) (off : Z) (src : list Z) : K Z :=
  match fuel with
  | O => diverge
  | S fuel' =>
    match src with
    | [] => mret off
    | _ =>
      x ← get_inode ip;
      addr ← bmap ip (off / BSIZE);
      bp ← bread (i_dev x) addr;
      let m := Z.min (Z.of_nat (length src)) (BSIZE - off mod BSIZE) in
      d ← b_data bp;
      set_data bp (splice (Z.to_nat (off mod BSIZE)) (take (Z.to_nat m) src) d);;
      log_write bp;;
      brelse bp;;
      writei_loop fuel' ip (off + m) (drop (Z.to_nat m) src)
    end
  end.

(** [writei(ip, src, off, n)], where [src] is the list of the [n] bytes. *)
Definition writei (ip : nat) (src : list Z) (off : Z) : K Z :=
  let n := Z.of_nat (length src) in
  x ← get_inode ip;
  if i_type x =? T_DEV then
    if (i_major x <? 0) || (i_major x >=? NDEV) then mret (-1)
    else match devsw_write (i_major x) with
         | None => mret (-1)
         | Some write => write ip src
         end
  else if (off >? i_size x) || (u32 (off + n) <? off) then mret (-1)
  else if u32 (off + n) >? MAXFILE * BSIZE then mret (-1)
  else
    off ← writei_loop (1 + length src) ip off src;
    x ← get_inode ip;
    (if (n >? 0) && (off >? i_size x) then
       upd_inode ip (with_size off);;
       iupdate ip
     else mret tt);;
    mret (s32 n).

(** ** Directories *)

Definition namecmp (s t : list Z) : Z := strncmp (rd s) (rd t) DIRSIZ.

(** The scan of [dirlookup]: the offset and inode number of the entry. *)
Fixpoint dirlookup_loop (fuel : nat) (dp : nat) (name : list Z) (off : Z) : K (option (Z * Z)) :=
  match fuel with
  | O => diverge
  | S fuel' =>
    x ← get_inode dp;
    if negb (off <? i_size x) then mret None
    else
      '(r, bytes) ← readi dp off DIRENT_SIZE;
      if negb (r =? DIRENT_SIZE) then panic "dirlookup read"
      else
        let de := dirent_at bytes in
        if de_inum de =? 0 then dirlookup_loop fuel' dp name (u32 (off + DIRENT_SIZE))
        else if namecmp name (de_name de) =? 0 then mret (Some (off, de_inum de))
        else dirlookup_loop fuel' dp name (u32 (off + DIRENT_SIZE))
  end.

(** [dirlookup(dp, name, &off)]: the inode and the entry's offset. *)
Definition dirlookup (dp : nat) (name : list Z) : K (option (nat * Z)) :=
  x ← get_inode dp;
  if negb (i_type x =? T_DIR) then panic "dirlookup not DIR"
  else
    r ← dirlookup_loop (1 + Z.to_nat (i_size x)) dp name 0;
    match r with
    | None => mret None
    | Some (off, inum) => ip ← iget (i_dev x) inum; mret (Some (ip, off))
    end.

(** The second loop of [dirlink]: the offset of an empty entry, or of the
    end of the directory. *)
Fixpoint dirlink_scan (fuel : nat) (dp : nat) (off : Z) : K Z :=
  match fuel with
  | O => diverge
  | S fuel' =>
    x ← get_inode dp;
    if negb (off <? i_size x) then mret off
    else
      '(r, bytes) ← readi dp off DIRENT_SIZE;
      if negb (r =? DIRENT_SIZE) then panic "dirlink read"
      else if de_inum (dirent_at bytes) =? 0 then mret off
      else dirlink_scan fuel' dp (off + DIRENT_SIZE)
  end.

Definition dirlink (dp : nat) (name : list Z) (inum : Z) : K Z :=
  r ← dirlookup dp name;
  match r with
  | Some (ip, _) => iput ip;; mret (-1)
  | None =>
    x ← get_inode dp;
    off ← dirlink_scan (1 + Z.to_nat (i_size x)) dp 0;
    let de := Dirent (u16 inum) (strncpy_bytes (rd name) 0 (Z.to_nat DIRSIZ)) in
    r ← writei dp (dirent_bytes de) off;
    if negb (r =? DIRENT_SIZE) then panic "dirlink" else mret 0
  end.

(** ** Paths *)

Definition SLASH : Z := 47.

Fixpoint skip_slashes (path : list Z) : list Z :=
  match path with
  | c :: path' => if c =? SLASH then skip_slashes path' else path
  | [] => []
  end.

(** The loop up to the next slash or the end: the element and the rest. *)
Fixpoint path_elem (path : list Z) : list Z * list Z :=
  match path with
  | c :: path' =>
    if negb (c =? SLASH) && negb (c =? 0) then
      let '(e, rest) := path_elem path' in (c :: e, rest)
    else ([], path)
  | [] => ([], [])
  end.

(** [skipelem(path, name)]: the rest of the path and the new contents of
    the array [name]. *)
Definition skipelem (path name : list Z) : option (list Z * list Z) :=
  let path := skip_slashes path in
  if rd path 0 =? 0 then None
  else
    let '(s, path) := path_elem path in
    let len := Z.of_nat (length s) in
    let name :=
      if len >=? DIRSIZ then splice 0 (take (Z.to_nat DIRSIZ) s) name
      else splice 0 (s ++ [0]) name in
    Some (skip_slashes path, name).

Fixpoint namex_loop (fuel : nat) (ip : nat) (path : list Z) (nameiparent : bool)
    (name : list Z) : K (option nat * list Z) :=
  match fuel with
  | O => diverge
  | S fuel' =>
    match skipelem path name with
    | None =>
      if nameiparent then iput ip;; mret (None, name) else mret (Some ip, name)
    | Some (path, name) =>
      ilock ip;;
      x ← get_inode ip;
      if negb (i_type x =? T_DIR) then iunlockput ip;; mret (None, name)
      else if nameiparent && (rd path 0 =? 0) then iunlock ip;; mret (Some ip, name)
      else
        r ← dirlookup ip name;
        match r with
        | None => iunlockput ip;; mret (None, name)
        | Some (next, _) => iunlockput ip;; namex_loop fuel' next path nameiparent name
        end
    end
  end.

Definition namex (path : list Z) (nameiparent : bool) (name : list Z)
    : K (option nat * list Z) :=
  ip ← (if rd path 0 =? SLASH then iget ROOTDEV ROOTINO else idup cwd);
  namex_loop (1 + length path) ip path nameiparent name.

(** The local array [name] of [namei] is overwritten before it is read. *)
Definition namei (path : list Z) : K (option nat) :=
  '(ip, _) ← namex path false (replicate (Z.to_nat DIRSIZ) 0); mret ip.

Definition nameiparent (path name : list Z) : K (option nat * list Z) := namex path true name.
End fs_code.
