(* ===== verification/FsBlock.v ===== *)
(** * Block allocation

    fs.c's block layer against the [BlockLayer] contract: [balloc] hands
    out the first free block, zeroed, and marks it; [bfree] undoes it. *)

From S2P Require Import Prelude Str Layout Sleeplock BlockLayer Fs.

(** Room for [k] more blocks in the cache and in the transaction. *)
Definition room (k : nat) (a : astore) : Prop :=
  (size (a_busy a) + k ≤ NBUF)%nat ∧
  Z.of_nat (size (a_dirty a)) + Z.of_nat k <= log_cap (a_geo a).

Lemma room_le k k' a : (k' ≤ k)%nat → room k a → room k' a.
Proof. intros ? [? ?]. split; lia. Qed.

Lemma size_insert_le (b : Z) (X : gset Z) : (size ({[b]} ∪ X) ≤ S (size X))%nat.
Proof.
  rewrite size_union_alt, size_singleton.
  assert (size (X ∖ {[b]}) ≤ size X)%nat; [|lia]. apply subseteq_size. clear. set_solver.
Qed.

Lemma busy_update b d a : a_busy (a_update b d a) ⊆ {[b]} ∪ a_busy a.
Proof. unfold a_busy; cbn. clear. set_solver. Qed.

Lemma room_update k b d a : room (S k) a → room k (a_update b d a).
Proof.
  intros [H1 H2]. pose proof (size_insert_le b (a_dirty a)).
  pose proof (subseteq_size _ _ (busy_update b d a)). pose proof (size_insert_le b (a_busy a)).
  split; [lia|]. cbn. lia.
Qed.

Lemma room_hold k b i a : room (S k) a → room k (a_hold b i a).
Proof.
  intros [H1 H2]. split; [|cbn; lia].
  assert (a_busy (a_hold b i a) = {[b]} ∪ a_busy a) as ->.
  { unfold a_busy; cbn. rewrite dom_insert_L. by rewrite (assoc_L (∪)). }
  pose proof (size_insert_le b (a_busy a)). lia.
Qed.

Lemma release_hold b i a : a_held a !! b = None → a_release b (a_hold b i a) ≡ a.
Proof. intros H. split_and!; try done. cbn. by rewrite delete_insert_id. Qed.

Lemma release_update_hold b i d a :
  a_held a !! b = None → a_release b (a_update b d (a_hold b i a)) ≡ a_update b d a.
Proof. intros H. split_and!; try done. cbn. by rewrite delete_insert_id. Qed.

Section rules.
Context {T : Type} `{!BlockLayer T}.
Implicit Types s : fs T.
Implicit Types a : astore.

(** The store shows [a]. *)
Definition shows s a : Prop := bl_rep (f_st s) a.

(** Only the block layer changed. *)
Definition kept s s' : Prop := f_sb s' = f_sb s ∧ f_icache s' = f_icache s.

Lemma kept_trans s1 s2 s3 : kept s1 s2 → kept s2 s3 → kept s1 s3.
Proof. intros [? ?] [? ?]. split; congruence. Qed.

Lemma shows_equiv s a a' : a ≡ a' → shows s a → shows s a'.
Proof. intros E H. by apply (bl_proper (f_st s) a a' E). Qed.

Lemma wp_on_st {A} (m : M T A) (Q : A → fs T → Prop) s :
  wp m (λ x t, Q x (Fs t (f_sb s) (f_icache s))) (f_st s) → wp (on_st m) Q s.
Proof. unfold wp, on_st, lift. by destruct (m (f_st s)). Qed.

Lemma bread_rule {B} s a b (k : nat → M (fs T) B) Q :
  shows s a → 0 <= b < a_size a → a_held a !! b = None → room 1 a →
  (∀ i s', shows s' (a_hold b i a) → kept s s' → wp (k i) Q s') →
  wp (bp ← bread ROOTDEV b; k bp) Q s.
Proof.
  intros R Hb Hh [Hr _] Hk. apply wp_bind, wp_on_st.
  eapply wp_mono; [apply (bl_bread_ok _ a b R Hb Hh)|].
  - pose proof (size_insert_le b (a_busy a)). lia.
  - intros i t Ht. by apply Hk.
Qed.

Lemma data_rule {B} s a b i (k : block → M (fs T) B) Q :
  shows s a → a_held a !! b = Some i → wp (k (a_view a b)) Q s →
  wp (d ← b_data i; k d) Q s.
Proof. intros R Hi Hk. apply wp_bind, wp_gets. by rewrite (bl_data_view _ a b i R Hi). Qed.

Lemma brelse_rule {B} s a b i (k : unit → M (fs T) B) Q :
  shows s a → a_held a !! b = Some i →
  (∀ s', shows s' (a_release b a) → kept s s' → wp (k tt) Q s') →
  wp (x ← brelse i; k x) Q s.
Proof.
  intros R Hi Hk. apply wp_bind, wp_on_st.
  eapply wp_mono; [apply (bl_brelse_ok _ a b i R Hi)|]. intros [] t Ht. by apply Hk.
Qed.

Lemma update_rule {B} s a b i d (k : unit → M (fs T) B) Q :
  shows s a → a_held a !! b = Some i → wf_block d → home (a_geo a) b → room 1 a →
  (∀ s', shows s' (a_update b d a) → kept s s' → wp (k tt) Q s') →
  wp (set_data i d;; x ← log_write i; k x) Q s.
Proof.
  intros R Hi Hd Hb [_ Hr] Hk. apply wp_bind, wp_modify, wp_bind, wp_on_st; cbn [f_st].
  eapply wp_mono; [apply (bl_update_ok _ a b i d R Hi Hd Hb); lia|].
  intros [] t Ht. by apply Hk.
Qed.

(** Modify the block in [i], log it and release it. *)
Lemma put_rule {B} s a b i d (k : unit → M (fs T) B) Q :
  shows s (a_hold b i a) → a_held a !! b = None → wf_block d → home (a_geo a) b →
  room 2 a →
  (∀ s', shows s' (a_update b d a) → kept s s' → wp (k tt) Q s') →
  wp (set_data i d;; log_write i;; x ← brelse i; k x) Q s.
Proof.
  intros R Hh Hd Hb Hr Hk.
  assert (Hi : a_held (a_hold b i a) !! b = Some i) by apply lookup_insert_eq.
  apply (update_rule _ _ b i d _ _ R Hi Hd Hb); [by apply room_hold|].
  intros s1 R1 K1. apply (brelse_rule _ _ b i _ _ R1 Hi). intros s2 R2 K2.
  apply Hk; [|by eapply kept_trans]. revert R2. by apply shows_equiv, release_update_hold.
Qed.

(** Release a block that was only read. *)
Lemma drop_rule {B} s a b i (k : unit → M (fs T) B) Q :
  shows s (a_hold b i a) → a_held a !! b = None →
  (∀ s', shows s' a → kept s s' → wp (k tt) Q s') →
  wp (x ← brelse i; k x) Q s.
Proof.
  intros R Hh Hk. apply (brelse_rule _ _ b i _ _ R); [apply lookup_insert_eq|].
  intros s1 R1 K1. apply Hk; [|done]. revert R1. by apply shows_equiv, release_hold.
Qed.

(** The same as the last calls of a routine. *)
Lemma put_last s a b i d Q :
  shows s (a_hold b i a) → a_held a !! b = None → wf_block d → home (a_geo a) b →
  room 2 a → (∀ s', shows s' (a_update b d a) → kept s s' → Q tt s') →
  wp (set_data i d;; log_write i;; brelse i) Q s.
Proof.
  intros R Hh Hd Hb Hr Hk.
  assert (H : wp (set_data i d;; log_write i;; x ← brelse i; mret x) Q s).
  { by apply (put_rule s a b i d _ _ R). }
  revert H. unfold wp, mbind, M_bind, set_data, modify. cbn.
  destruct (log_write i _); [|done..]. by destruct (brelse i _).
Qed.

Lemma bzero_spec s a b :
  shows s a → home (a_geo a) b → a_held a !! b = None → room 2 a →
  wp (bzero ROOTDEV b) (λ _ s', shows s' (a_update b zero_block a) ∧ kept s s') s.
Proof.
  intros R Hb Hh Hr. unfold bzero.
  apply (bread_rule s a b); [done| |done|by eapply room_le, Hr; lia|].
  { destruct Hb as [? _]. unfold a_size. lia. }
  intros i s1 R1 K1.
  apply (put_last s1 a b i _ _ R1 Hh); [apply wf_zero_block|done|done|].
  intros s2 R2 K2. split; [done|]. by eapply kept_trans.
Qed.
End rules.

(** ** The bitmap *)

Definition bit_used (d : block) (bi : Z) : bool := negb (Z.land (byte_at d bi) (bit_of bi) =? 0).
Definition mark (bi : Z) (d : block) : block :=
  <[Z.to_nat (bi / 8) := Z.lor (byte_at d bi) (bit_of bi)]> d.
Definition unmark (bi : Z) (d : block) : block :=
  <[Z.to_nat (bi / 8) := Z.land (byte_at d bi) (u8 (Z.lnot (bit_of bi)))]> d.

Lemma bit_of_testbit bi m : 0 <= m → Z.testbit (bit_of bi) m = (m =? bi mod 8).
Proof.
  intros Hm. pose proof (Z.mod_pos_bound bi 8). unfold bit_of.
  rewrite Z.shiftl_mul_pow2, Z.mul_1_l by lia.
  destruct (Z.eqb_spec m (bi mod 8)) as [->|Hne].
  - apply Z.pow2_bits_true. lia.
  - apply Z.pow2_bits_false. lia.
Qed.

Lemma bit_used_testbit d bi : bit_used d bi = Z.testbit (byte_at d bi) (bi mod 8).
Proof.
  pose proof (Z.mod_pos_bound bi 8). unfold bit_used.
  destruct (Z.eqb_spec (Z.land (byte_at d bi) (bit_of bi)) 0) as [E|E]; cbn [negb].
  - assert (H' : Z.testbit (Z.land (byte_at d bi) (bit_of bi)) (bi mod 8) = false)
      by (rewrite E; apply Z.bits_0).
    rewrite Z.land_spec, bit_of_testbit, Z.eqb_refl, andb_true_r in H' by lia. done.
  - destruct (Z.testbit _ _) eqn:F; [done|]. exfalso. apply E.
    apply Z.bits_inj'. intros n Hn. rewrite Z.land_spec, bit_of_testbit, Z.bits_0 by done.
    destruct (Z.eqb_spec n (bi mod 8)) as [->|]; [by rewrite F|by rewrite andb_false_r].
Qed.

(** Bits of a block whose byte for [bi] was replaced. *)
Lemma byte_at_insert d bi x j :
  length d = Z.to_nat BSIZE → 0 <= bi < BPB → 0 <= j < BPB →
  byte_at (<[Z.to_nat (bi / 8) := x]> d) j = if j / 8 =? bi / 8 then x else byte_at d j.
Proof.
  intros Hd Hbi Hj. unfold byte_at, BPB, BSIZE in *.
  destruct (Z.eqb_spec (j / 8) (bi / 8)) as [->|Hne].
  - apply list_lookup_total_insert_eq. rewrite Hd. dlia.
  - apply list_lookup_total_insert_ne. dlia.
Qed.

Lemma same_bit bi j : j / 8 = bi / 8 → (j mod 8 =? bi mod 8) = (j =? bi).
Proof. intros H. destruct (Z.eqb_spec j bi), (Z.eqb_spec (j mod 8) (bi mod 8)); dlia. Qed.

Lemma bit_used_mark d bi j :
  length d = Z.to_nat BSIZE → 0 <= bi < BPB → 0 <= j < BPB →
  bit_used (mark bi d) j = (j =? bi) || bit_used d j.
Proof.
  intros Hd Hbi Hj. rewrite !bit_used_testbit. unfold mark.
  rewrite byte_at_insert by done. destruct (Z.eqb_spec (j / 8) (bi / 8)) as [E|E].
  - assert (byte_at d bi = byte_at d j) as -> by (unfold byte_at; by rewrite E).
    pose proof (Z.mod_pos_bound j 8).
    rewrite Z.lor_spec, bit_of_testbit, same_bit by (done || lia). apply orb_comm.
  - rewrite (proj2 (Z.eqb_neq j bi)) by congruence. done.
Qed.

Lemma bit_used_unmark d bi j :
  length d = Z.to_nat BSIZE → 0 <= bi < BPB → 0 <= j < BPB →
  bit_used (unmark bi d) j = negb (j =? bi) && bit_used d j.
Proof.
  intros Hd Hbi Hj. rewrite !bit_used_testbit. unfold unmark.
  rewrite byte_at_insert by done. destruct (Z.eqb_spec (j / 8) (bi / 8)) as [E|E].
  - assert (byte_at d bi = byte_at d j) as -> by (unfold byte_at; by rewrite E).
    pose proof (Z.mod_pos_bound j 8).
    rewrite Z.land_spec. unfold u8. rewrite Z.mod_pow2_bits_low by lia.
    rewrite Z.lnot_spec, bit_of_testbit, same_bit by (done || lia). apply andb_comm.
  - rewrite (proj2 (Z.eqb_neq j bi)) by congruence. done.
Qed.

Lemma byte_at_byte d bi : wf_block d → 0 <= bi < BPB → is_byte (byte_at d bi).
Proof.
  intros [Hl Hd] Hbi. unfold byte_at. apply (Forall_lookup_total_1 _ _ _ Hd).
  rewrite Hl. unfold BPB, BSIZE in *. dlia.
Qed.

Lemma is_byte_bits x : is_byte x ↔ 0 <= x ∧ ∀ n, 8 <= n → Z.testbit x n = false.
Proof.
  unfold is_byte. split.
  - intros Hx. split; [lia|]. intros n Hn. apply Z.bits_above_log2; [lia|].
    destruct (decide (x = 0)) as [->|]; [done || cbn; lia|].
    apply Z.log2_lt_pow2; [lia|]. pose proof (Z.pow_le_mono_r 2 8 n). lia.
  - intros [H0 Hb]. split; [done|]. change 256 with (2 ^ 8).
    destruct (decide (x = 0)) as [->|]; [lia|]. apply Z.log2_lt_pow2; [lia|].
    destruct (decide (Z.log2 x < 8)); [done|]. exfalso.
    pose proof (Z.bit_log2 x). rewrite Hb in H by lia. assert (0 < x) by lia. naive_solver.
Qed.

Lemma wf_mark bi d : wf_block d → 0 <= bi < BPB → wf_block (mark bi d).
Proof.
  intros Hd Hbi. split; [unfold mark; rewrite length_insert; apply Hd|].
  apply Forall_insert; [apply Hd|]. apply is_byte_bits.
  destruct (proj1 (is_byte_bits _) (byte_at_byte d bi Hd Hbi)) as [H1 H2].
  pose proof (Z.mod_pos_bound bi 8). split.
  - apply Z.lor_nonneg. split; [done|]. apply Z.shiftl_nonneg. lia.
  - intros n Hn. rewrite Z.lor_spec, H2, bit_of_testbit by lia. apply Z.eqb_neq. lia.
Qed.

Lemma wf_unmark bi d : wf_block d → 0 <= bi < BPB → wf_block (unmark bi d).
Proof.
  intros Hd Hbi. split; [unfold unmark; rewrite length_insert; apply Hd|].
  apply Forall_insert; [apply Hd|]. apply is_byte_bits.
  destruct (proj1 (is_byte_bits _) (byte_at_byte d bi Hd Hbi)) as [H1 H2]. split.
  - apply Z.land_nonneg. by left.
  - intros n Hn. by rewrite Z.land_spec, H2.
Qed.

(** [balloc_scan] finds the first free bit. *)
Lemma balloc_scan_spec d size b n bi :
  match balloc_scan d size b n bi with
  | Some k => bi <= k < bi + Z.of_nat n ∧ b + k < size ∧ bit_used d k = false ∧
    ∀ j, bi <= j < k → bit_used d j = true
  | None => ∀ j, bi <= j < bi + Z.of_nat n → b + j < size → bit_used d j = true
  end.
Proof.
  revert bi; induction n as [|n IH]; intros bi; cbn [balloc_scan]; [intros; lia|].
  destruct (Z.ltb_spec (b + bi) size); cbn [negb]; [|intros; lia].
  assert (E : (Z.land (byte_at d bi) (bit_of bi) =? 0) = negb (bit_used d bi))
    by (unfold bit_used; by rewrite negb_involutive).
  rewrite E. destruct (bit_used d bi) eqn:U; cbn [negb].
  - specialize (IH (bi + 1)). destruct (balloc_scan _ _ _ _ _) as [k|].
    + destruct IH as (? & ? & ? & Hj). split_and!; [lia..|done|]. intros j Hj'.
      destruct (decide (j = bi)) as [->|]; [done|]. apply Hj. lia.
    + intros j Hj ?. destruct (decide (j = bi)) as [->|]; [done|]. apply IH; lia.
  - split_and!; [lia..|done|]. intros; lia.
Qed.

(** ** Allocation *)

(** Where mkfs puts the inodes and the bitmap. *)
Record layout_ok (sb : superblock) (g : geometry) : Prop := {
  ly_size : sb_size sb = g_size g;
  ly_int : 0 <= g_size g < 2 ^ 31;
  ly_bitmap b : 0 <= b < g_size g → home g (BBLOCK b sb);
  ly_inodes i : 0 <= i < sb_ninodes sb → home g (IBLOCK i sb);
  ly_apart b i : 0 <= b < g_size g → 0 <= i < sb_ninodes sb → BBLOCK b sb ≠ IBLOCK i sb }.

(** Block [b] is marked in the bitmap. *)
Definition used (sb : superblock) (v : Z → block) (b : Z) : bool :=
  bit_used (v (BBLOCK b sb)) (b mod BPB).

(** Blocks that can hold file contents. *)
Definition data_block (sb : superblock) (g : geometry) (b : Z) : Prop :=
  home g b ∧ (∀ x, 0 <= x < g_size g → b ≠ BBLOCK x sb) ∧
  (∀ i, 0 <= i < sb_ninodes sb → b ≠ IBLOCK i sb).

(** The bitmap covers the metadata: a free block is a data block. *)
Definition meta_used (sb : superblock) (g : geometry) (v : Z → block) : Prop :=
  ∀ b, 0 <= b < g_size g → used sb v b = false → data_block sb g b.

(** The view after allocating [b]. *)
Definition a_alloc (sb : superblock) (b : Z) (a : astore) : astore :=
  a_update b zero_block
    (a_update (BBLOCK b sb) (mark (b mod BPB) (a_view a (BBLOCK b sb))) a).

(** The view after freeing [b]. *)
Definition a_free (sb : superblock) (b : Z) (a : astore) : astore :=
  a_update (BBLOCK b sb) (unmark (b mod BPB) (a_view a (BBLOCK b sb))) a.

Lemma BPB_pos : 0 < BPB.
Proof. done. Qed.

(** Changing one bit of the bitmap. *)
Lemma used_view_set sb v b x (f : Z → block → block) (r : bool → bool) :
  (∀ b, wf_block (v b)) →
  (∀ d bi j, length d = Z.to_nat BSIZE → 0 <= bi < BPB → 0 <= j < BPB →
    bit_used (f bi d) j = if j =? bi then r (bit_used d j) else bit_used d j) →
  used sb (view_set (BBLOCK b sb) (f (b mod BPB) (v (BBLOCK b sb))) v) x =
    if x =? b then r (used sb v x) else used sb v x.
Proof.
  intros Hwf Hf. unfold used. pose proof BPB_pos.
  pose proof (Z.mod_pos_bound b BPB). pose proof (Z.mod_pos_bound x BPB).
  destruct (decide (BBLOCK x sb = BBLOCK b sb)) as [E|E].
  - rewrite E, view_set_eq, Hf by (lia || apply Hwf).
    assert (x / BPB = b / BPB) by (unfold BBLOCK in E; lia).
    destruct (Z.eqb_spec x b) as [->|Hne]; [by rewrite Z.eqb_refl|].
    rewrite (proj2 (Z.eqb_neq _ _)); [done|]. intros Em. apply Hne.
    rewrite (Z.div_mod x BPB), (Z.div_mod b BPB) by lia. congruence.
  - rewrite view_set_ne by done. rewrite (proj2 (Z.eqb_neq x b)) by congruence. done.
Qed.

Lemma used_ext sb v v' b : v (BBLOCK b sb) = v' (BBLOCK b sb) → used sb v b = used sb v' b.
Proof. unfold used. by intros ->. Qed.

Lemma used_alloc sb g a b x :
  (∀ b, wf_block (a_view a b)) → data_block sb g b → 0 <= x < g_size g →
  used sb (a_view (a_alloc sb b a)) x = (x =? b) || used sb (a_view a) x.
Proof.
  intros Hwf (_ & Hb & _) Hx. unfold a_alloc. cbn [a_view a_update].
  rewrite (used_ext sb _ (view_set (BBLOCK b sb)
    (mark (b mod BPB) (a_view a (BBLOCK b sb))) (a_view a)))
    by (apply view_set_ne; intros E; by apply (Hb x Hx)).
  rewrite (used_view_set sb (a_view a) b x mark (λ _, true)); [by destruct (x =? b)|done|].
  intros d bi j Hd Hbi Hj. rewrite bit_used_mark by done. by destruct (j =? bi).
Qed.

Lemma used_free sb a b x :
  (∀ b, wf_block (a_view a b)) →
  used sb (a_view (a_free sb b a)) x = negb (x =? b) && used sb (a_view a) x.
Proof.
  intros Hwf. unfold a_free. cbn [a_view a_update].
  rewrite (used_view_set sb (a_view a) b x unmark (λ _, false)); [by destruct (x =? b)|done|].
  intros d bi j Hd Hbi Hj. rewrite bit_used_unmark by done. by destruct (j =? bi).
Qed.

Section alloc.
Context {T : Type} `{!BlockLayer T}.
Implicit Types s : fs T.

(** Held blocks are in use and are not bitmap blocks. *)
Definition held_ok (sb : superblock) (a : astore) : Prop :=
  ∀ b, is_Some (a_held a !! b) →
    0 <= b < a_size a ∧ used sb (a_view a) b = true ∧
    ∀ x, 0 <= x < a_size a → b ≠ BBLOCK x sb.

Lemma held_none sb a b :
  held_ok sb a → (used sb (a_view a) b = false ∨ ∃ x, 0 <= x < a_size a ∧ b = BBLOCK x sb) →
  a_held a !! b = None.
Proof.
  intros H Hb. destruct (a_held a !! b) as [i|] eqn:E; [|done].
  destruct (H b (mk_is_Some _ _ E)) as (_ & H1 & H2).
  destruct Hb as [?|(x & Hx & ->)]; [congruence|]. by destruct (H2 x Hx).
Qed.

Lemma group_block b bi sb :
  b mod BPB = 0 → 0 <= bi < BPB → BBLOCK (b + bi) sb = BBLOCK b sb ∧ (b + bi) mod BPB = bi.
Proof.
  intros Hb Hbi. unfold BBLOCK. change BPB with 4096 in *. split; [f_equal|]; dlia.
Qed.

(** The branch of [balloc] that found the free bit [bi]. *)
Lemma balloc_found sb g a s b bi i :
  shows s (a_hold (BBLOCK b sb) i a) → a_geo a = g → layout_ok sb g →
  meta_used sb g (a_view a) → held_ok sb a → room 3 a → b mod BPB = 0 → 0 <= b →
  0 <= bi < BPB → b + bi < g_size g → used sb (a_view a) (b + bi) = false →
  let d := a_view a (BBLOCK b sb) in
  wp (set_data i (<[Z.to_nat (bi / 8) := Z.lor (byte_at d bi) (bit_of bi)]> d);;
      log_write i;; brelse i;; bzero ROOTDEV (b + bi);; mret (b + bi))
    (λ r s', r = b + bi ∧ shows s' (a_alloc sb (b + bi) a) ∧ kept s s') s.
Proof.
  intros R Hg L Hm Hheld Hroom Hb0 Hb Hbi Hlt Hfree. cbn zeta.
  destruct (group_block b bi sb Hb0 Hbi) as [EB EM].
  assert (Hsz : a_size a = g_size g) by (unfold a_size; by rewrite Hg).
  assert (Hwf : wf_block (a_view a (BBLOCK b sb))).
  { apply (bl_wf _ _ (BBLOCK b sb) R). }
  destruct (Hm (b + bi)) as (Hhome & Hnb & _); [lia|done|].
  apply (put_rule s a (BBLOCK b sb) i); [done| |by apply wf_mark| |by eapply room_le, Hroom; lia|].
  { apply (held_none sb a _ Hheld). right. exists b. split; [lia|done]. }
  { rewrite Hg. apply (ly_bitmap _ _ L). lia. }
  intros s1 R1 K1. apply wp_bind. eapply wp_mono; [apply (bzero_spec _ _ _ R1)|].
  - cbn. by rewrite Hg.
  - cbn. apply (held_none sb a _ Hheld). by left.
  - by apply room_update.
  - intros [] s2 [R2 K2]. apply wp_ret. split; [done|]. split; [|by eapply kept_trans].
    unfold a_alloc. by rewrite EB, EM.
Qed.

Lemma balloc_loop_spec sb g a n s b :
  shows s a → f_sb s = sb → a_geo a = g → layout_ok sb g → meta_used sb g (a_view a) →
  held_ok sb a → room 3 a → b mod BPB = 0 → 0 <= b →
  (∀ x, 0 <= x < b → x < g_size g → used sb (a_view a) x = true) →
  (∃ x, 0 <= x < g_size g ∧ used sb (a_view a) x = false) →
  g_size g < b + Z.of_nat n * BPB →
  wp (balloc_loop ROOTDEV n b) (λ r s', 0 <= r < g_size g ∧
    used sb (a_view a) r = false ∧ (∀ x, 0 <= x < r → used sb (a_view a) x = true) ∧
    shows s' (a_alloc sb r a) ∧ kept s s') s.
Proof.
  intros R Hsb Hg L Hm Hheld Hroom. revert s R Hsb b.
  induction n as [|n IH]; intros s R Hsb b Hb0 Hb Hall Hex Hfuel.
  { destruct Hex as (x & Hx & Hf). rewrite Hall in Hf; [done|lia..]. }
  cbn [balloc_loop]. apply wp_bind, wp_gets. rewrite Hsb, (ly_size _ _ L).
  destruct (Z.ltb_spec b (g_size g)) as [Hlt|Hge]; cbn [negb].
  2: { destruct Hex as (x & Hx & Hf). rewrite Hall in Hf; [done|lia..]. }
  assert (Hsz : a_size a = g_size g) by (unfold a_size; by rewrite Hg).
  assert (Hh : a_held a !! BBLOCK b sb = None).
  { apply (held_none sb a _ Hheld). right. exists b. split; [lia|done]. }
  apply (bread_rule s a (BBLOCK b sb)); [done| |done|by eapply room_le, Hroom; lia|].
  { destruct (ly_bitmap _ _ L b) as [? _]; lia. }
  intros i s1 R1 K1. eapply data_rule; [exact R1|apply lookup_insert_eq|].
  cbn [a_view a_hold].
  pose proof (balloc_scan_spec (a_view a (BBLOCK b sb)) (g_size g) b (Z.to_nat BPB) 0) as Hscan.
  destruct (balloc_scan _ _ _ _ _) as [bi|].
  - destruct Hscan as (Hbi & Hlt' & Hfree & Hprev). change (Z.of_nat (Z.to_nat BPB)) with BPB in Hbi.
    assert (Hu : ∀ j, 0 <= j < BPB → used sb (a_view a) (b + j) =
      bit_used (a_view a (BBLOCK b sb)) j).
    { intros j Hj. unfold used. by destruct (group_block b j sb Hb0 Hj) as [-> ->]. }
    eapply wp_mono; [apply (balloc_found sb g a s1 b bi i R1); try done; [lia..|by rewrite Hu by lia]|].
    intros r s2 (-> & R2 & K2). split; [lia|]. split; [by rewrite Hu by lia|].
    split; [|split; [done|by eapply kept_trans]]. intros x Hx.
    destruct (decide (x < b)); [apply Hall; lia|].
    replace x with (b + (x - b)) by lia. rewrite Hu by lia. apply Hprev. lia.
  - apply (drop_rule s1 a _ i _ _ R1 Hh). intros s2 R2 K2.
    eapply wp_mono; [apply (IH s2 R2)|].
    + by destruct K1 as [? _], K2 as [-> _]; congruence.
    + change BPB with 4096 in *. dlia.
    + change BPB with 4096. lia.
    + intros x Hx Hxs. destruct (decide (x < b)); [apply Hall; lia|].
      replace x with (b + (x - b)) by lia. unfold used.
      destruct (group_block b (x - b) sb Hb0) as [-> ->]; [lia|]. apply Hscan; [|lia].
      change (Z.of_nat (Z.to_nat BPB)) with BPB. lia.
    + done.
    + lia.
    + intros r s3 (? & ? & ? & ? & ?). split_and!; try done; [lia..|].
      eapply kept_trans; [|done]. by eapply kept_trans.
Qed.

Lemma balloc_spec sb g a s :
  shows s a → f_sb s = sb → a_geo a = g → layout_ok sb g → meta_used sb g (a_view a) →
  held_ok sb a → room 3 a →
  (∃ x, 0 <= x < g_size g ∧ used sb (a_view a) x = false) →
  wp (balloc ROOTDEV) (λ r s', 0 <= r < g_size g ∧
    used sb (a_view a) r = false ∧ (∀ x, 0 <= x < r → used sb (a_view a) x = true) ∧
    shows s' (a_alloc sb r a) ∧ kept s s') s.
Proof.
  intros R Hsb Hg L Hm Hheld Hroom Hex. unfold balloc. apply wp_bind, wp_gets.
  apply (balloc_loop_spec sb g); try done.
  - intros; lia.
  - rewrite Hsb, (ly_size _ _ L). pose proof (ly_int _ _ L). change BPB with 4096. dlia.
Qed.

Lemma bfree_spec sb g a s b :
  shows s a → f_sb s = sb → a_geo a = g → layout_ok sb g → held_ok sb a → room 2 a →
  0 <= b < g_size g → used sb (a_view a) b = true →
  wp (bfree ROOTDEV b) (λ _ s', shows s' (a_free sb b a) ∧ kept s s') s.
Proof.
  intros R Hsb Hg L Hheld Hroom Hb Hu. unfold bfree. apply wp_bind, wp_gets. rewrite Hsb.
  assert (Hsz : a_size a = g_size g) by (unfold a_size; by rewrite Hg).
  assert (Hh : a_held a !! BBLOCK b sb = None).
  { apply (held_none sb a _ Hheld). right. exists b. split; [lia|done]. }
  pose proof (ly_bitmap _ _ L b Hb) as HBB.
  apply (bread_rule s a (BBLOCK b sb)); [done| |done|by eapply room_le, Hroom; lia|].
  { destruct HBB as [? _]; lia. }
  intros i s1 R1 K1. eapply data_rule; [exact R1|apply lookup_insert_eq|]. cbn [a_view a_hold].
  unfold used, bit_used in Hu. apply negb_true_iff in Hu. rewrite Hu.
  pose proof (Z.mod_pos_bound b BPB BPB_pos).
  apply (put_last s1 a (BBLOCK b sb) i _ _ R1 Hh); [|by rewrite Hg|done|].
  - apply wf_unmark; [|done]. apply (bl_wf _ _ _ R).
  - intros s2 R2 K2. split; [done|]. by eapply kept_trans.
Qed.
End alloc.

(** ** Properties *)

(** [balloc] returns the lowest free block.  When some block is free,
    it succeeds; the block was free and every lower one was in use; it
    lies outside the log, the inodes and the bitmap; it is zeroed; and in
    the bitmap exactly its bit changes. *)
Theorem balloc_lowest_free {T} `{!BlockLayer T} sb g a (s : fs T) :
  shows s a → f_sb s = sb → a_geo a = g → layout_ok sb g → meta_used sb g (a_view a) →
  held_ok sb a → room 3 a →
  (∃ x, 0 <= x < g_size g ∧ used sb (a_view a) x = false) →
  ∃ r s' a', balloc ROOTDEV s = Ret r s' ∧ shows s' a' ∧ kept s s' ∧
    used sb (a_view a) r = false ∧ (∀ x, 0 <= x < r → used sb (a_view a) x = true) ∧
    data_block sb g r ∧ a_view a' r = zero_block ∧
    ∀ x, 0 <= x < g_size g → used sb (a_view a') x = (x =? r) || used sb (a_view a) x.
Proof.
  intros R Hsb Hg L Hm Hh Hroom Hex.
  destruct (wp_elim _ _ _ (balloc_spec sb g a s R Hsb Hg L Hm Hh Hroom Hex))
    as (r & s' & E & Hr & Hf & Hlow & R' & K).
  assert (Hd : data_block sb g r) by (by apply Hm).
  exists r, s', (a_alloc sb r a). split_and!; try done.
  - unfold a_alloc. cbn [a_view a_update]. by rewrite view_set_eq.
  - intros x Hx. apply (used_alloc sb g); [|done|done]. intros b. apply (bl_wf _ _ _ R).
Qed.

(** Freeing an allocated block undoes the allocation: after [balloc]
    and [bfree] of its result the bitmap is what it was. *)
Theorem balloc_bfree {T} `{!BlockLayer T} sb g a (s : fs T) :
  shows s a → f_sb s = sb → a_geo a = g → layout_ok sb g → meta_used sb g (a_view a) →
  held_ok sb a → room 4 a →
  (∃ x, 0 <= x < g_size g ∧ used sb (a_view a) x = false) →
  ∃ s' a', (r ← balloc ROOTDEV; bfree ROOTDEV r) s = Ret tt s' ∧ shows s' a' ∧
    ∀ x, 0 <= x < g_size g → used sb (a_view a') x = used sb (a_view a) x.
Proof.
  intros R Hsb Hg L Hm Hh Hroom Hex.
  destruct (wp_elim _ _ _ (balloc_spec sb g a s R Hsb Hg L Hm Hh (room_le 4 3 a ltac:(lia) Hroom) Hex))
    as (r & s1 & E & Hr & Hf & Hlow & R1 & [K1 K2]).
  assert (Hd : data_block sb g r) by (by apply Hm).
  assert (W : ∀ b, wf_block (a_view a b)) by (intros b; apply (bl_wf _ _ _ R)).
  assert (Hu : ∀ x, 0 <= x < g_size g →
    used sb (a_view (a_alloc sb r a)) x = (x =? r) || used sb (a_view a) x)
    by (intros x Hx; by apply (used_alloc sb g)).
  destruct (wp_elim _ _ _ (bfree_spec sb g (a_alloc sb r a) s1 r R1 ltac:(congruence) Hg L
    ltac:(intros b Hb; destruct (Hh b Hb) as (Hb1 & Hb2 & Hb3); unfold a_size in *; cbn;
      split; [done|]; split; [|done]; rewrite Hu, Hb2 by (by rewrite <-Hg); apply orb_true_r)
    ltac:(by do 2 apply room_update) Hr ltac:(rewrite Hu, Z.eqb_refl by done; done)))
    as ([] & s2 & E2 & R2 & _).
  exists s2, (a_free sb r (a_alloc sb r a)). split; [by rewrite (bind_ret _ _ _ _ _ E)|].
  split; [done|]. intros x Hx. rewrite used_free by (intros b; apply (bl_wf _ _ _ R1)).
  rewrite Hu by done. destruct (Z.eqb_spec x r) as [->|]; cbn [negb andb orb]; [done|done].
Qed.
