(* ===== verification/FsInode.v ===== *)
(** * Inodes

    The in-memory inode cache ([iget], [idup]) and the movement of inodes
    between memory and disk ([ialloc], [iupdate], [ilock]). *)

From S2P Require Import Prelude Str Layout Sleeplock BlockLayer Fs FsBlock.

(** ** The inode cache *)

(** At most one entry in use for every inode. *)
Record icache_ok (l : list inode) : Prop := {
  ic_ref i ip : l !! i = Some ip → 0 <= i_ref ip;
  ic_uniq i j ip jp : l !! i = Some ip → l !! j = Some jp →
    0 < i_ref ip → 0 < i_ref jp → i_dev ip = i_dev jp → i_inum ip = i_inum jp → i = j }.

Definition matches (dev inum : Z) (ip : inode) : bool :=
  (i_ref ip >? 0) && (i_dev ip =? dev) && (i_inum ip =? inum).

Lemma matches_true dev inum ip :
  matches dev inum ip = true ↔ 0 < i_ref ip ∧ i_dev ip = dev ∧ i_inum ip = inum.
Proof.
  unfold matches. rewrite !andb_true_iff, !Z.eqb_eq, Z.gtb_ltb, Z.ltb_lt. tauto.
Qed.

Lemma iget_scan_spec dev inum l k e :
  match iget_scan dev inum l k e with
  | inl j => ∃ i ip, j = (k + i)%nat ∧ l !! i = Some ip ∧ matches dev inum ip = true
  | inr r => (∀ i ip, l !! i = Some ip → matches dev inum ip = false) ∧
    match r with
    | Some j => e = Some j ∨ (e = None ∧ ∃ i ip, j = (k + i)%nat ∧ l !! i = Some ip ∧ i_ref ip = 0)
    | None => e = None ∧ ∀ i ip, l !! i = Some ip → i_ref ip ≠ 0
    end
  end.
Proof.
  revert k e; induction l as [|ip l IH]; intros k e; cbn [iget_scan].
  - split; [intros i ip H; by rewrite lookup_nil in H|].
    destruct e; [by left|]. split; [done|]. intros i ip H. by rewrite lookup_nil in H.
  - destruct (_ && _) eqn:E.
    { exists 0%nat, ip. split; [lia|]. by split. }
    set (e' := match e with None => _ | _ => _ end). specialize (IH (S k) e').
    destruct (iget_scan _ _ _ _ _) as [j|r].
    + destruct IH as (i & x & -> & Hi & Hx). exists (S i), x. split; [lia|done].
    + destruct IH as [H1 H2]. split; [by intros [|i] x [= Hx]; subst; eauto|].
      destruct r as [j|].
      * destruct H2 as [H2|(H2 & i & x & -> & Hi & Hx)].
        -- subst e'. destruct e as [e|]; [by left|]. right. split; [done|].
           destruct (Z.eqb_spec (i_ref ip) 0) as [Hr|]; [|done]. injection H2 as <-.
           exists 0%nat, ip. split; [lia|done].
        -- subst e'. destruct e; [done|]. right. split; [done|]. exists (S i), x. split; [lia|done].
      * destruct H2 as [H2 H3]. subst e'. destruct e; [done|]. split; [done|].
        intros [|i] x [= Hx]; subst; [|by eauto].
        by destruct (Z.eqb_spec (i_ref x) 0).
Qed.

Section icache.
Context {T : Type} `{!BlockLayer T}.
Implicit Types s : fs T.

(** Entry [ip] refers to inode [inum] of device [dev]. *)
Definition refers (s : fs T) (ip : nat) (dev inum : Z) : Prop :=
  ∃ x, f_icache s !! ip = Some x ∧ 0 < i_ref x ∧ i_dev x = dev ∧ i_inum x = inum.

(** A recycled entry. *)
Definition recycled (dev inum : Z) (x : inode) : inode :=
  Inode dev inum 1 (i_lock x) 0 (i_type x) (i_major x) (i_minor x) (i_nlink x) (i_size x)
    (i_addrs x).

(** The cache can take a reference to the inode. *)
Definition has_slot (l : list inode) (dev inum : Z) : Prop :=
  ∃ i x, l !! i = Some x ∧ (matches dev inum x = true ∨ i_ref x = 0).

Lemma iget_spec s dev inum :
  has_slot (f_icache s) dev inum →
  wp (iget dev inum) (λ ip s', ∃ x, f_icache s !! ip = Some x ∧
    f_st s' = f_st s ∧ f_sb s' = f_sb s ∧
    ((matches dev inum x = true ∧
      f_icache s' = <[ip := with_ref (i_ref x + 1) x]> (f_icache s)) ∨
     ((∀ i y, f_icache s !! i = Some y → matches dev inum y = false) ∧ i_ref x = 0 ∧
      f_icache s' = <[ip := recycled dev inum x]> (f_icache s)))) s.
Proof.
  intros (i0 & x0 & Hx0 & Hslot). unfold iget. apply wp_bind, wp_gets.
  pose proof (iget_scan_spec dev inum (f_icache s) 0 None) as H.
  destruct (iget_scan _ _ _ _ _) as [ip|[ip|]].
  - destruct H as (i & x & -> & Hx & Hm). apply wp_bind, wp_modify, wp_ret. exists x.
    cbn. split_and!; try done. left. split; [done|]. exact (alter_insert _ _ _ x Hx).
  - destruct H as [Hno [?|(_ & i & x & -> & Hx & Hr)]]; [done|].
    apply wp_bind, wp_modify, wp_ret. exists x. cbn. split_and!; try done. right.
    split_and!; [done|done|]. exact (alter_insert _ _ _ x Hx).
  - destruct H as [Hno [_ Hr]]. destruct Hslot as [Hm|Hr0]; [by rewrite (Hno i0 x0) in Hm|].
    by apply (Hr i0 x0) in Hx0.
Qed.

(** Replacing one entry by one for an inode that no other entry has. *)
Lemma icache_ok_insert l i x y :
  icache_ok l → l !! i = Some x → 0 <= i_ref y →
  (∀ j z, l !! j = Some z → j ≠ i → 0 < i_ref y → 0 < i_ref z →
    ¬ (i_dev z = i_dev y ∧ i_inum z = i_inum y)) →
  icache_ok (<[i := y]> l).
Proof.
  intros [H1 H2] Hi Hy Hne. split.
  - intros j z [(<- & <- & _)|[_ ?]]%list_lookup_insert_Some; eauto.
  - intros j k z w [(<- & <- & _)|[Hj Hz]]%list_lookup_insert_Some
      [(<- & <- & _)|[Hk Hw]]%list_lookup_insert_Some ? ? ? ?; [done| | |by eauto].
    + exfalso. by eapply (Hne k w).
    + exfalso. by eapply (Hne j z).
Qed.

Lemma iget_icache_ok l dev inum ip x y :
  icache_ok l → l !! ip = Some x →
  ((matches dev inum x = true ∧ y = with_ref (i_ref x + 1) x) ∨
   ((∀ i z, l !! i = Some z → matches dev inum z = false) ∧ i_ref x = 0 ∧
    y = recycled dev inum x)) →
  icache_ok (<[ip := y]> l).
Proof.
  intros Hok Hx [[(? & ? & ?)%matches_true ->]|(Hno & Hr & ->)].
  - apply (icache_ok_insert l ip x); [done|done|cbn; lia|].
    intros j z Hz Hne _ Hr [Hd Hn]. apply Hne. by apply (ic_uniq _ Hok j ip z x).
  - apply (icache_ok_insert l ip x); [done|done|done|].
    intros j z Hz _ _ Hr' [Hd Hn]. cbn in *.
    assert (matches dev inum z = true) by (by apply matches_true).
    by rewrite (Hno j z) in H.
Qed.

(** References that exist are kept by [iget]. *)
Lemma iget_refers (l : list inode) dev inum ip x y (j : nat) z :
  l !! ip = Some x → l !! j = Some z → 0 < i_ref z →
  ((matches dev inum x = true ∧ y = with_ref (i_ref x + 1) x) ∨
   (i_ref x = 0 ∧ y = recycled dev inum x)) →
  ∃ z', <[ip := y]> l !! j = Some z' ∧ i_ref z <= i_ref z' ∧ i_dev z' = i_dev z ∧
    i_inum z' = i_inum z.
Proof.
  intros Hx Hz Hr Hy. destruct (decide (j = ip)) as [->|].
  - rewrite list_lookup_insert_eq by (by eapply lookup_lt_Some).
    assert (x = z) as -> by congruence.
    destruct Hy as [[_ ->]|[? ->]]; [|lia]. eexists. split; [done|]. cbn. lia.
  - rewrite list_lookup_insert_ne by done. eauto with lia.
Qed.
End icache.

(** ** Inodes on disk *)

Definition disk_inode (sb : superblock) (v : Z → block) (inum : Z) : dinode :=
  dinode_at (Z.to_nat (inum mod IPB)) (v (IBLOCK inum sb)).

(** The view after writing inode [inum]. *)
Definition a_iput (sb : superblock) (inum : Z) (di : dinode) (a : astore) : astore :=
  a_update (IBLOCK inum sb)
    (put_dinode (Z.to_nat (inum mod IPB)) di (a_view a (IBLOCK inum sb))) a.

Lemma slot_bound inum : (64 * Z.to_nat (inum mod IPB) + 64 ≤ Z.to_nat BSIZE)%nat.
Proof.
  change IPB with 8. change (Z.to_nat BSIZE) with 512%nat. pose proof (Z.mod_pos_bound inum 8). lia.
Qed.

Lemma same_inode_slot inum inum' :
  inum / IPB = inum' / IPB → Z.to_nat (inum mod IPB) = Z.to_nat (inum' mod IPB) → inum = inum'.
Proof. change IPB with 8. dlia. Qed.

Lemma disk_inode_put sb a inum di x :
  (∀ b, wf_block (a_view a b)) → wf_dinode di →
  disk_inode sb (a_view (a_iput sb inum di a)) x =
    if x =? inum then di else disk_inode sb (a_view a) x.
Proof.
  intros Hwf Hdi. unfold disk_inode, a_iput. cbn [a_view a_update].
  pose proof (slot_bound inum). pose proof (slot_bound x).
  destruct (Hwf (IBLOCK inum sb)) as [Hl _].
  destruct (Z.eqb_spec x inum) as [->|Hne].
  - rewrite view_set_eq. apply dinode_at_put_eq; [done|]. by rewrite Hl.
  - destruct (decide (IBLOCK x sb = IBLOCK inum sb)) as [E|E]; [|by rewrite view_set_ne].
    rewrite E, view_set_eq. apply dinode_at_put_ne; [apply Hdi| |by rewrite Hl..].
    intros Es. apply Hne, same_inode_slot; [unfold IBLOCK in E; lia|done].
Qed.

Lemma dinode_bytes_byte d : Forall is_byte (dinode_bytes d).
Proof.
  unfold dinode_bytes, word_bytes. repeat (apply Forall_app; split; [apply le_bytes_byte|]).
  induction (di_addrs d) as [|x l IH]; [constructor|].
  change (mjoin (le_bytes 4 <$> x :: l)) with (le_bytes 4 x ++ mjoin (le_bytes 4 <$> l)).
  apply Forall_app; split; [apply le_bytes_byte|done].
Qed.

Lemma wf_put_dinode sb a inum di :
  wf_block (a_view a (IBLOCK inum sb)) → length (di_addrs di) = 13%nat →
  wf_block (put_dinode (Z.to_nat (inum mod IPB)) di (a_view a (IBLOCK inum sb))).
Proof.
  intros [Hl Hf] Ha. pose proof (slot_bound inum). unfold put_dinode.
  split; [rewrite length_splice; [done|]; rewrite length_dinode_bytes; lia|].
  apply Forall_splice; [done|apply dinode_bytes_byte].
Qed.

Section inode_io.
Context {T : Type} `{!BlockLayer T}.
Variable me : Z.
Implicit Types s : fs T.

Lemma get_inode_rule {B} s ip x (k : inode → M (fs T) B) Q :
  f_icache s !! ip = Some x → wp (k x) Q s → wp (y ← get_inode ip; k y) Q s.
Proof.
  intros Hx Hk. apply wp_bind, wp_gets. unfold inode_at.
  by rewrite (list_lookup_total_correct _ _ _ Hx).
Qed.

Lemma upd_inode_rule {B} s ip x f (k : unit → M (fs T) B) Q :
  f_icache s !! ip = Some x →
  wp (k tt) Q (Fs (f_st s) (f_sb s) (<[ip := f x]> (f_icache s))) →
  wp (y ← upd_inode ip f; k y) Q s.
Proof.
  intros Hx Hk. apply wp_bind, wp_modify. by rewrite (alter_insert _ _ _ x Hx).
Qed.

Lemma inode_block_size sb g a inum :
  layout_ok sb g → a_geo a = g → 0 <= inum < sb_ninodes sb → 0 <= IBLOCK inum sb < a_size a.
Proof.
  intros L Hg Hi. destruct (ly_inodes _ _ L inum Hi) as [? _]. unfold a_size. rewrite Hg. lia.
Qed.

Lemma iupdate_spec sb g a s ip x :
  shows s a → f_sb s = sb → a_geo a = g → layout_ok sb g → f_icache s !! ip = Some x →
  i_dev x = ROOTDEV → 0 <= i_inum x < sb_ninodes sb → length (i_addrs x) = 13%nat →
  a_held a !! IBLOCK (i_inum x) sb = None → room 2 a →
  wp (iupdate ip) (λ _ s', shows s' (a_iput sb (i_inum x) (dinode_of x) a) ∧ kept s s') s.
Proof.
  intros R Hsb Hg L Hx Hdev Hin Hlen Hh Hroom. unfold iupdate.
  apply (get_inode_rule s ip x); [done|]. apply wp_bind, wp_gets. rewrite Hsb, Hdev.
  apply (bread_rule s a (IBLOCK (i_inum x) sb)); [done| |done|by eapply room_le, Hroom; lia|].
  { by apply (inode_block_size sb g). }
  intros i s1 R1 K1. eapply data_rule; [exact R1|apply lookup_insert_eq|]. cbn [a_view a_hold].
  apply (put_last s1 a (IBLOCK (i_inum x) sb) i _ _ R1 Hh); [| |done|].
  - apply wf_put_dinode; [apply (bl_wf _ _ _ R)|done].
  - rewrite Hg. by apply (ly_inodes _ _ L).
  - intros s2 R2 K2. split; [done|]. by eapply kept_trans.
Qed.

(** The entry after [ilock]. *)
Definition locked_inode (sb : superblock) (v : Z → block) (x : inode) : inode :=
  let y := with_lock (Sleeplock 1 me) x in
  if i_valid x =? 0 then with_valid 1 (with_dinode (disk_inode sb v (i_inum x)) y) else y.

Lemma on_ilock_rule {A B} s ip x (m : M sleeplock A) r l (k : A → M (fs T) B) Q :
  f_icache s !! ip = Some x → m (i_lock x) = Ret r l →
  wp (k r) Q (Fs (f_st s) (f_sb s) (<[ip := with_lock l x]> (f_icache s))) →
  wp (y ← on_ilock ip m; k y) Q s.
Proof.
  intros Hx Hm Hk. unfold wp, mbind, M_bind, on_ilock, lift, inode_at.
  rewrite (list_lookup_total_correct _ _ _ Hx), Hm, (alter_insert _ _ _ x Hx). done.
Qed.

Lemma ilock_spec sb g a s ip x :
  shows s a → f_sb s = sb → a_geo a = g → layout_ok sb g → f_icache s !! ip = Some x →
  1 <= i_ref x → lk_locked (i_lock x) = 0 →
  (i_valid x = 0 → i_dev x = ROOTDEV ∧ 0 <= i_inum x < sb_ninodes sb ∧
    di_type (disk_inode sb (a_view a) (i_inum x)) ≠ 0 ∧
    a_held a !! IBLOCK (i_inum x) sb = None ∧ room 1 a) →
  wp (ilock me ip) (λ _ s', shows s' a ∧ f_sb s' = sb ∧
    f_icache s' = <[ip := locked_inode sb (a_view a) x]> (f_icache s)) s.
Proof.
  intros R Hsb Hg L Hx Href Hlk Hvalid. pose proof (lookup_lt_Some _ _ _ Hx) as Hip. unfold ilock.
  apply (get_inode_rule s ip x); [done|]. rewrite (proj2 (Z.ltb_ge _ _)) by lia.
  eapply (on_ilock_rule s ip x); [done|by unfold acquiresleep, mbind, M_bind, getS; rewrite Hlk|].
  set (y := with_lock (Sleeplock 1 me) x).
  eapply get_inode_rule; [by apply list_lookup_insert_eq|].
  unfold locked_inode; fold y. change (i_valid y) with (i_valid x).
  destruct (Z.eqb_spec (i_valid x) 0) as [Hv|Hv]; [|by apply wp_ret].
  destruct (Hvalid Hv) as (Hdev & Hin & Htype & Hh & Hroom).
  apply wp_bind, wp_gets. cbn [f_sb]. rewrite Hsb. change (i_dev y) with (i_dev x). rewrite Hdev.
  apply (bread_rule _ a (IBLOCK (i_inum x) sb)); [exact R|by apply (inode_block_size sb g)|done|done|].
  intros i s1 R1 [K1 K1']. cbn [f_sb f_icache] in K1, K1'.
  eapply data_rule; [exact R1|apply lookup_insert_eq|]. cbn [a_view a_hold].
  change (i_inum y) with (i_inum x). fold (disk_inode sb (a_view a) (i_inum x)).
  eapply upd_inode_rule; [rewrite K1'; by apply list_lookup_insert_eq|].
  apply (drop_rule _ a (IBLOCK (i_inum x) sb) i); [exact R1|done|].
  intros s2 R2 [K2 K2']. cbn [f_sb f_icache] in K2, K2'. rewrite K1', list_insert_insert_eq in K2'.
  eapply upd_inode_rule; [rewrite K2'; by apply list_lookup_insert_eq|].
  eapply get_inode_rule; [apply list_lookup_insert_eq; by rewrite K2', length_insert|].
  cbn [i_type with_valid with_dinode]. rewrite (proj2 (Z.eqb_neq _ _)) by done.
  apply wp_ret. cbn [f_st f_sb f_icache]. split_and!; [exact R2|congruence|].
  by rewrite K2', list_insert_insert_eq.
Qed.
(** A fresh on-disk inode. *)
Definition fresh_dinode (type : Z) : dinode := Dinode type 0 0 0 0 (replicate 13 0).

(** [iget] gave a reference to [inum]. *)
Definition got_ref (s s' : fs T) (ip : nat) (dev inum : Z) : Prop :=
  ∃ x, f_icache s !! ip = Some x ∧
  ((matches dev inum x = true ∧
    f_icache s' = <[ip := with_ref (i_ref x + 1) x]> (f_icache s)) ∨
   ((∀ i y, f_icache s !! i = Some y → matches dev inum y = false) ∧ i_ref x = 0 ∧
    f_icache s' = <[ip := recycled dev inum x]> (f_icache s))).

Definition free_inode (sb : superblock) (v : Z → block) (inum : Z) : Prop :=
  di_type (disk_inode sb v inum) = 0.

Lemma ialloc_loop_spec sb g a type n s inum :
  shows s a → f_sb s = sb → a_geo a = g → layout_ok sb g → a_held a = ∅ → room 2 a →
  (∃ i x, f_icache s !! i = Some x ∧ i_ref x = 0) → 1 <= inum →
  (∀ x, 1 <= x < inum → ¬ free_inode sb (a_view a) x) →
  (∃ x, 1 <= x < sb_ninodes sb ∧ free_inode sb (a_view a) x) →
  sb_ninodes sb < inum + Z.of_nat n →
  wp (ialloc_loop ROOTDEV type n inum) (λ ip s', ∃ r, 1 <= r < sb_ninodes sb ∧
    free_inode sb (a_view a) r ∧ (∀ x, 1 <= x < r → ¬ free_inode sb (a_view a) x) ∧
    shows s' (a_iput sb r (fresh_dinode type) a) ∧ f_sb s' = sb ∧ got_ref s s' ip ROOTDEV r) s.
Proof.
  intros R Hsb Hg L Hh Hroom Hslot. revert s R Hsb Hslot inum.
  induction n as [|n IH]; intros s R Hsb Hslot inum Hin Hprev Hex Hfuel.
  { destruct Hex as (x & Hx & Hf). by destruct (Hprev x); [lia|]. }
  cbn [ialloc_loop]. apply wp_bind, wp_gets. rewrite Hsb.
  destruct (Z.ltb_spec inum (sb_ninodes sb)) as [Hlt|]; cbn [negb].
  2: { destruct Hex as (x & Hx & Hf). by destruct (Hprev x); [lia|]. }
  apply (bread_rule s a (IBLOCK inum sb));
    [done|apply (inode_block_size sb g); [done|done|lia]|by rewrite Hh|by eapply room_le, Hroom; lia|].
  intros i s1 R1 K1. eapply data_rule; [exact R1|apply lookup_insert_eq|]. cbn [a_view a_hold].
  fold (disk_inode sb (a_view a) inum).
  destruct (Z.eqb_spec (di_type (disk_inode sb (a_view a) inum)) 0) as [Hf|Hf].
  - apply (put_rule s1 a (IBLOCK inum sb) i _ _ _ R1); [by rewrite Hh| | |done|].
    + apply wf_put_dinode; [apply (bl_wf _ _ _ R)|done].
    + rewrite Hg. apply (ly_inodes _ _ L). lia.
    + intros s2 R2 K2. pose proof (kept_trans _ _ _ K1 K2) as [E1 E2].
      destruct Hslot as (j & z & Hj & Hz).
      eapply wp_mono; [apply iget_spec; exists j, z; rewrite E2; by auto|].
      intros ip s3 (x & Hx & Est & Esb & Hcase). exists inum.
      split; [lia|]. split; [done|]. split; [done|]. split; [unfold shows; by rewrite Est|].
      split; [congruence|]. exists x. rewrite E2 in Hx, Hcase. by split.
  - apply (drop_rule s1 a _ i _ _ R1); [by rewrite Hh|]. intros s2 R2 K2.
    pose proof (kept_trans _ _ _ K1 K2) as [E1 E2].
    eapply wp_mono; [apply (IH s2 R2); [congruence|by rewrite E2|lia| |done|lia]|].
    + intros x Hx. destruct (decide (x = inum)) as [->|]; [done|]. apply Hprev. lia.
    + intros ip s3 (r & ? & ? & ? & ? & ? & Hgot). exists r. unfold got_ref in *.
      rewrite E2 in Hgot. by split_and!; try lia.
Qed.

Lemma ialloc_spec sb g a type s :
  shows s a → f_sb s = sb → a_geo a = g → layout_ok sb g → a_held a = ∅ → room 2 a →
  (∃ i x, f_icache s !! i = Some x ∧ i_ref x = 0) →
  (∃ x, 1 <= x < sb_ninodes sb ∧ free_inode sb (a_view a) x) →
  wp (ialloc ROOTDEV type) (λ ip s', ∃ r, 1 <= r < sb_ninodes sb ∧
    free_inode sb (a_view a) r ∧ (∀ x, 1 <= x < r → ¬ free_inode sb (a_view a) x) ∧
    shows s' (a_iput sb r (fresh_dinode type) a) ∧ f_sb s' = sb ∧ got_ref s s' ip ROOTDEV r) s.
Proof.
  intros R Hsb Hg L Hh Hroom Hslot Hex. unfold ialloc. apply wp_bind, wp_gets.
  apply (ialloc_loop_spec sb g); try done; [intros; lia|]. rewrite Hsb. destruct Hex as (? & ? & _). lia.
Qed.
End inode_io.

(** ** Properties *)

(** [iget] keeps one cache entry per inode.  When the cache has an
    entry for the inode or a free one, [iget] succeeds with an entry that
    refers to the inode; entries in use stay distinct and keep their
    references; and if an entry referred to the inode before, it is that
    entry that is returned. *)
Theorem iget_one_entry {T} `{!BlockLayer T} (s : fs T) dev inum :
  icache_ok (f_icache s) → has_slot (f_icache s) dev inum →
  ∃ ip s', iget dev inum s = Ret ip s' ∧ f_st s' = f_st s ∧ refers s' ip dev inum ∧
    icache_ok (f_icache s') ∧
    (∀ j dev' inum', refers s j dev' inum' → refers s' j dev' inum') ∧
    (∀ j, refers s j dev inum → j = ip).
Proof.
  intros Hok Hslot. destruct (wp_elim _ _ _ (iget_spec s dev inum Hslot))
    as (ip & s' & E & x & Hx & Est & _ & Hcase).
  pose proof (lookup_lt_Some _ _ _ Hx) as Hlt. exists ip, s'.
  split; [done|]. split; [done|].
  assert (∃ y, f_icache s' = <[ip := y]> (f_icache s) ∧ 0 < i_ref y ∧ i_dev y = dev ∧ i_inum y = inum ∧
    ((matches dev inum x = true ∧ y = with_ref (i_ref x + 1) x) ∨
     ((∀ i z, f_icache s !! i = Some z → matches dev inum z = false) ∧ i_ref x = 0 ∧
      y = recycled dev inum x))) as (y & E2 & Hy1 & Hy2 & Hy3 & Hy).
  { destruct Hcase as [[Hm E2]|(Hno & Hr & E2)]; eexists; (split; [exact E2|]).
    - apply matches_true in Hm as H. destruct H as (? & ? & ?). cbn. split_and!; [lia|done|done|]. by left.
    - cbn. split_and!; [lia|done|done|]. by right. }
  split_and!.
  - exists y. rewrite E2, list_lookup_insert_eq by done. done.
  - rewrite E2. by eapply iget_icache_ok.
  - intros j dev' inum' (z & Hz & Hzr & <- & <-).
    destruct (iget_refers (f_icache s) dev inum ip x y j z Hx Hz Hzr) as (z' & Hz' & ? & ? & ?).
    { destruct Hy as [?|(_ & ? & ?)]; [by left|by right]. }
    exists z'. rewrite E2. split_and!; [done|lia|done|done].
  - intros j (z & Hz & Hzr & Hzd & Hzi).
    assert (Hmz : matches dev inum z = true) by (by apply matches_true).
    destruct Hy as [[(? & ? & ?)%matches_true _]|(Hno & _)]; [|by rewrite (Hno j z Hz) in Hmz].
    apply (ic_uniq _ Hok j ip z x); congruence.
Qed.

(** [iupdate] and [ilock] are inverse.  After [iupdate] of an inode,
    whatever happens to the inode cache, [ilock] of an entry for the inode
    that has to be read from disk succeeds and loads the same fields;
    every other inode on disk is unchanged. *)
Theorem iupdate_ilock {T} `{!BlockLayer T} me sb g a (s : fs T) ip x :
  shows s a → f_sb s = sb → a_geo a = g → layout_ok sb g → a_held a = ∅ → room 2 a →
  f_icache s !! ip = Some x → i_dev x = ROOTDEV → 0 <= i_inum x < sb_ninodes sb →
  wf_dinode (dinode_of x) → i_type x ≠ 0 →
  ∃ s1 a1, iupdate ip s = Ret tt s1 ∧ shows s1 a1 ∧
    (∀ i, i ≠ i_inum x → disk_inode sb (a_view a1) i = disk_inode sb (a_view a) i) ∧
    ∀ l jp y, l !! jp = Some y → 1 <= i_ref y → lk_locked (i_lock y) = 0 → i_valid y = 0 →
      i_dev y = ROOTDEV → i_inum y = i_inum x →
      ∃ s2 z, ilock me jp (Fs (f_st s1) (f_sb s1) l) = Ret tt s2 ∧ shows s2 a1 ∧
        f_icache s2 !! jp = Some z ∧ i_valid z = 1 ∧ dinode_of z = dinode_of x ∧
        i_lock z = Sleeplock 1 me.
Proof.
  intros R Hsb Hg L Hh Hroom Hx Hdx Hix Hwx Htx.
  assert (W : ∀ b, wf_block (a_view a b)) by (intros b; apply (bl_wf _ _ _ R)).
  destruct (wp_elim _ _ _ (iupdate_spec sb g a s ip x R Hsb Hg L Hx Hdx Hix
    ltac:(apply Hwx) ltac:(by rewrite Hh) Hroom)) as ([] & s1 & E1 & R1 & [K1 K2]).
  set (a1 := a_iput sb (i_inum x) (dinode_of x) a) in *. exists s1, a1. split_and!; try done.
  { intros i Hi. unfold a1. rewrite disk_inode_put by done. by rewrite (proj2 (Z.eqb_neq _ _)). }
  intros l jp y Hy Hry Hly Hvy Hdy Hiy.
  assert (Hdi : disk_inode sb (a_view a1) (i_inum x) = dinode_of x)
    by (unfold a1; rewrite disk_inode_put, Z.eqb_refl by done; done).
  destruct (wp_elim _ _ _ (ilock_spec me sb g a1 (Fs (f_st s1) (f_sb s1) l) jp y R1
    ltac:(cbn; congruence) Hg L Hy Hry Hly ltac:(intros _; split_and!; rewrite ?Hiy, ?Hdi; try done;
      [lia|lia|cbn; by rewrite Hh|by apply room_update]))) as ([] & s2 & E2 & R2 & _ & E3).
  exists s2, (locked_inode me sb (a_view a1) y). split_and!; try done.
  - rewrite E3. apply list_lookup_insert_eq. by eapply lookup_lt_Some.
  - unfold locked_inode. by rewrite Hvy.
  - unfold locked_inode. rewrite Hvy, Hiy, Hdi. by destruct x.
  - unfold locked_inode. by rewrite Hvy.
Qed.

(** [ialloc] takes the first free inode.  When inode and cache entry
    are available it returns an entry for the lowest inode of type 0; on
    disk that inode now has the new type, no links, no size and no blocks,
    and the others are unchanged. *)
Theorem ialloc_first_free {T} `{!BlockLayer T} sb g a type (s : fs T) :
  shows s a → f_sb s = sb → a_geo a = g → layout_ok sb g → a_held a = ∅ → room 2 a →
  is_s16 type → icache_ok (f_icache s) →
  (∃ i x, f_icache s !! i = Some x ∧ i_ref x = 0) →
  (∃ x, 1 <= x < sb_ninodes sb ∧ free_inode sb (a_view a) x) →
  ∃ r ip s' a', ialloc ROOTDEV type s = Ret ip s' ∧ shows s' a' ∧
    1 <= r < sb_ninodes sb ∧ refers s' ip ROOTDEV r ∧
    free_inode sb (a_view a) r ∧ (∀ x, 1 <= x < r → ¬ free_inode sb (a_view a) x) ∧
    ∀ i, disk_inode sb (a_view a') i =
      if i =? r then fresh_dinode type else disk_inode sb (a_view a) i.
Proof.
  intros R Hsb Hg L Hh Hroom Htype Hok Hslot Hex.
  destruct (wp_elim _ _ _ (ialloc_spec sb g a type s R Hsb Hg L Hh Hroom Hslot Hex))
    as (ip & s' & E & r & Hr & Hf & Hlow & R' & _ & x & Hx & Hcase).
  exists r, ip, s', (a_iput sb r (fresh_dinode type) a).
  pose proof (lookup_lt_Some _ _ _ Hx) as Hlt. split_and!; try done; try lia.
  - destruct Hcase as [[(? & ? & ?)%matches_true E2]|(_ & _ & E2)];
      eexists; rewrite E2, list_lookup_insert_eq by done; (split; [done|]); cbn; split_and!; lia || done.
  - intros i. apply disk_inode_put; [intros b; apply (bl_wf _ _ _ R)|].
    split_and!; try done; [apply Htype..|by apply Forall_replicate].
Qed.
