(* ===== verification/FsFile.v ===== *)
(** * Inode contents

    The blocks of a file and the bytes in them: [bmap] finds or allocates
    a block, [readi] and [writei] copy bytes, [itrunc] frees everything.
    A file is seen as its block pointers [ptr]: slots 0-11 are the direct
    blocks, slot 12 the indirect block, slots 13-140 the entries of the
    indirect block. *)

From S2P Require Import Prelude Str Layout Sleeplock BlockLayer Fs FsBlock FsInode.

Definition NSLOT : Z := NDIRECT + 1 + NINDIRECT.

Definition ptr (v : Z → block) (l : list Z) (k : Z) : Z :=
  if k <=? NDIRECT then l !!! Z.to_nat k
  else let ind := l !!! Z.to_nat NDIRECT in
    if ind =? 0 then 0 else get32 (4 * Z.to_nat (k - NDIRECT - 1)) (v ind).

(** The slot of the [bn]th block. *)
Definition slot (bn : Z) : Z := if bn <? NDIRECT then bn else bn + 1.

(** Byte [i] of the file; a byte without block reads as 0. *)
Definition byte_of (v : Z → block) (l : list Z) (i : Z) : Z :=
  let p := ptr v l (slot (i / BSIZE)) in
  if p =? 0 then 0 else v p !!! Z.to_nat (i mod BSIZE).

(** The pointers are to distinct data blocks that the bitmap has. *)
Record addrs_ok (sb : superblock) (g : geometry) (v : Z → block) (l : list Z) : Prop := {
  ao_len : length l = 13%nat;
  ao_data k : 0 <= k < NSLOT → ptr v l k ≠ 0 →
    data_block sb g (ptr v l k) ∧ used sb v (ptr v l k) = true;
  ao_inj k k' : 0 <= k < NSLOT → 0 <= k' < NSLOT → ptr v l k ≠ 0 →
    ptr v l k = ptr v l k' → k = k' }.

Lemma slot_range bn : 0 <= bn < MAXFILE → 0 <= slot bn < NSLOT ∧ slot bn ≠ NDIRECT.
Proof.
  unfold slot, MAXFILE, NSLOT. change NINDIRECT with 128. change NDIRECT with 12.
  destruct (Z.ltb_spec bn 12); lia.
Qed.

Lemma slot_inj bn bn' : slot bn = slot bn' → bn = bn'.
Proof. unfold slot. destruct (Z.ltb_spec bn NDIRECT), (Z.ltb_spec bn' NDIRECT); lia. Qed.

Lemma ptr_direct v l k : k <= NDIRECT → ptr v l k = l !!! Z.to_nat k.
Proof. intros H. unfold ptr. by rewrite (proj2 (Z.leb_le _ _)). Qed.

Lemma ptr_ext v v' l k :
  (l !!! Z.to_nat NDIRECT ≠ 0 → v' (l !!! Z.to_nat NDIRECT) = v (l !!! Z.to_nat NDIRECT)) →
  ptr v' l k = ptr v l k.
Proof.
  intros H. unfold ptr. destruct (k <=? NDIRECT); [done|].
  destruct (Z.eqb_spec (l !!! Z.to_nat NDIRECT) 0) as [|Hne]; [done|]. by rewrite H.
Qed.

Lemma data_block_range sb g b : data_block sb g b → 0 <= b < g_size g.
Proof. intros ([? _] & _). lia. Qed.

(** ** Growing a file by one pointer *)

(** Free block [r] was allocated and stored in slot [k]. *)
Record grow (sb : superblock) (g : geometry) (k r : Z) (a : astore) (l : list Z)
    (a' : astore) (l' : list Z) : Prop := {
  gr_slot : 0 <= k < NSLOT ∧ ptr (a_view a) l k = 0;
  gr_free : data_block sb g r ∧ used sb (a_view a) r = false;
  gr_len : length l' = 13%nat;
  gr_ptr j : 0 <= j < NSLOT →
    ptr (a_view a') l' j = if j =? k then r else ptr (a_view a) l j;
  gr_zero : a_view a' r = zero_block;
  gr_used x : 0 <= x < g_size g → used sb (a_view a') x = (x =? r) || used sb (a_view a) x;
  gr_frame b : data_block sb g b → b ≠ r → b ≠ l !!! Z.to_nat NDIRECT →
    a_view a' b = a_view a b;
  gr_inodes i : 0 <= i < sb_ninodes sb → a_view a' (IBLOCK i sb) = a_view a (IBLOCK i sb);
  gr_held : a_held a' = a_held a;
  gr_geo : a_geo a' = a_geo a;
  gr_room n : room (n + 3) a → room n a' }.

Section grow_facts.
Context (sb : superblock) (g : geometry) (k r : Z) (a a' : astore) (l l' : list Z).
Hypothesis G : grow sb g k r a l a' l'.
Hypothesis A : addrs_ok sb g (a_view a) l.

Lemma grow_fresh j : 0 <= j < NSLOT → ptr (a_view a) l j ≠ r.
Proof.
  intros Hj E. destruct G. destruct gr_free0 as [Hd Hf].
  destruct (ao_data _ _ _ _ A j Hj) as [_ Hu]; [|congruence].
  rewrite E. destruct Hd as ([? _] & _). lia.
Qed.

Lemma grow_addrs_ok : addrs_ok sb g (a_view a') l'.
Proof.
  destruct G. destruct gr_free0 as [Hd Hf]. pose proof (data_block_range _ _ _ Hd).
  split; [done| |].
  - intros j Hj. rewrite gr_ptr0 by done. destruct (Z.eqb_spec j k) as [->|].
    + intros _. split; [done|]. rewrite gr_used0 by done. by rewrite Z.eqb_refl.
    + intros Hp. destruct (ao_data _ _ _ _ A j Hj Hp) as [Hd' Hu]. split; [done|].
      rewrite gr_used0, Hu by (by eapply data_block_range). by rewrite orb_true_r.
  - intros j j' Hj Hj'. rewrite !gr_ptr0 by done.
    destruct (Z.eqb_spec j k) as [->|], (Z.eqb_spec j' k) as [->|]; intros Hp E; [done| | |].
    + by destruct (grow_fresh j' Hj').
    + by destruct (grow_fresh j Hj).
    + by apply (ao_inj _ _ _ _ A).
Qed.

(** The bytes of the file do not change. *)
Lemma grow_byte_of i : 0 <= i < MAXFILE * BSIZE → byte_of (a_view a') l' i = byte_of (a_view a) l i.
Proof.
  intros Hi. unfold byte_of.
  assert (Hbn : 0 <= i / BSIZE < MAXFILE) by (change BSIZE with 512 in *; dlia).
  destruct (slot_range (i / BSIZE) Hbn) as [Hs Hne]. set (j := slot (i / BSIZE)) in *.
  destruct G. destruct gr_free0 as [Hd _]. rewrite gr_ptr0 by done.
  destruct (Z.eqb_spec j k) as [->|Hjk].
  - destruct gr_slot0 as [_ ->]. cbn.
    destruct (Z.eqb_spec r 0) as [|_]; [done|]. rewrite gr_zero0.
    apply lookup_total_replicate_2. change BSIZE with 512 in *. dlia.
  - destruct (Z.eqb_spec (ptr (a_view a) l j) 0) as [|Hp]; [done|].
    rewrite gr_frame0; [done|by apply (ao_data _ _ _ _ A)|by apply grow_fresh|].
    intros E. rewrite <-(ptr_direct (a_view a)) in E by lia.
    apply Hne, (ao_inj _ _ _ _ A j NDIRECT Hs); [|done|done].
    unfold NSLOT. change NDIRECT with 12. change NINDIRECT with 128. lia.
Qed.

Lemma grow_mapped j : 0 <= j < NSLOT → ptr (a_view a) l j ≠ 0 →
  ptr (a_view a') l' j = ptr (a_view a) l j.
Proof.
  intros Hj Hp. destruct G. rewrite gr_ptr0 by done.
  destruct (Z.eqb_spec j k) as [->|]; [|done]. by destruct gr_slot0.
Qed.

Lemma grow_meta_used : meta_used sb g (a_view a) → meta_used sb g (a_view a').
Proof.
  intros H b Hb Hf. destruct G. rewrite gr_used0 in Hf by done.
  apply orb_false_elim in Hf as [_ Hf]. by apply H.
Qed.

Lemma grow_held_ok : a_geo a = g → held_ok sb a → held_ok sb a'.
Proof.
  intros Hg H b Hb. destruct G. rewrite gr_held0 in Hb.
  destruct (H b Hb) as (Hr & Hu & Hx). unfold a_size in *. rewrite gr_geo0, Hg in *.
  split; [done|]. split; [|done]. rewrite gr_used0, Hu by done. apply orb_true_r.
Qed.
End grow_facts.

Lemma alloc_view sb g a r b :
  data_block sb g b → b ≠ r → 0 <= r < g_size g → a_view (a_alloc sb r a) b = a_view a b.
Proof.
  intros (_ & Hb & _) Hne Hr. unfold a_alloc. cbn [a_view a_update].
  rewrite view_set_ne, view_set_ne; [done|by apply Hb|done].
Qed.

Lemma alloc_inodes sb g a r i :
  layout_ok sb g → data_block sb g r → 0 <= i < sb_ninodes sb →
  a_view (a_alloc sb r a) (IBLOCK i sb) = a_view a (IBLOCK i sb).
Proof.
  intros L Hr Hi. pose proof (data_block_range _ _ _ Hr). destruct Hr as (_ & _ & Hr).
  unfold a_alloc. cbn [a_view a_update].
  rewrite view_set_ne by (intros E; by apply (Hr i)).
  rewrite view_set_ne; [done|]. intros E. by apply (ly_apart _ _ L r i).
Qed.

Lemma alloc_room sb r n a : room (n + 2) a → room n (a_alloc sb r a).
Proof. intros H. rewrite Nat.add_comm in H. by do 2 apply room_update. Qed.

Lemma get32_zero o : (o + 4 ≤ 512)%nat → get32 o zero_block = 0.
Proof.
  intros Ho. unfold get32, zero_block, slice. rewrite drop_replicate, take_replicate.
  change (Z.to_nat BSIZE) with 512%nat. by replace (4 `min` (512 - o))%nat with 4%nat by lia.
Qed.

Section grow_steps.
Context (sb : superblock) (g : geometry) (a : astore) (l : list Z) (r : Z).
Hypothesis L : layout_ok sb g.
Hypothesis W : ∀ b, wf_block (a_view a b).
Hypothesis A : addrs_ok sb g (a_view a) l.
Hypothesis Hr : data_block sb g r.
Hypothesis Hf : used sb (a_view a) r = false.

Lemma ind_view :
  l !!! Z.to_nat NDIRECT ≠ 0 →
  data_block sb g (l !!! Z.to_nat NDIRECT) ∧ l !!! Z.to_nat NDIRECT ≠ r.
Proof.
  intros Hi. destruct (ao_data _ _ _ _ A NDIRECT) as [Hd Hu]; [done|done|].
  rewrite ptr_direct in Hd, Hu by done. split; [done|congruence].
Qed.

Lemma ind_kept :
  l !!! Z.to_nat NDIRECT ≠ 0 →
  a_view (a_alloc sb r a) (l !!! Z.to_nat NDIRECT) = a_view a (l !!! Z.to_nat NDIRECT).
Proof.
  intros [Hd Hne]%ind_view. by apply (alloc_view sb g); [..|apply (data_block_range sb)].
Qed.

(** Slots of the inode itself. *)
Lemma grow_direct k :
  0 <= k <= NDIRECT → l !!! Z.to_nat k = 0 →
  grow sb g k r a l (a_alloc sb r a) (<[Z.to_nat k := r]> l).
Proof.
  intros Hk H0. pose proof (data_block_range _ _ _ Hr) as Hrr. pose proof (ao_len _ _ _ _ A) as Hl.
  change NDIRECT with 12 in Hk.
  split; [| | | | | | |intros; by apply (alloc_inodes sb g)|done|done|].
  - unfold NSLOT. change NDIRECT with 12. change NINDIRECT with 128.
    rewrite ptr_direct by (change NDIRECT with 12; lia). split; [lia|done].
  - done.
  - by rewrite length_insert.
  - intros j Hj. destruct (decide (j <= 12)) as [Hj12|Hj12].
    { rewrite !ptr_direct by (change NDIRECT with 12; lia). destruct (Z.eqb_spec j k) as [->|].
      - apply list_lookup_total_insert_eq. lia.
      - apply list_lookup_total_insert_ne. lia. }
    rewrite (proj2 (Z.eqb_neq j k)) by lia. unfold ptr.
    rewrite !(proj2 (Z.leb_gt j NDIRECT)) by (change NDIRECT with 12; lia).
    destruct (decide (k = NDIRECT)) as [->|Hne].
    + rewrite H0. cbn [Z.eqb]. rewrite list_lookup_total_insert_eq by (rewrite Hl; change NDIRECT with 12; lia).
      destruct (Z.eqb_spec r 0) as [|_]; [done|].
      unfold a_alloc. cbn [a_view a_update]. rewrite view_set_eq. apply get32_zero.
      unfold NSLOT in Hj. change NDIRECT with 12 in *. change NINDIRECT with 128 in *. lia.
    + rewrite list_lookup_total_insert_ne by (change NDIRECT with 12 in *; lia).
      destruct (Z.eqb_spec (l !!! Z.to_nat NDIRECT) 0) as [|Hi]; [done|]. by rewrite ind_kept.
  - unfold a_alloc. cbn [a_view a_update]. by rewrite view_set_eq.
  - intros x Hx. by apply (used_alloc sb g).
  - intros b Hb Hne _. by apply (alloc_view sb g).
  - intros n Hn. apply alloc_room. eapply room_le, Hn. lia.
Qed.
(** Slots of the indirect block. *)
Lemma grow_indirect k :
  let ind := l !!! Z.to_nat NDIRECT in
  let o := (4 * Z.to_nat (k - NDIRECT - 1))%nat in
  NDIRECT < k < NSLOT → ind ≠ 0 → get32 o (a_view a ind) = 0 → g_size g < 2 ^ 31 →
  grow sb g k r a l (a_update ind (put32 o r (a_view a ind)) (a_alloc sb r a)) l.
Proof.
  intros ind o Hk Hind H0 Hint. pose proof (data_block_range _ _ _ Hr) as Hrr.
  destruct (ind_view Hind) as [Hid Hne]. fold ind in Hid, Hne.
  pose proof (data_block_range _ _ _ Hid) as Hir.
  unfold NSLOT in Hk. change NDIRECT with 12 in Hk. change NINDIRECT with 128 in Hk.
  assert (Ho : ∀ j, 12 < j < 141 → (4 * Z.to_nat (j - NDIRECT - 1) + 4 ≤ length (a_view a ind))%nat).
  { intros j Hj. destruct (W ind) as [-> _]. change (Z.to_nat BSIZE) with 512%nat.
    change NDIRECT with 12. lia. }
  split; [| |apply A| | | | | |done|done|].
  - unfold NSLOT. change NDIRECT with 12. change NINDIRECT with 128. split; [lia|].
    unfold ptr. fold ind. rewrite (proj2 (Z.leb_gt k NDIRECT)) by (change NDIRECT with 12; lia).
    by rewrite (proj2 (Z.eqb_neq ind 0)).
  - done.
  - intros j Hj. unfold NSLOT in Hj. change NDIRECT with 12 in Hj. change NINDIRECT with 128 in Hj.
    unfold ptr. fold ind. destruct (Z.leb_spec j NDIRECT) as [Hle|Hgt].
    { change NDIRECT with 12 in Hle. by rewrite (proj2 (Z.eqb_neq j k)) by lia. }
    change NDIRECT with 12 in Hgt. rewrite (proj2 (Z.eqb_neq ind 0)) by done.
    cbn [a_view a_update]. rewrite view_set_eq. destruct (Z.eqb_spec j k) as [->|Hjk].
    + apply get32_put32_eq; [unfold is_u32; lia|]. apply Ho. lia.
    + apply get32_put32_ne; [apply Ho; lia|apply Ho; lia|]. subst o. change NDIRECT with 12. lia.
  - cbn [a_view a_update]. rewrite view_set_ne by done.
    unfold a_alloc. cbn [a_view a_update]. by rewrite view_set_eq.
  - intros x Hx. rewrite <-(used_alloc sb g a r x W Hr Hx). apply used_ext.
    cbn [a_view a_update]. apply view_set_ne. intros E. by apply (proj1 (proj2 Hid) x).
  - intros b Hb Hbr Hbi. cbn [a_view a_update]. rewrite view_set_ne by done.
    by apply (alloc_view sb g).
  - intros i Hi. cbn [a_view a_update]. rewrite view_set_ne.
    + by apply (alloc_inodes sb g).
    + intros E. by apply (proj2 (proj2 Hid) i).
  - intros n Hn. apply room_update, alloc_room. eapply room_le, Hn. lia.
Qed.
End grow_steps.

(** ** Free blocks *)

Definition free_set (sb : superblock) (g : geometry) (v : Z → block) : gset Z :=
  list_to_set (filter (λ x, used sb v x = false) (seqZ 0 (g_size g))).
Definition nfree (sb : superblock) (g : geometry) (v : Z → block) : nat := size (free_set sb g v).

Lemma elem_of_free_set sb g v x :
  x ∈ free_set sb g v ↔ 0 <= x < g_size g ∧ used sb v x = false.
Proof.
  unfold free_set. rewrite elem_of_list_to_set, list_elem_of_filter, elem_of_seqZ.
  split; intros [? ?]; split; try done; lia.
Qed.

Lemma nfree_pos sb g v :
  (0 < nfree sb g v)%nat → ∃ x, 0 <= x < g_size g ∧ used sb v x = false.
Proof.
  intros H. destruct (size_pos_elem_of (free_set sb g v) H) as [x Hx].
  exists x. by apply elem_of_free_set.
Qed.

Lemma grow_nfree sb g k r a l a' l' :
  grow sb g k r a l a' l' → nfree sb g (a_view a) = S (nfree sb g (a_view a')).
Proof.
  intros G. unfold nfree. destruct (gr_free _ _ _ _ _ _ _ _ G) as [Hd Hf].
  pose proof (data_block_range _ _ _ Hd) as Hr.
  assert (E : free_set sb g (a_view a') = free_set sb g (a_view a) ∖ {[r]}).
  { apply set_eq. intros x. rewrite elem_of_difference, elem_of_singleton, !elem_of_free_set.
    split.
    - intros [Hx Hu]. rewrite (gr_used _ _ _ _ _ _ _ _ G) in Hu by done.
      by apply orb_false_elim in Hu as [?%Z.eqb_neq ?].
    - intros [[Hx Hu] Hne]. split; [done|]. rewrite (gr_used _ _ _ _ _ _ _ _ G), Hu by done.
      by rewrite (proj2 (Z.eqb_neq x r)). }
  rewrite E, size_difference, size_singleton.
  - assert (size (free_set sb g (a_view a)) ≠ 0)%nat; [|lia].
    apply size_non_empty_iff. intros E'. apply (proj1 (elem_of_equiv_empty _) E' r), elem_of_free_set. done.
  - apply singleton_subseteq_l, elem_of_free_set. done.
Qed.

(** ** Files that grow *)

Record fs_ok (sb : superblock) (g : geometry) (a : astore) : Prop := {
  fo_layout : layout_ok sb g;
  fo_geo : a_geo a = g;
  fo_meta : meta_used sb g (a_view a);
  fo_held : held_ok sb a }.

(** [n] pointers were added. *)
Definition grows (sb : superblock) (g : geometry) (n : nat) (p p' : astore * list Z) : Prop :=
  nsteps (λ p p', ∃ k r, grow sb g k r p.1 p.2 p'.1 p'.2) n p p'.

Lemma grow_fs_ok sb g k r a l a' l' :
  grow sb g k r a l a' l' → fs_ok sb g a → fs_ok sb g a'.
Proof.
  intros G [L Hg Hm Hh]. split; [done|by rewrite (gr_geo _ _ _ _ _ _ _ _ G)| |].
  - by eapply grow_meta_used.
  - by eapply grow_held_ok.
Qed.

(** A block in use that is not one of this file. *)
Definition other_block (sb : superblock) (g : geometry) (v : Z → block) (l : list Z) (b : Z) : Prop :=
  data_block sb g b ∧ used sb v b = true ∧ ∀ k, 0 <= k < NSLOT → ptr v l k ≠ b.

Lemma grow_other sb g k r a l a' l' b :
  grow sb g k r a l a' l' → other_block sb g (a_view a) l b →
  a_view a' b = a_view a b ∧ other_block sb g (a_view a') l' b.
Proof.
  intros [Gs [Hd Hf] _ Gp _ Gu Gf _ _ _ _] (Hb & Hu & Hp).
  assert (b ≠ r) by congruence.
  split; [apply Gf; [done|done|]|split_and!; [done| |]].
  - intros E. apply (Hp NDIRECT); [done|]. by rewrite ptr_direct.
  - rewrite Gu by (by eapply data_block_range). rewrite Hu. apply orb_true_r.
  - intros j Hj. rewrite Gp by done. destruct (j =? k); [congruence|by apply Hp].
Qed.

(** What growing a file preserves. *)
Record grown (sb : superblock) (g : geometry) (n : nat) (a : astore) (l : list Z) (a' : astore)
    (l' : list Z) : Prop := {
  gn_addrs : addrs_ok sb g (a_view a') l';
  gn_fs : fs_ok sb g a';
  gn_byte i : 0 <= i < MAXFILE * BSIZE → byte_of (a_view a') l' i = byte_of (a_view a) l i;
  gn_mapped j : 0 <= j < NSLOT → ptr (a_view a) l j ≠ 0 →
    ptr (a_view a') l' j = ptr (a_view a) l j;
  gn_free : nfree sb g (a_view a) = (n + nfree sb g (a_view a'))%nat;
  gn_other b : other_block sb g (a_view a) l b →
    a_view a' b = a_view a b ∧ other_block sb g (a_view a') l' b;
  gn_inodes i : 0 <= i < sb_ninodes sb → a_view a' (IBLOCK i sb) = a_view a (IBLOCK i sb);
  gn_held : a_held a' = a_held a;
  gn_room m : room (m + 3 * n) a → room m a' }.

Lemma grows_grown sb g n p p' :
  grows sb g n p p' → fs_ok sb g p.1 → addrs_ok sb g (a_view p.1) p.2 →
  grown sb g n p.1 p.2 p'.1 p'.2.
Proof.
  induction 1 as [p|n p p1 p' (k & r & G) Gs IH]; intros F A.
  { split; try done. intros m. by rewrite Nat.mul_0_r, Nat.add_0_r. }
  pose proof (grow_addrs_ok _ _ _ _ _ _ _ _ G A) as A1.
  pose proof (grow_fs_ok _ _ _ _ _ _ _ _ G F) as F1.
  destruct (IH F1 A1) as [H1 H2 H3 H4 H5 H9 H6 H7 H8]. split; [done|done| | | | | | |].
  - intros i Hi. rewrite H3 by done. by eapply grow_byte_of.
  - intros j Hj Hp. rewrite H4; [by eapply grow_mapped|done|].
    by rewrite (grow_mapped _ _ _ _ _ _ _ _ G).
  - rewrite (grow_nfree _ _ _ _ _ _ _ _ G). lia.
  - intros b Hb. destruct (grow_other _ _ _ _ _ _ _ _ b G Hb) as [E Hb'].
    destruct (H9 b Hb') as [E' ?]. by rewrite E', E.
  - intros i Hi. rewrite H6 by done. by apply (gr_inodes _ _ _ _ _ _ _ _ G).
  - rewrite H7. apply (gr_held _ _ _ _ _ _ _ _ G).
  - intros m Hm. apply H8, (gr_room _ _ _ _ _ _ _ _ G). eapply room_le, Hm. lia.
Qed.

(** ** bmap *)

Section bmap.
Context {T : Type} `{!BlockLayer T}.
Context (sb : superblock) (g : geometry).
Implicit Types s : fs T.

(** The file system state around an inode [x] in entry [ip]. *)
Record file_at s a (ip : nat) (x : inode) : Prop := {
  fa_shows : shows s a;
  fa_sb : f_sb s = sb;
  fa_fs : fs_ok sb g a;
  fa_ip : f_icache s !! ip = Some x;
  fa_dev : i_dev x = ROOTDEV;
  fa_addrs : addrs_ok sb g (a_view a) (i_addrs x) }.

(** The state after the file grew by [n] pointers. *)
Definition grown_to s a ip x n s' a' l' : Prop :=
  grows sb g n (a, i_addrs x) (a', l') ∧ shows s' a' ∧ f_sb s' = sb ∧
  f_icache s' = <[ip := with_addrs l' x]> (f_icache s).

Lemma with_addrs_id x : with_addrs (i_addrs x) x = x.
Proof. by destruct x. Qed.

Lemma grown_to_refl s a ip x : file_at s a ip x → grown_to s a ip x 0 s a (i_addrs x).
Proof.
  intros [? ? ? Hip ? ?]. split_and!; [constructor|done|done|].
  by rewrite with_addrs_id, list_insert_id.
Qed.

Lemma grown_to_file s a ip x n s' a' l' :
  file_at s a ip x → grown_to s a ip x n s' a' l' → file_at s' a' ip (with_addrs l' x).
Proof.
  intros [? ? F Hip ? A] (Gs & ? & ? & E).
  destruct (grows_grown _ _ _ _ _ Gs F A) as [A' F' _ _ _ _ _ _ _]. split; try done.
  rewrite E. apply list_lookup_insert_eq. by eapply lookup_lt_Some.
Qed.

Lemma grown_to_trans s a ip x n s1 a1 l1 m s2 a2 l2 :
  grown_to s a ip x n s1 a1 l1 → grown_to s1 a1 ip (with_addrs l1 x) m s2 a2 l2 →
  grown_to s a ip x (n + m) s2 a2 l2.
Proof.
  intros (G1 & _ & _ & E1) (G2 & R2 & S2 & E2). split_and!; [|done|done|].
  - by eapply nsteps_trans.
  - by rewrite E2, E1, list_insert_insert_eq.
Qed.

Lemma balloc_file s a ip x :
  file_at s a ip x → room 3 a → (0 < nfree sb g (a_view a))%nat →
  wp (balloc (i_dev x)) (λ r s', data_block sb g r ∧ used sb (a_view a) r = false ∧
    shows s' (a_alloc sb r a) ∧ kept s s') s.
Proof.
  intros [R Hsb [L Hg Hm Hh] Hip Hdev A] Hroom Hn. rewrite Hdev.
  eapply wp_mono; [by apply (balloc_spec sb g a s); try apply nfree_pos|].
  intros r s' (Hr & Hf & _ & R' & K). split_and!; [by apply Hm|done|done|done].
Qed.

(** The direct slots, and the indirect block itself. *)
Lemma bmap_slot_spec s a ip x k :
  file_at s a ip x → room 3 a → (0 < nfree sb g (a_view a))%nat → 0 <= k <= NDIRECT →
  wp (let addr := i_addrs x !!! Z.to_nat k in
      if addr =? 0 then
        addr ← balloc (i_dev x);
        upd_inode ip (λ x, with_addrs (<[Z.to_nat k := addr]> (i_addrs x)) x);;
        mret addr
      else mret addr)
    (λ r s', ∃ n a' l', (n ≤ 1)%nat ∧ grown_to s a ip x n s' a' l' ∧
      r = l' !!! Z.to_nat k ∧ r ≠ 0) s.
Proof.
  intros FA Hroom Hn Hk. cbn zeta. pose proof FA as [R Hsb F Hip Hdev A].
  destruct (Z.eqb_spec (i_addrs x !!! Z.to_nat k) 0) as [H0|Hne].
  - apply wp_bind. eapply wp_mono; [by apply (balloc_file s a ip x FA)|].
    intros r s1 (Hr & Hf & R1 & [K1 K2]).
    eapply upd_inode_rule; [by rewrite K2|]. apply wp_ret.
    exists 1%nat, (a_alloc sb r a), (<[Z.to_nat k := r]> (i_addrs x)).
    split; [lia|]. split; [|split].
    + split_and!; [|exact R1|by cbn; rewrite K1|by cbn; rewrite K2].
      apply (nsteps_l _ _ _ (a_alloc sb r a, <[Z.to_nat k := r]> (i_addrs x))); [|constructor].
      exists k, r. apply grow_direct; try done; [apply F|]. intros b. by apply (bl_wf (f_st s)).
    + rewrite list_lookup_total_insert_eq; [done|]. rewrite (ao_len _ _ _ _ A).
      change NDIRECT with 12 in Hk. lia.
    + destruct Hr as ([? _] & _). lia.
  - apply wp_ret. exists 0%nat, a, (i_addrs x). split; [lia|].
    split; [by apply grown_to_refl|done].
Qed.
(** Holding the indirect block. *)
Lemma file_at_hold s s' a ip x i :
  let ind := i_addrs x !!! Z.to_nat NDIRECT in
  file_at s a ip x → ind ≠ 0 → shows s' (a_hold ind i a) → kept s s' →
  file_at s' (a_hold ind i a) ip x.
Proof.
  intros ind [R Hsb [L Hg Hm Hh] Hip Hdev A] Hi R' [K1 K2].
  split; [done|congruence| |congruence|done|done].
  split; [done|done|done|]. intros b. cbn. rewrite lookup_insert_is_Some.
  intros [<-|[_ Hb]]; [|by apply Hh].
  destruct (ao_data _ _ _ _ A NDIRECT) as [Hd Hu]; [done|by rewrite ptr_direct|].
  rewrite ptr_direct in Hd, Hu by done. fold ind in Hd, Hu.
  pose proof (data_block_range _ _ _ Hd). destruct Hd as (_ & Hd & _).
  unfold a_size; cbn. rewrite Hg. split_and!; [lia..|done|done].
Qed.

(** A new entry of the indirect block. *)
Lemma entry_grown s a ip x k r s' :
  let ind := i_addrs x !!! Z.to_nat NDIRECT in
  let o := (4 * Z.to_nat (k - NDIRECT - 1))%nat in
  let a' := a_update ind (put32 o r (a_view a ind)) (a_alloc sb r a) in
  file_at s a ip x → NDIRECT < k < NSLOT → ind ≠ 0 → get32 o (a_view a ind) = 0 →
  data_block sb g r → used sb (a_view a) r = false → shows s' a' → kept s s' →
  ∃ n a' l', (n ≤ 1)%nat ∧ grown_to s a ip x n s' a' l' ∧ r = ptr (a_view a') l' k ∧ r ≠ 0.
Proof.
  intros ind o a' [R Hsb F Hip Hdev A] Hk Hind H0 Hr Hf R' [E1 E2].
  exists 1%nat, a', (i_addrs x). split; [lia|].
  assert (G : grow sb g k r a (i_addrs x) a' (i_addrs x)).
  { apply grow_indirect; try done; [apply F|intros b; apply (bl_wf _ _ _ R)|].
    apply (ly_int _ _ (fo_layout _ _ _ F)). }
  split; [split_and!|split].
  - eapply nsteps_l; [|constructor]. by exists k, r.
  - done.
  - congruence.
  - by rewrite E2, with_addrs_id, list_insert_id.
  - rewrite (gr_ptr _ _ _ _ _ _ _ _ G) by (change NDIRECT with 12 in Hk; lia). by rewrite Z.eqb_refl.
  - destruct Hr as ([? _] & _). lia.
Qed.

(** The entries of the indirect block. *)
Lemma bmap_entry_spec s a ip x k :
  let ind := i_addrs x !!! Z.to_nat NDIRECT in
  let o := (4 * Z.to_nat (k - NDIRECT - 1))%nat in
  file_at s a ip x → room 5 a → (0 < nfree sb g (a_view a))%nat → NDIRECT < k < NSLOT →
  ind ≠ 0 → a_held a = ∅ →
  wp (bp ← bread (i_dev x) ind;
      d ← b_data bp;
      addr ← (if get32 o d =? 0 then
                addr ← balloc (i_dev x);
                d ← b_data bp;
                set_data bp (put32 o addr d);;
                log_write bp;;
                mret addr
              else mret (get32 o d));
      brelse bp;;
      mret addr)
    (λ r s', ∃ n a' l', (n ≤ 1)%nat ∧ grown_to s a ip x n s' a' l' ∧
      r = ptr (a_view a') l' k ∧ r ≠ 0) s.
Proof.
  intros ind o FA Hroom Hn Hk Hind Hheld. pose proof FA as [R Hsb F Hip Hdev A].
  destruct (ao_data _ _ _ _ A NDIRECT) as [Hid _]; [done|by rewrite ptr_direct|].
  rewrite ptr_direct in Hid by done. fold ind in Hid. pose proof (data_block_range _ _ _ Hid).
  assert (Hptr : ptr (a_view a) (i_addrs x) k = get32 o (a_view a ind)).
  { unfold ptr. fold ind o. rewrite (proj2 (Z.leb_gt _ _)) by lia.
    by rewrite (proj2 (Z.eqb_neq ind 0)). }
  rewrite Hdev. apply (bread_rule s a ind); [done| |by rewrite Hheld|by eapply room_le, Hroom; lia|].
  { unfold a_size. rewrite (fo_geo _ _ _ F). lia. }
  intros i s1 R1 K1. pose proof (file_at_hold s s1 a ip x i FA Hind R1 K1) as FA1.
  assert (Hi : a_held (a_hold ind i a) !! ind = Some i) by apply lookup_insert_eq.
  eapply data_rule; [exact R1|exact Hi|]. cbn [a_view a_hold].
  destruct (Z.eqb_spec (get32 o (a_view a ind)) 0) as [H0|Hne]; apply wp_bind.
  - apply wp_bind. rewrite <-Hdev. eapply wp_mono.
    { apply (balloc_file s1 _ ip x FA1); [by apply room_hold; eapply room_le, Hroom; lia|done]. }
    intros r s2 (Hr & Hf & R2 & K2). eapply data_rule; [exact R2|exact Hi|].
    cbn [a_view a_hold] in Hf.
    rewrite (alloc_view sb g _ r ind) by
      (done || (intros <-; destruct (ao_data _ _ _ _ A NDIRECT) as [_ Hu];
        [done|by rewrite ptr_direct|rewrite ptr_direct in Hu by done; fold ind in Hu; congruence])
       || by apply (data_block_range sb)).
    cbn [a_view a_hold]. eapply update_rule; [exact R2|exact Hi| | | |].
    + apply wf_put32; [|apply (bl_wf _ _ _ R)]. unfold NSLOT in Hk. subst o.
      change NDIRECT with 12 in *. change NINDIRECT with 128 in *.
      change (Z.to_nat BSIZE) with 512%nat. lia.
    + cbn. rewrite (fo_geo _ _ _ F). apply Hid.
    + apply (alloc_room sb r 1), room_hold. eapply room_le, Hroom. lia.
    + intros s3 R3 K3. apply wp_ret. eapply brelse_rule; [exact R3|exact Hi|].
      intros s4 R4 K4. apply wp_ret.
      apply (entry_grown s a ip x k r s4); try done.
      * revert R4. apply shows_equiv. split_and!; try done. cbn. rewrite delete_insert_id; [done|by rewrite Hheld].
      * exact (kept_trans _ _ _ K1 (kept_trans _ _ _ K2 (kept_trans _ _ _ K3 K4))).
  - apply wp_ret. apply (drop_rule s1 a ind i); [done|by rewrite Hheld|]. intros s2 R2 K2.
    apply wp_ret. exists 0%nat, a, (i_addrs x). split; [lia|].
    pose proof (kept_trans _ _ _ K1 K2) as [E1 E2].
    split; [split_and!|by rewrite Hptr]; [constructor|done|congruence|].
    by rewrite E2, with_addrs_id, list_insert_id.
Qed.
(** [bmap] returns the block of the file's [bn]th slot, after allocating
    what was missing. *)
Lemma bmap_spec s a ip x bn :
  file_at s a ip x → room 8 a → (2 ≤ nfree sb g (a_view a))%nat → 0 <= bn < MAXFILE →
  a_held a = ∅ →
  wp (bmap ip bn) (λ r s', ∃ n a' l', (n ≤ 2)%nat ∧ grown_to s a ip x n s' a' l' ∧
    r = ptr (a_view a') l' (slot bn) ∧ r ≠ 0) s.
Proof.
  intros FA Hroom Hn Hbn Hheld. unfold bmap. eapply get_inode_rule; [apply FA|].
  unfold MAXFILE in Hbn. change NINDIRECT with 128 in Hbn.
  unfold slot. destruct (Z.ltb_spec bn NDIRECT) as [Hlt|Hge].
  - eapply wp_mono; [apply (bmap_slot_spec s a ip x bn FA); [by eapply room_le, Hroom; lia|lia|lia]|].
    intros r s' (n & a' & l' & Hn1 & G & -> & Hr). exists n, a', l'.
    rewrite ptr_direct by lia. split; [lia|done].
  - rewrite (proj2 (Z.ltb_lt _ _)) by (change NINDIRECT with 128; lia). apply wp_bind.
    eapply wp_mono; [apply (bmap_slot_spec s a ip x NDIRECT FA); [by eapply room_le, Hroom; lia|lia|done]|].
    intros r s1 (n & a1 & l1 & Hn1 & G & -> & Hr).
    pose proof (grown_to_file _ _ _ _ _ _ _ _ FA G) as FA1. pose proof G as (Gs & _).
    destruct (grows_grown _ _ _ _ _ Gs (fa_fs _ _ _ _ FA) (fa_addrs _ _ _ _ FA))
      as [_ _ _ _ Hfree _ _ Hheld1 Hroom1]. cbn [fst snd] in Hfree, Hheld1, Hroom1.
    pose proof (bmap_entry_spec s1 a1 ip (with_addrs l1 x) (bn + 1) FA1) as H.
    cbn zeta in H. replace (bn + 1 - NDIRECT - 1) with (bn - NDIRECT) in H by lia.
    cbn [i_addrs with_addrs i_dev] in H. eapply wp_mono; [apply H|].
    + apply Hroom1. eapply room_le, Hroom. lia.
    + lia.
    + unfold NSLOT. change NINDIRECT with 128. lia.
    + done.
    + by rewrite Hheld1.
    + intros r' s' (m & a' & l' & Hm & G' & -> & Hr'). exists (n + m)%nat, a', l'.
      split; [lia|]. split; [by eapply grown_to_trans|done].
Qed.

(** A slot that is mapped already. *)
Lemma bmap_mapped s a ip x bn :
  file_at s a ip x → room 5 a → 0 <= bn < MAXFILE → a_held a = ∅ →
  ptr (a_view a) (i_addrs x) (slot bn) ≠ 0 →
  wp (bmap ip bn) (λ r s', r = ptr (a_view a) (i_addrs x) (slot bn) ∧ shows s' a ∧ kept s s') s.
Proof.
  intros FA Hroom Hbn Hheld Hne. pose proof FA as [R Hsb F Hip Hdev A]. unfold bmap.
  eapply get_inode_rule; [done|]. unfold slot in *. unfold MAXFILE in Hbn.
  destruct (Z.ltb_spec bn NDIRECT) as [Hlt|Hge].
  - rewrite ptr_direct in Hne |- * by lia. rewrite (proj2 (Z.eqb_neq _ 0)) by done. by apply wp_ret.
  - rewrite (proj2 (Z.ltb_lt _ _)) by lia. unfold ptr in *.
    rewrite (proj2 (Z.leb_gt (bn + 1) NDIRECT)) in Hne |- * by lia.
    set (ind := i_addrs x !!! Z.to_nat NDIRECT) in *.
    destruct (Z.eqb_spec ind 0) as [|Hind]; [done|]. apply wp_bind, wp_ret.
    replace (bn + 1 - NDIRECT - 1) with (bn - NDIRECT) in Hne |- * by lia.
    destruct (ao_data _ _ _ _ A NDIRECT) as [Hid _]; [done|by rewrite ptr_direct|].
    rewrite ptr_direct in Hid by done. fold ind in Hid. pose proof (data_block_range _ _ _ Hid).
    rewrite Hdev. apply (bread_rule s a ind); [done| |by rewrite Hheld|by eapply room_le, Hroom; lia|].
    { unfold a_size. rewrite (fo_geo _ _ _ F). lia. }
    intros i s1 R1 K1. eapply data_rule; [exact R1|apply lookup_insert_eq|]. cbn [a_view a_hold].
    rewrite (proj2 (Z.eqb_neq _ 0)) by done. apply wp_bind, wp_ret.
    apply (drop_rule s1 a ind i); [done|by rewrite Hheld|]. intros s2 R2 K2. apply wp_ret.
    split_and!; [done|done|by eapply kept_trans].
Qed.
End bmap.
