(* ===== verification/FsRw.v ===== *)
(** * Reading and writing files

    [readi] returns the bytes of the file, [writei] replaces them and
    nothing else. *)

From S2P Require Import Prelude Str Layout Sleeplock BlockLayer Fs FsBlock FsInode FsFile.

(** Bytes [off .. off+n-1] of the file. *)
Definition file_slice (v : Z → block) (l : list Z) (off n : Z) : list Z :=
  byte_of v l <$> seqZ off n.

Lemma file_slice_app v l off n m :
  0 <= n → 0 <= m → file_slice v l off (n + m) = file_slice v l off n ++ file_slice v l (off + n) m.
Proof. intros. unfold file_slice. by rewrite seqZ_app, fmap_app. Qed.

Lemma file_slice_ext v v' l l' off n :
  (∀ i, off <= i < off + n → byte_of v' l' i = byte_of v l i) →
  file_slice v' l' off n = file_slice v l off n.
Proof.
  intros H. apply list_fmap_ext. intros i x Hx. apply lookup_seqZ in Hx as [-> ?]. apply H. lia.
Qed.

Lemma file_slice_src v l off src :
  (∀ i, off <= i < off + Z.of_nat (length src) → byte_of v l i = src !!! Z.to_nat (i - off)) →
  file_slice v l off (Z.of_nat (length src)) = src.
Proof.
  intros H. apply list_eq. intros k. unfold file_slice. rewrite list_lookup_fmap.
  destruct (decide (k < length src)%nat) as [Hk|Hk].
  - rewrite lookup_seqZ_lt by lia. cbn [fmap option_fmap option_map]. rewrite H by lia.
    replace (Z.to_nat (off + Z.of_nat k - off)) with k by lia.
    symmetry. by apply list_lookup_lookup_total_lt.
  - rewrite lookup_seqZ_ge by lia. symmetry. apply lookup_ge_None. lia.
Qed.

(** A chunk of one block, as the loops of [readi] and [writei] take it. *)
Definition chunk (off n : Z) : Z := Z.min n (BSIZE - off mod BSIZE).

Lemma chunk_bounds off n : 0 < n → 0 < chunk off n <= n ∧ chunk off n <= BSIZE - off mod BSIZE.
Proof. intros Hn. unfold chunk. pose proof (Z.mod_pos_bound off BSIZE). change BSIZE with 512 in *. lia. Qed.

(** The bytes of a chunk are in one block. *)
Lemma chunk_block off n j :
  0 <= off → 0 < n → 0 <= j < chunk off n →
  (off + j) / BSIZE = off / BSIZE ∧ (off + j) mod BSIZE = off mod BSIZE + j.
Proof. intros Ho Hn Hj. destruct (chunk_bounds off n Hn). change BSIZE with 512 in *. dlia. Qed.

Lemma chunk_bytes v l off n :
  let p := ptr v l (slot (off / BSIZE)) in
  0 <= off → 0 < n → p ≠ 0 → length (v p) = Z.to_nat BSIZE →
  slice (Z.to_nat (off mod BSIZE)) (Z.to_nat (chunk off n)) (v p) =
    file_slice v l off (chunk off n).
Proof.
  intros p Ho Hn Hp Hl. destruct (chunk_bounds off n Hn) as [Hc Hc'].
  pose proof (Z.mod_pos_bound off BSIZE) as Hm. assert (Hm' : 0 <= off mod BSIZE < BSIZE) by (by apply Hm).
  apply list_eq. intros k. unfold file_slice. rewrite list_lookup_fmap.
  destruct (decide (k < Z.to_nat (chunk off n))%nat) as [Hk|Hk].
  - rewrite lookup_slice, lookup_seqZ_lt by lia. cbn [fmap option_fmap option_map].
    destruct (chunk_block off n (Z.of_nat k)) as [E1 E2]; [lia..|].
    unfold byte_of. rewrite E1, E2. fold p. rewrite (proj2 (Z.eqb_neq p 0)) by done.
    replace (Z.to_nat (off mod BSIZE + Z.of_nat k)) with (Z.to_nat (off mod BSIZE) + k)%nat by lia.
    apply list_lookup_lookup_total_lt. rewrite Hl. lia.
  - rewrite lookup_seqZ_ge by lia. cbn. apply lookup_ge_None.
    unfold slice. rewrite length_take. lia.
Qed.

Section read.
Context {T : Type} `{!BlockLayer T}.
Context (sb : superblock) (g : geometry).
Variable devsw_read : Z → option (nat → Z → M (fs T) (Z * list Z)).
Implicit Types s : fs T.

Local Abbreviation file_at := (file_at sb g).

(** The file's blocks up to byte [n] exist. *)
Definition mapped (v : Z → block) (l : list Z) (n : Z) : Prop :=
  ∀ bn, 0 <= bn → bn * BSIZE < n → ptr v l (slot bn) ≠ 0.

Lemma file_at_kept s s' a ip x : file_at s a ip x → shows s' a → kept s s' → file_at s' a ip x.
Proof. intros [? ? ? ? ? ?] R [K1 K2]. split; try done; congruence. Qed.

Lemma slot_data s a ip x bn :
  file_at s a ip x → 0 <= bn < MAXFILE → ptr (a_view a) (i_addrs x) (slot bn) ≠ 0 →
  data_block sb g (ptr (a_view a) (i_addrs x) (slot bn)) ∧
  0 <= ptr (a_view a) (i_addrs x) (slot bn) < a_size a.
Proof.
  intros FA Hbn Hp. destruct (slot_range bn Hbn) as [Hs _].
  destruct (ao_data _ _ _ _ (fa_addrs _ _ _ _ _ _ FA) _ Hs Hp) as [Hd _].
  split; [done|]. unfold a_size. rewrite (fo_geo _ _ _ (fa_fs _ _ _ _ _ _ FA)).
  by apply (data_block_range sb).
Qed.

Lemma readi_loop_spec fuel s a ip x off n tot :
  file_at s a ip x → room 5 a → a_held a = ∅ →
  0 <= off → 0 <= tot <= n → off + (n - tot) <= MAXFILE * BSIZE →
  mapped (a_view a) (i_addrs x) (off + (n - tot)) → n - tot < Z.of_nat fuel →
  wp (readi_loop fuel ip off n tot) (λ out s',
    out = file_slice (a_view a) (i_addrs x) off (n - tot) ∧ shows s' a ∧ kept s s') s.
Proof.
  revert s off tot. induction fuel as [|fuel IH]; intros s off tot FA Hroom Hh Ho Ht Hmax Hmap Hf; [lia|].
  cbn [readi_loop]. destruct (Z.ltb_spec tot n) as [Hlt|]; cbn [negb].
  2: { apply wp_ret. replace (n - tot) with 0 by lia. split_and!; [done|apply FA|done..]. }
  eapply get_inode_rule; [apply FA|]. apply wp_bind.
  assert (Hbn : 0 <= off / BSIZE < MAXFILE) by (change BSIZE with 512 in *; dlia).
  assert (Hp : ptr (a_view a) (i_addrs x) (slot (off / BSIZE)) ≠ 0).
  { apply Hmap; [lia|]. change BSIZE with 512. dlia. }
  destruct (slot_data s a ip x _ FA Hbn Hp) as [_ Hrange].
  eapply wp_mono; [by apply (bmap_mapped sb g s a ip x _ FA)|].
  intros r s1 (-> & R1 & K1). pose proof (file_at_kept _ _ _ _ _ FA R1 K1) as FA1.
  rewrite (fa_dev _ _ _ _ _ _ FA).
  eapply bread_rule; [exact R1|exact Hrange|by rewrite Hh|by eapply room_le, Hroom; lia|].
  intros i s2 R2 K2. eapply data_rule; [exact R2|apply lookup_insert_eq|]. cbn [a_view a_hold].
  eapply drop_rule; [exact R2|by rewrite Hh|]. intros s3 R3 K3. apply wp_bind.
  fold (chunk off (n - tot)). set (m := chunk off (n - tot)).
  destruct (chunk_bounds off (n - tot)) as [Hm _]; [lia|]. fold m in Hm.
  pose proof (kept_trans _ _ _ K1 (kept_trans _ _ _ K2 K3)) as K13.
  eapply wp_mono; [apply (IH s3 (off + m) (tot + m)); try done; try lia|].
  - by apply (file_at_kept s).
  - replace (off + m + (n - (tot + m))) with (off + (n - tot)) by lia. done.
  - intros out s4 (-> & R4 & K4). apply wp_ret. split_and!; [|done|by eapply kept_trans].
    subst m. rewrite chunk_bytes; [|done|lia|done|by apply (bl_wf _ _ _ R3)].
    rewrite <-file_slice_app by lia. f_equal. lia.
Qed.

(** [readi] on a file or directory. *)
Lemma readi_spec s a ip x off n :
  file_at s a ip x → room 5 a → a_held a = ∅ → i_type x ≠ T_DEV →
  0 <= i_size x <= MAXFILE * BSIZE → mapped (a_view a) (i_addrs x) (i_size x) →
  0 <= off <= i_size x → 0 <= n → off + n < 2 ^ 32 →
  let n' := Z.min n (i_size x - off) in
  wp (readi devsw_read ip off n) (λ r s',
    r = (n', file_slice (a_view a) (i_addrs x) off n') ∧ shows s' a ∧ kept s s') s.
Proof.
  intros FA Hroom Hh Htype Hsize Hmap Hoff Hn Hov n'. unfold readi.
  eapply get_inode_rule; [apply FA|]. rewrite (proj2 (Z.eqb_neq _ T_DEV)) by done.
  unfold u32. rewrite Z.mod_small by lia. rewrite !Z.gtb_ltb.
  rewrite (proj2 (Z.ltb_ge (i_size x) off)), (proj2 (Z.ltb_ge (off + n) off)) by lia. cbn [orb].
  assert (E : (if i_size x <? off + n then i_size x - off else n) = n').
  { subst n'. destruct (Z.ltb_spec (i_size x) (off + n)); lia. }
  rewrite E. apply wp_bind. change (MAXFILE * BSIZE) with 71680 in Hsize.
  eapply wp_mono; [apply (readi_loop_spec _ s a ip x off n' 0 FA); try done; try lia|].
  - change (MAXFILE * BSIZE) with 71680. lia.
  - intros bn ? ?. apply Hmap; lia.
  - intros out s' (-> & R' & K'). apply wp_ret. rewrite Z.sub_0_r. split_and!; [|done|done..].
    f_equal. unfold s32, signed. rewrite Z.mod_small by lia.
    by rewrite (proj2 (Z.ltb_lt _ _)) by lia.
Qed.
End read.

(** ** Writing *)

(** How many blocks the bytes [off .. off+n-1] are in. *)
Definition nblocks (off n : Z) : nat :=
  if n <=? 0 then 0%nat else Z.to_nat ((off + n - 1) / BSIZE - off / BSIZE + 1).

Lemma nblocks_chunk off n :
  0 <= off → 0 < n → nblocks off n = S (nblocks (off + chunk off n) (n - chunk off n)).
Proof.
  intros Ho Hn. unfold nblocks, chunk. rewrite (proj2 (Z.leb_gt n 0)) by done.
  change BSIZE with 512.
  destruct (Z.leb_spec (n - Z.min n (512 - off mod 512)) 0); [dlia|].
  rewrite Z.min_r by lia. dlia.
Qed.

(** The bytes [src] at [off] replaced what was there, possibly in new
    blocks, and nothing else changed. *)
Record written (sb : superblock) (g : geometry) (off : Z) (src : list Z) (a : astore)
    (l : list Z) (a' : astore) (l' : list Z) : Prop := {
  wr_byte i : 0 <= i < MAXFILE * BSIZE → byte_of (a_view a') l' i =
    if decide (off <= i < off + Z.of_nat (length src)) then src !!! Z.to_nat (i - off)
    else byte_of (a_view a) l i;
  wr_mapped j : 0 <= j < NSLOT → ptr (a_view a) l j ≠ 0 →
    ptr (a_view a') l' j = ptr (a_view a) l j;
  wr_new i : off <= i < off + Z.of_nat (length src) →
    ptr (a_view a') l' (slot (i / BSIZE)) ≠ 0;
  wr_other b : other_block sb g (a_view a) l b →
    a_view a' b = a_view a b ∧ other_block sb g (a_view a') l' b;
  wr_inodes i : 0 <= i < sb_ninodes sb → a_view a' (IBLOCK i sb) = a_view a (IBLOCK i sb);
  wr_held : a_held a' = a_held a;
  wr_free : (nfree sb g (a_view a) ≤
    nfree sb g (a_view a') + 2 * nblocks off (Z.of_nat (length src)))%nat;
  wr_room n : room (n + 7 * nblocks off (Z.of_nat (length src))) a → room n a' }.

Section put.
Context (sb : superblock) (g : geometry) (a : astore) (l : list Z) (off : Z) (src : list Z).
Hypothesis W : ∀ b, wf_block (a_view a b).
Hypothesis F : fs_ok sb g a.
Hypothesis A : addrs_ok sb g (a_view a) l.
Hypothesis Hoff : 0 <= off.
Hypothesis Hsrc : (0 < length src)%nat.

Local Abbreviation m := (chunk off (Z.of_nat (length src))).
Local Abbreviation p := (ptr (a_view a) l (slot (off / BSIZE))).
Hypothesis Hbn : 0 <= off / BSIZE < MAXFILE.
Hypothesis Hp : p ≠ 0.

(** The block after the copy. *)
Definition chunk_block_data : block :=
  splice (Z.to_nat (off mod BSIZE)) (take (Z.to_nat m) src) (a_view a p).

Local Abbreviation a' := (a_update p chunk_block_data a).

Lemma put_ptr j : 0 <= j < NSLOT → ptr (a_view a') l j = ptr (a_view a) l j.
Proof.
  intros Hj. apply ptr_ext. intros Hi. cbn [a_view a_update]. apply view_set_ne. intros E.
  destruct (slot_range _ Hbn) as [Hs Hne].
  apply Hne. symmetry. apply (ao_inj _ _ _ _ A NDIRECT (slot (off / BSIZE))); [done|done| |].
  - by rewrite ptr_direct.
  - by rewrite ptr_direct.
Qed.

Lemma put_data : data_block sb g p ∧ used sb (a_view a) p = true.
Proof. destruct (slot_range _ Hbn) as [Hs _]. by apply (ao_data _ _ _ _ A). Qed.

Lemma put_used x : 0 <= x < g_size g → used sb (a_view a') x = used sb (a_view a) x.
Proof.
  intros Hx. apply used_ext. cbn [a_view a_update]. apply view_set_ne. intros E.
  by apply (proj1 (proj2 (proj1 put_data)) x).
Qed.

Lemma put_take : length (take (Z.to_nat m) src) = Z.to_nat m.
Proof. destruct (chunk_bounds off (Z.of_nat (length src))); [lia|]. rewrite length_take. lia. Qed.

Lemma put_fits : (Z.to_nat (off mod BSIZE) + length (take (Z.to_nat m) src) ≤ length (a_view a p))%nat.
Proof.
  rewrite put_take. destruct (W p) as [-> _].
  destruct (chunk_bounds off (Z.of_nat (length src))) as [? Hc]; [lia|].
  pose proof (Z.mod_pos_bound off BSIZE). change BSIZE with 512 in *. lia.
Qed.

Lemma put_byte i :
  0 <= i < MAXFILE * BSIZE →
  byte_of (a_view a') l i =
    if decide (off <= i < off + m) then src !!! Z.to_nat (i - off) else byte_of (a_view a) l i.
Proof.
  intros Hi. destruct (chunk_bounds off (Z.of_nat (length src))) as [Hm Hm']; [lia|].
  assert (Hib : 0 <= i / BSIZE < MAXFILE) by (change BSIZE with 512 in *; dlia).
  destruct (slot_range _ Hib) as [Hs _].
  unfold byte_of. rewrite put_ptr by done. set (q := ptr (a_view a) l (slot (i / BSIZE))).
  destruct (decide (i / BSIZE = off / BSIZE)) as [E|E].
  - assert (q = p) as -> by (subst q; by rewrite E). rewrite (proj2 (Z.eqb_neq p 0)) by done.
    cbn [a_view a_update]. rewrite view_set_eq. unfold chunk_block_data.
    rewrite list_lookup_total_alt, lookup_splice, put_take by apply put_fits.
    pose proof (Z.mod_pos_bound off BSIZE). pose proof (Z.mod_pos_bound i BSIZE).
    change BSIZE with 512 in *. repeat case_decide; try dlia.
    + rewrite lookup_take_lt by dlia. rewrite <-list_lookup_total_alt. f_equal. dlia.
    + by rewrite <-list_lookup_total_alt.
  - rewrite decide_False.
    + destruct (Z.eqb_spec q 0) as [|Hq]; [done|]. cbn [a_view a_update].
      rewrite view_set_ne; [done|]. intros Eq. apply E, slot_inj.
      destruct (slot_range _ Hbn) as [Hs' _]. by apply (ao_inj _ _ _ _ A).
    + intros Hin. apply E. destruct (chunk_block off (Z.of_nat (length src)) (i - off)) as [Eb _]; [lia..|].
      by replace (off + (i - off)) with i in Eb by lia.
Qed.
Lemma wf_chunk_data : Forall is_byte src → wf_block chunk_block_data.
Proof.
  intros Hb. destruct (W p) as [Hl Hf]. split.
  - unfold chunk_block_data. rewrite length_splice by apply put_fits. done.
  - apply Forall_splice; [done|by apply Forall_take].
Qed.

Lemma put_addrs_ok : addrs_ok sb g (a_view a') l.
Proof.
  split; [apply A| |].
  - intros j Hj. rewrite put_ptr by done. intros Hpj. destruct (ao_data _ _ _ _ A j Hj Hpj) as [Hd Hu].
    split; [done|]. rewrite put_used; [done|by eapply data_block_range].
  - intros j j' Hj Hj'. rewrite !put_ptr by done. by apply (ao_inj _ _ _ _ A).
Qed.

Lemma put_fs_ok : fs_ok sb g a'.
Proof.
  destruct F as [L Hg Hm Hh]. split; [done|done| |].
  - intros b Hb Hf. rewrite put_used in Hf by done. by apply Hm.
  - intros b Hb. destruct (Hh b Hb) as (Hr & Hu & Hx). split; [done|]. split; [|done].
    rewrite put_used; [done|]. unfold a_size in Hr. by rewrite Hg in Hr.
Qed.

Lemma put_nfree : nfree sb g (a_view a') = nfree sb g (a_view a).
Proof.
  unfold nfree. f_equal. apply set_eq. intros x. rewrite !elem_of_free_set.
  split; intros [Hx Hu]; (split; [done|]); [rewrite <-put_used|rewrite put_used]; done.
Qed.

Lemma put_other b :
  other_block sb g (a_view a) l b →
  a_view a' b = a_view a b ∧ other_block sb g (a_view a') l b.
Proof.
  intros (Hd & Hu & Hb). destruct (slot_range _ Hbn) as [Hs _]. split.
  - cbn [a_view a_update]. apply view_set_ne. intros E. by apply (Hb _ Hs).
  - split_and!; [done| |].
    + rewrite put_used; [done|by eapply data_block_range].
    + intros k Hk. rewrite put_ptr by done. by apply Hb.
Qed.

Lemma put_inodes i : 0 <= i < sb_ninodes sb → a_view a' (IBLOCK i sb) = a_view a (IBLOCK i sb).
Proof.
  intros Hi. cbn [a_view a_update]. apply view_set_ne. intros E.
  by apply (proj2 (proj2 (proj1 put_data)) i).
Qed.
End put.

(** One iteration of [writei]: grow, then copy a chunk. *)
Lemma written_chunk sb g off src n a l a1 l1 :
  let m := chunk off (Z.of_nat (length src)) in
  let p := ptr (a_view a1) l1 (slot (off / BSIZE)) in
  grown sb g n a l a1 l1 → (n ≤ 2)%nat → (∀ b, wf_block (a_view a1 b)) →
  0 <= off → (0 < length src)%nat → 0 <= off / BSIZE < MAXFILE → p ≠ 0 →
  written sb g off (take (Z.to_nat m) src) a l
    (a_update p (chunk_block_data a1 l1 off src) a1) l1.
Proof.
  intros m p [A1 F1 Hby Hma Hfr Hot Hin Hhe Hro] Hn W Hoff Hsrc Hbn Hp. subst p.
  pose proof (put_take off src Hsrc) as Hlen. fold m in Hlen.
  destruct (chunk_bounds off (Z.of_nat (length src))) as [Hm _]; [lia|]. fold m in Hm.
  assert (Hlm : Z.of_nat (length (take (Z.to_nat m) src)) = m) by lia.
  assert (Hnb : nblocks off m = 1%nat).
  { rewrite nblocks_chunk by lia. unfold nblocks. subst m. unfold chunk.
    rewrite (proj2 (Z.leb_le _ 0)); [done|]. lia. }
  split; rewrite ?Hlm, ?Hnb.
  - intros i Hi. rewrite (put_byte sb g a1 l1 off src W A1 Hoff Hsrc Hbn Hp i Hi). fold m.
    case_decide; [|by apply Hby]. rewrite !list_lookup_total_alt, lookup_take_lt by lia. done.
  - intros j Hj Hpj. rewrite (put_ptr sb g) by done. by apply Hma.
  - intros i Hi. assert (E : i / BSIZE = off / BSIZE).
    { destruct (chunk_block off (Z.of_nat (length src)) (i - off)) as [Eb _]; [lia..|].
      by replace (off + (i - off)) with i in Eb by lia. }
    rewrite E, (put_ptr sb g) by (done || by apply slot_range). done.
  - intros b Hb. destruct (Hot b Hb) as [E Hb'].
    destruct (put_other sb g a1 l1 off src A1 Hbn Hp b Hb') as [E' ?]. by rewrite E', E.
  - intros i Hi. rewrite (put_inodes sb g a1 l1 off src A1 Hbn Hp i Hi). by apply Hin.
  - done.
  - rewrite (put_nfree sb g a1 l1 off src A1 Hbn Hp). lia.
  - intros k Hk. apply room_update, Hro. eapply room_le, Hk. lia.
Qed.

Lemma written_app sb g off src1 src2 a l a1 l1 a2 l2 :
  written sb g off src1 a l a1 l1 →
  written sb g (off + Z.of_nat (length src1)) src2 a1 l1 a2 l2 →
  nblocks off (Z.of_nat (length (src1 ++ src2))) =
    (nblocks off (Z.of_nat (length src1)) +
     nblocks (off + Z.of_nat (length src1)) (Z.of_nat (length src2)))%nat →
  (∀ i, off <= i < off + Z.of_nat (length src1) → 0 <= i / BSIZE < MAXFILE) →
  written sb g off (src1 ++ src2) a l a2 l2.
Proof.
  intros [B1 M1 N1 O1 I1 H1 F1 R1] [B2 M2 N2 O2 I2 H2 F2 R2] Hnb Hrange.
  rewrite length_app in *. split; rewrite ?length_app, ?Hnb.
  - intros i Hi. rewrite B2, B1 by done. repeat case_decide; try lia; try done.
    + rewrite lookup_total_app_r by lia. f_equal. lia.
    + rewrite lookup_total_app_l by lia. done.
  - intros j Hj Hp. rewrite M2, M1 by (done || by rewrite M1). done.
  - intros i Hi. destruct (decide (i < off + Z.of_nat (length src1))).
    + assert (0 <= i / BSIZE < MAXFILE) as [Hs _]%slot_range by (apply Hrange; lia).
      rewrite M2; [apply N1; lia|done|apply N1; lia].
    + apply N2. lia.
  - intros b Hb. destruct (O1 b Hb) as [E1 Hb1]. destruct (O2 b Hb1) as [E2 ?]. by rewrite E2, E1.
  - intros i Hi. by rewrite I2, I1.
  - by rewrite H2.
  - lia.
  - intros n Hn. apply R2, R1. eapply room_le, Hn. lia.
Qed.

Lemma written_nil sb g off a l : written sb g off [] a l a l.
Proof.
  split; try done; cbn.
  - intros i Hi. by rewrite decide_False by lia.
  - intros i Hi. lia.
  - lia.
  - intros n. by rewrite Nat.add_0_r.
Qed.

Section write.
Context {T : Type} `{!BlockLayer T}.
Context (sb : superblock) (g : geometry).
Implicit Types s : fs T.

Local Abbreviation file_at := (file_at sb g).

(** One iteration of the loop of [writei]. *)
Lemma writei_iter s a ip x off src {B} (k : M (fs T) B) Q :
  let m := chunk off (Z.of_nat (length src)) in
  file_at s a ip x → a_held a = ∅ → room 8 a → (2 ≤ nfree sb g (a_view a))%nat →
  Forall is_byte src → 0 <= off → (0 < length src)%nat → 0 <= off / BSIZE < MAXFILE →
  (∀ s' a' l', file_at s' a' ip (with_addrs l' x) →
    f_icache s' = <[ip := with_addrs l' x]> (f_icache s) →
    written sb g off (take (Z.to_nat m) src) a (i_addrs x) a' l' → wp k Q s') →
  wp (addr ← bmap ip (off / BSIZE);
      bp ← bread (i_dev x) addr;
      d ← b_data bp;
      set_data bp (splice (Z.to_nat (off mod BSIZE)) (take (Z.to_nat m) src) d);;
      log_write bp;;
      brelse bp;;
      k) Q s.
Proof.
  intros m FA Hh Hroom Hfree Hbytes Hoff Hsrc Hbn Hk. apply wp_bind.
  eapply wp_mono; [by apply (bmap_spec sb g s a ip x _ FA)|].
  intros r s1 (n & a1 & l1 & Hn & G & -> & Hr).
  pose proof (grown_to_file _ _ _ _ _ _ _ _ _ _ FA G) as FA1.
  destruct G as (Gs & R1 & Hsb1 & Hic1).
  pose proof (grows_grown _ _ _ _ _ Gs (fa_fs _ _ _ _ _ _ FA) (fa_addrs _ _ _ _ _ _ FA)) as Gn.
  cbn [fst snd] in Gn. pose proof Gn as [A1 F1 _ _ _ _ _ Hh1 Hro1].
  destruct (slot_data sb g s1 a1 ip _ (off / BSIZE) FA1 Hbn Hr) as [Hd Hrange].
  cbn [i_addrs with_addrs] in Hd, Hrange.
  assert (W1 : ∀ b, wf_block (a_view a1 b)) by (intros b; by apply (bl_wf (f_st s1))).
  assert (Hroom1 : room 2 a1) by (apply Hro1; eapply room_le, Hroom; lia).
  rewrite (fa_dev _ _ _ _ _ _ FA).
  eapply bread_rule; [exact R1|exact Hrange|by rewrite Hh1, Hh|by eapply room_le, Hroom1; lia|].
  intros i s2 R2 K2. eapply data_rule; [exact R2|apply lookup_insert_eq|]. cbn [a_view a_hold].
  eapply put_rule; [exact R2|by rewrite Hh1, Hh| |by rewrite (fo_geo _ _ _ F1); apply Hd|done|].
  { by apply (wf_chunk_data a1 l1 off src). }
  intros s3 R3 K3. pose proof (kept_trans _ _ _ K2 K3) as [E1 E2].
  eapply (Hk s3 _ l1); [| |by apply (written_chunk sb g off src n)].
  - split; [exact R3|congruence|by apply put_fs_ok| |apply FA|by apply put_addrs_ok].
    rewrite E2, Hic1. apply list_lookup_insert_eq. eapply lookup_lt_Some, FA.
  - by rewrite E2.
Qed.

Lemma writei_loop_spec fuel s a ip x off src :
  let len := Z.of_nat (length src) in
  file_at s a ip x → a_held a = ∅ → room (8 + 7 * nblocks off len) a →
  (2 * nblocks off len ≤ nfree sb g (a_view a))%nat → Forall is_byte src → 0 <= off →
  off + len <= MAXFILE * BSIZE → (length src < fuel)%nat →
  wp (writei_loop fuel ip off src) (λ r s', r = off + len ∧ ∃ a' l',
    file_at s' a' ip (with_addrs l' x) ∧
    f_icache s' = <[ip := with_addrs l' x]> (f_icache s) ∧
    written sb g off src a (i_addrs x) a' l') s.
Proof.
  revert s a x off src. induction fuel as [|fuel IH];
    intros s a x off src len FA Hh Hroom Hfree Hbytes Hoff Hmax Hfuel; [lia|].
  cbn [writei_loop]. destruct src as [|c src0].
  { apply wp_ret. split; [subst len; cbn; lia|]. exists a, (i_addrs x).
    rewrite with_addrs_id. split; [done|]. split; [|apply written_nil].
    by rewrite list_insert_id by apply FA. }
  set (src := c :: src0) in *. eapply get_inode_rule; [apply FA|].
  assert (Hlen : 0 < len) by (subst len src; cbn; lia).
  assert (Hnb := nblocks_chunk off len Hoff Hlen). fold len. fold (chunk off len).
  set (m := chunk off len) in *. destruct (chunk_bounds off len Hlen) as [Hm _]. fold m in Hm.
  assert (Hbn : 0 <= off / BSIZE < MAXFILE) by (change BSIZE with 512 in *; dlia).
  apply (writei_iter s a ip x off src); try done; [by eapply room_le, Hroom; lia|lia|lia|].
  fold len m. intros s1 a1 l1 FA1 Hic1 W1.
  assert (Hlt : Z.of_nat (length (take (Z.to_nat m) src)) = m) by (rewrite length_take; lia).
  assert (Hld : Z.of_nat (length (drop (Z.to_nat m) src)) = len - m) by (rewrite length_drop; lia).
  assert (Hnb1 : nblocks off m = 1%nat).
  { rewrite nblocks_chunk by lia. unfold nblocks, m, chunk.
    by rewrite (proj2 (Z.leb_le _ 0)) by lia. }
  eapply wp_mono; [apply (IH s1 a1 (with_addrs l1 x) (off + m) (drop (Z.to_nat m) src))|].
  - done.
  - by rewrite (wr_held _ _ _ _ _ _ _ _ W1).
  - rewrite Hld. apply (wr_room _ _ _ _ _ _ _ _ W1). rewrite Hlt. eapply room_le, Hroom. lia.
  - rewrite Hld. pose proof (wr_free _ _ _ _ _ _ _ _ W1). rewrite Hlt in *. lia.
  - by apply Forall_drop.
  - lia.
  - lia.
  - rewrite length_drop. lia.
  - intros r s2 (-> & a2 & l2 & FA2 & Hic2 & W2). rewrite Hld. split; [lia|].
    exists a2, l2. split; [done|]. split; [by rewrite Hic2, Hic1, list_insert_insert_eq|].
    rewrite <-(take_drop (Z.to_nat m) src). eapply written_app; [done|by rewrite Hlt| |].
    + rewrite take_drop, Hlt, Hld. fold len. lia.
    + intros i Hi. rewrite Hlt in Hi. change BSIZE with 512 in *. dlia.
Qed.
End write.

(** ** Updating the inode of a file *)

Section inode_update.
Context (sb : superblock) (g : geometry) (a : astore) (inum : Z) (di : dinode).
Hypothesis L : layout_ok sb g.
Hypothesis Hin : 0 <= inum < sb_ninodes sb.

Lemma iput_data b : data_block sb g b → a_view (a_iput sb inum di a) b = a_view a b.
Proof.
  intros (_ & _ & Hb). unfold a_iput. cbn [a_view a_update]. apply view_set_ne.
  intros E. by apply (Hb inum Hin).
Qed.

Lemma iput_used x : 0 <= x < g_size g → used sb (a_view (a_iput sb inum di a)) x = used sb (a_view a) x.
Proof.
  intros Hx. apply used_ext. unfold a_iput. cbn [a_view a_update]. apply view_set_ne.
  by apply (ly_apart _ _ L).
Qed.

Lemma iput_ptr l k :
  addrs_ok sb g (a_view a) l → ptr (a_view (a_iput sb inum di a)) l k = ptr (a_view a) l k.
Proof.
  intros A. apply ptr_ext. intros Hi. apply iput_data.
  destruct (ao_data _ _ _ _ A NDIRECT) as [Hd _]; [done|by rewrite ptr_direct|].
  by rewrite ptr_direct in Hd.
Qed.

Lemma iput_addrs_ok l :
  addrs_ok sb g (a_view a) l → addrs_ok sb g (a_view (a_iput sb inum di a)) l.
Proof.
  intros A. split; [apply A| |].
  - intros k Hk. rewrite iput_ptr by done. intros Hp. destruct (ao_data _ _ _ _ A k Hk Hp) as [Hd Hu].
    split; [done|]. rewrite iput_used; [done|by eapply data_block_range].
  - intros k k' Hk Hk'. rewrite !iput_ptr by done. by apply (ao_inj _ _ _ _ A).
Qed.

Lemma iput_fs_ok : fs_ok sb g a → fs_ok sb g (a_iput sb inum di a).
Proof.
  intros [_ Hg Hm Hh]. split; [done|done| |].
  - intros b Hb Hf. rewrite iput_used in Hf by done. by apply Hm.
  - intros b Hb. destruct (Hh b Hb) as (Hr & Hu & Hx). split; [done|]. split; [|done].
    rewrite iput_used; [done|]. unfold a_size in Hr. by rewrite Hg in Hr.
Qed.

Lemma iput_byte_of l i :
  addrs_ok sb g (a_view a) l → 0 <= i < MAXFILE * BSIZE →
  byte_of (a_view (a_iput sb inum di a)) l i = byte_of (a_view a) l i.
Proof.
  intros A Hi. unfold byte_of. rewrite iput_ptr by done.
  destruct (Z.eqb_spec (ptr (a_view a) l (slot (i / BSIZE))) 0) as [|Hp]; [done|].
  rewrite iput_data; [done|]. apply (ao_data _ _ _ _ A); [|done].
  apply slot_range. change BSIZE with 512 in *. dlia.
Qed.

Lemma iput_other l b :
  addrs_ok sb g (a_view a) l → other_block sb g (a_view a) l b →
  a_view (a_iput sb inum di a) b = a_view a b ∧ other_block sb g (a_view (a_iput sb inum di a)) l b.
Proof.
  intros A (Hd & Hu & Hp). split; [by apply iput_data|]. split_and!; [done| |].
  - rewrite iput_used; [done|by eapply data_block_range].
  - intros k Hk. rewrite iput_ptr by done. by apply Hp.
Qed.
End inode_update.

(** ** writei *)

(** The state after [writei] stored [src] at [off] in the file [x]. *)
Record wrote_file {T} `{!BlockLayer T} (sb : superblock) (g : geometry) (ip : nat) (x : inode)
    (off : Z) (src : list Z) (a : astore) (s' : fs T) (a' : astore) (x' : inode) : Prop := {
  wf_at : file_at sb g s' a' ip x';
  wf_same : i_type x' = i_type x ∧ i_inum x' = i_inum x ∧ i_nlink x' = i_nlink x ∧
    i_ref x' = i_ref x ∧ i_lock x' = i_lock x;
  wf_size : i_size x' = Z.max (i_size x) (off + Z.of_nat (length src));
  wf_mapped : mapped (a_view a') (i_addrs x') (i_size x');
  wf_bytes i : 0 <= i < MAXFILE * BSIZE → byte_of (a_view a') (i_addrs x') i =
    if decide (off <= i < off + Z.of_nat (length src)) then src !!! Z.to_nat (i - off)
    else byte_of (a_view a) (i_addrs x) i;
  wf_other b : other_block sb g (a_view a) (i_addrs x) b →
    a_view a' b = a_view a b ∧ other_block sb g (a_view a') (i_addrs x') b;
  wf_inodes i : 0 <= i < sb_ninodes sb → i ≠ i_inum x →
    disk_inode sb (a_view a') i = disk_inode sb (a_view a) i;
  wf_inode : i_size x < off + Z.of_nat (length src) →
    disk_inode sb (a_view a') (i_inum x) = dinode_of x';
  wf_held : a_held a' = a_held a;
  wf_room n : room (n + 1 + 7 * nblocks off (Z.of_nat (length src))) a → room n a' }.

Definition meta_ok (x : inode) : Prop :=
  is_s16 (i_type x) ∧ is_s16 (i_major x) ∧ is_s16 (i_minor x) ∧ is_s16 (i_nlink x).

Lemma addrs_u32 sb g v l : layout_ok sb g → addrs_ok sb g v l → Forall is_u32 l.
Proof.
  intros L A. apply Forall_lookup. intros k b Hb.
  pose proof (lookup_lt_Some _ _ _ Hb) as Hk. rewrite (ao_len _ _ _ _ A) in Hk.
  assert (E : ptr v l (Z.of_nat k) = b).
  { rewrite ptr_direct by (change NDIRECT with 12; lia). rewrite Nat2Z.id.
    by apply list_lookup_total_correct. }
  unfold is_u32. destruct (decide (b = 0)) as [->|Hne]; [lia|].
  destruct (ao_data _ _ _ _ A (Z.of_nat k)) as [Hd _]; [|by rewrite E|].
  - unfold NSLOT. change NDIRECT with 12. change NINDIRECT with 128. lia.
  - rewrite E in Hd. apply data_block_range in Hd. pose proof (ly_int _ _ L). lia.
Qed.

Lemma wf_dinode_of sb g v x :
  layout_ok sb g → addrs_ok sb g v (i_addrs x) → meta_ok x → 0 <= i_size x < 2 ^ 32 →
  wf_dinode (dinode_of x).
Proof.
  intros L A (? & ? & ? & ?) Hs. repeat (split; [done|]).
  split; [apply A|by eapply addrs_u32].
Qed.

Lemma mapped_mono v l n n' : n' <= n → mapped v l n → mapped v l n'.
Proof. intros Hn H bn Hb Hlt. apply H; lia. Qed.

Section writei.
Context {T : Type} `{!BlockLayer T}.
Context (sb : superblock) (g : geometry).
Variable devsw_write : Z → option (nat → list Z → M (fs T) Z).
Implicit Types s : fs T.

(** The blocks of the file after the loop. *)
Lemma written_maps off src a l a' l' size :
  written sb g off src a l a' l' → mapped (a_view a) l size → 0 <= off <= size →
  size <= MAXFILE * BSIZE → off + Z.of_nat (length src) <= MAXFILE * BSIZE →
  mapped (a_view a') l' (Z.max size (off + Z.of_nat (length src))).
Proof.
  intros W Hmap Hoff Hs Hmax bn Hbn Hlt.
  assert (Hr : 0 <= slot bn < NSLOT) by (apply slot_range; change BSIZE with 512 in *; lia).
  destruct (decide (bn * BSIZE < size)) as [Hold|Hnew].
  - rewrite (wr_mapped _ _ _ _ _ _ _ _ W); [by apply Hmap|done|by apply Hmap].
  - pose proof (wr_new _ _ _ _ _ _ _ _ W (bn * BSIZE)) as H.
    rewrite Z.div_mul in H by done. apply H. lia.
Qed.

(** The last part of [writei] when the file grows, ... *)
Lemma writei_grow s a ip x off src s1 a1 l1 :
  let n := Z.of_nat (length src) in
  written sb g off src a (i_addrs x) a1 l1 → file_at sb g s1 a1 ip (with_addrs l1 x) →
  a_held a = ∅ → room 2 a1 → meta_ok x → 0 <= i_inum x < sb_ninodes sb →
  mapped (a_view a) (i_addrs x) (i_size x) → 0 <= off <= i_size x →
  i_size x <= MAXFILE * BSIZE → off + n <= MAXFILE * BSIZE → i_size x < off + n →
  wp (upd_inode ip (with_size (off + n));; iupdate ip)
    (λ _ s', ∃ a' x', wrote_file sb g ip x off src a s' a' x') s1.
Proof.
  intros n W FA Hh Hroom Hmeta Hin Hmap Hoff Hs Hmax Hgrow.
  pose proof FA as [R1 Hsb1 F1 Hip1 Hdev1 A1]. cbn [i_addrs with_addrs] in A1.
  pose proof (written_maps off src _ _ _ _ _ W Hmap Hoff Hs Hmax) as Hmap1.
  pose proof (fo_layout _ _ _ F1) as L.
  eapply upd_inode_rule; [done|]. set (y := with_size (off + n) (with_addrs l1 x)).
  assert (Hwy : wf_dinode (dinode_of y)).
  { apply (wf_dinode_of sb g (a_view a1)); try done. cbn.
    change (MAXFILE * BSIZE) with 71680 in Hmax. lia. }
  eapply wp_mono; [eapply (iupdate_spec sb g a1 _ ip y); try done|].
  + apply F1.
  + cbn. apply list_lookup_insert_eq. by eapply lookup_lt_Some.
  + apply A1.
  + by rewrite (wr_held _ _ _ _ _ _ _ _ W), Hh.
  + intros [] s2 [R2 [K1 K2]].
    eexists _, y. split.
    * split; [exact R2|by rewrite K1|by apply iput_fs_ok| |done|by apply iput_addrs_ok].
      rewrite K2. cbn. apply list_lookup_insert_eq. by eapply lookup_lt_Some.
    * done.
    * cbn. fold n. lia.
    * intros bn Hb Hlt. rewrite (iput_ptr sb g) by done. apply Hmap1; [done|]. cbn in *. fold n. lia.
    * intros i Hi. rewrite (iput_byte_of sb g) by done. by apply (wr_byte _ _ _ _ _ _ _ _ W).
    * intros b Hb. destruct (wr_other _ _ _ _ _ _ _ _ W b Hb) as [E Hb1].
      destruct (iput_other sb g a1 (i_inum y) (dinode_of y) L Hin l1 b A1 Hb1) as [E' ?].
      by rewrite E', E.
    * intros i Hi Hne. rewrite disk_inode_put by (done || intros; apply (bl_wf _ _ _ R1)).
      change (i_inum y) with (i_inum x). rewrite (proj2 (Z.eqb_neq i (i_inum x))) by done.
      unfold disk_inode. by rewrite (wr_inodes _ _ _ _ _ _ _ _ W).
    * intros _. rewrite disk_inode_put by (done || intros; apply (bl_wf _ _ _ R1)).
      change (i_inum y) with (i_inum x). by rewrite Z.eqb_refl.
    * cbn. apply (wr_held _ _ _ _ _ _ _ _ W).
    * intros k Hk. apply room_update, (wr_room _ _ _ _ _ _ _ _ W). eapply room_le, Hk. lia.
Qed.

(** ... and in general. *)
Lemma writei_finish s a ip x off src s1 a1 l1 :
  let n := Z.of_nat (length src) in
  written sb g off src a (i_addrs x) a1 l1 → file_at sb g s1 a1 ip (with_addrs l1 x) →
  a_held a = ∅ → room 2 a1 → meta_ok x → 0 <= i_inum x < sb_ninodes sb →
  mapped (a_view a) (i_addrs x) (i_size x) → 0 <= off <= i_size x → 0 < n →
  i_size x <= MAXFILE * BSIZE → off + n <= MAXFILE * BSIZE →
  wp (x ← get_inode ip;
      (if (0 <? n) && (off + n >? i_size x) then upd_inode ip (with_size (off + n));; iupdate ip
       else mret tt);;
      mret (s32 n))
    (λ r s', r = n ∧ ∃ a' x', wrote_file sb g ip x off src a s' a' x') s1.
Proof.
  intros n W FA Hh Hroom Hmeta Hin Hmap Hoff Hn Hs Hmax.
  pose proof FA as [R1 Hsb1 F1 Hip1 Hdev1 A1]. cbn [i_addrs with_addrs] in A1.
  assert (Es : s32 n = n).
  { unfold s32, signed. change (MAXFILE * BSIZE) with 71680 in Hmax.
    rewrite Z.mod_small by lia. by rewrite (proj2 (Z.ltb_lt _ _)) by lia. }
  pose proof (written_maps off src _ _ _ _ _ W Hmap Hoff Hs Hmax) as Hmap1.
  eapply get_inode_rule; [done|]. cbn [i_size with_addrs]. rewrite !Z.gtb_ltb.
  rewrite (proj2 (Z.ltb_lt 0 n)) by done. cbn [andb].
  destruct (Z.ltb_spec (i_size x) (off + n)) as [Hgrow|Hkeep]; apply wp_bind.
  - eapply wp_mono; [by apply (writei_grow s a ip x off src s1 a1 l1)|]. intros [] s2 Hw. by apply wp_ret.
  - apply wp_ret, wp_ret. split; [done|]. exists a1, (with_addrs l1 x). split; try done.
    + cbn. fold n. lia.
    + cbn. eapply mapped_mono, Hmap1. lia.
    + apply W.
    + apply W.
    + intros i Hi _. unfold disk_inode. by rewrite (wr_inodes _ _ _ _ _ _ _ _ W).
    + fold n. lia.
    + apply W.
    + intros k Hk. apply (wr_room _ _ _ _ _ _ _ _ W). eapply room_le, Hk. lia.
Qed.

Lemma writei_spec s a ip x off src :
  let n := Z.of_nat (length src) in
  file_at sb g s a ip x → a_held a = ∅ → room (9 + 7 * nblocks off n) a →
  (2 * nblocks off n ≤ nfree sb g (a_view a))%nat → Forall is_byte src →
  meta_ok x → i_type x ≠ T_DEV → 0 <= i_inum x < sb_ninodes sb →
  mapped (a_view a) (i_addrs x) (i_size x) → 0 <= off <= i_size x → 0 < n →
  i_size x <= MAXFILE * BSIZE → off + n <= MAXFILE * BSIZE →
  wp (writei devsw_write ip src off)
    (λ r s', r = n ∧ ∃ a' x', wrote_file sb g ip x off src a s' a' x') s.
Proof.
  intros n FA Hh Hroom Hfree Hbytes Hmeta Htype Hin Hmap Hoff Hn Hs Hmax.
  unfold writei. eapply get_inode_rule; [apply FA|]. fold n.
  rewrite (proj2 (Z.eqb_neq _ T_DEV)) by done.
  assert (E : u32 (off + n) = off + n).
  { unfold u32. apply Z.mod_small. change (MAXFILE * BSIZE) with 71680 in Hmax. lia. }
  rewrite E, !Z.gtb_ltb, (proj2 (Z.ltb_ge (i_size x) off)), (proj2 (Z.ltb_ge (off + n) off)) by lia.
  cbn [orb]. rewrite (proj2 (Z.ltb_ge _ _)) by done. apply wp_bind.
  eapply wp_mono; [eapply (writei_loop_spec sb g); try done; [|lia|lia]|].
  { fold n. eapply room_le, Hroom. lia. }
  intros r s1 (-> & a1 & l1 & FA1 & Hic & W). fold n.
  eapply (writei_finish s a ip x off src s1 a1 l1); try done.
  apply (wr_room _ _ _ _ _ _ _ _ W). fold n. eapply room_le, Hroom. lia.
Qed.
End writei.

(** ** Properties *)

(** C4: [writei] replaces exactly the bytes it is given.  On a file with
    room on disk and in the log it succeeds and returns the count; the
    bytes from [off] on are [src], all others are unchanged, the size
    grows to cover them and every block below it exists; blocks of other
    files are untouched; and when the size grew, the inode on disk is the
    one in memory while the other inodes are unchanged. *)
Theorem writei_replaces {T} `{!BlockLayer T} sb g dw (s : fs T) a ip x off src :
  let n := Z.of_nat (length src) in
  file_at sb g s a ip x → a_held a = ∅ → room (9 + 7 * nblocks off n) a →
  (2 * nblocks off n ≤ nfree sb g (a_view a))%nat → Forall is_byte src →
  meta_ok x → i_type x ≠ T_DEV → 0 <= i_inum x < sb_ninodes sb →
  mapped (a_view a) (i_addrs x) (i_size x) → 0 <= off <= i_size x → 0 < n →
  i_size x <= MAXFILE * BSIZE → off + n <= MAXFILE * BSIZE →
  ∃ s' a' x', writei dw ip src off s = Ret n s' ∧ wrote_file sb g ip x off src a s' a' x'.
Proof.
  intros n ? ? ? ? ? ? ? ? ? ? ? ? ?.
  destruct (wp_elim _ _ _ (writei_spec sb g dw s a ip x off src ltac:(done) ltac:(done) ltac:(done)
    ltac:(done) ltac:(done) ltac:(done) ltac:(done) ltac:(done) ltac:(done) ltac:(done) ltac:(done)
    ltac:(done) ltac:(done))) as (r & s' & E & -> & a' & x' & W).
  by exists s', a', x'.
Qed.

(** Reading back what was written.  After [writei] of [src] at [off],
    [readi] of as many bytes at [off] returns [src]. *)
Theorem writei_readi {T} `{!BlockLayer T} sb g dr dw (s : fs T) a ip x off src :
  let n := Z.of_nat (length src) in
  file_at sb g s a ip x → a_held a = ∅ → room (14 + 7 * nblocks off n) a →
  (2 * nblocks off n ≤ nfree sb g (a_view a))%nat → Forall is_byte src →
  meta_ok x → i_type x ≠ T_DEV → 0 <= i_inum x < sb_ninodes sb →
  mapped (a_view a) (i_addrs x) (i_size x) → 0 <= off <= i_size x → 0 < n →
  i_size x <= MAXFILE * BSIZE → off + n <= MAXFILE * BSIZE →
  ∃ s1 s2, writei dw ip src off s = Ret n s1 ∧ readi dr ip off n s1 = Ret (n, src) s2.
Proof.
  intros n FA Hh Hroom Hfree Hbytes Hmeta Htype Hin Hmap Hoff Hn Hs Hmax.
  destruct (wp_elim _ _ _ (writei_spec sb g dw s a ip x off src FA Hh
    (room_le (14 + 7 * nblocks off n) (9 + 7 * nblocks off n) a ltac:(lia) Hroom) Hfree Hbytes Hmeta Htype Hin Hmap Hoff Hn Hs Hmax))
    as (r & s1 & E & -> & a' & x' & W).
  pose proof W as [Wat (Wt & _) Wsz Wmap Wby _ _ _ Wh Wr]. fold n in Wsz, Wby, Wr.
  change (MAXFILE * BSIZE) with 71680 in *.
  destruct (wp_elim _ _ _ (readi_spec sb g dr s1 a' ip x' off n Wat
    ltac:(apply Wr; eapply room_le, Hroom; lia) ltac:(by rewrite Wh) ltac:(by rewrite Wt)
    ltac:(rewrite Wsz; change (MAXFILE * BSIZE) with 71680; lia) Wmap ltac:(lia) ltac:(lia) ltac:(lia)))
    as (r & s2 & E2 & -> & _).
  exists s1, s2. split; [done|]. rewrite E2. rewrite Z.min_l by lia. do 2 f_equal.
  apply file_slice_src. intros i Hi. rewrite Wby by (subst n; lia). by rewrite decide_True.
Qed.

(** The bytes [off .. off+n-1] start past the end of the file, or do not
    end below 4 GB. *)
Definition out_of_range (x : inode) (off n : Z) : Prop := i_size x < off ∨ 2 ^ 32 <= off + n.

(** Requests outside the file are refused without any change.  An
    offset past the end of the file or an end that does not fit in 32 bits
    makes [readi] and [writei] return -1; so does, for [writei], an end
    past the largest file. *)
Theorem rw_out_of_range {T} `{!BlockLayer T} dr dw (s : fs T) ip x off src :
  let n := Z.of_nat (length src) in
  f_icache s !! ip = Some x → i_type x ≠ T_DEV → 0 <= off < 2 ^ 32 → n < 2 ^ 32 →
  (out_of_range x off n → readi dr ip off n s = Ret (-1, []) s) ∧
  (out_of_range x off n ∨ MAXFILE * BSIZE < off + n → writei dw ip src off s = Ret (-1) s).
Proof.
  intros n Hx Ht Hoff Hn.
  assert (Hbad : out_of_range x off n →
    (off >? i_size x) || (u32 (off + n) <? off) = true).
  { intros [H|H]; [by rewrite Z.gtb_ltb, (proj2 (Z.ltb_lt _ _))|]. apply orb_true_iff. right.
    apply Z.ltb_lt. unfold u32. rewrite <-(Z_mod_plus_full _ (-1)), Z.mod_small; lia. }
  unfold readi, writei, mbind, M_bind, get_inode, gets, inode_at.
  rewrite (list_lookup_total_correct _ _ _ Hx), (proj2 (Z.eqb_neq _ T_DEV)) by done. fold n.
  split; [by intros H; rewrite Hbad|].
  intros H. destruct ((off >? i_size x) || (u32 (off + n) <? off)) eqn:E; [done|].
  destruct H as [H|H]; [discriminate (Hbad H)|].
  destruct (decide (2 ^ 32 <= off + n)); [discriminate (Hbad ltac:(by right))|].
  unfold u32. rewrite Z.mod_small by lia. by rewrite Z.gtb_ltb, (proj2 (Z.ltb_lt _ _)).
Qed.
