(* ===== verification/FsDir.v ===== *)
(** * Directories

    A directory is a file of 16-byte entries.  [dirlookup] finds the first
    entry in use with the name, [dirlink] adds one; the two agree. *)

From S2P Require Import Prelude Str Layout Sleeplock BlockLayer Fs FsBlock FsInode FsFile FsRw.

(** ** Names *)

(** The 14 bytes a directory entry holds for a name. *)
Definition cname (s : list Z) : list Z := strncpy_bytes (rd s) 0 (Z.to_nat DIRSIZ).

Lemma strncmp_loop_bytes n p q i :
  strncmp_loop p q i n = 0 ↔ strncpy_bytes p i n = strncpy_bytes q i n.
Proof.
  revert i; induction n as [|n IH]; intros i; [done|]. cbn [strncmp_loop strncpy_bytes].
  destruct (Z.eqb_spec (p i) 0) as [E|E]; cbn [negb andb].
  - destruct (Z.eqb_spec (q i) 0) as [E'|E']; cbn [negb]; [split; [done|lia]|].
    split; [lia|]. intros [= H]. congruence.
  - destruct (Z.eqb_spec (p i) (q i)) as [E'|E'].
    + rewrite <-E', (proj2 (Z.eqb_neq (p i) 0)) by done. cbn [negb]. rewrite IH.
      split; [by intros ->|by intros [= ->]].
    + split; [lia|]. destruct (Z.eqb_spec (q i) 0); cbn [negb]; intros [= H]; congruence.
Qed.

Lemma namecmp_zero s t : namecmp s t = 0 ↔ cname s = cname t.
Proof. apply strncmp_loop_bytes. Qed.

(** Truncating and padding a name twice is the same as once. *)
Lemma rd_cons c l k : 0 <= k → rd (c :: l) (1 + k) = rd l k.
Proof. intros Hk. unfold rd. by replace (Z.to_nat (1 + k)) with (S (Z.to_nat k)) by lia. Qed.

Lemma strncpy_bytes_idem t i n : strncpy_bytes (rd (strncpy_bytes t i n)) 0 n = strncpy_bytes t i n.
Proof.
  revert i; induction n as [|n IH]; intros i; [done|]. cbn [strncpy_bytes].
  destruct (t i =? 0) eqn:E; cbn [negb]; [done|].
  change (rd (t i :: strncpy_bytes t (i + 1) n) 0) with (t i). rewrite E. cbn [negb]. f_equal.
  rewrite (strncpy_bytes_ext _ (rd (strncpy_bytes t (i + 1) n)) (0 + 1) 0); [apply IH|].
  intros k Hk. apply rd_cons. lia.
Qed.

Lemma cname_idem s : cname (cname s) = cname s.
Proof. apply strncpy_bytes_idem. Qed.

Lemma length_cname s : length (cname s) = 14%nat.
Proof. apply length_strncpy_bytes. Qed.

(** ** Entries *)

Definition entry (v : Z → block) (l : list Z) (k : nat) : dirent :=
  dirent_at (file_slice v l (16 * Z.of_nat k) 16).

(** The entries of a directory of [n] bytes. *)
Definition entries (v : Z → block) (l : list Z) (n : Z) : list dirent :=
  entry v l <$> seq 0 (Z.to_nat (n / DIRENT_SIZE)).

(** The entry is in use and has the name. *)
Definition named (name : list Z) (de : dirent) : Prop :=
  de_inum de ≠ 0 ∧ cname (de_name de) = cname name.

#[global] Instance named_dec name de : Decision (named name de).
Proof. unfold named. apply _. Defined.

(** What a lookup finds: offset and inode number. *)
Definition found (name : list Z) (es : list dirent) : option (Z * Z) :=
  '(k, de) ← list_find (named name) es; Some (16 * Z.of_nat k, de_inum de).

Lemma entries_lookup v l n k :
  (k < Z.to_nat (n / DIRENT_SIZE))%nat → entries v l n !! k = Some (entry v l k).
Proof. intros Hk. unfold entries. by rewrite list_lookup_fmap, lookup_seq_lt. Qed.

Lemma length_entries v l n : length (entries v l n) = Z.to_nat (n / DIRENT_SIZE).
Proof. unfold entries. by rewrite length_fmap, length_seq. Qed.

(** The first entry that is not in use, or the end. *)
Definition free_slot (es : list dirent) : nat :=
  match list_find (λ de, de_inum de = 0) es with Some (k, _) => k | None => length es end.

(** Entry [k] set, where [k] may be the end. *)
Definition set_entry (k : nat) (de : dirent) (es : list dirent) : list dirent :=
  if decide (k < length es)%nat then <[k := de]> es else es ++ [de].

Lemma free_slot_le es : (free_slot es ≤ length es)%nat.
Proof.
  unfold free_slot. destruct (list_find _ _) as [[k de]|] eqn:E; [|done].
  apply list_find_Some in E as (H & _). apply lookup_lt_Some in H. lia.
Qed.

Lemma free_slot_free es de : es !! free_slot es = Some de → de_inum de = 0.
Proof.
  unfold free_slot. destruct (list_find _ _) as [[k d]|] eqn:E.
  - apply list_find_Some in E as (H & H0 & _). intros. by simplify_eq.
  - intros H%lookup_lt_Some. lia.
Qed.

Lemma dirent_at_bytes de :
  0 <= de_inum de < 2 ^ 16 → length (de_name de) = 14%nat → dirent_at (dirent_bytes de) = de.
Proof.
  destruct de as [inum nm]; cbn [de_inum de_name]. intros Hi Hn.
  unfold dirent_at, dirent_bytes, get16, slice. cbn [de_inum de_name].
  rewrite drop_0, take_app_length' by (by rewrite length_le_bytes).
  rewrite drop_app_length' by (by rewrite length_le_bytes).
  rewrite take_ge by lia. f_equal. change (2 ^ 16) with (256 ^ Z.of_nat 2) in Hi.
  by apply le_val_bytes_small.
Qed.

Lemma cname_byte s : Forall is_byte s → Forall is_byte (cname s).
Proof.
  intros Hs. assert (H : ∀ i, is_byte (rd s i)).
  { intros i. unfold rd. destruct (s !! Z.to_nat i) as [c|] eqn:E; [|done].
    by apply (Forall_lookup_1 _ _ _ _ Hs E). }
  unfold cname. generalize 0. induction (Z.to_nat DIRSIZ) as [|n IH]; intros i; [constructor|].
  cbn [strncpy_bytes]. destruct (negb _); [by constructor|]. by apply Forall_replicate.
Qed.

Section dir.
Context {T : Type} `{!BlockLayer T}.
Context (sb : superblock) (g : geometry).
Variable devsw_read : Z → option (nat → Z → M (fs T) (Z * list Z)).
Implicit Types s : fs T.

(** [x] is the inode of a directory. *)
Record dir_at s a (dp : nat) (x : inode) : Prop := {
  da_file : file_at sb g s a dp x;
  da_type : i_type x = T_DIR;
  da_size : 0 <= i_size x <= MAXFILE * BSIZE ∧ i_size x mod DIRENT_SIZE = 0;
  da_mapped : mapped (a_view a) (i_addrs x) (i_size x) }.

(** Reading one entry. *)
Lemma read_entry s a dp x k :
  dir_at s a dp x → room 5 a → a_held a = ∅ → (k < Z.to_nat (i_size x / DIRENT_SIZE))%nat →
  wp (readi devsw_read dp (16 * Z.of_nat k) DIRENT_SIZE) (λ r s',
    r.1 = DIRENT_SIZE ∧ dirent_at r.2 = entry (a_view a) (i_addrs x) k ∧ shows s' a ∧ kept s s') s.
Proof.
  intros [FA Ht [Hs Hm] Hmap] Hroom Hh Hk. change DIRENT_SIZE with 16 in *.
  change (MAXFILE * BSIZE) with 71680 in Hs.
  eapply wp_mono; [apply (readi_spec sb g devsw_read s a dp x); try done; [|dlia..]|].
  { by rewrite Ht. }
  intros [r out] s' ([= -> ->] & R & K). rewrite Z.min_l by dlia. by split_and!.
Qed.

Lemma dir_at_kept s s' a dp x : dir_at s a dp x → shows s' a → kept s s' → dir_at s' a dp x.
Proof. intros [FA ? ? ?] R K. split; try done. by eapply file_at_kept. Qed.

Lemma dirlookup_loop_spec fuel s a dp x name k :
  let n := Z.to_nat (i_size x / DIRENT_SIZE) in
  dir_at s a dp x → room 5 a → a_held a = ∅ → (k ≤ n)%nat → (n - k < fuel)%nat →
  (∀ j, (j < k)%nat → ¬ named name (entry (a_view a) (i_addrs x) j)) →
  wp (dirlookup_loop devsw_read fuel dp name (16 * Z.of_nat k)) (λ r s',
    r = found name (entries (a_view a) (i_addrs x) (i_size x)) ∧ shows s' a ∧ kept s s') s.
Proof.
  intros n. revert s k. induction fuel as [|fuel IH]; intros s k DA Hroom Hh Hk Hfuel Hno; [lia|].
  cbn [dirlookup_loop]. pose proof DA as [FA Ht [Hs Hm] Hmap].
  change (MAXFILE * BSIZE) with 71680 in Hs. eapply get_inode_rule; [apply FA|].
  destruct (Z.ltb_spec (16 * Z.of_nat k) (i_size x)) as [Hlt|Hge]; cbn [negb].
  - assert (Hkn : (k < n)%nat) by (subst n; change DIRENT_SIZE with 16 in *; dlia).
    apply wp_bind. eapply wp_mono; [by apply (read_entry s a dp x k DA)|].
    intros [r bytes] s1 (E1 & E2 & R1 & K1). cbn [fst snd] in E1, E2.
    rewrite E1, E2, Z.eqb_refl. cbn [negb].
    pose proof (dir_at_kept _ _ _ _ _ DA R1 K1) as DA1.
    set (e := entry (a_view a) (i_addrs x) k) in *.
    assert (Hnext : u32 (16 * Z.of_nat k + DIRENT_SIZE) = 16 * Z.of_nat (S k)).
    { unfold u32. change DIRENT_SIZE with 16. rewrite Z.mod_small; lia. }
    assert (Hstep : ¬ named name e → wp (dirlookup_loop devsw_read fuel dp name
      (u32 (16 * Z.of_nat k + DIRENT_SIZE))) (λ r s',
        r = found name (entries (a_view a) (i_addrs x) (i_size x)) ∧ shows s' a ∧ kept s s') s1).
    { intros Hne. rewrite Hnext. eapply wp_mono; [apply (IH s1 (S k) DA1 Hroom Hh); [lia|lia|]|].
      - intros j Hj. destruct (decide (j = k)) as [->|]; [done|]. apply Hno. lia.
      - intros r2 s2 (-> & R2 & K2). split_and!; [done|done|by eapply kept_trans..]. }
    destruct (Z.eqb_spec (de_inum e) 0) as [H0|H0]; [by apply Hstep; intros [? _]|].
    destruct (Z.eqb_spec (namecmp name (de_name e)) 0) as [Hn|Hn].
    + apply wp_ret. split; [|done]. apply namecmp_zero in Hn. unfold found.
      erewrite (proj2 (list_find_Some _ _ k e)); [done|]. split_and!.
      * by apply entries_lookup.
      * by split.
      * intros j y Hy Hj. rewrite entries_lookup in Hy by lia. injection Hy as <-. by apply Hno.
    + apply Hstep. intros [_ E]. apply Hn, namecmp_zero. done.
  - apply wp_ret. split; [|split; [apply FA|done]]. unfold found.
    rewrite (proj2 (list_find_None _ _)); [done|]. apply Forall_lookup. intros j y Hy.
    pose proof (lookup_lt_Some _ _ _ Hy) as Hj. rewrite length_entries in Hj.
    rewrite entries_lookup in Hy by done. injection Hy as <-. apply Hno.
    fold n in Hj. enough (n ≤ k)%nat by lia. subst n. change DIRENT_SIZE with 16 in *. dlia.
Qed.

(** [dirlookup] of a name. *)
Lemma dirlookup_spec s a dp x name :
  let es := entries (a_view a) (i_addrs x) (i_size x) in
  dir_at s a dp x → room 5 a → a_held a = ∅ →
  (∀ off inum, found name es = Some (off, inum) → has_slot (f_icache s) ROOTDEV inum) →
  wp (dirlookup devsw_read dp name) (λ r s', shows s' a ∧ f_sb s' = f_sb s ∧
    match found name es with
    | None => r = None ∧ f_icache s' = f_icache s
    | Some (off, inum) => ∃ ip, r = Some (ip, off) ∧ got_ref s s' ip ROOTDEV inum
    end) s.
Proof.
  intros es DA Hroom Hh Hslot. unfold dirlookup. eapply get_inode_rule; [apply DA|].
  rewrite (da_type _ _ _ _ DA), Z.eqb_refl. cbn [negb]. apply wp_bind.
  destruct (da_size _ _ _ _ DA) as [Hs _].
  eapply wp_mono; [apply (dirlookup_loop_spec _ s a dp x name 0); try done|].
  - lia.
  - change DIRENT_SIZE with 16. dlia.
  - intros; lia.
  - intros r s1 (-> & R1 & [K1 K2]). fold es.
    destruct (found name es) as [[off inum]|] eqn:E; [|by apply wp_ret].
    rewrite (fa_dev _ _ _ _ _ _ (da_file _ _ _ _ DA)). apply wp_bind.
    eapply wp_mono; [apply iget_spec; rewrite K2; by apply (Hslot off)|].
    intros ip s2 (y & Hy & Est & Esb & Hcase). apply wp_ret.
    split_and!; [unfold shows; by rewrite Est|congruence|]. exists ip. split; [done|].
    exists y. by rewrite K2 in Hy, Hcase.
Qed.
(** The scan of [dirlink]. *)
Lemma dirlink_scan_spec fuel s a dp x k :
  let es := entries (a_view a) (i_addrs x) (i_size x) in
  dir_at s a dp x → room 5 a → a_held a = ∅ → (k ≤ length es)%nat → (length es - k < fuel)%nat →
  (∀ j e, (j < k)%nat → es !! j = Some e → de_inum e ≠ 0) →
  wp (dirlink_scan devsw_read fuel dp (16 * Z.of_nat k)) (λ r s',
    r = 16 * Z.of_nat (free_slot es) ∧ shows s' a ∧ kept s s') s.
Proof.
  intros es. revert s k. induction fuel as [|fuel IH]; intros s k DA Hroom Hh Hk Hfuel Hno; [lia|].
  cbn [dirlink_scan]. pose proof DA as [FA Ht [Hs Hm] Hmap].
  change (MAXFILE * BSIZE) with 71680 in Hs. eapply get_inode_rule; [apply FA|].
  pose proof (length_entries (a_view a) (i_addrs x) (i_size x)) as Hlen. fold es in Hlen.
  destruct (Z.ltb_spec (16 * Z.of_nat k) (i_size x)) as [Hlt|Hge]; cbn [negb].
  - assert (Hkn : (k < length es)%nat) by (rewrite Hlen; change DIRENT_SIZE with 16 in *; dlia).
    apply wp_bind. eapply wp_mono; [by apply (read_entry s a dp x k DA Hroom Hh); rewrite <-Hlen|].
    intros [r bytes] s1 (E1 & E2 & R1 & K1). cbn [fst snd] in E1, E2.
    rewrite E1, E2, Z.eqb_refl. cbn [negb].
    assert (Hek : es !! k = Some (entry (a_view a) (i_addrs x) k)) by (apply entries_lookup; lia).
    destruct (Z.eqb_spec (de_inum (entry (a_view a) (i_addrs x) k)) 0) as [H0|H0].
    + apply wp_ret. split; [|done]. unfold free_slot.
      erewrite (proj2 (list_find_Some _ _ k _)); [done|]. split_and!; [exact Hek|done|].
      intros j y Hy Hj. by apply (Hno j y).
    + change DIRENT_SIZE with 16.
      replace (16 * Z.of_nat k + 16) with (16 * Z.of_nat (S k)) by lia.
      eapply wp_mono; [apply (IH s1 (S k) (dir_at_kept _ _ _ _ _ DA R1 K1) Hroom Hh); [lia|lia|]|].
      * intros j e Hj He. destruct (decide (j = k)) as [->|]; [congruence|].
        apply (Hno j e); [lia|done].
      * intros r2 s2 (-> & R2 & K2). split_and!; [done|done|by eapply kept_trans..].
  - apply wp_ret. split; [|split; [apply FA|done]].
    assert (k = length es) as -> by (rewrite Hlen; change DIRENT_SIZE with 16 in *; dlia).
    unfold free_slot. rewrite (proj2 (list_find_None _ _)); [done|]. apply Forall_lookup.
    intros j e He. apply (Hno j e); [by eapply lookup_lt_Some|done].
Qed.

End dir.

(** The entries after an entry was written. *)
Section entry_written.
Context {T : Type} `{!BlockLayer T}.
Context (sb : superblock) (g : geometry) (s' : fs T) (a a' : astore) (dp : nat) (x x' : inode).
Context (k : nat) (de : dirent).
Hypothesis W : wrote_file sb g dp x (16 * Z.of_nat k) (dirent_bytes de) a s' a' x'.
Hypothesis Hinum : 0 <= de_inum de < 2 ^ 16.
Hypothesis Hname : length (de_name de) = 14%nat.
Hypothesis Hmax : 16 * Z.of_nat k + 16 <= MAXFILE * BSIZE.
Hypothesis Hsm : 0 <= i_size x <= MAXFILE * BSIZE.

Lemma length_dirent_bytes : length (dirent_bytes de) = 16%nat.
Proof. unfold dirent_bytes. rewrite length_app, length_le_bytes. lia. Qed.

Lemma size_written : i_size x' = Z.max (i_size x) (16 * Z.of_nat k + 16).
Proof. rewrite (wf_size _ _ _ _ _ _ _ _ _ _ W), length_dirent_bytes. done. Qed.

Lemma entry_written j :
  (j < Z.to_nat (i_size x' / 16))%nat →
  entry (a_view a') (i_addrs x') j = if decide (j = k) then de else entry (a_view a) (i_addrs x) j.
Proof.
  intros Hj. pose proof length_dirent_bytes as Hdl. unfold entry. case_decide as Hjk.
  - subst j. transitivity (dirent_at (dirent_bytes de)); [|by apply dirent_at_bytes]. f_equal.
    pose proof (file_slice_src (a_view a') (i_addrs x') (16 * Z.of_nat k) (dirent_bytes de)) as F.
    rewrite Hdl in F. apply F. intros i Hi'.
    rewrite (wf_bytes _ _ _ _ _ _ _ _ _ _ W) by lia. rewrite Hdl. by rewrite decide_True by lia.
  - f_equal. apply file_slice_ext. intros i Hi'.
    assert (0 <= i < MAXFILE * BSIZE) by (rewrite size_written in Hj; dlia).
    rewrite (wf_bytes _ _ _ _ _ _ _ _ _ _ W) by done. rewrite Hdl. by rewrite decide_False by lia.
Qed.

Lemma entries_written :
  let es := entries (a_view a) (i_addrs x) (i_size x) in
  (k ≤ length es)%nat → i_size x mod DIRENT_SIZE = 0 →
  entries (a_view a') (i_addrs x') (i_size x') = set_entry k de es.
Proof.
  intros es Hk Hm. pose proof size_written as Es.
  pose proof (length_entries (a_view a) (i_addrs x) (i_size x)) as Hlen. fold es in Hlen.
  pose proof (length_entries (a_view a') (i_addrs x') (i_size x')) as Hlen'.
  change DIRENT_SIZE with 16 in *. apply list_eq. intros j.
  destruct (decide (j < Z.to_nat (i_size x' / 16))%nat) as [Hj|Hj].
  - rewrite entries_lookup by done. rewrite entry_written by done. unfold set_entry.
    destruct (decide (k < length es)%nat) as [Hkl|Hkl].
    + case_decide as Hjk; [subst; by rewrite list_lookup_insert_eq|].
      rewrite list_lookup_insert_ne by done. symmetry. apply entries_lookup.
      change DIRENT_SIZE with 16. rewrite Es in Hj. dlia.
    + assert (k = length es) as -> by lia. case_decide as Hjk.
      * subst j. by rewrite list_lookup_middle.
      * rewrite lookup_app_l by (rewrite Es in Hj; dlia). symmetry. apply entries_lookup.
        change DIRENT_SIZE with 16. rewrite Es in Hj. dlia.
  - rewrite (lookup_ge_None_2 (entries _ _ _)) by lia. symmetry. apply lookup_ge_None.
    unfold set_entry. destruct (decide _); rewrite ?length_insert, ?length_app; cbn; dlia.
Qed.
End entry_written.

(** ** Looking up what was linked *)

Lemma set_entry_eq k de es : (k ≤ length es)%nat → set_entry k de es !! k = Some de.
Proof.
  intros Hk. unfold set_entry. destruct (decide _); [by apply list_lookup_insert_eq|].
  assert (k = length es) as -> by lia. by apply list_lookup_middle.
Qed.

Lemma set_entry_ne k de es j : j ≠ k → (k ≤ length es)%nat → set_entry k de es !! j = es !! j.
Proof.
  intros Hj Hk. unfold set_entry. destruct (decide _); [by apply list_lookup_insert_ne|].
  destruct (decide (j < length es)%nat); [by apply lookup_app_l|].
  rewrite !lookup_ge_None_2; [done|lia|]. rewrite length_app. cbn. lia.
Qed.

Lemma found_None name es : found name es = None ↔ ∀ j e, es !! j = Some e → ¬ named name e.
Proof.
  unfold found. split.
  - intros H. destruct (list_find _ _) as [[k d]|] eqn:E; [done|].
    apply list_find_None in E. intros j e He. by apply (Forall_lookup_1 _ _ _ _ E He).
  - intros H. rewrite (proj2 (list_find_None _ _)); [done|]. apply Forall_lookup. eauto.
Qed.

Lemma found_Some name es k e :
  es !! k = Some e → named name e → (∀ j y, es !! j = Some y → (j < k)%nat → ¬ named name y) →
  found name es = Some (16 * Z.of_nat k, de_inum e).
Proof. intros. unfold found. by rewrite (proj2 (list_find_Some _ _ k e)). Qed.

Lemma found_link name inum es :
  inum ≠ 0 → found name es = None →
  found name (set_entry (free_slot es) (Dirent inum (cname name)) es) =
    Some (16 * Z.of_nat (free_slot es), inum).
Proof.
  intros Hi Hno. pose proof (free_slot_le es) as Hle.
  apply (found_Some _ _ _ (Dirent inum (cname name))).
  - by apply set_entry_eq.
  - split; [done|]. apply cname_idem.
  - intros j y Hy Hj. rewrite set_entry_ne in Hy by lia. by apply (proj1 (found_None name es) Hno j).
Qed.

Lemma found_other name name' inum es :
  cname name' ≠ cname name →
  found name' (set_entry (free_slot es) (Dirent inum (cname name)) es) = found name' es.
Proof.
  intros Hne. pose proof (free_slot_le es) as Hle.
  assert (Hnew : ¬ named name' (Dirent inum (cname name))).
  { intros [_ E]. cbn in E. rewrite cname_idem in E. congruence. }
  destruct (list_find (named name') es) as [[k e]|] eqn:E.
  - apply list_find_Some in E as (Hk & He & Hmin).
    assert (k ≠ free_slot es) by (intros ->; apply free_slot_free in Hk; by destruct He).
    rewrite (found_Some name' es k e) by (intros; try done; by eapply Hmin).
    apply found_Some; [by rewrite set_entry_ne|done|]. intros j y Hy Hj.
    destruct (decide (j = free_slot es)) as [->|].
    + rewrite set_entry_eq in Hy by done. by injection Hy as <-.
    + rewrite set_entry_ne in Hy by done. by eapply Hmin.
  - apply list_find_None in E. rewrite (proj2 (found_None name' es));
      [|intros j e He; by apply (Forall_lookup_1 _ _ _ _ E He)].
    apply found_None. intros j e He. destruct (decide (j = free_slot es)) as [->|].
    + rewrite set_entry_eq in He by done. by injection He as <-.
    + rewrite set_entry_ne in He by done. by apply (Forall_lookup_1 _ _ _ _ E He).
Qed.

Section dirlink.
Context {T : Type} `{!BlockLayer T}.
Context (sb : superblock) (g : geometry).
Variable me : Z.
Variable devsw_read : Z → option (nat → Z → M (fs T) (Z * list Z)).
Variable devsw_write : Z → option (nat → list Z → M (fs T) Z).
Implicit Types s : fs T.

Lemma nblocks_entry k : nblocks (16 * Z.of_nat k) 16 = 1%nat.
Proof. unfold nblocks. change BSIZE with 512. cbn [Z.leb Z.compare]. dlia. Qed.

Lemma dirlink_spec s a dp x name inum :
  let es := entries (a_view a) (i_addrs x) (i_size x) in
  dir_at sb g s a dp x → room 16 a → a_held a = ∅ → (2 ≤ nfree sb g (a_view a))%nat →
  meta_ok x → 0 <= i_inum x < sb_ninodes sb → Forall is_byte name → 0 <= inum < 2 ^ 16 →
  found name es = None → Z.of_nat (free_slot es) * 16 + 16 <= MAXFILE * BSIZE →
  wp (dirlink me devsw_read devsw_write dp name inum) (λ r s', r = 0 ∧ ∃ a' x',
    dir_at sb g s' a' dp x' ∧
    wrote_file sb g dp x (16 * Z.of_nat (free_slot es)) (dirent_bytes (Dirent inum (cname name)))
      a s' a' x' ∧
    entries (a_view a') (i_addrs x') (i_size x') =
      set_entry (free_slot es) (Dirent inum (cname name)) es) s.
Proof.
  intros es DA Hroom Hh Hfree Hmeta Hin Hname Hinum Hno Hfit. unfold dirlink. apply wp_bind.
  pose proof (room_le 16 5 a ltac:(lia) Hroom) as Hr5.
  eapply wp_mono; [apply (dirlookup_spec sb g devsw_read s a dp x name DA Hr5 Hh)|].
  { fold es. by rewrite Hno. }
  fold es. rewrite Hno. intros r s1 (R1 & E1 & -> & E2).
  assert (K1 : kept s s1) by done. pose proof (dir_at_kept sb g _ _ _ _ _ DA R1 K1) as DA1.
  pose proof DA1 as [FA1 Ht [Hs Hm] Hmap]. eapply get_inode_rule; [apply FA1|]. apply wp_bind.
  pose proof (length_entries (a_view a) (i_addrs x) (i_size x)) as Hlen. fold es in Hlen.
  eapply wp_mono; [apply (dirlink_scan_spec sb g devsw_read _ s1 a dp x 0 DA1 Hr5 Hh)|].
  { lia. } { fold es. rewrite Hlen. change DIRENT_SIZE with 16. dlia. } { intros; lia. }
  fold es. intros off s2 (-> & R2 & K2). pose proof (dir_at_kept sb g _ _ _ _ _ DA1 R2 K2) as DA2.
  pose proof (free_slot_le es) as Hle. set (k := free_slot es) in *.
  change (strncpy_bytes (rd name) 0 (Z.to_nat DIRSIZ)) with (cname name).
  assert (u16 inum = inum) as -> by (apply Z.mod_small; lia).
  set (de := Dirent inum (cname name)).
  assert (Hdl : length (dirent_bytes de) = 16%nat)
    by (unfold dirent_bytes; rewrite length_app, length_le_bytes; cbn; by rewrite length_cname).
  assert (Hoff : 16 * Z.of_nat k <= i_size x) by (rewrite Hlen in Hle; change DIRENT_SIZE with 16 in *; dlia).
  apply wp_bind. eapply wp_mono; [apply (writei_spec sb g devsw_write s2 a dp x); rewrite ?Hdl|].
  { apply DA2. } { done. } { by rewrite nblocks_entry. } { by rewrite nblocks_entry. }
  { apply Forall_app; split; [apply le_bytes_byte|by apply cname_byte]. }
  { done. } { by rewrite Ht. } { done. } { done. } { lia. } { done. } { lia. } { lia. }
  rewrite Hdl. intros r s3 (-> & a' & x' & W). change (negb (Z.of_nat 16 =? DIRENT_SIZE)) with false.
  apply wp_ret. split; [done|]. exists a', x'.
  assert (He : entries (a_view a') (i_addrs x') (i_size x') = set_entry k de es).
  { eapply (entries_written sb g); try done; [apply length_cname|lia]. }
  split; [|done]. pose proof W as [Wat (Wt & _) Wsz Wmap _ _ _ _ _ _].
  split; [done|congruence| |done]. rewrite Wsz, Hdl. change DIRENT_SIZE with 16 in *.
  change (Z.of_nat 16) with 16. split; [lia|]. destruct (Z.max_spec (i_size x) (16 * Z.of_nat k + 16)) as [[_ ->]|[_ ->]]; [dlia|done].
Qed.
End dirlink.

(** ** Properties *)

(** [dirlookup] returns the first entry in use with the name.  It
    succeeds on every well-formed directory; names are compared up to
    DIRSIZ bytes; the result is a reference to the entry's inode together
    with the entry's offset, or null when no entry has the name. *)
Theorem dirlookup_first {T} `{!BlockLayer T} sb g dr (s : fs T) a dp x name :
  let es := entries (a_view a) (i_addrs x) (i_size x) in
  dir_at sb g s a dp x → room 5 a → a_held a = ∅ →
  (∀ off inum, found name es = Some (off, inum) → has_slot (f_icache s) ROOTDEV inum) →
  ∃ r s', dirlookup dr dp name s = Ret r s' ∧ shows s' a ∧
  match r with
  | Some (ip, off) => ∃ k e, off = 16 * Z.of_nat k ∧ es !! k = Some e ∧ named name e ∧
      (∀ j e', (j < k)%nat → es !! j = Some e' → ¬ named name e') ∧
      refers s' ip ROOTDEV (de_inum e)
  | None => ∀ j e, es !! j = Some e → ¬ named name e
  end.
Proof.
  intros es DA Hroom Hh Hslot.
  destruct (wp_elim _ _ _ (dirlookup_spec sb g dr s a dp x name DA Hroom Hh Hslot))
    as (r & s' & E & R & _ & H). fold es in H. exists r, s'. split; [done|]. split; [done|].
  destruct (list_find (named name) es) as [[k e]|] eqn:F.
  - unfold found in H. rewrite F in H. cbn in H. destruct H as (ip & -> & y & Hy & Hcase).
    apply list_find_Some in F as (Hk & Hn & Hmin). exists k, e. split_and!; try done.
    + intros j e' Hj He'. by apply (Hmin j e').
    + pose proof (lookup_lt_Some _ _ _ Hy).
      destruct Hcase as [[(? & ? & ?)%matches_true E2]|(_ & _ & E2)];
        eexists; rewrite E2, list_lookup_insert_eq by done; (split; [done|]); cbn; split_and!; lia || done.
  - unfold found in H. rewrite F in H. cbn in H. destruct H as [-> _].
    apply list_find_None in F. intros j e He. by apply (Forall_lookup_1 _ _ _ _ F He).
Qed.

(** C33: [dirlink] adds one name.  In a directory that does not have the
    name it succeeds and returns 0; afterwards a lookup of the name gives
    the new inode, and a lookup of every other name gives what it gave
    before. *)
Theorem dirlink_adds {T} `{!BlockLayer T} sb g me dr dw (s : fs T) a dp x name inum :
  let es := entries (a_view a) (i_addrs x) (i_size x) in
  dir_at sb g s a dp x → room 16 a → a_held a = ∅ → (2 ≤ nfree sb g (a_view a))%nat →
  meta_ok x → 0 <= i_inum x < sb_ninodes sb → Forall is_byte name → 0 < inum < 2 ^ 16 →
  found name es = None → Z.of_nat (free_slot es) * 16 + 16 <= MAXFILE * BSIZE →
  ∃ s' a' x', dirlink me dr dw dp name inum s = Ret 0 s' ∧ dir_at sb g s' a' dp x' ∧
  let es' := entries (a_view a') (i_addrs x') (i_size x') in
  found name es' = Some (16 * Z.of_nat (free_slot es), inum) ∧
  (∀ name', cname name' ≠ cname name → found name' es' = found name' es).
Proof.
  intros es DA Hroom Hh Hfree Hmeta Hin Hname Hinum Hno Hfit.
  destruct (wp_elim _ _ _ (dirlink_spec sb g me dr dw s a dp x name inum DA Hroom Hh Hfree Hmeta Hin
    Hname ltac:(lia) Hno Hfit)) as (r & s' & E & -> & a' & x' & DA' & _ & He).
  exists s', a', x'. split; [done|]. split; [done|]. fold es in He. cbn zeta. rewrite He. split.
  - apply found_link; [lia|done].
  - intros name' Hne. by apply found_other.
Qed.
