(* ===== verification/FsPath.v ===== *)
(** * Path names

    [skipelem] takes a path apart into its elements. *)

From S2P Require Import Prelude Str Layout Sleeplock BlockLayer Fs FsBlock FsInode FsFile FsRw FsDir.

(** The elements of a path: the non-empty strings between slashes, up to
    the terminating 0.  [cur] is the element being read. *)
Definition flush (cur : list Z) : list (list Z) := match cur with [] => [] | _ => [cur] end.

Fixpoint elems_from (cur path : list Z) : list (list Z) :=
  match path with
  | [] => flush cur
  | c :: path' =>
    if c =? 0 then flush cur
    else if c =? SLASH then flush cur ++ elems_from [] path'
    else elems_from (cur ++ [c]) path'
  end.

Definition elems (path : list Z) : list (list Z) := elems_from [] path.

Lemma skip_slashes_head path : rd (skip_slashes path) 0 ≠ SLASH.
Proof.
  induction path as [|c path IH]; [done|]. cbn [skip_slashes].
  destruct (Z.eqb_spec c SLASH); [done|]. by cbn.
Qed.

Lemma elems_skip path : elems (skip_slashes path) = elems path.
Proof.
  unfold elems. induction path as [|c path IH]; [done|]. cbn [skip_slashes].
  destruct (Z.eqb_spec c SLASH) as [->|]; [|done]. exact IH.
Qed.

Lemma skip_slashes_length path : (length (skip_slashes path) ≤ length path)%nat.
Proof.
  induction path as [|c path IH]; [done|]. cbn [skip_slashes]. destruct (c =? SLASH); cbn; lia.
Qed.

(** The first element and what follows it. *)
Lemma path_elem_spec path e rest cur :
  path_elem path = (e, rest) →
  path = e ++ rest ∧ Forall (λ c, c ≠ SLASH ∧ c ≠ 0) e ∧
  (rd rest 0 = 0 ∨ rd rest 0 = SLASH) ∧
  elems_from cur path = flush (cur ++ e) ++ elems rest.
Proof.
  revert e cur; induction path as [|c path IH]; intros e cur; cbn [path_elem].
  - intros [= <- <-]. split_and!; [done|constructor|by left|]. by rewrite !app_nil_r.
  - destruct (Z.eqb_spec c SLASH) as [->|Hs]; cbn [negb andb].
    { intros [= <- <-]. split_and!; [done|constructor|by right|]. cbn. by rewrite app_nil_r. }
    destruct (Z.eqb_spec c 0) as [->|Hz]; cbn [negb].
    { intros [= <- <-]. split_and!; [done|constructor|by left|]. cbn. by rewrite !app_nil_r. }
    destruct (path_elem path) as [e' rest'] eqn:E. intros [= <- <-].
    destruct (IH e' (cur ++ [c]) eq_refl) as (-> & He & Hr & Hel). split_and!.
    + done.
    + by constructor.
    + done.
    + cbn [app elems_from]. rewrite (proj2 (Z.eqb_neq c 0)), (proj2 (Z.eqb_neq c SLASH)) by done.
      rewrite Hel, <-app_assoc. done.
Qed.

(** The name array after [skipelem], as a directory lookup reads it. *)
Lemma strncpy_bytes_app l t n :
  Forall (λ c, c ≠ 0) l → (length l ≤ n)%nat →
  (length l = n ∨ rd t 0 = 0) → strncpy_bytes (rd (l ++ t)) 0 n = strncpy_bytes (rd l) 0 n.
Proof.
  revert n; induction l as [|c l IH]; intros n Hl Hn Ht.
  - destruct n as [|n]; [done|]. cbn [strncpy_bytes app]. destruct Ht as [|Ht]; [done|].
    rewrite Ht. done.
  - destruct n as [|n]; [cbn in Hn; lia|]. inversion_clear Hl as [|? ? Hc Hl'].
    cbn [strncpy_bytes app]. change (rd (c :: ?x) 0) with c.
    rewrite (proj2 (Z.eqb_neq c 0)) by done. cbn [negb]. f_equal.
    rewrite (strncpy_bytes_ext _ (rd (l ++ t)) (0 + 1) 0) by (intros k Hk; apply rd_cons; lia).
    rewrite (strncpy_bytes_ext (rd (c :: l)) (rd l) (0 + 1) 0) by (intros k Hk; apply rd_cons; lia).
    apply IH; [done|cbn in Hn; lia|]. destruct Ht as [Ht|Ht]; [left; cbn in Ht; lia|by right].
Qed.

Lemma strncpy_bytes_take l n : strncpy_bytes (rd (take n l)) 0 n = strncpy_bytes (rd l) 0 n.
Proof.
  apply strncpy_bytes_ext. intros k Hk. unfold rd. by rewrite lookup_take_lt by lia.
Qed.

(** [skipelem] takes the first element off a path.  It returns null
    exactly when the path has no element; otherwise the rest of the path
    has the remaining elements and no leading slash, it is shorter, and
    the array [name] holds the first element, cut to DIRSIZ bytes, as a
    directory lookup reads it. *)
Theorem skipelem_elems path name :
  length name = Z.to_nat DIRSIZ →
  match skipelem path name with
  | None => elems path = []
  | Some (rest, name') => ∃ e, elems path = e :: elems rest ∧ cname name' = cname e ∧
      length name' = Z.to_nat DIRSIZ ∧ rd rest 0 ≠ SLASH ∧ (length rest < length path)%nat
  end.
Proof.
  intros Hname. change (Z.to_nat DIRSIZ) with 14%nat in *. unfold skipelem.
  pose proof (skip_slashes_head path) as Hh. pose proof (elems_skip path) as He.
  pose proof (skip_slashes_length path) as Hlen. rewrite <-He.
  destruct (skip_slashes path) as [|c p] eqn:Es; [done|]. change (rd (c :: p) 0) with c in *.
  destruct (Z.eqb_spec c 0) as [->|Hc]; [done|].
  destruct (path_elem (c :: p)) as [e rest] eqn:E.
  destruct (path_elem_spec (c :: p) e rest [] E) as (Hp & Hf & _ & Hel).
  assert (Hne : e ≠ []).
  { cbn [path_elem] in E. rewrite (proj2 (Z.eqb_neq c SLASH)), (proj2 (Z.eqb_neq c 0)) in E by done.
    cbn [negb andb] in E. destruct (path_elem p). by injection E as <- _. }
  assert (Hnz : Forall (λ c, c ≠ 0) e) by (eapply Forall_impl; [exact Hf|]; by intros ? [_ ?]).
  exists e. split_and!.
  - change (elems (c :: p)) with (elems_from [] (c :: p)). rewrite Hel, elems_skip. by destruct e.
  - unfold cname. change (Z.to_nat DIRSIZ) with 14%nat. rewrite Z.geb_leb.
    destruct (Z.leb_spec DIRSIZ (Z.of_nat (length e))) as [Hge|Hlt]; change DIRSIZ with 14 in *.
    + rewrite <-(strncpy_bytes_take e 14). unfold splice. rewrite take_0, app_nil_l.
      apply strncpy_bytes_app; [by apply Forall_take|rewrite length_take; lia|].
      left. rewrite length_take. lia.
    + unfold splice. rewrite take_0, app_nil_l, <-app_assoc.
      apply strncpy_bytes_app; [done|lia|by right].
  - rewrite Z.geb_leb. destruct (Z.leb_spec DIRSIZ (Z.of_nat (length e))); change DIRSIZ with 14 in *;
      rewrite length_splice; rewrite ?length_take, ?length_app; cbn; lia.
  - apply skip_slashes_head.
  - pose proof (skip_slashes_length rest). rewrite Hp, length_app in Hlen.
    destruct e; [done|]. cbn in Hlen. lia.
Qed.

Lemma skipelem_elems_witness :
  let name := replicate 14 0 in
  skipelem [47; 47; 97; 47; 47; 98; 98] name = Some ([98; 98], [97; 0] ++ replicate 12 0) ∧
  elems [47; 47; 97; 47; 47; 98; 98] = [[97]; [98; 98]] ∧
  ∃ e, elems [47; 47; 97; 47; 47; 98; 98] = e :: elems [98; 98].
Proof.
  split; [reflexivity|]. split; [reflexivity|].
  destruct (skipelem_elems [47; 47; 97; 47; 47; 98; 98] (replicate 14 0) eq_refl) as (e & He & _).
  exists e. exact He.
Defined.
