(* ===== verification/FsNamei.v ===== *)
(** * Path lookup

    [namei] and [nameiparent] of fs.c against the tree of directories on
    the disk: the walk over the elements of a path, in terms of the
    directory entries; the references the routines take and give back are
    counted. *)

From S2P Require Import Prelude Str Layout Sleeplock BlockLayer Fs FsBlock FsInode FsFile FsRw FsDir FsPath.

(** ** References in the inode cache *)

Definition weight (inum : Z) (x : inode) : Z :=
  if (i_dev x =? ROOTDEV) && (i_inum x =? inum) then i_ref x else 0.

(** The references to inode [inum]. *)
Definition refs (l : list inode) (inum : Z) : Z := foldr (λ x n, weight inum x + n) 0 l.

(** One, for [inum]. *)
Definition one (inum j : Z) : Z := if j =? inum then 1 else 0.

Lemma refs_app l l' j : refs (l ++ l') j = refs l j + refs l' j.
Proof.
  induction l as [|x l IH]; [done|]. cbn [refs foldr app]. fold (refs (l ++ l') j) (refs l j). lia.
Qed.

Lemma refs_insert l i x y j :
  l !! i = Some x → refs (<[i := y]> l) j = refs l j - weight j x + weight j y.
Proof.
  intros Hi. pose proof (lookup_lt_Some _ _ _ Hi). rewrite <-(take_drop_middle l i x Hi) at 2.
  rewrite insert_take_drop, !refs_app by done. cbn [refs foldr].
  fold (refs (drop (S i) l) j). lia.
Qed.

Definition in_use (x : inode) : Prop := 0 < i_ref x.
#[global] Instance in_use_dec x : Decision (in_use x).
Proof. unfold in_use. apply _. Defined.

(** The inodes that are referenced. *)
Definition used_inums (l : list inode) : gset Z := list_to_set (i_inum <$> filter in_use l).

Lemma elem_of_used_inums l j :
  j ∈ used_inums l ↔ ∃ i x, l !! i = Some x ∧ 0 < i_ref x ∧ i_inum x = j.
Proof.
  unfold used_inums. rewrite elem_of_list_to_set, list_elem_of_fmap. split.
  - intros (x & -> & [Hx Hin]%list_elem_of_filter). apply list_elem_of_lookup in Hin as [i Hi]. eauto.
  - intros (i & x & Hi & Hr & <-). exists x. split; [done|]. apply list_elem_of_filter.
    split; [done|]. by eapply list_elem_of_lookup_2.
Qed.

Lemma refs_nonneg l j : (∀ x, x ∈ l → 0 <= i_ref x) → 0 <= refs l j.
Proof.
  induction l as [|x l IH]; intros H; [done|]. cbn [refs foldr]. fold (refs l j).
  assert (0 <= weight j x) by (unfold weight; destruct (_ && _); [apply H; left|done]).
  assert (0 <= refs l j) by (apply IH; intros; apply H; by right). lia.
Qed.

Section counts.
Context (l : list inode).
Hypothesis Hok : icache_ok l.
Hypothesis Hdev : ∀ i x, l !! i = Some x → 0 < i_ref x → i_dev x = ROOTDEV.

Lemma ref_nonneg x : x ∈ l → 0 <= i_ref x.
Proof. intros [i Hi]%list_elem_of_lookup. by apply (ic_ref _ Hok i). Qed.

Lemma refs_entry i x : l !! i = Some x → 0 < i_ref x → i_ref x <= refs l (i_inum x).
Proof.
  intros Hi Hr. rewrite <-(take_drop_middle l i x Hi), refs_app. cbn [refs foldr].
  fold (refs (drop (S i) l) (i_inum x)). unfold weight. rewrite (Hdev i x Hi Hr), !Z.eqb_refl. cbn [andb].
  assert (0 <= refs (take i l) (i_inum x)).
  { apply refs_nonneg. intros y [n Hn]%list_elem_of_lookup. apply lookup_take_Some in Hn as [Hn _].
    by apply (ic_ref _ Hok n). }
  assert (0 <= refs (drop (S i) l) (i_inum x)).
  { apply refs_nonneg. intros y [n Hn]%list_elem_of_lookup. rewrite lookup_drop in Hn.
    by apply (ic_ref _ Hok (S i + n)). }
  lia.
Qed.

Lemma refs_pos j : j ∈ used_inums l ↔ 0 < refs l j.
Proof.
  rewrite elem_of_used_inums. split.
  - intros (i & x & Hi & Hr & <-). pose proof (refs_entry i x Hi Hr). lia.
  - clear Hok Hdev. induction l as [|x l' IH]; [done|]. cbn [refs foldr]. fold (refs l' j). intros H.
    destruct (decide (0 < weight j x)) as [Hw|Hw].
    + exists 0%nat, x. unfold weight in Hw. destruct (Z.eqb_spec (i_inum x) j); [|by rewrite andb_false_r in Hw].
      split_and!; [done| |done]. by destruct (i_dev x =? ROOTDEV).
    + destruct IH as (i & y & Hi & ? & ?); [lia|]. by exists (S i), y.
Qed.

(** While fewer inodes are referenced than there are entries, one is free. *)
Lemma free_slot_left : (size (used_inums l) < length l)%nat → ∃ i x, l !! i = Some x ∧ i_ref x = 0.
Proof.
  intros Hlt. destruct (decide (Forall in_use l)) as [Hall|Hsome].
  - exfalso. assert (E : filter in_use l = l).
    { clear -Hall. induction Hall as [|x l' Hx _ IH]; [done|]. by rewrite filter_cons_True, IH. }
    unfold used_inums in Hlt. rewrite E, size_list_to_set, length_fmap in Hlt; [lia|].
    apply NoDup_alt. intros i j y. rewrite !list_lookup_fmap.
    destruct (l !! i) as [x|] eqn:Hi, (l !! j) as [x'|] eqn:Hj; [|done..]. cbn. intros [= <-] [= Ee].
    pose proof (Forall_lookup_1 _ _ _ _ Hall Hi). pose proof (Forall_lookup_1 _ _ _ _ Hall Hj).
    apply (ic_uniq _ Hok i j x x' Hi Hj); [done|done| |done].
    by rewrite (Hdev i x Hi), (Hdev j x' Hj).
  - apply not_Forall_Exists in Hsome; [|apply _]. apply Exists_exists in Hsome as (x & Hin & Hx).
    pose proof (ref_nonneg x Hin). apply list_elem_of_lookup in Hin as [i Hi]. exists i, x.
    split; [done|]. unfold compose, in_use in Hx. lia.
Qed.
End counts.

(** ** The walk *)

(** The inode the elements [es] lead to from [inum]; with [np], the
    directory that has the last of them. *)
Fixpoint walk (sb : superblock) (v : Z → block) (np : bool) (inum : Z) (es : list (list Z)) : option Z :=
  match es with
  | [] => if np then None else Some inum
  | e :: es' =>
    let d := disk_inode sb v inum in
    if negb (di_type d =? T_DIR) then None
    else if np && (length es' =? 0)%nat then Some inum
    else
      match found e (entries v (di_addrs d) (di_size d)) with
      | None => None
      | Some (_, child) => walk sb v np child es'
      end
  end.

Section nodes.
Context (sb : superblock) (g : geometry) (v : Z → block).

(** An inode in use, linked, and readable when it is a directory. *)
Record node_ok (inum : Z) : Prop := {
  no_range : 0 <= inum < sb_ninodes sb;
  no_type : di_type (disk_inode sb v inum) ≠ 0;
  no_nlink : di_nlink (disk_inode sb v inum) ≠ 0;
  no_dir : let d := disk_inode sb v inum in di_type d = T_DIR →
    addrs_ok sb g v (di_addrs d) ∧ 0 <= di_size d <= MAXFILE * BSIZE ∧
    di_size d mod DIRENT_SIZE = 0 ∧ mapped v (di_addrs d) (di_size d) }.

(** All inodes a walk comes through are such. *)
Fixpoint walk_ok (inum : Z) (es : list (list Z)) : Prop :=
  match es with
  | [] => True
  | e :: es' => node_ok inum ∧
    let d := disk_inode sb v inum in
    match found e (entries v (di_addrs d) (di_size d)) with
    | None => True
    | Some (_, child) => walk_ok child es'
    end
  end.
End nodes.

Lemma found_cname e e' es : cname e = cname e' → found e es = found e' es.
Proof.
  intros E. unfold found. erewrite list_find_ext; [done|]. intros x. unfold named. by rewrite E.
Qed.

(** ** The cache *)

(** One entry may be locked, by this thread; entries that are valid agree
    with the disk. *)
Record cache_ok (sb : superblock) (me : Z) (v : Z → block) (lk : option nat) (l : list inode) : Prop := {
  co_ok : icache_ok l;
  co_dev i x : l !! i = Some x → 0 < i_ref x → i_dev x = ROOTDEV;
  co_lock i x : l !! i = Some x →
    if decide (lk = Some i) then i_lock x = Sleeplock 1 me else lk_locked (i_lock x) = 0;
  co_valid i x : l !! i = Some x → 0 < i_ref x → i_valid x ≠ 0 →
    dinode_of x = disk_inode sb v (i_inum x) }.

Lemma cache_ok_insert sb me v lk lk' l ip x y :
  cache_ok sb me v lk l → l !! ip = Some x → icache_ok (<[ip := y]> l) →
  (0 < i_ref y → i_dev y = ROOTDEV) →
  (if decide (lk' = Some ip) then i_lock y = Sleeplock 1 me else lk_locked (i_lock y) = 0) →
  (∀ i, i ≠ ip → lk' = Some i ↔ lk = Some i) →
  (0 < i_ref y → i_valid y ≠ 0 → dinode_of y = disk_inode sb v (i_inum y)) →
  cache_ok sb me v lk' (<[ip := y]> l).
Proof.
  intros [Ho Hd Hl Hv] Hx Ho' Hd' Hl' Hlk Hv'.
  split; [done|..]; intros i z [(<- & <- & _)|[Hne Hz]]%list_lookup_insert_Some; try done; eauto.
  specialize (Hl i z Hz). specialize (Hlk i ltac:(done)).
  destruct (decide (lk = Some i)), (decide (lk' = Some i)); tauto.
Qed.

(** A reference more leaves at most one inode more in use. *)
Lemma used_inums_one l0 l inum sb me v lk lk0 :
  cache_ok sb me v lk0 l0 → cache_ok sb me v lk l →
  (∀ j, refs l j = refs l0 j + one inum j) → (size (used_inums l) ≤ S (size (used_inums l0)))%nat.
Proof.
  intros C0 C H. transitivity (size ({[inum]} ∪ used_inums l0)); [|apply size_insert_le].
  apply subseteq_size. intros j. rewrite elem_of_union, elem_of_singleton.
  rewrite !refs_pos by (first [apply C|apply C0]). rewrite H. unfold one.
  destruct (Z.eqb_spec j inum); [by left|]. intros ?. right. lia.
Qed.

Lemma same_id_icache_ok l ip x y :
  icache_ok l → l !! ip = Some x → i_dev y = i_dev x → i_inum y = i_inum x →
  i_ref y <= i_ref x → 0 <= i_ref y → icache_ok (<[ip := y]> l).
Proof.
  intros Hok Hx Hd Hi Hr H0. apply (icache_ok_insert l ip x); [done|done|done|].
  intros j z Hz Hne Hy Hz0 [Ed Ei]. apply Hne. apply (ic_uniq _ Hok j ip z x); [done|done|done|lia|congruence..].
Qed.

(** The references to an inode are those of its entry. *)
Lemma refs_unique l i x :
  icache_ok l → (∀ i x, l !! i = Some x → 0 < i_ref x → i_dev x = ROOTDEV) →
  l !! i = Some x → 0 < i_ref x → refs l (i_inum x) = i_ref x.
Proof.
  intros Hok Hdev Hi Hr. set (l0 := <[i := with_ref 0 x]> l).
  pose proof (lookup_lt_Some _ _ _ Hi) as Hlt.
  assert (Hok0 : icache_ok l0) by (apply (same_id_icache_ok l i x); try done; cbn; lia).
  assert (E : refs l0 (i_inum x) = refs l (i_inum x) - i_ref x).
  { unfold l0. rewrite (refs_insert l i x) by done. unfold weight. cbn.
    rewrite (Hdev i x Hi Hr), !Z.eqb_refl. cbn [andb]. lia. }
  assert (0 <= refs l0 (i_inum x)) by (apply refs_nonneg; intros y; by apply ref_nonneg).
  destruct (decide (0 < refs l0 (i_inum x))) as [Hp|]; [exfalso|lia].
  apply refs_pos, elem_of_used_inums in Hp as (k & y & Hk & Hy & Ey); [|done|].
  - apply list_lookup_insert_Some in Hk as [(<- & <- & _)|[Hne Hk]]; [cbn in Hy; lia|].
    apply Hne. apply (ic_uniq _ Hok i k x y); try done. by rewrite (Hdev i x), (Hdev k y).
  - intros k y [(<- & <- & _)|[_ Hk]]%list_lookup_insert_Some Hy; [cbn in Hy; lia|by apply (Hdev k y)].
Qed.

Lemma elems_from_cons c cur path : elems_from (c :: cur) path ≠ [].
Proof.
  revert c cur; induction path as [|d path IH]; intros c cur; [done|]. cbn [elems_from].
  destruct (d =? 0); [done|]. destruct (d =? SLASH); [done|]. apply (IH c (cur ++ [d])).
Qed.

(** The test of [namex] for the last element. *)
Lemma rest_empty rest : rd rest 0 ≠ SLASH → (rd rest 0 =? 0) = (length (elems rest) =? 0)%nat.
Proof.
  destruct rest as [|c rest]; [done|]. change (rd (c :: rest) 0) with c. unfold elems. cbn [elems_from].
  intros Hs. destruct (Z.eqb_spec c 0) as [->|]; [done|]. rewrite (proj2 (Z.eqb_neq _ _)) by done.
  symmetry. apply Nat.eqb_neq. intros H%nil_length_inv. by apply elems_from_cons in H.
Qed.

Section namei.
Context {T : Type} `{!BlockLayer T}.
Context (sb : superblock) (g : geometry) (me : Z) (a : astore).
Variable devsw_read : Z → option (nat → Z → M (fs T) (Z * list Z)).
Hypothesis F : fs_ok sb g a.
Hypothesis Hroom : room 5 a.
Hypothesis Hheld : a_held a = ∅.
Implicit Types s : fs T.

Local Abbreviation v := (a_view a).

(** Between the steps of a walk: [lk] is the entry that is locked. *)
Record ready (lk : option nat) s : Prop := {
  re_shows : shows s a;
  re_sb : f_sb s = sb;
  re_cache : cache_ok sb me v lk (f_icache s) }.

(** Entry [ip] is one of inode [inum]. *)
Definition entry_of s (ip : nat) (inum : Z) : Prop :=
  ∃ x, f_icache s !! ip = Some x ∧ 0 < i_ref x ∧ i_inum x = inum.

(** The cache has [n j] references more to [j] than the cache [l]. *)
Definition counts (l : list inode) (n : Z → Z) s : Prop :=
  length (f_icache s) = length l ∧ ∀ j, refs (f_icache s) j = refs l j + n j.

Lemma got_ref_ready lk s s' ip inum :
  ready lk s → shows s' a → f_sb s' = f_sb s → got_ref s s' ip ROOTDEV inum →
  ready lk s' ∧ entry_of s' ip inum ∧ counts (f_icache s) (one inum) s' ∧
  ∀ i x, f_icache s !! i = Some x → 0 < i_ref x → ∃ y, f_icache s' !! i = Some y ∧
    0 < i_ref y ∧ i_inum y = i_inum x ∧ dinode_of y = dinode_of x.
Proof.
  intros [R Hsb C] R' Hsb' (x & Hx & Hcase). pose proof (lookup_lt_Some _ _ _ Hx) as Hlt.
  assert (Hc : ∃ y, f_icache s' = <[ip := y]> (f_icache s) ∧ icache_ok (<[ip := y]> (f_icache s)) ∧
    i_ref y = i_ref x + 1 ∧ i_dev y = ROOTDEV ∧ i_inum y = inum ∧ i_lock y = i_lock x ∧
    (i_ref x = 0 ∨ (i_inum x = inum ∧ i_dev x = ROOTDEV)) ∧ dinode_of y = dinode_of x ∧
    (i_valid y ≠ 0 → 0 < i_ref x ∧ i_valid x ≠ 0 ∧ i_inum x = inum)).
  { destruct Hcase as [[Hm E]|(Hno & Hr & E)]; eexists; (split; [exact E|]).
    - pose proof Hm as (Hr & Hd & Hi)%matches_true. split.
      + eapply iget_icache_ok; [apply C|done|by left].
      + cbn. split_and!; try done. by right.
    - split.
      + eapply iget_icache_ok; [apply C|done|by right].
      + cbn. split_and!; try done; [lia|by left]. }
  destruct Hc as (y & E & Hok & Hr & Hd & Hi & Hl & Hw & Hdi & Hv).
  pose proof (ic_ref _ (co_ok _ _ _ _ _ C) ip x Hx) as Hx0.
  split_and!.
  - split; [done|congruence|]. rewrite E. eapply cache_ok_insert; [exact C|done|done|done| |done|].
    + rewrite Hl. by apply (co_lock _ _ _ _ _ C).
    + intros _ Hv'. destruct (Hv Hv') as (H1 & H2 & H3).
      rewrite Hdi, Hi, <-H3. by apply (co_valid _ _ _ _ _ C ip).
  - exists y. rewrite E, list_lookup_insert_eq by done. split_and!; [done|lia|done].
  - split; [by rewrite E, length_insert|]. intros j. rewrite E, (refs_insert _ _ x) by done.
    unfold weight, one. rewrite Hd, Hi, Hr, Z.eqb_refl. cbn [andb].
    destruct (Z.eqb_spec j inum) as [->|Hne].
    + rewrite Z.eqb_refl. destruct Hw as [H0|[-> ->]]; [|rewrite !Z.eqb_refl; cbn [andb]; lia].
      rewrite H0. destruct (_ && _); lia.
    + rewrite (proj2 (Z.eqb_neq inum j)) by done. destruct Hw as [H0|[-> ->]].
      * rewrite H0. destruct (_ && _); lia.
      * rewrite (proj2 (Z.eqb_neq inum j)) by done. rewrite andb_false_r. lia.
  - intros i z Hz Hzr. rewrite E. destruct (decide (i = ip)) as [->|Hne].
    + rewrite list_lookup_insert_eq by done. exists y. assert (z = x) as -> by congruence.
      split_and!; [done|lia| |done]. destruct Hw as [?|[-> _]]; [lia|done].
    + rewrite list_lookup_insert_ne by done. by exists z.
Qed.

(** Changing an entry without its identity and count. *)
Lemma insert_counts s s' ip x y l n :
  f_icache s !! ip = Some x → f_icache s' = <[ip := y]> (f_icache s) →
  i_dev y = i_dev x → i_inum y = i_inum x → i_ref y = i_ref x →
  counts l n s → counts l n s'.
Proof.
  intros Hx E Hd Hi Hr [Hl H]. split; [by rewrite E, length_insert|]. intros j.
  rewrite E, (refs_insert _ _ x), H by done. unfold weight. rewrite Hd, Hi, Hr. lia.
Qed.

Lemma ilock_ready s ip inum l n :
  ready None s → entry_of s ip inum → node_ok sb g v inum → counts l n s →
  wp (ilock me ip) (λ _ s', ready (Some ip) s' ∧ counts l n s' ∧
    ∃ x, f_icache s' !! ip = Some x ∧ 0 < i_ref x ∧ i_inum x = inum ∧
      dinode_of x = disk_inode sb v inum) s.
Proof.
  intros [R Hsb C] (x & Hx & Hr & Hi) [Hrg Hty _ _] Hc.
  pose proof (lookup_lt_Some _ _ _ Hx) as Hlt.
  pose proof (co_dev _ _ _ _ _ C ip x Hx Hr) as Hd.
  eapply wp_mono; [apply (ilock_spec me sb g a s ip x R Hsb (fo_geo _ _ _ F) (fo_layout _ _ _ F) Hx)|].
  - lia.
  - by apply (co_lock _ _ _ _ _ C ip).
  - intros _. rewrite Hi. split_and!; [done|lia|lia|done|by rewrite Hheld|by eapply room_le, Hroom; lia].
  - intros [] s' (R' & Hsb' & E). set (y := locked_inode me sb v x) in *.
    assert (Hy : i_dev y = i_dev x ∧ i_inum y = i_inum x ∧ i_ref y = i_ref x ∧
      i_lock y = Sleeplock 1 me ∧ dinode_of y = disk_inode sb v inum).
    { subst y. unfold locked_inode. destruct (Z.eqb_spec (i_valid x) 0) as [H0|H0].
      - cbn. rewrite Hi. by destruct (disk_inode sb v inum).
      - split_and!; try done. change (dinode_of (with_lock _ x)) with (dinode_of x). rewrite <-Hi. by apply (co_valid _ _ _ _ _ C ip). }
    destruct Hy as (Hyd & Hyi & Hyr & Hyl & Hdi). split_and!.
    + split; [done|done|]. rewrite E. eapply cache_ok_insert; [exact C|done| | | | |].
      * by apply (same_id_icache_ok _ _ x); [apply C|..]; try done; lia.
      * by rewrite Hyd.
      * by rewrite decide_True.
      * intros i Hne. split; [by intros [= ->]|done].
      * intros _ _. by rewrite Hdi, Hyi, Hi.
    + by eapply insert_counts.
    + exists y. rewrite E, list_lookup_insert_eq by done. split_and!; [done|lia|congruence|done].
Qed.

(** Giving up the lock and the reference. *)
Lemma iput_ready s ip inum l n :
  ready None s → entry_of s ip inum → di_nlink (disk_inode sb v inum) ≠ 0 → counts l n s →
  wp (iput me ip) (λ _ s', ready None s' ∧ counts l (λ j, n j - one inum j) s' ∧
    ∀ i j, entry_of s i j → 0 < refs (f_icache s') j → entry_of s' i j) s.
Proof.
  intros [R Hsb C] (x & Hx & Hr & Hi) Hnl [Hlen Hc]. pose proof (lookup_lt_Some _ _ _ Hx) as Hlt.
  pose proof (co_dev _ _ _ _ _ C ip x Hx Hr) as Hd.
  unfold iput. eapply (on_ilock_rule s ip x); [done| |].
  { unfold acquiresleep, mbind, M_bind, getS. by rewrite (co_lock _ _ _ _ _ C ip x Hx). }
  set (y := with_lock (Sleeplock 1 me) x).
  eapply get_inode_rule; [by apply list_lookup_insert_eq|].
  assert (E0 : negb (i_valid y =? 0) && (i_nlink y =? 0) = false).
  { destruct (Z.eqb_spec (i_valid y) 0) as [|Hv]; [done|]. cbn [negb andb].
    apply Z.eqb_neq. change (i_nlink y) with (di_nlink (dinode_of x)).
    by rewrite (co_valid _ _ _ _ _ C ip x Hx Hr Hv), Hi. }
  rewrite E0. apply wp_bind, wp_ret.
  eapply (on_ilock_rule _ ip y); [by apply list_lookup_insert_eq|done|]. cbn [f_st f_sb f_icache].
  rewrite list_insert_insert_eq. set (z := with_lock (Sleeplock 0 0) y).
  unfold upd_inode. apply wp_modify. cbn [f_st f_sb f_icache].
  rewrite (alter_insert _ _ _ z) by (by apply list_lookup_insert_eq). rewrite list_insert_insert_eq.
  set (w := with_ref (i_ref z - 1) z).
  assert (Hrf : ∀ j, refs (<[ip := w]> (f_icache s)) j = refs (f_icache s) j - one inum j).
  { intros j. rewrite (refs_insert _ _ x) by done. unfold weight, one.
    cbn [w z y i_dev i_inum i_ref with_ref with_lock].
    rewrite Hd, Hi, Z.eqb_refl. cbn [andb]. rewrite (Z.eqb_sym inum j). destruct (j =? inum); lia. }
  split_and!.
  - split; [done|done|]. cbn [f_icache]. eapply cache_ok_insert; [exact C|done| |done|done|done|].
    + apply (same_id_icache_ok _ _ x); [apply C|done|done|done|cbn; lia|cbn; lia].
    + intros _ Hv. by apply (co_valid _ _ _ _ _ C ip x Hx Hr).
  - split; [cbn; by rewrite length_insert|]. intros j. cbn [f_icache]. rewrite Hrf, Hc. lia.
  - intros i j (q & Hq & Hqr & Hqi) Hpos. cbn [f_icache] in Hpos. unfold entry_of. cbn [f_icache].
    destruct (decide (i = ip)) as [->|Hne]; [|exists q; by rewrite list_lookup_insert_ne].
    assert (q = x) as -> by congruence. exists w. rewrite list_lookup_insert_eq by done.
    rewrite Hrf, <-Hqi, (refs_unique _ ip) in Hpos by (done || apply C).
    unfold one in Hpos. rewrite Hi, Z.eqb_refl in Hpos. split_and!; [done|cbn; lia|done].
Qed.

Lemma iunlock_ready s ip inum l n :
  ready (Some ip) s → entry_of s ip inum → counts l n s →
  wp (iunlock me ip) (λ _ s', ready None s' ∧ counts l n s' ∧
    ∀ i j, entry_of s i j → entry_of s' i j) s.
Proof.
  intros [R Hsb C] (x & Hx & Hr & Hi) Hc. pose proof (lookup_lt_Some _ _ _ Hx) as Hlt.
  pose proof (co_lock _ _ _ _ _ C ip x Hx) as Hlk. rewrite decide_True in Hlk by done.
  unfold iunlock. eapply (on_ilock_rule s ip x); [done|by rewrite Hlk; apply holdingsleep_held|].
  eapply get_inode_rule; [by apply list_lookup_insert_eq|]. cbn [negb orb].
  change (i_ref (with_lock _ x)) with (i_ref x). rewrite (proj2 (Z.ltb_ge _ _)) by lia.
  set (y := with_lock (Sleeplock 1 me) x).
  assert (W : wp (r ← on_ilock ip releasesleep; mret r) (λ _ s', ready None s' ∧ counts l n s' ∧
      ∀ i j, entry_of s i j → entry_of s' i j) (Fs (f_st s) (f_sb s) (<[ip := y]> (f_icache s)))).
  2: { revert W. unfold wp, mbind, M_bind. by destruct (on_ilock ip releasesleep _). }
  eapply (on_ilock_rule _ ip y); [by apply list_lookup_insert_eq|done|]. cbn [f_st f_sb f_icache].
  rewrite list_insert_insert_eq. set (z := with_lock (Sleeplock 0 0) y). apply wp_ret. split_and!.
  - split; [done|done|]. cbn [f_icache]. eapply cache_ok_insert; [exact C|done| | |done| |].
    + apply (same_id_icache_ok _ _ x); [apply C|done|done|done|cbn; lia|cbn; lia].
    + intros _. by apply (co_dev _ _ _ _ _ C ip x).
    + intros i Hne. split; [done|]. by intros [= ->].
    + intros _ Hv. by apply (co_valid _ _ _ _ _ C ip x Hx Hr).
  - by apply (insert_counts s _ ip x z).
  - intros i j (q & Hq & Hqr & Hqi). unfold entry_of. cbn [f_icache].
    destruct (decide (i = ip)) as [->|Hne]; [|exists q; by rewrite list_lookup_insert_ne].
    assert (q = x) as -> by congruence. exists z. by rewrite list_lookup_insert_eq.
Qed.

Lemma iunlockput_ready s ip inum l n :
  ready (Some ip) s → entry_of s ip inum → di_nlink (disk_inode sb v inum) ≠ 0 → counts l n s →
  wp (iunlockput me ip) (λ _ s', ready None s' ∧ counts l (λ j, n j - one inum j) s' ∧
    ∀ i j, entry_of s i j → 0 < refs (f_icache s') j → entry_of s' i j) s.
Proof.
  intros R E Hn Hc. apply wp_bind. eapply wp_mono; [by apply (iunlock_ready s ip inum l n)|].
  intros [] s1 (R1 & C1 & K1). eapply wp_mono; [by apply (iput_ready s1 ip inum l n R1 (K1 _ _ E))|].
  intros [] s2 (R2 & C2 & K2). split_and!; [done|done|]. intros i j Hi. by apply K2, K1.
Qed.

(** What a walk from [inum] leaves: the entry of the inode it leads to and
    one reference to it; with [np], the last element. *)
Definition walked (l : list inode) (np : bool) (inum : Z) (es : list (list Z))
    (r : option nat * list Z) s : Prop :=
  match walk sb v np inum es with
  | Some t => ∃ ip, r.1 = Some ip ∧ entry_of s ip t ∧ counts l (one t) s ∧
      (np = true → ∃ e, last es = Some e ∧ cname r.2 = cname e)
  | None => r.1 = None ∧ counts l (λ _, 0) s
  end.

Lemma counts_ext l n n' s : (∀ j, n j = n' j) → counts l n s → counts l n' s.
Proof. intros E [H1 H2]. split; [done|]. intros j. by rewrite H2, E. Qed.

(** Looking up an element while the directory is locked. *)
Lemma dirlookup_ready s ip inum name x l :
  let d := disk_inode sb v inum in
  ready (Some ip) s → f_icache s !! ip = Some x → 0 < i_ref x → i_inum x = inum → dinode_of x = d →
  node_ok sb g v inum → di_type d = T_DIR → counts l (one inum) s →
  cache_ok sb me v None l → (size (used_inums l) + 2 ≤ length l)%nat →
  wp (dirlookup devsw_read ip name) (λ r s', ready (Some ip) s' ∧ entry_of s' ip inum ∧
    match found name (entries v (di_addrs d) (di_size d)) with
    | None => r = None ∧ counts l (one inum) s'
    | Some (off, c) => ∃ ip', r = Some (ip', off) ∧ entry_of s' ip' c ∧
        counts l (λ j, one inum j + one c j) s'
    end) s.
Proof.
  intros d R Hx Hr Hi Hdi Hno Hdir Hc C0 Hsl. destruct (no_dir _ _ _ _ Hno Hdir) as (A & Hsz & Hmod & Hmap).
  assert (Ed : di_addrs d = i_addrs x ∧ di_size d = i_size x ∧ di_type d = i_type x) by (by rewrite <-Hdi).
  destruct Ed as (Ea & Es & Et). fold d in A, Hsz, Hmod, Hmap. rewrite Ea, Es in *. rewrite Et in Hdir.
  pose proof R as [Rs Rsb Rc]. pose proof (co_dev _ _ _ _ _ Rc ip x Hx Hr) as Hd.
  assert (DA : dir_at sb g s a ip x) by (by split; [split|..]).
  assert (Hslot : ∀ inum, has_slot (f_icache s) ROOTDEV inum).
  { intros c. pose proof (used_inums_one _ _ _ _ _ _ _ _ C0 Rc (proj2 Hc)) as Hu.
    destruct (free_slot_left (f_icache s)) as (i & y & Hy & H0); [apply Rc..|rewrite (proj1 Hc); lia|].
    exists i, y. split; [done|]. by right. }
  eapply wp_mono; [apply (dirlookup_spec sb g devsw_read s a ip x name DA Hroom Hheld); by intros|].
  intros r s' (R' & Hsb' & H). destruct (found name _) as [[off c]|].
  - destruct H as (ip' & -> & G). destruct (got_ref_ready _ _ _ _ _ R R' Hsb' G) as (R1 & E1 & C1 & K1).
    split; [done|]. split; [destruct (K1 ip x Hx Hr) as (y & ? & ? & ? & _); exists y; split_and!; congruence|].
    exists ip'. split_and!; [done|done|]. destruct Hc as [H1 H2], C1 as [H3 H4]. split; [congruence|].
    intros j. rewrite H4, H2. lia.
  - destruct H as [-> Eic]. split; [split; [done|congruence|by rewrite Eic]|].
    unfold entry_of, counts. rewrite Eic. split; [by exists x|]. by split.
Qed.

(** A failing path gives back the directory it ends in. *)
Lemma namex_fails s (nm : list Z) ip inum l :
  ready (Some ip) s → entry_of s ip inum → counts l (one inum) s → di_nlink (disk_inode sb v inum) ≠ 0 →
  wp (iunlockput me ip;; mret (None, nm)) (λ (r : option nat * list Z) s', ready None s' ∧ (r.1 = None ∧ counts l (λ _, 0) s')) s.
Proof.
  intros R E C Hno. apply wp_bind. eapply wp_mono; [by apply (iunlockput_ready s ip inum l (one inum) R E)|].
  intros [] s3 (R3 & C3 & _). apply wp_ret. split; [done|]. split; [done|].
  eapply counts_ext, C3. intros j. cbn. lia.
Qed.

Lemma namex_loop_spec fuel np path name s inum ip l :
  ready None s → entry_of s ip inum → counts l (one inum) s →
  cache_ok sb me v None l → (size (used_inums l) + 2 ≤ length l)%nat →
  walk_ok sb g v inum (elems path) →
  (np = true → elems path = [] → di_nlink (disk_inode sb v inum) ≠ 0) →
  length name = Z.to_nat DIRSIZ → (length path < fuel)%nat →
  wp (namex_loop me devsw_read fuel ip path np name) (λ r s', ready None s' ∧
    walked l np inum (elems path) r s') s.
Proof.
  revert path name s inum ip. induction fuel as [|fuel IH];
    intros path name s inum ip R E C C0 Hslots Hw Hnp Hname Hfuel; [lia|].
  cbn [namex_loop]. pose proof (skipelem_elems path name Hname) as Hsk.
  destruct (skipelem path name) as [[rest name']|].
  2: { unfold walked. rewrite Hsk. cbn [walk]. destruct np.
    - apply wp_bind. eapply wp_mono; [apply (iput_ready s ip inum l (one inum) R E); [by apply Hnp|done]|].
      intros [] s1 (R1 & C1 & _). apply wp_ret. split; [done|]. split; [done|].
      eapply counts_ext, C1. intros j. cbn. lia.
    - apply wp_ret. split; [done|]. by exists ip. }
  destruct Hsk as (e & Hel & Hce & Hname' & Hsl & Hshort). unfold walked. rewrite Hel in *.
  destruct Hw as [Hno Hw]. apply wp_bind.
  eapply wp_mono; [by apply (ilock_ready s ip inum l (one inum) R E Hno)|].
  intros [] s1 (R1 & C1 & x & Hx & Hr & Hi & Hdi). eapply get_inode_rule; [exact Hx|].
  assert (E1 : entry_of s1 ip inum) by (by exists x).
  assert (Ety : i_type x = di_type (disk_inode sb v inum)) by (by rewrite <-Hdi).
  rewrite Ety, rest_empty by done. cbn [walk].
  destruct (Z.eqb_spec (di_type (disk_inode sb v inum)) T_DIR) as [Hdir|Hdir]; cbn [negb]; [|by apply (namex_fails _ _ ip inum); [..|apply Hno]].
  destruct (np && (length (elems rest) =? 0)%nat) eqn:Elast.
  { apply andb_true_iff in Elast as [-> Hz%Nat.eqb_eq%nil_length_inv]. rewrite Hz. apply wp_bind.
    eapply wp_mono; [by apply (iunlock_ready s1 ip inum l (one inum))|]. intros [] s2 (R2 & C2 & K2).
    apply wp_ret. split; [done|]. exists ip. split_and!; [done|by apply K2|done|]. by exists e. }
  apply wp_bind. eapply wp_mono; [by apply (dirlookup_ready s1 ip inum name' x l)|].
  intros r s2 (R2 & E2 & H). rewrite (found_cname name' e) in H by done.
  destruct (found e _) as [[off c]|] eqn:Ef; [|destruct H as [-> C2]; by apply (namex_fails _ _ ip inum); [..|apply Hno]].
  destruct H as (ip' & -> & Ec & C2). apply wp_bind.
  eapply wp_mono; [apply (iunlockput_ready s2 ip inum l (λ j, one inum j + one c j) R2 E2); [apply Hno|exact C2]|].
  intros [] s3 (R3 & C3 & K3). assert (C4 : counts l (one c) s3) by (eapply counts_ext, C3; intros j; cbn; lia).
  eapply wp_mono; [apply (IH rest name' s3 c ip')|]; try done.
  - apply K3; [done|]. rewrite (proj2 C4). unfold one. rewrite Z.eqb_refl.
    assert (0 <= refs l c) by (apply refs_nonneg; intros y; apply ref_nonneg, C0). lia.
  - cbn zeta in Hw. by rewrite Ef in Hw.
  - intros -> Hz. by rewrite Hz in Elast.
  - lia.
  - intros r s4 [R4 W4]. split; [done|]. unfold walked in W4.
    destruct (walk sb v np c (elems rest)) as [t|]; [|done].
    destruct W4 as (ip4 & ? & ? & ? & Hlast). exists ip4. split_and!; [done..|]. intros ->.
    destruct (Hlast eq_refl) as (e' & He' & ?). exists e'. split; [|done].
    destruct (elems rest) as [|e1 es1]; [done|]. by rewrite last_cons_cons.
Qed.

(** Where [namex] starts. *)
Definition start_inum (cwd : nat) (path : list Z) s : Z :=
  if rd path 0 =? SLASH then ROOTINO else i_inum (inode_at s cwd).

Lemma namex_start cwd path s (k : nat → M (fs T) (option nat * list Z)) Q :
  let inum := start_inum cwd path s in
  ready None s → (size (used_inums (f_icache s)) + 2 ≤ length (f_icache s))%nat →
  (rd path 0 ≠ SLASH → entry_of s cwd inum) →
  (∀ ip s', ready None s' → entry_of s' ip inum → counts (f_icache s) (one inum) s' → wp (k ip) Q s') →
  wp (ip ← (if rd path 0 =? SLASH then iget ROOTDEV ROOTINO else idup cwd); k ip) Q s.
Proof.
  unfold start_inum. intros R Hsl Hcwd Hk. pose proof R as [Rs Rsb Rc]. apply wp_bind.
  destruct (Z.eqb_spec (rd path 0) SLASH) as [E|E].
  - destruct (free_slot_left (f_icache s)) as (i & y & Hy & H0); [apply Rc..|lia|].
    eapply wp_mono; [apply iget_spec; exists i, y; split; [done|by right]|].
    intros ip s' (x & Hx & Est & Esb & Hcase).
    destruct (got_ref_ready None s s' ip ROOTINO R) as (R1 & E1 & C1 & _).
    { unfold shows. by rewrite Est. } { done. } { by exists x. }
    by apply Hk.
  - destruct (Hcwd E) as (x & Hx & Hr & Hi). unfold idup. eapply upd_inode_rule; [exact Hx|]. apply wp_ret.
    set (s' := Fs _ _ _).
    destruct (got_ref_ready None s s' cwd (i_inum x) R) as (R1 & E1 & C1 & _); [exact Rs|done| |].
    { exists x. split; [done|]. left. split; [|done]. apply matches_true.
      split_and!; [done|by apply (co_dev _ _ _ _ _ Rc cwd x)|done]. }
    rewrite Hi in *. by apply Hk.
Qed.

Lemma namex_spec cwd path np name s :
  let l := f_icache s in
  let inum := start_inum cwd path s in
  ready None s → (size (used_inums l) + 2 ≤ length l)%nat →
  (rd path 0 ≠ SLASH → entry_of s cwd inum) → length name = Z.to_nat DIRSIZ →
  walk_ok sb g v inum (elems path) →
  (np = true → elems path = [] → di_nlink (disk_inode sb v inum) ≠ 0) →
  wp (namex me cwd devsw_read path np name) (λ r s', ready None s' ∧
    walked l np inum (elems path) r s') s.
Proof.
  intros l inum R Hsl Hcwd Hname Hw Hnp. unfold namex. apply (namex_start cwd path s); [done..|].
  intros ip s1 R1 E1 C1. apply namex_loop_spec; try done; [apply R|lia].
Qed.
End namei.

(** ** Properties *)

(** C12: Path lookup follows the directories on the disk.  From the root or
    the current directory, [namex] reaches exactly the inode that the
    elements of the path lead to, one directory entry at a time, or, for
    [nameiparent], the directory of the last element together with that
    element; it returns null exactly when an element does not exist or is
    used as a directory without being one.  It gives back every reference
    and lock it takes on the way: the counts in the inode cache are as
    before, but for one reference to the result. *)
Theorem namex_resolves {T} `{!BlockLayer T} sb g me cwd dr (s : fs T) a path np name :
  let l := f_icache s in
  let inum := start_inum cwd path s in
  shows s a → f_sb s = sb → fs_ok sb g a → room 5 a → a_held a = ∅ →
  cache_ok sb me (a_view a) None l → (size (used_inums l) + 2 ≤ length l)%nat →
  (rd path 0 ≠ SLASH → entry_of s cwd inum) → length name = Z.to_nat DIRSIZ →
  walk_ok sb g (a_view a) inum (elems path) →
  (np = true → elems path = [] → di_nlink (disk_inode sb (a_view a) inum) ≠ 0) →
  ∃ r s', namex me cwd dr path np name s = Ret r s' ∧ shows s' a ∧ f_sb s' = sb ∧
    cache_ok sb me (a_view a) None (f_icache s') ∧
    match walk sb (a_view a) np inum (elems path) with
    | Some t => ∃ ip, r.1 = Some ip ∧ entry_of s' ip t ∧
        (∀ j, refs (f_icache s') j = refs l j + one t j) ∧
        (np = true → ∃ e, last (elems path) = Some e ∧ cname r.2 = cname e)
    | None => r.1 = None ∧ ∀ j, refs (f_icache s') j = refs l j
    end.
Proof.
  intros l inum R Hsb F Hroom Hh C Hsl Hcwd Hname Hw Hnp.
  assert (R0 : ready sb me a None s) by (by split).
  destruct (wp_elim _ _ _ (namex_spec sb g me a dr F Hroom Hh cwd path np name s R0 Hsl Hcwd Hname Hw Hnp))
    as (r & s' & E & [R1 R2 R3] & W). exists r, s'. split_and!; try done.
  unfold walked in W. destruct (walk _ _ _ _ _) as [t|].
  - destruct W as (ip & ? & ? & [_ ?] & ?). by exists ip.
  - destruct W as (? & _ & Hc). split; [done|]. intros j. rewrite Hc. apply Z.add_0_r.
Qed.
