(* ===== verification/FsDemo.v ===== *)
(** * A small file system

    A concrete disk of 100 blocks with a root directory that holds "." and
    "..", booted and inside a transaction.  The properties of fs.c are
    applied to it, over the block layer of bio.c and log.c. *)

From S2P Require Import Prelude Str Layout Sleeplock Bio BioRing BlockLayer BioSpec Log LogSpec Crash LogLayer.
From S2P Require Import Fs FsBlock FsInode FsFile FsRw FsDir FsPath FsNamei.

Definition demo_sb : superblock := Superblock 100 60 8 30 2 32 33.

(** The root directory's inode. *)
Definition demo_root : dinode := Dinode T_DIR 0 0 1 32 (34 :: replicate 12 0).

Definition dot (n : nat) : list Z := replicate n 46 ++ replicate (14 - n) 0.

Definition demo_disk : gmap Z block :=
  {[ 1 := splice 0 (superblock_bytes demo_sb) zero_block;
     32 := put_dinode 1 demo_root zero_block;
     33 := splice 0 [255; 255; 255; 255; 7] zero_block;
     34 := splice 0 (dirent_bytes (Dirent 1 (dot 1)) ++ dirent_bytes (Dirent 1 (dot 2))) zero_block ]}.

Definition demo_view (b : Z) : block := default zero_block (demo_disk !! b).

Definition wf_blockb (d : block) : bool :=
  (length d =? 512)%nat && forallb (λ x, (0 <=? x) && (x <? 256)) d.

Lemma wf_blockb_ok d : wf_blockb d = true → wf_block d.
Proof.
  unfold wf_blockb. rewrite andb_true_iff, Nat.eqb_eq. intros [Hl Hf].
  split; [done|]. apply Forall_forall. intros x Hx. rewrite forallb_forall in Hf.
  apply list_elem_of_In, Hf in Hx. apply andb_true_iff in Hx as [?%Z.leb_le ?%Z.ltb_lt]. done.
Qed.

Lemma demo_wf b : wf_block (demo_view b).
Proof.
  unfold demo_view, demo_disk.
  destruct (decide (b = 1)) as [->|]; [apply wf_blockb_ok; vm_compute; reflexivity|].
  destruct (decide (b = 32)) as [->|]; [apply wf_blockb_ok; vm_compute; reflexivity|].
  destruct (decide (b = 33)) as [->|]; [apply wf_blockb_ok; vm_compute; reflexivity|].
  destruct (decide (b = 34)) as [->|]; [apply wf_blockb_ok; vm_compute; reflexivity|].
  rewrite !lookup_insert_ne, lookup_singleton_ne by done. apply wf_zero_block.
Qed.

(** Boot and begin an operation. *)
Definition demo_boot : M store unit := initlog 1 ROOTDEV;; begin_op.

Lemma demo_store :
  ∃ s v, demo_boot (Store (boot demo_disk 100) log0) = Ret tt s ∧
  store_rep 1 s (AStore v ∅ ∅ small_geo) ∧ ∀ b, b ≠ 2 → v b = demo_view b.
Proof.
  assert (W : wp demo_boot (λ _ s, ∃ v, store_rep 1 s (AStore v ∅ ∅ small_geo) ∧
    ∀ b, b ≠ 2 → v b = demo_view b) (Store (boot demo_disk 100) log0)).
  { apply wp_bind. eapply wp_mono; [apply (initlog_idle 1 demo_disk small_geo)|].
    { apply demo_wf. }
    { split; unfold small_geo, NBUF, MAXOPBLOCKS; cbn; lia. }
    { split; vm_compute; reflexivity. }
    { split; [vm_compute; reflexivity|]. intros k b H. by rewrite lookup_nil in H. }
    intros [] s1 (v & I & Hv). eapply wp_mono; [by apply begin_op_idle|].
    intros [] s2 SR. exists v. split; [exact SR|exact Hv]. }
  apply wp_elim in W as ([] & s & E & v & SR & Hv). exists s, v. split; [exact E|]. split; [exact SR|exact Hv].
Qed.

#[local] Opaque demo_boot.

(** The cached inode of the root directory, locked, and free entries. *)
Definition demo_inode : inode :=
  with_dinode demo_root (Inode ROOTDEV 1 1 (Sleeplock 1 1) 1 0 0 0 0 0 []).
Definition demo_icache : list inode := demo_inode :: replicate 49 inhabitant.

Section demo.
Context (v : Z → block).
Hypothesis Hv : ∀ b, b ≠ 2 → v b = demo_view b.

Lemma demo_blocks b : 0 <= b < 100 → BBLOCK b demo_sb = 33.
Proof. intros Hb. unfold BBLOCK. change BPB with 4096. cbn [sb_bmapstart demo_sb]. dlia. Qed.

Lemma demo_inodes i : 0 <= i < 8 → IBLOCK i demo_sb = 32.
Proof. intros Hi. unfold IBLOCK. change IPB with 8. cbn [sb_inodestart demo_sb]. dlia. Qed.

Lemma demo_layout : layout_ok demo_sb small_geo.
Proof.
  split; cbn [g_size small_geo sb_ninodes demo_sb].
  - done.
  - lia.
  - intros b Hb. rewrite demo_blocks by done. unfold home; cbn. lia.
  - intros i Hi. rewrite demo_inodes by done. unfold home; cbn. lia.
  - intros b i Hb Hi. by rewrite demo_blocks, demo_inodes.
Qed.

Lemma demo_used x : 0 <= x < 100 → used demo_sb v x = (x <? 35).
Proof.
  intros Hx. unfold used. rewrite demo_blocks, Hv by done.
  assert (E : forallb (λ x, Bool.eqb (bit_used (demo_view 33) (x mod BPB)) (x <? 35)) (seqZ 0 100) = true)
    by (vm_compute; reflexivity).
  rewrite forallb_forall in E. apply eqb_prop, E. apply list_elem_of_In, elem_of_seqZ. lia.
Qed.

Lemma demo_data b : 34 <= b < 100 → data_block demo_sb small_geo b.
Proof.
  intros Hb. split_and!.
  - unfold home; cbn. lia.
  - intros x Hx. rewrite demo_blocks by done. lia.
  - intros i Hi. rewrite demo_inodes by done. lia.
Qed.

Lemma demo_meta : meta_used demo_sb small_geo v.
Proof.
  intros b Hb. cbn in Hb. rewrite demo_used by done. intros H%Z.ltb_ge. apply demo_data. lia.
Qed.

Lemma demo_free : ∃ x, 0 <= x < g_size small_geo ∧ used demo_sb v x = false.
Proof. exists 35. split; [cbn; lia|]. by rewrite demo_used by lia. Qed.

Lemma demo_ptr k : 0 <= k < NSLOT → ptr v (i_addrs demo_inode) k = if k =? 0 then 34 else 0.
Proof.
  intros Hk. unfold ptr. destruct (Z.leb_spec k NDIRECT) as [H|H].
  - change NDIRECT with 12 in H.
    assert (E : forallb (λ k, (i_addrs demo_inode !!! Z.to_nat k) =? (if k =? 0 then 34 else 0))
      (seqZ 0 13) = true) by (vm_compute; reflexivity).
    rewrite forallb_forall in E. apply Z.eqb_eq, E. apply list_elem_of_In, elem_of_seqZ. lia.
  - cbn. rewrite (proj2 (Z.eqb_neq k 0)); [done|]. change NDIRECT with 12 in H. lia.
Qed.

Lemma demo_addrs : addrs_ok demo_sb small_geo v (i_addrs demo_inode).
Proof.
  split.
  - done.
  - intros k Hk. rewrite demo_ptr by done. destruct (k =? 0); [|done]. intros _.
    split; [apply demo_data; lia|]. by rewrite demo_used by lia.
  - intros k k' Hk Hk'. rewrite !demo_ptr by done.
    destruct (Z.eqb_spec k 0), (Z.eqb_spec k' 0); congruence.
Qed.

Lemma demo_mapped : mapped v (i_addrs demo_inode) 32.
Proof.
  intros bn H0 H1. assert (bn = 0) as -> by (change BSIZE with 512 in H1; lia).
  by rewrite demo_ptr.
Qed.

Lemma demo_nfree : (2 ≤ nfree demo_sb small_geo v)%nat.
Proof.
  unfold nfree. assert (H : ({[35; 36]} : gset Z) ⊆ free_set demo_sb small_geo v).
  { intros x. rewrite elem_of_union, !elem_of_singleton, elem_of_free_set. cbn [g_size small_geo].
    intros [->| ->]; (split; [lia|]); by rewrite demo_used by lia. }
  apply subseteq_size in H. change (size ({[35; 36]} : gset Z)) with 2%nat in H. done.
Qed.

Lemma demo_room k : (k ≤ 29)%nat → room k (AStore v ∅ ∅ small_geo).
Proof.
  intros Hk. unfold room, a_busy. cbn [a_held a_dirty a_geo].
  rewrite dom_empty_L, union_empty_l_L, size_empty.
  change (log_cap small_geo) with 29. change NBUF with 30%nat. lia.
Qed.

Lemma demo_held : held_ok demo_sb (AStore v ∅ ∅ small_geo).
Proof. intros b [i Hi]. cbn in Hi. by rewrite lookup_empty in Hi. Qed.
End demo.

(** The file system state, over the log layer. *)
Definition demo_fs (s : store) : fs store := Fs s demo_sb demo_icache.

Lemma demo_dir s v :
  store_rep 1 s (AStore v ∅ ∅ small_geo) → (∀ b, b ≠ 2 → v b = demo_view b) →
  dir_at (BlockLayer0 := store_block_layer 1) demo_sb small_geo (demo_fs s) (AStore v ∅ ∅ small_geo)
    0 demo_inode.
Proof.
  intros SR Hv. split; [split| | |].
  - exact SR.
  - done.
  - split; [apply demo_layout|done|by apply demo_meta|apply demo_held].
  - done.
  - done.
  - by apply demo_addrs.
  - done.
  - split; [change (MAXFILE * BSIZE) with 71680; cbn; lia|done].
  - by apply demo_mapped.
Qed.

(** ** The properties at work *)

Lemma balloc_lowest_free_witness :
  ∃ s s', demo_boot (Store (boot demo_disk 100) log0) = Ret tt s ∧
  balloc (BlockLayer0 := store_block_layer 1) ROOTDEV (demo_fs s) = Ret 35 s'.
Proof.
  destruct demo_store as (s & v & E & SR & Hv).
  destruct (balloc_lowest_free (BlockLayer0 := store_block_layer 1) demo_sb small_geo
    (AStore v ∅ ∅ small_geo) (demo_fs s) SR eq_refl eq_refl demo_layout (demo_meta v Hv)
    (demo_held v) (demo_room v 3 ltac:(lia)) (demo_free v Hv)) as (r & s' & a' & E' & _ & _ & Hf & Hl & Hd & _).
  assert (r = 35) as ->; [|exists s, s'; split; [exact E|exact E']].
  apply data_block_range in Hd. cbn in Hd, Hf, Hl. rewrite demo_used in Hf by done.
  apply Z.ltb_ge in Hf. destruct (decide (r = 35)) as [|Hne]; [done|].
  specialize (Hl 35 ltac:(lia)). by rewrite (demo_used v Hv) in Hl by lia.
Defined.

Lemma balloc_bfree_witness :
  ∃ s s', demo_boot (Store (boot demo_disk 100) log0) = Ret tt s ∧
  (r ← balloc (BlockLayer0 := store_block_layer 1) ROOTDEV;
   bfree (BlockLayer0 := store_block_layer 1) ROOTDEV r) (demo_fs s) = Ret tt s'.
Proof.
  destruct demo_store as (s & v & E & SR & Hv).
  destruct (balloc_bfree (BlockLayer0 := store_block_layer 1) demo_sb small_geo
    (AStore v ∅ ∅ small_geo) (demo_fs s) SR eq_refl eq_refl demo_layout (demo_meta v Hv)
    (demo_held v) (demo_room v 4 ltac:(lia)) (demo_free v Hv)) as (s' & a' & E' & _).
  exists s, s'. split; [exact E|exact E'].
Defined.

Lemma demo_icache_lookup i x :
  demo_icache !! i = Some x → (i = 0%nat ∧ x = demo_inode) ∨ i_ref x = 0.
Proof.
  destruct i as [|i]; [intros [= <-]; by left|]. intros H. right. unfold demo_icache in H. rewrite lookup_cons_ne_0 in H by done. cbn [Nat.pred] in H.
  by apply lookup_replicate in H as [-> _].
Qed.

Lemma demo_icache_ok : icache_ok demo_icache.
Proof.
  split.
  - intros i x [[_ ->]| ->]%demo_icache_lookup; cbn; lia.
  - intros i j x y [[-> _]|?]%demo_icache_lookup [[-> _]|?]%demo_icache_lookup; lia || done.
Qed.

Lemma demo_slot inum : has_slot demo_icache ROOTDEV inum.
Proof. exists 1%nat, inhabitant. split; [done|by right]. Qed.

Lemma iget_one_entry_witness :
  ∃ s', iget ROOTDEV 1 (demo_fs (Store (boot demo_disk 100) log0)) = Ret 0%nat s'.
Proof.
  set (s := demo_fs (Store (boot demo_disk 100) log0)).
  destruct (iget_one_entry (BlockLayer0 := store_block_layer 1) s ROOTDEV 1
    demo_icache_ok (demo_slot 1)) as (ip & s' & E & _ & _ & _ & _ & H).
  assert (0%nat = ip) as <-; [|exists s'; exact E].
  apply H. exists demo_inode. split; [reflexivity|]. cbn. split; [lia|]. done.
Defined.

Lemma demo_root_wf : wf_dinode demo_root.
Proof.
  unfold wf_dinode, demo_root, is_s16, is_u32, T_DIR.
  cbn [di_type di_major di_minor di_nlink di_size di_addrs].
  do 5 (split; [lia|]). split; [reflexivity|]. repeat constructor; lia.
Qed.

Lemma iupdate_ilock_witness :
  ∃ s s1, demo_boot (Store (boot demo_disk 100) log0) = Ret tt s ∧
  iupdate (BlockLayer0 := store_block_layer 1) 0 (demo_fs s) = Ret tt s1 ∧
  ∃ s2 z, ilock (BlockLayer0 := store_block_layer 1) 1 0
    (Fs (f_st s1) (f_sb s1) [Inode ROOTDEV 1 1 initsleeplock 0 0 0 0 0 0 []]) = Ret tt s2 ∧
  f_icache s2 !! 0%nat = Some z ∧ dinode_of z = demo_root.
Proof.
  destruct demo_store as (s & v & E & SR & Hv).
  destruct (iupdate_ilock (BlockLayer0 := store_block_layer 1) 1 demo_sb small_geo
    (AStore v ∅ ∅ small_geo) (demo_fs s) 0 demo_inode SR eq_refl eq_refl demo_layout eq_refl
    (demo_room v 2 ltac:(lia)) eq_refl eq_refl) as (s1 & a1 & E1 & _ & _ & H).
  { cbn. lia. }
  { exact demo_root_wf. }
  { discriminate. }
  destruct (H [Inode ROOTDEV 1 1 initsleeplock 0 0 0 0 0 0 []] 0%nat _ eq_refl)
    as (s2 & z & E2 & _ & Hz & _ & Hd & _); [cbn; lia|reflexivity..|].
  exists s, s1. split; [exact E|]. split; [exact E1|]. exists s2, z. split; [exact E2|]. split; [exact Hz|exact Hd].
Defined.

Lemma ialloc_first_free_witness :
  ∃ s ip s', demo_boot (Store (boot demo_disk 100) log0) = Ret tt s ∧
  ialloc (BlockLayer0 := store_block_layer 1) ROOTDEV T_FILE (demo_fs s) = Ret ip s' ∧
  refers s' ip ROOTDEV 2.
Proof.
  destruct demo_store as (s & v & E & SR & Hv).
  assert (F : ∀ i, 0 <= i < 8 → disk_inode demo_sb v i = disk_inode demo_sb demo_view i).
  { intros i Hi. unfold disk_inode. rewrite demo_inodes by done. by rewrite Hv. }
  destruct (ialloc_first_free (BlockLayer0 := store_block_layer 1) demo_sb small_geo
    (AStore v ∅ ∅ small_geo) T_FILE (demo_fs s) SR eq_refl eq_refl demo_layout eq_refl
    (demo_room v 2 ltac:(lia))) as (r & ip & s' & a' & E' & _ & Hr & Href & Hf & Hlow & _).
  { unfold is_s16, T_FILE. lia. } { apply demo_icache_ok. }
  { exists 1%nat, inhabitant. split; reflexivity. }
  { exists 2. split; [cbn; lia|]. unfold free_inode. rewrite F by lia. vm_compute. reflexivity. }
  assert (r = 2) as ->; [|exists s, ip, s'; split; [exact E|]; split; [exact E'|exact Href]].
  cbn in Hr. unfold free_inode in *. cbn [a_view] in *. destruct (decide (r = 1)) as [->|].
  - exfalso. rewrite F in Hf by lia. vm_compute in Hf. discriminate Hf.
  - destruct (decide (r = 2)); [assumption|]. exfalso. apply (Hlow 2); [lia|].
    rewrite F by lia. vm_compute. reflexivity.
Defined.


(** The root directory as a file. *)
Lemma demo_meta_ok : meta_ok demo_inode.
Proof. unfold meta_ok, is_s16. cbn. unfold T_DIR. lia. Qed.

Lemma demo_inode_range : 0 <= i_inum demo_inode < sb_ninodes demo_sb.
Proof. cbn. lia. Qed.

Lemma demo_bytes : Forall is_byte [7; 8; 9].
Proof. repeat constructor; lia. Qed.

Lemma writei_replaces_witness :
  ∃ s s' a' x', demo_boot (Store (boot demo_disk 100) log0) = Ret tt s ∧
  writei (BlockLayer0 := store_block_layer 1) (λ _, None) 0 [7; 8; 9] 30 (demo_fs s) = Ret 3 s' ∧
  shows (BlockLayer0 := store_block_layer 1) s' a' ∧
  f_icache s' !! 0%nat = Some x' ∧ i_size x' = 33 ∧ byte_of (a_view a') (i_addrs x') 32 = 9.
Proof.
  destruct demo_store as (s & v & E & SR & Hv). pose proof (demo_dir s v SR Hv) as DA.
  destruct (writei_replaces (BlockLayer0 := store_block_layer 1) demo_sb small_geo (λ _, None)
    (demo_fs s) _ 0 demo_inode 30 [7; 8; 9] (da_file _ _ _ _ _ _ DA) eq_refl
    (demo_room v 16 ltac:(lia)) (demo_nfree v Hv) demo_bytes demo_meta_ok ltac:(discriminate)
    demo_inode_range (demo_mapped v) ltac:(cbn; lia) ltac:(cbn; lia)
    ltac:(change (MAXFILE * BSIZE) with 71680; cbn; lia)
    ltac:(change (MAXFILE * BSIZE) with 71680; cbn; lia))
    as (s' & a' & x' & E' & W).
  exists s, s', a', x'. split; [exact E|]. split; [exact E'|].
  split; [apply W|]. split; [apply W|]. split; [rewrite (wf_size _ _ _ _ _ _ _ _ _ _ W); reflexivity|].
  rewrite (wf_bytes _ _ _ _ _ _ _ _ _ _ W) by (change (MAXFILE * BSIZE) with 71680; lia). reflexivity.
Defined.

Lemma writei_readi_witness :
  ∃ s s1 s2, demo_boot (Store (boot demo_disk 100) log0) = Ret tt s ∧
  writei (BlockLayer0 := store_block_layer 1) (λ _, None) 0 [7; 8; 9] 30 (demo_fs s) = Ret 3 s1 ∧
  readi (BlockLayer0 := store_block_layer 1) (λ _, None) 0 30 3 s1 = Ret (3, [7; 8; 9]) s2.
Proof.
  destruct demo_store as (s & v & E & SR & Hv). pose proof (demo_dir s v SR Hv) as DA.
  destruct (writei_readi (BlockLayer0 := store_block_layer 1) demo_sb small_geo (λ _, None)
    (λ _, None) (demo_fs s) _ 0 demo_inode 30 [7; 8; 9] (da_file _ _ _ _ _ _ DA) eq_refl
    (demo_room v 21 ltac:(lia)) (demo_nfree v Hv) demo_bytes demo_meta_ok ltac:(discriminate)
    demo_inode_range (demo_mapped v) ltac:(cbn; lia) ltac:(cbn; lia)
    ltac:(change (MAXFILE * BSIZE) with 71680; cbn; lia)
    ltac:(change (MAXFILE * BSIZE) with 71680; cbn; lia))
    as (s1 & s2 & E1 & E2).
  exists s, s1, s2. split; [exact E|]. split; [exact E1|exact E2].
Defined.

Lemma rw_out_of_range_witness :
  let s := demo_fs (Store (boot demo_disk 100) log0) in
  readi (BlockLayer0 := store_block_layer 1) (λ _, None) 0 33 3 s = Ret (-1, []) s ∧
  writei (BlockLayer0 := store_block_layer 1) (λ _, None) 0 [7; 8; 9] 33 s = Ret (-1) s.
Proof.
  destruct (rw_out_of_range (BlockLayer0 := store_block_layer 1) (λ _, None) (λ _, None)
    (demo_fs (Store (boot demo_disk 100) log0)) 0 demo_inode 33 [7; 8; 9] eq_refl
    ltac:(discriminate) ltac:(lia) ltac:(cbn; lia)) as [H1 H2].
  split; [apply H1; left; cbn; lia|apply H2; left; left; cbn; lia].
Defined.

(** The entries of the root directory. *)
Lemma demo_entries v :
  (∀ b, b ≠ 2 → v b = demo_view b) →
  entries v (i_addrs demo_inode) (i_size demo_inode) = [Dirent 1 (dot 1); Dirent 1 (dot 2)].
Proof.
  intros Hv. assert (E : entries demo_view (i_addrs demo_inode) (i_size demo_inode) =
    [Dirent 1 (dot 1); Dirent 1 (dot 2)]) by (vm_compute; reflexivity).
  rewrite <-E. unfold entries. apply list_fmap_ext. intros j k Hk.
  apply lookup_seq in Hk as [-> Hj]. change (Z.to_nat (i_size demo_inode / DIRENT_SIZE)) with 2%nat in Hj.
  unfold entry. f_equal. apply file_slice_ext. intros i Hi. unfold byte_of.
  assert (i / BSIZE = 0) as -> by (change BSIZE with 512; dlia). change (slot 0) with 0.
  rewrite (demo_ptr v), (demo_ptr demo_view) by done. cbn [Z.eqb]. by rewrite Hv.
Qed.

Lemma dirlookup_first_witness :
  ∃ s ip s', demo_boot (Store (boot demo_disk 100) log0) = Ret tt s ∧
  dirlookup (BlockLayer0 := store_block_layer 1) (λ _, None) 0 [46; 46] (demo_fs s)
    = Ret (Some (ip, 16)) s' ∧ refers s' ip ROOTDEV 1.
Proof.
  destruct demo_store as (s & v & E & SR & Hv). pose proof (demo_dir s v SR Hv) as DA.
  destruct (dirlookup_first (BlockLayer0 := store_block_layer 1) demo_sb small_geo (λ _, None)
    (demo_fs s) _ 0 demo_inode [46; 46] DA (demo_room v 5 ltac:(lia)) eq_refl
    ltac:(intros off inum _; exists 1%nat, inhabitant; split; [reflexivity|right; reflexivity]))
    as (r & s' & E' & _ & H).
  cbn [a_view] in H. rewrite (demo_entries v Hv) in H. destruct r as [[ip off]|].
  - destruct H as (k & e & -> & Hk & Hn & _ & Href). exists s, ip, s'. split; [exact E|].
    destruct k as [|[|k]]; cbn in Hk; [|injection Hk as <-; split; [exact E'|exact Href]|discriminate].
    injection Hk as <-. destruct Hn as [_ Hn]. vm_compute in Hn. discriminate Hn.
  - exfalso. apply (H 1%nat (Dirent 1 (dot 2))); [reflexivity|]. split; [discriminate|vm_compute; reflexivity].
Defined.

Lemma dirlink_adds_witness :
  ∃ s s' a' x', demo_boot (Store (boot demo_disk 100) log0) = Ret tt s ∧
  dirlink (BlockLayer0 := store_block_layer 1) 1 (λ _, None) (λ _, None) 0 [97] 2 (demo_fs s)
    = Ret 0 s' ∧ dir_at (BlockLayer0 := store_block_layer 1) demo_sb small_geo s' a' 0 x' ∧
  found [97] (entries (a_view a') (i_addrs x') (i_size x')) = Some (32, 2).
Proof.
  destruct demo_store as (s & v & E & SR & Hv). pose proof (demo_dir s v SR Hv) as DA.
  destruct (dirlink_adds (BlockLayer0 := store_block_layer 1) demo_sb small_geo 1 (λ _, None)
    (λ _, None) (demo_fs s) _ 0 demo_inode [97] 2 DA (demo_room v 16 ltac:(lia)) eq_refl
    (demo_nfree v Hv) demo_meta_ok demo_inode_range ltac:(repeat constructor; lia) ltac:(lia)
    ltac:(cbn [a_view]; rewrite (demo_entries v Hv); vm_compute; reflexivity)
    ltac:(cbn [a_view]; rewrite (demo_entries v Hv); vm_compute; discriminate))
    as (s' & a' & x' & E' & DA' & H & _).
  cbn [a_view] in H. rewrite (demo_entries v Hv) in H.
  exists s, s', a', x'. split; [exact E|]. split; [exact E'|]. split; [exact DA'|exact H].
Defined.

(** Looking up "/../." with an empty inode cache. *)
Definition demo_path : list Z := [47; 46; 46; 47; 46].
Definition demo_empty (s : store) : fs store := Fs s demo_sb (replicate 50 inhabitant).

Lemma demo_root_inode v :
  (∀ b, b ≠ 2 → v b = demo_view b) → disk_inode demo_sb v 1 = demo_root.
Proof. intros Hv. unfold disk_inode. rewrite demo_inodes, Hv by done. vm_compute. reflexivity. Qed.

Lemma demo_node v : (∀ b, b ≠ 2 → v b = demo_view b) → node_ok demo_sb small_geo v 1.
Proof.
  intros Hv. split; rewrite ?demo_root_inode by done; [cbn; lia|done|done|].
  intros d _. subst d. split_and!; [by apply demo_addrs|done| |done|by apply demo_mapped].
  change (MAXFILE * BSIZE) with 71680. cbn. lia.
Qed.

Lemma demo_cache_ok v : cache_ok demo_sb 1 v None (replicate 50 inhabitant).
Proof.
  assert (H : ∀ i x, replicate 50 (inhabitant : inode) !! i = Some x → x = inhabitant)
    by (intros i x Hx; by apply lookup_replicate in Hx as [-> _]).
  split; [split|..].
  - intros i x ->%H. done.
  - intros i j x y ->%H _ Hx. done.
  - intros i x ->%H Hx. done.
  - intros i x ->%H. done.
  - intros i x ->%H Hx. done.
Qed.

Lemma demo_walk v :
  (∀ b, b ≠ 2 → v b = demo_view b) →
  walk_ok demo_sb small_geo v 1 (elems demo_path) ∧ walk demo_sb v false 1 (elems demo_path) = Some 1.
Proof.
  intros Hv. change (elems demo_path) with [[46; 46]; [46]]. cbn [walk walk_ok].
  rewrite (demo_root_inode v Hv). change (di_addrs demo_root) with (i_addrs demo_inode).
  change (di_size demo_root) with (i_size demo_inode). rewrite (demo_entries v Hv).
  change (found [46; 46] [Dirent 1 (dot 1); Dirent 1 (dot 2)]) with (Some (16, 1)). cbn [walk walk_ok].
  rewrite (demo_root_inode v Hv). change (di_addrs demo_root) with (i_addrs demo_inode).
  change (di_size demo_root) with (i_size demo_inode). rewrite (demo_entries v Hv).
  change (found [46] [Dirent 1 (dot 1); Dirent 1 (dot 2)]) with (Some (0, 1)).
  pose proof (demo_node v Hv). split; [by split_and!|reflexivity].
Qed.

Lemma namex_resolves_witness :
  ∃ s r s' ip, demo_boot (Store (boot demo_disk 100) log0) = Ret tt s ∧
  namex (BlockLayer0 := store_block_layer 1) 1 0 (λ _, None) demo_path false (replicate 14 0) (demo_empty s)
    = Ret r s' ∧ r.1 = Some ip ∧ entry_of s' ip 1.
Proof.
  destruct demo_store as (s & v & E & SR & Hv). destruct (demo_walk v Hv) as [W1 W2].
  destruct (namex_resolves (BlockLayer0 := store_block_layer 1) demo_sb small_geo 1 0 (λ _, None)
    (demo_empty s) (AStore v ∅ ∅ small_geo) demo_path false (replicate 14 0)) as (r & s' & E' & _ & _ & _ & H).
  - exact SR.
  - reflexivity.
  - split; [apply demo_layout|reflexivity|by apply demo_meta|apply demo_held].
  - apply demo_room. lia.
  - reflexivity.
  - apply demo_cache_ok.
  - vm_compute. lia.
  - intros Hc. contradiction Hc. reflexivity.
  - reflexivity.
  - exact W1.
  - discriminate.
  - cbn [a_view] in H. change (start_inum 0 demo_path (demo_empty s)) with 1 in H. rewrite W2 in H.
    destruct H as (ip & Hr & He & _). exists s, r, s', ip. split; [exact E|]. split; [exact E'|]. split; [exact Hr|exact He].
Defined.
