(* ===== verification/Mkfs.v ===== *)
(** * mkfs.c: building a file system image

    The program that makes the disk the kernel boots from.  It runs on the
    host: the image is the file [fsfd], a list of sectors, and [host] says
    what opening a file named on the command line gives: nothing, or the
    results of the successive calls of [read].  A failed assertion and
    [exit(1)] are [Panic]. *)

From S2P Require Import Prelude Str Layout Fs.

Definition NINODES : Z := 200.

Definition nbitmap : Z := FSSIZE / (BSIZE * 8) + 1.
Definition ninodeblocks : Z := NINODES / IPB + 1.
Definition nlog : Z := LOGSIZE.
Definition nmeta : Z := 2 + nlog + ninodeblocks + nbitmap.
Definition nblocks : Z := FSSIZE - nmeta.

Record mkfs := Mkfs {
  m_img : list block;       (* fsfd *)
  m_sb : superblock;
  m_freeinode : Z;
  m_freeblock : Z }.

Local Abbreviation K := (M mkfs).

Definition set_img (img : list block) (s : mkfs) : mkfs :=
  Mkfs img (m_sb s) (m_freeinode s) (m_freeblock s).

(** [freeblock++] and [freeinode++]. *)
Definition next_block : K Z :=
  b ← gets m_freeblock;
  modify (λ s, Mkfs (m_img s) (m_sb s) (m_freeinode s) (u32 (m_freeblock s + 1)));;
  mret b.
Definition next_inode : K Z :=
  i ← gets m_freeinode;
  modify (λ s, Mkfs (m_img s) (m_sb s) (u32 (m_freeinode s + 1)) (m_freeblock s));;
  mret i.

(** The value whose bytes, in the order of the x86, are those of [x]. *)
Definition xshort (x : Z) : Z := le_val (le_bytes 2 x).
Definition xint (x : Z) : Z := le_val (le_bytes 4 x).

(** ** Sectors *)

(** A write past the end extends the file; the gap reads as zeroes. *)
Definition put_sector (i : nat) (d : block) (img : list block) : list block :=
  if decide (i < length img)%nat then <[i := d]> img
  else img ++ replicate (i - length img) zero_block ++ [d].

Definition sector (sec : Z) : nat := Z.to_nat (u32 (sec * BSIZE) / BSIZE).

Definition wsect (sec : Z) (buf : block) : K unit :=
  modify (λ s, set_img (put_sector (sector sec) buf (m_img s)) s).

Definition rsect (sec : Z) : K block :=
  img ← gets m_img;
  match img !! sector sec with
  | Some d => mret d
  | None => panic "read"
  end.

(** ** Inodes *)

Definition winode (inum : Z) (ip : dinode) : K unit :=
  sb ← gets m_sb;
  let bn := IBLOCK inum sb in
  buf ← rsect bn;
  wsect bn (put_dinode (Z.to_nat (inum mod IPB)) ip buf).

Definition rinode (inum : Z) : K dinode :=
  sb ← gets m_sb;
  let bn := IBLOCK inum sb in
  buf ← rsect bn;
  mret (dinode_at (Z.to_nat (inum mod IPB)) buf).

Definition ialloc (type : Z) : K Z :=
  inum ← next_inode;
  winode inum (Dinode (s16 (xshort type)) 0 0 (s16 (xshort 1)) (xint 0) (replicate 13 0));;
  mret inum.

Definition set_addr (i b : Z) (d : dinode) : dinode :=
  Dinode (di_type d) (di_major d) (di_minor d) (di_nlink d) (di_size d)
    (<[Z.to_nat i := b]> (di_addrs d)).
Definition set_size (n : Z) (d : dinode) : dinode :=
  Dinode (di_type d) (di_major d) (di_minor d) (di_nlink d) n (di_addrs d).

(** Slot [i] of the inode, allocated when it is empty. *)
Definition iappend_slot (i : Z) (din : dinode) : K dinode :=
  if xint (di_addrs din !!! Z.to_nat i) =? 0 then
    b ← next_block;
    mret (set_addr i (xint b) din)
  else mret din.

(** The block of [iappend] for block [fbn] of the file. *)
Definition iappend_block (fbn : Z) (din : dinode) : K (dinode * Z) :=
  if fbn <? NDIRECT then
    din ← iappend_slot fbn din;
    mret (din, xint (di_addrs din !!! Z.to_nat fbn))
  else
    din ← iappend_slot NDIRECT din;
    let ind := xint (di_addrs din !!! Z.to_nat NDIRECT) in
    indirect ← rsect ind;
    let o := (4 * Z.to_nat (fbn - NDIRECT))%nat in
    if get32 o indirect =? 0 then
      b ← next_block;
      let indirect := put32 o (xint b) indirect in
      wsect ind indirect;;
      mret (din, xint (get32 o indirect))
    else mret (din, xint (get32 o indirect)).

(** The loop of [iappend]; every round copies at least a byte. *)
Fixpoint iappend_loop (fuel : nat) (p : list Z) (off : Z) (din : dinode) : K (dinode * Z) :=
  match p, fuel with
  | [], _ => mret (din, off)
  | _, O => diverge
  | _, S fuel' =>
    let fbn := off / BSIZE in
    if negb (fbn <? MAXFILE) then panic "fbn < MAXFILE"
    else
      r ← iappend_block fbn din;
      let '(din, x) := r in
      let n1 := Z.min (Z.of_nat (length p)) (u32 ((fbn + 1) * BSIZE - off)) in
      buf ← rsect x;
      wsect x (splice (Z.to_nat (off - fbn * BSIZE)) (take (Z.to_nat n1) p) buf);;
      iappend_loop fuel' (drop (Z.to_nat n1) p) (u32 (off + n1)) din
  end.

Definition iappend (inum : Z) (p : list Z) : K unit :=
  din ← rinode inum;
  r ← iappend_loop (length p) p (xint (di_size din)) din;
  let '(din, off) := r in
  winode inum (set_size (xint off) din).

(** ** The bitmap *)

Fixpoint balloc_bits (i : nat) : block :=
  match i with
  | O => zero_block
  | S i =>
    let buf := balloc_bits i in
    let k := Z.to_nat (Z.of_nat i / 8) in
    <[k := u8 (Z.lor (buf !!! k) (Z.shiftl 1 (Z.of_nat i mod 8)))]> buf
  end.

Definition balloc (used : Z) : K unit :=
  if negb (used <? BSIZE * 8) then panic "used < BSIZE*8"
  else
    sb ← gets m_sb;
    wsect (sb_bmapstart sb) (balloc_bits (Z.to_nat used)).

(** ** main *)

Definition mkfs_sb : superblock :=
  Superblock (xint FSSIZE) (xint nblocks) (xint NINODES) (xint nlog)
    (xint 2) (xint (2 + nlog)) (xint (2 + nlog + ninodeblocks)).

(** The image before the first inode: zeroes and the super block. *)
Fixpoint wipe (n : nat) : K unit :=
  match n with
  | O => mret tt
  | S n => wipe n;; wsect (Z.of_nat n) zero_block
  end.

Definition start : K unit :=
  modify (λ s, Mkfs (m_img s) mkfs_sb (m_freeinode s) nmeta);;
  wipe (Z.to_nat FSSIZE);;
  wsect 1 (splice 0 (superblock_bytes mkfs_sb) zero_block).

(** A directory entry: [bzero], the inode number, the name. *)
Definition entry_bytes (inum : Z) (name : list Z) : list Z :=
  dirent_bytes (Dirent (xshort inum) (strncpy_bytes (rd name) 0 (Z.to_nat DIRSIZ))).

Section main.
Variable host : list Z → option (list (list Z)).

(** [while((cc = read(fd, buf, sizeof(buf))) > 0) iappend(inum, buf, cc)]. *)
Fixpoint copy_in (inum : Z) (reads : list (list Z)) : K unit :=
  match reads with
  | [] => mret tt
  | buf :: reads =>
    if negb (0 <? length buf)%nat then mret tt
    else iappend inum buf;; copy_in inum reads
  end.

Definition UNDERSCORE : Z := 95.
Definition strip (arg : list Z) : list Z :=
  match arg with c :: l => if c =? UNDERSCORE then l else arg | [] => arg end.

(** One round of the loop over the arguments. *)
Definition add_file (rootino : Z) (arg : list Z) : K unit :=
  if decide (47 ∈ arg) then panic "index(argv[i], '/') == 0"
  else
    match host arg with
    | None => panic "open"
    | Some reads =>
      inum ← ialloc T_FILE;
      iappend rootino (entry_bytes inum (strip arg));;
      copy_in inum reads
    end.

Fixpoint add_files (rootino : Z) (args : list (list Z)) : K unit :=
  match args with
  | [] => mret tt
  | arg :: args => add_file rootino arg;; add_files rootino args
  end.

(** [args] is [argv + 2]. *)
Definition main (args : list (list Z)) : K unit :=
  start;;
  rootino ← ialloc T_DIR;
  if negb (rootino =? ROOTINO) then panic "rootino == ROOTINO"
  else
    iappend rootino (entry_bytes rootino [46]);;
    iappend rootino (entry_bytes rootino [46; 46]);;
    add_files rootino args;;
    din ← rinode rootino;
    let off := u32 ((xint (di_size din) / BSIZE + 1) * BSIZE) in
    winode rootino (set_size (xint off) din);;
    used ← gets m_freeblock;
    balloc used.
End main.

(** The state before [main]. *)
Definition mkfs0 : mkfs := Mkfs [] (Superblock 0 0 0 0 0 0 0) 1 0.
