(* ===== verification/MkfsSpec.v ===== *)
(** * The image mkfs builds, as the kernel sees it

    mkfs allocates blocks by counting and writes the bitmap at the end.
    [rep] relates its state to the view fs.c is verified on, with the
    bitmap that is written if mkfs stops now: taking the next block is
    then [balloc] of the kernel, and what fs.c's files prove about growing
    and writing a file holds for [iappend]. *)

From S2P Require Import Prelude Str Layout BlockLayer Fs FsBlock FsInode FsFile FsRw FsDir Mkfs.

Definition mkfs_geo : geometry := Geometry FSSIZE 2 LOGSIZE.

(** The content of a sector of the image. *)
Definition mk_view (img : list block) (b : Z) : block := default zero_block (img !! Z.to_nat b).

Lemma xint_id x : is_u32 x → xint x = x.
Proof. intros H. unfold xint. by apply le_val_bytes_small. Qed.

Lemma xshort_id x : 0 <= x < 2 ^ 16 → xshort x = x.
Proof. intros H. unfold xshort. by apply le_val_bytes_small. Qed.

Lemma mkfs_sb_eq : mkfs_sb = Superblock 1000 941 200 30 2 32 58.
Proof. reflexivity. Qed.

Lemma sector_small b : 0 <= b < 2 ^ 23 → sector b = Z.to_nat b.
Proof.
  intros H. unfold sector, u32. change BSIZE with 512. rewrite Z.mod_small by lia. f_equal. dlia.
Qed.

(** ** The layout *)

Lemma mkfs_bblock x : 0 <= x < 1000 → BBLOCK x mkfs_sb = 58.
Proof. intros. unfold BBLOCK. change BPB with 4096. rewrite mkfs_sb_eq. cbn. dlia. Qed.

Lemma mkfs_iblock i : 0 <= i < 200 → 32 <= IBLOCK i mkfs_sb < 57.
Proof. intros. unfold IBLOCK. change IPB with 8. rewrite mkfs_sb_eq. cbn. dlia. Qed.

Lemma mkfs_home b : 32 <= b < 1000 → home mkfs_geo b.
Proof.
  unfold home. change (g_size mkfs_geo) with 1000. change (g_logstart mkfs_geo) with 2.
  change (g_logsize mkfs_geo) with 30. lia.
Qed.

Lemma mkfs_layout : layout_ok mkfs_sb mkfs_geo.
Proof.
  split; cbn [g_size mkfs_geo]; change FSSIZE with 1000; change (sb_ninodes mkfs_sb) with 200.
  - done.
  - lia.
  - intros b Hb. rewrite mkfs_bblock by done. by apply mkfs_home.
  - intros i Hi%mkfs_iblock. apply mkfs_home. lia.
  - intros b i Hb Hi%mkfs_iblock. rewrite mkfs_bblock by done. lia.
Qed.

Lemma mkfs_data b : 59 <= b < 1000 → data_block mkfs_sb mkfs_geo b.
Proof.
  intros Hb. split_and!; cbn [g_size mkfs_geo]; change FSSIZE with 1000;
    change (sb_ninodes mkfs_sb) with 200.
  - apply mkfs_home. lia.
  - intros x Hx. rewrite mkfs_bblock by done. lia.
  - intros i Hi%mkfs_iblock. lia.
Qed.

(** ** The bitmap *)

Lemma balloc_bits_wf_mark i :
  (i ≤ 4096)%nat → wf_block (balloc_bits i) ∧
  ∀ j, i = S j → balloc_bits i = mark (Z.of_nat j) (balloc_bits j).
Proof.
  induction i as [|i IH]; intros Hi; [split; [apply wf_zero_block|done]|].
  destruct (IH ltac:(lia)) as [W _].
  assert (Hb : 0 <= Z.of_nat i < BPB) by (change BPB with 4096; lia).
  assert (E : balloc_bits (S i) = mark (Z.of_nat i) (balloc_bits i)).
  { cbn [balloc_bits]. unfold mark. fold (byte_at (balloc_bits i) (Z.of_nat i)).
    fold (bit_of (Z.of_nat i)). f_equal.
    pose proof (wf_mark _ _ W Hb) as [Hl Hf]. unfold mark in Hf.
    assert (is_byte (Z.lor (byte_at (balloc_bits i) (Z.of_nat i)) (bit_of (Z.of_nat i)))) as Hby.
    { apply (Forall_lookup_1 _ _ (Z.to_nat (Z.of_nat i / 8)) _ Hf). apply list_lookup_insert_eq.
      rewrite (proj1 W). change (Z.to_nat BSIZE) with 512%nat. dlia. }
    unfold u8. apply Z.mod_small. exact Hby. }
  split; [rewrite E; by apply wf_mark|]. by intros j [= <-].
Qed.

Lemma balloc_bits_wf i : (i ≤ 4096)%nat → wf_block (balloc_bits i).
Proof. intros Hi. by apply balloc_bits_wf_mark. Qed.

Lemma balloc_bits_S i : (i < 4096)%nat → balloc_bits (S i) = mark (Z.of_nat i) (balloc_bits i).
Proof. intros Hi. by apply balloc_bits_wf_mark. Qed.

(** The first [n] bits are set. *)
Lemma balloc_bits_used n b :
  (n ≤ 4096)%nat → 0 <= b < 4096 → bit_used (balloc_bits n) b = (b <? Z.of_nat n).
Proof.
  intros Hn Hb. induction n as [|n IH].
  - rewrite (proj2 (Z.ltb_ge _ _)) by lia. unfold bit_used, byte_at. cbn [balloc_bits].
    unfold zero_block. change (Z.to_nat BSIZE) with 512%nat.
    rewrite lookup_total_replicate_2 by dlia. by rewrite Z.land_0_l.
  - rewrite balloc_bits_S, bit_used_mark, IH by
      (lia || (apply balloc_bits_wf; lia) || (change BPB with 4096; lia)).
    destruct (Z.eqb_spec b (Z.of_nat n)), (Z.ltb_spec b (Z.of_nat n)),
      (Z.ltb_spec b (Z.of_nat (S n))); done || lia.
Qed.

(** ** The representation *)

Record rep (s : mkfs) (a : astore) : Prop := {
  rp_len : length (m_img s) = 1000%nat;
  rp_sb : m_sb s = mkfs_sb;
  rp_geo : a_geo a = mkfs_geo;
  rp_held : a_held a = ∅;
  rp_view b : b ≠ 58 → a_view a b = mk_view (m_img s) b;
  rp_bits : a_view a 58 = balloc_bits (Z.to_nat (m_freeblock s));
  rp_fb : 59 <= m_freeblock s <= 1000;
  rp_zero b : m_freeblock s <= b → a_view a b = zero_block;
  rp_wf b : wf_block (a_view a b) }.

Section rep_facts.
Context (s : mkfs) (a : astore).
Hypothesis R : rep s a.

Lemma rep_used x : 0 <= x < 1000 → used mkfs_sb (a_view a) x = (x <? m_freeblock s).
Proof.
  intros Hx. unfold used. rewrite mkfs_bblock, (rp_bits _ _ R) by done. change BPB with 4096.
  rewrite Z.mod_small by lia. pose proof (rp_fb _ _ R).
  rewrite balloc_bits_used by lia. by rewrite Z2Nat.id by lia.
Qed.

Lemma rep_fs_ok : fs_ok mkfs_sb mkfs_geo a.
Proof.
  split; [apply mkfs_layout|apply R| |].
  - intros b Hb. change (g_size mkfs_geo) with 1000 in Hb. rewrite rep_used by done.
    intros H%Z.ltb_ge. pose proof (rp_fb _ _ R). apply mkfs_data. lia.
  - intros b [i Hi]. by rewrite (rp_held _ _ R), lookup_empty in Hi.
Qed.

Lemma rsect_rule {B} b (k : block → M mkfs B) Q :
  0 <= b < 1000 → b ≠ 58 → wp (k (a_view a b)) Q s → wp (d ← rsect b; k d) Q s.
Proof.
  intros Hb Hne Hk. unfold rsect. apply wp_bind, wp_bind, wp_gets.
  rewrite sector_small by lia.
  destruct (lookup_lt_is_Some_2 (m_img s) (Z.to_nat b)) as [d Hd]; [rewrite (rp_len _ _ R); lia|].
  rewrite Hd. apply wp_ret. by rewrite (rp_view _ _ R b Hne) in Hk; unfold mk_view in Hk; rewrite Hd in Hk.
Qed.

(** The counters are the same. *)
Definition same_ctr (s s' : mkfs) : Prop :=
  m_freeblock s' = m_freeblock s ∧ m_freeinode s' = m_freeinode s.

Lemma wsect_rule {B} b d (k : unit → M mkfs B) Q :
  0 < b < m_freeblock s → b ≠ 58 → wf_block d →
  (∀ s', rep s' (a_update b d a) → same_ctr s s' → wp (k tt) Q s') →
  wp (x ← wsect b d; k x) Q s.
Proof.
  intros Hb Hne Hd Hk. apply wp_bind, wp_modify. pose proof (rp_fb _ _ R) as Hfb.
  apply Hk; [|done]. rewrite sector_small by lia. unfold put_sector.
  rewrite decide_True by (rewrite (rp_len _ _ R); lia). destruct R. split; cbn; try done.
  - by rewrite length_insert.
  - intros x Hx. unfold view_set, mk_view. destruct (Z.eqb_spec x b) as [->|Hxb].
    + by rewrite list_lookup_insert_eq by lia.
    + rewrite list_lookup_insert_ne by lia. by apply rp_view0.
  - by rewrite view_set_ne.
  - intros x Hx. rewrite view_set_ne by lia. by apply rp_zero0.
  - intros x. unfold view_set. by destruct (x =? b).
Qed.

Lemma wsect_last b d Q :
  0 < b < m_freeblock s → b ≠ 58 → wf_block d →
  (∀ s', rep s' (a_update b d a) → same_ctr s s' → Q tt s') → wp (wsect b d) Q s.
Proof. intros Hb Hne Hd Hk. by apply (wsect_rule b d (λ x s, Ret x s) Q). Qed.

(** Taking the next block is what [balloc] of the kernel does. *)
Lemma next_block_rule {B} (k : Z → M mkfs B) Q :
  let r := m_freeblock s in
  r < 1000 →
  (∀ s', rep s' (a_alloc mkfs_sb r a) → m_freeblock s' = r + 1 →
    m_freeinode s' = m_freeinode s → wp (k r) Q s') →
  wp (b ← next_block; k b) Q s.
Proof.
  intros r Hr Hk. unfold next_block. apply wp_bind, wp_bind, wp_gets, wp_bind, wp_modify, wp_ret.
  pose proof (rp_fb _ _ R) as Hfb. fold r in Hfb |- *.
  assert (Eu : u32 (r + 1) = r + 1) by (apply Z.mod_small; lia). rewrite Eu.
  apply Hk; [|done..]. assert (Ebb : BBLOCK r mkfs_sb = 58) by (apply mkfs_bblock; lia).
  assert (Em : r mod BPB = r) by (apply Z.mod_small; change BPB with 4096; lia).
  destruct R. split; cbn -[Z.add balloc_bits]; rewrite ?Ebb, ?Em; try done.
  - intros b Hb. unfold view_set at 1. destruct (Z.eqb_spec b r) as [->|].
    + rewrite <-rp_view0 by done. by rewrite rp_zero0.
    + rewrite view_set_ne by done. by apply rp_view0.
  - rewrite view_set_ne, view_set_eq, rp_bits0 by lia. fold r.
    replace (Z.to_nat (r + 1)) with (S (Z.to_nat r)) by lia. rewrite balloc_bits_S by lia.
    by rewrite Z2Nat.id by lia.
  - lia.
  - intros b Hb. rewrite !view_set_ne by lia. apply rp_zero0. lia.
  - intros b. unfold view_set. destruct (b =? r); [apply wf_zero_block|].
    destruct (b =? 58); [|done]. apply wf_mark; [apply rp_wf0|change BPB with 4096; lia].
Qed.
End rep_facts.

(** ** Growing a file *)

Definition set_addrs (l : list Z) (d : dinode) : dinode :=
  Dinode (di_type d) (di_major d) (di_minor d) (di_nlink d) (di_size d) l.

Lemma set_addrs_id d : set_addrs (di_addrs d) d = d.
Proof. by destruct d. Qed.

Local Abbreviation addrs_ok := (addrs_ok mkfs_sb mkfs_geo).
Local Abbreviation grow := (grow mkfs_sb mkfs_geo).
Local Abbreviation grows := (grows mkfs_sb mkfs_geo).
Local Abbreviation grown := (grown mkfs_sb mkfs_geo).
Local Abbreviation written := (written mkfs_sb mkfs_geo).

(** Pointers are block numbers or 0. *)
Lemma ptr_u32 v l j : addrs_ok v l → 0 <= j < NSLOT → 0 <= ptr v l j < 1000.
Proof.
  intros A Hj. destruct (decide (ptr v l j = 0)) as [->|Hp]; [lia|].
  destruct (ao_data _ _ _ _ A j Hj Hp) as [Hd _]. by apply data_block_range in Hd.
Qed.

Lemma addr_xint v l k : addrs_ok v l → 0 <= k <= NDIRECT → xint (l !!! Z.to_nat k) = ptr v l k.
Proof.
  intros A Hk. assert (Hj : 0 <= k < NSLOT) by (split; [lia|]; change NDIRECT with 12 in Hk;
    change NSLOT with 141; lia).
  pose proof (ptr_u32 v l k A Hj) as Hu. rewrite ptr_direct in * by lia. apply xint_id.
  unfold is_u32. lia.
Qed.

(** The boot block, the super block and the log are not touched. *)
Lemma data_low b : data_block mkfs_sb mkfs_geo b → 32 <= b.
Proof.
  intros ([H1 H2] & _). change (g_logstart mkfs_geo) with 2 in H2.
  change (g_logsize mkfs_geo) with 30 in H2. lia.
Qed.

Lemma alloc_low a r b : 32 <= r < 1000 → b < 32 → a_view (a_alloc mkfs_sb r a) b = a_view a b.
Proof.
  intros Hr Hb. unfold a_alloc. cbn [a_view a_update]. rewrite mkfs_bblock by lia.
  by rewrite !view_set_ne by lia.
Qed.

(** The blocks between two states: [n] of them were taken, for the slots
    where [new] holds. *)
Record extended (n : Z) (new : Z → Prop) (s : mkfs) (a : astore) (l : list Z)
    (s' : mkfs) (a' : astore) (l' : list Z) : Prop := {
  ex_grows : grows (Z.to_nat n) (a, l) (a', l');
  ex_rep : rep s' a';
  ex_block : m_freeblock s' = m_freeblock s + n;
  ex_inode : m_freeinode s' = m_freeinode s;
  ex_low b : b < 32 → a_view a' b = a_view a b;
  ex_ptr j : 0 <= j < NSLOT → ptr (a_view a') l' j ≠ 0 ↔ ptr (a_view a) l j ≠ 0 ∨ new j }.

Lemma extended_refl new s a l :
  rep s a → (∀ j, 0 <= j < NSLOT → new j → ptr (a_view a) l j ≠ 0) → extended 0 new s a l s a l.
Proof. intros R Hn. split; [constructor|done|lia|done|done|]. intros j Hj. specialize (Hn j Hj). tauto. Qed.

Lemma extended_one k s a l s' a' l' :
  let r := m_freeblock s in
  grow k r a l a' l' → rep s' a' → m_freeblock s' = r + 1 → m_freeinode s' = m_freeinode s →
  (∀ b, b < 32 → a_view a' b = a_view a b) → extended 1 (λ j, j = k) s a l s' a' l'.
Proof.
  intros r G R Hb Hi Hl. split; [|done|done|done|done|].
  - change (Z.to_nat 1) with 1%nat. eapply nsteps_l; [|constructor]. by exists k, r.
  - intros j Hj. rewrite (gr_ptr _ _ _ _ _ _ _ _ G) by done.
    destruct (gr_free _ _ _ _ _ _ _ _ G) as [([Hr _] & _) _].
    destruct (Z.eqb_spec j k) as [->|]; [|tauto]. split; [by right|lia].
Qed.

Lemma extended_trans n m new new' s a l s1 a1 l1 s2 a2 l2 :
  0 <= n → 0 <= m → extended n new s a l s1 a1 l1 → extended m new' s1 a1 l1 s2 a2 l2 →
  extended (n + m) (λ j, new j ∨ new' j) s a l s2 a2 l2.
Proof.
  intros Hn Hm [G1 R1 B1 I1 L1 P1] [G2 R2 B2 I2 L2 P2].
  split; [|done|lia|congruence|intros b Hb; by rewrite L2, L1|].
  - rewrite Z2Nat.inj_add by done. by eapply nsteps_trans.
  - intros j Hj. rewrite P2, P1 by done. tauto.
Qed.

Definition missing (v : Z → block) (l : list Z) (k : Z) : Z := if ptr v l k =? 0 then 1 else 0.

Lemma iappend_slot_spec s a k din :
  let l := di_addrs din in
  rep s a → addrs_ok (a_view a) l → 0 <= k <= NDIRECT →
  m_freeblock s + missing (a_view a) l k <= 1000 →
  wp (iappend_slot k din) (λ din' s', ∃ a' l', din' = set_addrs l' din ∧
    extended (missing (a_view a) l k) (λ j, j = k) s a l s' a' l') s.
Proof.
  intros l R A Hk. unfold iappend_slot. fold l. rewrite (addr_xint (a_view a)) by done.
  unfold missing. pose proof (rp_fb _ _ R) as Hfb.
  destruct (Z.eqb_spec (ptr (a_view a) l k) 0) as [H0|H0]; intros Hroom.
  - apply (next_block_rule s a R); [lia|]. intros s' R' Hb Hi. apply wp_ret.
    rewrite xint_id by (unfold is_u32; lia).
    exists (a_alloc mkfs_sb (m_freeblock s) a), (<[Z.to_nat k := m_freeblock s]> l).
    split; [done|]. apply extended_one; [|done|done|done|].
    2: { intros b Hlo. apply alloc_low; lia. }
    assert (Hd : data_block mkfs_sb mkfs_geo (m_freeblock s)) by (apply mkfs_data; lia).
    rewrite ptr_direct in H0 by lia.
    apply grow_direct; [apply mkfs_layout|apply R|done|done| |done|done].
    rewrite (rep_used s a R) by lia. apply Z.ltb_irrefl.
  - apply wp_ret. exists a, l. split; [symmetry; apply set_addrs_id|].
    apply extended_refl; [done|]. by intros j _ ->.
Qed.

(** The entries of the indirect block. *)
Lemma iappend_entry_spec s a k (d : dinode) :
  let l := di_addrs d in
  let ind := xint (l !!! Z.to_nat NDIRECT) in
  let o := (4 * Z.to_nat (k - NDIRECT - 1))%nat in
  rep s a → addrs_ok (a_view a) l → NDIRECT < k < NSLOT → ptr (a_view a) l NDIRECT ≠ 0 →
  m_freeblock s + missing (a_view a) l k <= 1000 →
  wp (indirect ← rsect ind;
      if get32 o indirect =? 0 then
        b ← next_block;
        let indirect := put32 o (xint b) indirect in
        wsect ind indirect;;
        mret (d, xint (get32 o indirect))
      else mret (d, xint (get32 o indirect)))
    (λ r s', ∃ a', extended (missing (a_view a) l k) (λ j, j = k) s a l s' a' l ∧
      r = (d, ptr (a_view a') l k) ∧ ptr (a_view a') l k ≠ 0) s.
Proof.
  intros l ind o R A Hk Hind. pose proof (rp_fb _ _ R) as Hfb.
  destruct (ao_data _ _ _ _ A NDIRECT ltac:(done) Hind) as [Hid Hiu].
  pose proof (data_block_range _ _ _ Hid) as Hir. change (g_size mkfs_geo) with 1000 in Hir.
  rewrite (rep_used s a R) in Hiu by done. apply Z.ltb_lt in Hiu.
  assert (Ei : ind = ptr (a_view a) l NDIRECT) by (by apply addr_xint).
  assert (Ed : l !!! Z.to_nat NDIRECT = ind) by (rewrite Ei; by rewrite ptr_direct by lia).
  pose proof Hid as ([H2 _] & H58 & _). specialize (H58 0 ltac:(done)).
  rewrite mkfs_bblock, <-Ei in H58 by lia. rewrite <-Ei in *.
  assert (Hptr : ptr (a_view a) l k = get32 o (a_view a ind)).
  { unfold ptr. rewrite Ed. rewrite (proj2 (Z.leb_gt _ _)) by lia.
    by rewrite (proj2 (Z.eqb_neq ind 0)). }
  unfold missing. rewrite Hptr. intros Hroom. apply (rsect_rule s a R); [lia|done|].
  destruct (Z.eqb_spec (get32 o (a_view a ind)) 0) as [H0|H0].
  - apply (next_block_rule s a R); [lia|]. intros s1 R1 Hb1 Hi1. cbn zeta.
    set (r := m_freeblock s) in *. rewrite (xint_id r) by (unfold is_u32; lia).
    assert (Hdr : data_block mkfs_sb mkfs_geo r) by (apply mkfs_data; lia).
    pose proof (grow_indirect mkfs_sb mkfs_geo a l r mkfs_layout (rp_wf _ _ R) A Hdr
      ltac:(rewrite (rep_used s a R) by lia; apply Z.ltb_irrefl) k) as G. cbn zeta in G.
    rewrite Ed in G. fold o in G. specialize (G Hk Hind H0 ltac:(done)).
    assert (Ho : (o + 4 ≤ 512)%nat) by (change NSLOT with 141 in Hk; change NDIRECT with 12 in *; lia).
    apply (wsect_rule s1 _ R1); [lia|done|apply wf_put32; [done|apply R]|].
    intros s2 R2 [Hb2 Hi2]. apply wp_ret.
    exists (a_update ind (put32 o r (a_view a ind)) (a_alloc mkfs_sb r a)).
    assert (Er : ptr (a_view (a_update ind (put32 o r (a_view a ind)) (a_alloc mkfs_sb r a))) l k = r).
    { rewrite (gr_ptr _ _ _ _ _ _ _ _ G) by (change NDIRECT with 12 in Hk; lia). by rewrite Z.eqb_refl. }
    rewrite Er. split; [apply extended_one; [done|done|by rewrite Hb2|by rewrite Hi2|]|].
    { intros b Hb. pose proof (data_low _ Hid). cbn [a_view a_update]. rewrite view_set_ne by lia. apply alloc_low; lia. }
    rewrite get32_put32_eq; [|unfold is_u32; lia|rewrite (proj1 (rp_wf _ _ R ind)); done].
    split; [|lia]. by rewrite xint_id by (unfold is_u32; lia).
  - apply wp_ret. exists a. split; [apply extended_refl; [done|]; intros j _ ->; by rewrite Hptr|].
    rewrite Hptr. split; [|done]. rewrite xint_id; [done|].
    pose proof (ptr_u32 _ _ k A ltac:(change NDIRECT with 12 in Hk; lia)) as Hu.
    rewrite Hptr in Hu. unfold is_u32. lia.
Qed.

Lemma extended_new n new new' s a l s' a' l' :
  (∀ j, new j ↔ new' j) → extended n new s a l s' a' l' → extended n new' s a l s' a' l'.
Proof. intros H [? ? ? ? ? P]. split; try done. intros j Hj. by rewrite P, H. Qed.

(** How many blocks have to be taken for block [bn] of the file. *)
Definition lack (v : Z → block) (l : list Z) (bn : Z) : Z :=
  if bn <? NDIRECT then missing v l bn else missing v l NDIRECT + missing v l (slot bn).

(** The slots that are in use then. *)
Definition new_slots (bn j : Z) : Prop := j = slot bn ∨ (j = NDIRECT ∧ NDIRECT <= bn).

Lemma missing_iff v l v' l' k :
  (ptr v' l' k ≠ 0 ↔ ptr v l k ≠ 0) → missing v' l' k = missing v l k.
Proof.
  intros H. unfold missing.
  destruct (Z.eqb_spec (ptr v' l' k) 0), (Z.eqb_spec (ptr v l k) 0); tauto.
Qed.

Lemma missing_range v l k : 0 <= missing v l k <= 1.
Proof. unfold missing. destruct (_ =? _); lia. Qed.

Lemma iappend_block_spec s a bn din :
  let l := di_addrs din in
  rep s a → addrs_ok (a_view a) l → 0 <= bn < MAXFILE →
  m_freeblock s + lack (a_view a) l bn <= 1000 →
  wp (iappend_block bn din) (λ r s', ∃ a' l',
    r = (set_addrs l' din, ptr (a_view a') l' (slot bn)) ∧ ptr (a_view a') l' (slot bn) ≠ 0 ∧
    extended (lack (a_view a) l bn) (new_slots bn) s a l s' a' l') s.
Proof.
  intros l R A Hbn. pose proof (rep_fs_ok s a R) as F. destruct (slot_range bn Hbn) as [Hs Hne].
  pose proof (missing_range (a_view a) l (bn + 1)). pose proof (missing_range (a_view a) l NDIRECT).
  revert Hs Hne. unfold lack, iappend_block, new_slots, slot in *. destruct (Z.ltb_spec bn NDIRECT) as [Hlt|Hge];
    intros Hs Hne Hroom; apply wp_bind.
  - eapply wp_mono; [by apply (iappend_slot_spec s a bn din); [| |lia|]|].
    intros din' s1 (a1 & l1 & -> & E). apply wp_ret. exists a1, l1. cbn [di_addrs set_addrs].
    destruct (grows_grown _ _ _ _ _ (ex_grows _ _ _ _ _ _ _ _ E) F A) as [A1 _ _ _ _ _ _ _ _].
    cbn [fst snd] in A1. rewrite (addr_xint (a_view a1)) by (done || lia). split; [done|].
    rewrite (ex_ptr _ _ _ _ _ _ _ _ E) by done. split; [by right|].
    eapply extended_new, E. intros j. split; [by left|]. intros [->|[_ ?]]; [done|lia].
  - eapply wp_mono; [apply (iappend_slot_spec s a NDIRECT din); [done|done|done|fold l; lia]|].
    intros din1 s1 (a1 & l1 & -> & E). fold l in E.
    destruct (grows_grown _ _ _ _ _ (ex_grows _ _ _ _ _ _ _ _ E) F A) as [A1 _ _ _ _ _ _ _ _].
    cbn [fst snd] in A1.
    assert (Em : missing (a_view a1) l1 (bn + 1) = missing (a_view a) l (bn + 1)).
    { apply missing_iff. rewrite (ex_ptr _ _ _ _ _ _ _ _ E) by done. intuition lia. }
    pose proof (iappend_entry_spec s1 a1 (bn + 1) (set_addrs l1 din)) as W.
    cbn [di_addrs set_addrs] in *. replace (bn + 1 - NDIRECT - 1) with (bn - NDIRECT) in W by lia.
    rewrite Em, (ex_block _ _ _ _ _ _ _ _ E) in W.
    eapply wp_mono; [apply W; [apply E|done|lia|by apply E; [done|right]|lia]|].
    intros r s2 (a2 & E2 & -> & Hp). exists a2, l1. split; [done|]. split; [done|].
    eapply extended_new; [|eapply extended_trans; [..|exact E2]; [| |exact E]; lia].
    intros j. split; [intros [->| ->]; [by right|by left]|]. intros [->|[-> _]]; [by right|by left].
Qed.

(** ** Files without holes *)

(** The byte from which on a file needs slot [j]. *)
Definition need (j : Z) : Z := BSIZE * (if j <=? NDIRECT then j else j - 1).

(** A file of [n] bytes has the blocks for them and no more. *)
Definition dense (v : Z → block) (l : list Z) (n : Z) : Prop :=
  ∀ j, 0 <= j < NSLOT → ptr v l j ≠ 0 ↔ need j < n.

(** How many blocks that is, with the indirect block. *)
Definition blocks_of (n : Z) : Z :=
  (n + BSIZE - 1) / BSIZE + (if NDIRECT * BSIZE <? n then 1 else 0).

Lemma need_slot bn : need (slot bn) = BSIZE * bn.
Proof.
  unfold need, slot. destruct (Z.ltb_spec bn NDIRECT).
  - by rewrite (proj2 (Z.leb_le _ _)) by lia.
  - rewrite (proj2 (Z.leb_gt _ _)) by lia. f_equal. lia.
Qed.

Lemma dense_missing v l n j : dense v l n → 0 <= j < NSLOT → missing v l j = if need j <? n then 0 else 1.
Proof.
  intros D Hj. specialize (D j Hj). unfold missing.
  destruct (Z.eqb_spec (ptr v l j) 0), (Z.ltb_spec (need j) n); tauto || (exfalso; lia) || done.
Qed.

Lemma dense_lack v l off m :
  dense v l off → 0 <= off → 0 < m <= BSIZE - off mod BSIZE → off / BSIZE < MAXFILE →
  blocks_of (off + m) = blocks_of off + lack v l (off / BSIZE).
Proof.
  intros D Hoff Hm Hbn. assert (Hbn' : 0 <= off / BSIZE < MAXFILE) by (change BSIZE with 512 in *; dlia).
  destruct (slot_range _ Hbn') as [Hs _]. unfold lack, blocks_of. change (NDIRECT * BSIZE) with 6144.
  destruct (Z.ltb_spec (off / BSIZE) NDIRECT) as [Hlt|Hge].
  - assert (Es : slot (off / BSIZE) = off / BSIZE) by (unfold slot; by rewrite (proj2 (Z.ltb_lt _ _))).
    rewrite <-Es, (dense_missing v l off), need_slot by done.
    change NDIRECT with 12 in *. change BSIZE with 512 in *.
    destruct (Z.ltb_spec 6144 (off + m)), (Z.ltb_spec 6144 off),
      (Z.ltb_spec (512 * (off / 512)) off); dlia.
  - rewrite !(dense_missing v l off), need_slot by done. change (need NDIRECT) with 6144.
    change NDIRECT with 12 in *. change BSIZE with 512 in *.
    destruct (Z.ltb_spec 6144 (off + m)), (Z.ltb_spec 6144 off),
      (Z.ltb_spec (512 * (off / 512)) off); dlia.
Qed.

Lemma dense_extended v l v' l' off m :
  dense v l off → 0 <= off → 0 < m <= BSIZE - off mod BSIZE → off / BSIZE < MAXFILE →
  (∀ j, 0 <= j < NSLOT → ptr v' l' j ≠ 0 ↔ ptr v l j ≠ 0 ∨ new_slots (off / BSIZE) j) →
  dense v' l' (off + m).
Proof.
  intros D Hoff Hm Hbn H j Hj. rewrite (H j Hj), (D j Hj). unfold new_slots.
  change NSLOT with 141 in Hj. split.
  - intros [Hlt|[->|[-> Hle]]]; [lia| |].
    + rewrite need_slot. change BSIZE with 512 in *. dlia.
    + change (need NDIRECT) with 6144. change NDIRECT with 12 in Hle. change BSIZE with 512 in *. dlia.
  - intros Hlt. unfold need, slot in *. change NDIRECT with 12 in *. change BSIZE with 512 in *.
    destruct (Z.leb_spec j 12), (Z.ltb_spec (off / 512) 12); dlia.
Qed.

Lemma blocks_of_mono n m : 0 <= n <= m → blocks_of n <= blocks_of m.
Proof.
  intros H. unfold blocks_of. change BSIZE with 512. change (NDIRECT * 512) with 6144.
  destruct (Z.ltb_spec 6144 n), (Z.ltb_spec 6144 m); dlia.
Qed.

(** Bytes were appended to the file with the pointers [l]. *)
Record appended (s : mkfs) (a : astore) (l : list Z) (off : Z) (p : list Z)
    (s' : mkfs) (a' : astore) (l' : list Z) : Prop := {
  ap_rep : rep s' a';
  ap_written : written off p a l a' l';
  ap_addrs : addrs_ok (a_view a') l';
  ap_dense : dense (a_view a') l' (off + Z.of_nat (length p));
  ap_block : m_freeblock s' =
    m_freeblock s + blocks_of (off + Z.of_nat (length p)) - blocks_of off;
  ap_inode : m_freeinode s' = m_freeinode s;
  ap_low b : b < 32 → a_view a' b = a_view a b }.

(** One round of the loop. *)
Lemma iappend_round s a off p din {B} (k : dinode → M mkfs B) Q :
  let l := di_addrs din in
  let m := chunk off (Z.of_nat (length p)) in
  rep s a → addrs_ok (a_view a) l → dense (a_view a) l off → Forall is_byte p →
  0 <= off → (0 < length p)%nat → off / BSIZE < MAXFILE →
  m_freeblock s + blocks_of (off + m) - blocks_of off <= 1000 →
  (∀ s' a' l', appended s a l off (take (Z.to_nat m) p) s' a' l' → wp (k (set_addrs l' din)) Q s') →
  wp (r ← iappend_block (off / BSIZE) din;
      let '(din, x) := r in
      buf ← rsect x;
      wsect x (splice (Z.to_nat (off mod BSIZE)) (take (Z.to_nat m) p) buf);;
      k din) Q s.
Proof.
  intros l m R A D Hp Hoff Hlen Hbn Hroom Hk. pose proof (rep_fs_ok s a R) as F.
  destruct (chunk_bounds off (Z.of_nat (length p))) as [Hm Hm']; [lia|]. fold m in Hm, Hm'.
  assert (Hbn' : 0 <= off / BSIZE < MAXFILE) by (change BSIZE with 512 in *; dlia).
  pose proof (dense_lack _ _ off m D Hoff ltac:(lia) Hbn) as Elack.
  apply wp_bind. eapply wp_mono; [apply (iappend_block_spec s a _ din R A Hbn'); fold l; lia|].
  fold l. intros r s1 (a1 & l1 & -> & Hx & [G R1 B1 I1 L1 P1]).
  pose proof (grows_grown _ _ _ _ _ G F A) as Gn. cbn [fst snd] in Gn.
  pose proof (gn_addrs _ _ _ _ _ _ _ Gn) as A1. set (x := ptr (a_view a1) l1 (slot (off / BSIZE))) in *.
  destruct (slot_range _ Hbn') as [Hs _].
  destruct (ao_data _ _ _ _ A1 _ Hs Hx) as [Hd Hu]. fold x in Hd, Hu.
  pose proof (data_block_range _ _ _ Hd) as Hxr. change (g_size mkfs_geo) with 1000 in Hxr.
  rewrite (rep_used s1 a1 R1) in Hu by done. apply Z.ltb_lt in Hu.
  assert (H58 : x ≠ 58) by (intros E; apply (proj1 (proj2 Hd) 0); [done|by rewrite mkfs_bblock]).
  apply (rsect_rule s1 a1 R1); [done|done|].
  assert (Hn2 : (Z.to_nat (lack (a_view a) l (off / BSIZE)) ≤ 2)%nat).
  { unfold lack. pose proof (missing_range (a_view a) l (off / BSIZE)).
    pose proof (missing_range (a_view a) l NDIRECT).
    pose proof (missing_range (a_view a) l (slot (off / BSIZE))). destruct (_ <? _); lia. }
  pose proof (written_chunk mkfs_sb mkfs_geo off p _ a l a1 l1 Gn Hn2 (rp_wf _ _ R1) Hoff Hlen Hbn' Hx) as Wr.
  apply (wsect_rule s1 a1 R1); [lia|done| |].
  { apply (wf_chunk_data a1 l1 off p); [apply R1|done|done]. }
  intros s2 R2 [B2 I2]. apply (Hk s2 (a_update x (chunk_block_data a1 l1 off p) a1) l1).
  assert (Et : Z.of_nat (length (take (Z.to_nat m) p)) = m) by (rewrite length_take; lia).
  split; rewrite ?Et; [exact R2|exact Wr| | |lia|congruence|].
  - by apply (put_addrs_ok mkfs_sb mkfs_geo a1 l1 off p).
  - eapply (dense_extended (a_view a) l); [done|done|lia|done|]. intros j Hj.
    rewrite <-P1 by done. pose proof (put_ptr mkfs_sb mkfs_geo a1 l1 off p A1 Hbn' j Hj) as Ep.
    fold x in Ep. by rewrite Ep.
  - intros b Hb. cbn [a_view a_update]. pose proof (data_low x Hd).
    rewrite view_set_ne by lia. by apply L1.
Qed.

Lemma appended_nil s a l off :
  rep s a → addrs_ok (a_view a) l → dense (a_view a) l off → appended s a l off [] s a l.
Proof.
  intros R A D. split; cbn; rewrite ?Z.add_0_r; try done; [apply written_nil|lia].
Qed.

Lemma appended_app s a l off p q s1 a1 l1 s2 a2 l2 :
  appended s a l off p s1 a1 l1 → appended s1 a1 l1 (off + Z.of_nat (length p)) q s2 a2 l2 →
  0 <= off → off + Z.of_nat (length p) <= MAXFILE * BSIZE →
  FsRw.nblocks off (Z.of_nat (length (p ++ q))) =
    (FsRw.nblocks off (Z.of_nat (length p)) +
     FsRw.nblocks (off + Z.of_nat (length p)) (Z.of_nat (length q)))%nat →
  appended s a l off (p ++ q) s2 a2 l2.
Proof.
  intros [R1 W1 A1 D1 B1 I1 L1] [R2 W2 A2 D2 B2 I2 L2] Hoff Hmax Hnb.
  assert (E : off + Z.of_nat (length (p ++ q)) =
    off + Z.of_nat (length p) + Z.of_nat (length q)) by (rewrite length_app; lia).
  split; rewrite ?E; try done; [|lia|congruence|intros b Hb; by rewrite L2, L1].
  eapply written_app; [done..|]. intros i Hi. change (MAXFILE * BSIZE) with 71680 in Hmax.
  change BSIZE with 512. change MAXFILE with 140. dlia.
Qed.

Lemma iappend_loop_spec fuel s a off p din :
  let l := di_addrs din in
  let len := Z.of_nat (length p) in
  rep s a → addrs_ok (a_view a) l → dense (a_view a) l off → Forall is_byte p →
  0 <= off → off + len <= MAXFILE * BSIZE → (length p ≤ fuel)%nat →
  m_freeblock s + blocks_of (off + len) - blocks_of off <= 1000 →
  wp (iappend_loop fuel p off din) (λ r s', ∃ a' l',
    r = (set_addrs l' din, off + len) ∧ appended s a l off p s' a' l') s.
Proof.
  revert s a off p din. induction fuel as [|fuel IH];
    intros s a off [|c p] din l len R A D Hp Hoff Hmax Hfuel Hroom; try (cbn in Hfuel; lia);
    cbn [iappend_loop].
  1, 2: apply wp_ret; exists a, l; unfold l; rewrite set_addrs_id; subst len; cbn [length Z.of_nat];
    rewrite Z.add_0_r; split; [done|by apply appended_nil].
  set (q := c :: p) in *. assert (Hq : (0 < length q)%nat) by (subst q; cbn; lia).
  change (MAXFILE * BSIZE) with 71680 in Hmax.
  assert (Hbn : off / BSIZE < MAXFILE) by (change BSIZE with 512; change MAXFILE with 140; dlia).
  rewrite (proj2 (Z.ltb_lt _ _)) by done. cbn [negb].
  destruct (chunk_bounds off len) as [Hm Hm']; [lia|]. set (m := chunk off len) in *.
  assert (Em : Z.min (Z.of_nat (length q)) (u32 ((off / BSIZE + 1) * BSIZE - off)) = m).
  { unfold m, chunk, u32. rewrite Z.mod_small by (change BSIZE with 512; dlia). fold len.
    change BSIZE with 512. dlia. }
  assert (Eo : off - off / BSIZE * BSIZE = off mod BSIZE) by (change BSIZE with 512; dlia).
  rewrite Em, Eo. replace (u32 (off + m)) with (off + m) by (unfold u32; rewrite Z.mod_small; lia).
  pose proof (blocks_of_mono (off + m) (off + len) ltac:(lia)) as Hmono.
  apply (iappend_round s a off q din _ _ R A D Hp Hoff Hq Hbn); fold len; fold m; [lia|].
  fold l. intros s1 a1 l1 P1. pose proof P1 as [R1 W1 A1 D1 B1 I1 _].
  assert (Et : Z.of_nat (length (take (Z.to_nat m) q)) = m) by (rewrite length_take; lia).
  assert (Ed : Z.of_nat (length (drop (Z.to_nat m) q)) = len - m) by (rewrite length_drop; lia).
  rewrite Et in *. eapply wp_mono; [apply (IH s1 a1 (off + m) _ (set_addrs l1 din))|].
  - done.
  - done.
  - done.
  - by apply Forall_drop.
  - lia.
  - rewrite Ed. change (MAXFILE * BSIZE) with 71680. lia.
  - rewrite length_drop. subst q. cbn [length] in *. lia.
  - rewrite Ed. replace (off + m + (len - m)) with (off + len) by lia. lia.
  - intros r s2 (a2 & l2 & -> & P2). rewrite Ed. exists a2, l2. split; [f_equal; lia|].
    rewrite <-(take_drop (Z.to_nat m) q). eapply appended_app; [exact P1|by rewrite Et|done| |].
    + change (MAXFILE * BSIZE) with 71680. lia.
    + rewrite take_drop, Et, Ed. fold len. rewrite (nblocks_chunk off len) by lia. fold m.
      rewrite (nblocks_chunk off m) by lia. unfold FsRw.nblocks at 2.
      assert (chunk off m = m) as -> by (unfold m, chunk; lia).
      by rewrite (proj2 (Z.leb_le _ 0)) by lia.
Qed.

(** ** Inodes *)

Lemma rinode_rule {B} s a inum (k : dinode → M mkfs B) Q :
  rep s a → 0 <= inum < 200 → wp (k (disk_inode mkfs_sb (a_view a) inum)) Q s →
  wp (d ← rinode inum; k d) Q s.
Proof.
  intros R Hi Hk. unfold rinode. apply wp_bind, wp_bind, wp_gets. rewrite (rp_sb _ _ R).
  pose proof (mkfs_iblock inum Hi). apply (rsect_rule s a R); [lia|lia|]. by apply wp_ret.
Qed.

Lemma winode_spec s a inum d :
  rep s a → 0 <= inum < 200 → length (di_addrs d) = 13%nat →
  wp (winode inum d) (λ _ s', rep s' (a_iput mkfs_sb inum d a) ∧ same_ctr s s') s.
Proof.
  intros R Hi Hd. unfold winode. apply wp_bind, wp_gets. rewrite (rp_sb _ _ R).
  pose proof (mkfs_iblock inum Hi). pose proof (rp_fb _ _ R).
  apply (rsect_rule s a R); [lia|lia|]. apply (wsect_last s a R); [lia|lia| |].
  - apply wf_put_dinode; [apply R|done].
  - intros s' R' C. split; [exact R'|done].
Qed.

(** ** Files of the image *)

Record file_ok (v : Z → block) (d : dinode) (c : list Z) : Prop := {
  fk_wf : wf_dinode d;
  fk_size : di_size d = Z.of_nat (length c);
  fk_max : Z.of_nat (length c) <= MAXFILE * BSIZE;
  fk_addrs : addrs_ok v (di_addrs d);
  fk_dense : dense v (di_addrs d) (Z.of_nat (length c));
  fk_bytes i : 0 <= i < MAXFILE * BSIZE → byte_of v (di_addrs d) i = rd c i }.

(** No block is in both files. *)
Definition apart (v : Z → block) (l l' : list Z) : Prop :=
  ∀ j j', 0 <= j < NSLOT → 0 <= j' < NSLOT → ptr v l j ≠ 0 → ptr v l j ≠ ptr v l' j'.

Lemma apart_sym v l l' : apart v l l' → apart v l' l.
Proof. intros H j j' Hj Hj' Hp E. apply (H j' j Hj' Hj); congruence. Qed.

(** The blocks of the file have the same contents in both views. *)
Definition unchanged (v v' : Z → block) (l : list Z) : Prop :=
  ∀ j, 0 <= j < NSLOT → ptr v l j ≠ 0 → v' (ptr v l j) = v (ptr v l j).

Lemma unchanged_ptr v v' l j : unchanged v v' l → ptr v' l j = ptr v l j.
Proof.
  intros H. apply ptr_ext. intros Hi. specialize (H NDIRECT ltac:(done)).
  rewrite ptr_direct in H by done. by apply H.
Qed.

Lemma unchanged_byte v v' l i :
  unchanged v v' l → 0 <= i < MAXFILE * BSIZE → byte_of v' l i = byte_of v l i.
Proof.
  intros H Hi. unfold byte_of. rewrite (unchanged_ptr v v') by done.
  assert (0 <= i / BSIZE < MAXFILE) as [Hs _]%slot_range by (change BSIZE with 512 in *; dlia).
  destruct (Z.eqb_spec (ptr v l (slot (i / BSIZE))) 0); [done|]. by rewrite H.
Qed.

Lemma file_ok_frame v v' d c :
  unchanged v v' (di_addrs d) →
  (∀ x, 0 <= x < 1000 → used mkfs_sb v x = true → used mkfs_sb v' x = true) →
  file_ok v d c → file_ok v' d c.
Proof.
  intros U Hu [W S M A D B]. split; [done|done|done| | |].
  - split; [apply A| |].
    + intros k Hk. rewrite (unchanged_ptr v v') by done. intros Hp.
      destruct (ao_data _ _ _ _ A k Hk Hp) as [Hd Hus]. split; [done|].
      apply Hu; [by apply data_block_range in Hd|done].
    + intros k k' Hk Hk'. rewrite !(unchanged_ptr v v') by done. by apply A.
  - intros j Hj. rewrite (unchanged_ptr v v') by done. by apply D.
  - intros i Hi. rewrite (unchanged_byte v v') by done. by apply B.
Qed.

Definition total (F : list (dinode * list Z)) : Z :=
  foldr (λ x n, blocks_of (Z.of_nat (length x.2)) + n) 0 F.

Lemma total_app F G : total (F ++ G) = total F + total G.
Proof. induction F as [|x F IH]; [done|]. cbn [total foldr app]. fold (total (F ++ G)) (total F). lia. Qed.

Lemma total_insert F k d c d' c' :
  F !! k = Some (d, c) →
  total (<[k := (d', c')]> F) =
    total F - blocks_of (Z.of_nat (length c)) + blocks_of (Z.of_nat (length c')).
Proof.
  intros Hk. pose proof (lookup_lt_Some _ _ _ Hk). rewrite <-(take_drop_middle F k _ Hk) at 2.
  rewrite insert_take_drop by done. rewrite !total_app. cbn [total foldr snd].
  fold (total (drop (S k) F)). lia.
Qed.

(** The state of mkfs with the inodes [F] allocated, as pairs of an inode
    and the content of its file. *)
Record holds (s : mkfs) (a : astore) (F : list (dinode * list Z)) : Prop := {
  ho_rep : rep s a;
  ho_inode : m_freeinode s = 1 + Z.of_nat (length F);
  ho_count : (length F ≤ 199)%nat;
  ho_block : m_freeblock s = nmeta + total F;
  ho_disk k d c : F !! k = Some (d, c) →
    disk_inode mkfs_sb (a_view a) (1 + Z.of_nat k) = d ∧ file_ok (a_view a) d c;
  ho_apart k k' x x' : F !! k = Some x → F !! k' = Some x' → k ≠ k' →
    apart (a_view a) (di_addrs x.1) (di_addrs x'.1);
  ho_free i : 1 + Z.of_nat (length F) <= i < 200 →
    di_type (disk_inode mkfs_sb (a_view a) i) = 0;
  ho_boot b : 0 <= b < 32 → a_view a b =
    if b =? 1 then splice 0 (superblock_bytes mkfs_sb) zero_block else zero_block }.

Lemma mk_addrs_u32 v l : addrs_ok v l → Forall is_u32 l.
Proof.
  intros A. apply Forall_lookup. intros j b Hj. pose proof (lookup_lt_Some _ _ _ Hj) as Hlt.
  rewrite (ao_len _ _ _ _ A) in Hlt.
  assert (H : 0 <= Z.of_nat j < NSLOT) by (change NSLOT with 141; lia).
  pose proof (ptr_u32 v l _ A H) as Hp. rewrite ptr_direct in Hp by (change NDIRECT with 12; lia).
  rewrite Nat2Z.id, (list_lookup_total_correct _ _ _ Hj) in Hp. unfold is_u32. lia.
Qed.

Lemma rep_used_mono s a s' a' x :
  rep s a → rep s' a' → m_freeblock s <= m_freeblock s' → 0 <= x < 1000 →
  used mkfs_sb (a_view a) x = true → used mkfs_sb (a_view a') x = true.
Proof.
  intros R R' Hle Hx. rewrite (rep_used s a R), (rep_used s' a' R'), !Z.ltb_lt by done. lia.
Qed.

(** Storing an inode leaves the files of the others alone. *)
Lemma unchanged_iput a inum d l :
  0 <= inum < 200 → addrs_ok (a_view a) l →
  unchanged (a_view a) (a_view (a_iput mkfs_sb inum d a)) l.
Proof.
  intros Hi A j Hj Hp. apply (iput_data mkfs_sb mkfs_geo); [done|]. by apply (ao_data _ _ _ _ A).
Qed.

(** The file after [p] was appended. *)
Lemma appended_file s a d c p s' a' l' :
  let n := Z.of_nat (length c) + Z.of_nat (length p) in
  let d' := set_size n (set_addrs l' d) in
  file_ok (a_view a) d c → appended s a (di_addrs d) (Z.of_nat (length c)) p s' a' l' →
  n <= MAXFILE * BSIZE → file_ok (a_view a') d' (c ++ p).
Proof.
  intros n d' [W S Mx A D B] [R Wr A' D' _ _ _] Hn.
  assert (Ec : Z.of_nat (length (c ++ p)) = n) by (rewrite length_app; lia).
  split; rewrite ?Ec; try done.
  - destruct W as (? & ? & ? & ? & _ & _). split_and!; try done.
    + subst d'. cbn [di_size set_size]. change (MAXFILE * BSIZE) with 71680 in Hn. unfold is_u32. lia.
    + apply A'.
    + by eapply mk_addrs_u32.
  - intros i Hi. cbn [d' di_addrs set_size set_addrs]. rewrite (wr_byte _ _ _ _ _ _ _ _ Wr) by done.
    unfold rd. case_decide as Hc.
    + rewrite lookup_app_r by lia.
      replace (Z.to_nat (i - Z.of_nat (length c))) with (Z.to_nat i - length c)%nat by lia.
      destruct (lookup_lt_is_Some_2 p (Z.to_nat i - length c)) as [x Hx]; [lia|].
      by rewrite (list_lookup_total_correct _ _ _ Hx), Hx.
    + rewrite B by done. unfold rd. destruct (decide (i < Z.of_nat (length c))).
      * by rewrite lookup_app_l by lia.
      * rewrite !lookup_ge_None_2; [done|rewrite length_app; lia|lia].
Qed.

(** Appending leaves the other files alone. *)
Lemma appended_other s a d c p s' a' l' d2 c2 off :
  appended s a (di_addrs d) off p s' a' l' → rep s a → m_freeblock s <= m_freeblock s' →
  file_ok (a_view a) d c → file_ok (a_view a) d2 c2 →
  apart (a_view a) (di_addrs d) (di_addrs d2) →
  unchanged (a_view a) (a_view a') (di_addrs d2) ∧ file_ok (a_view a') d2 c2 ∧
  apart (a_view a') l' (di_addrs d2).
Proof.
  intros [R' Wr A' _ _ _ _] R Hle F1 F2 Hap.
  assert (Ho : ∀ j, 0 <= j < NSLOT → ptr (a_view a) (di_addrs d2) j ≠ 0 →
    other_block mkfs_sb mkfs_geo (a_view a) (di_addrs d) (ptr (a_view a) (di_addrs d2) j)).
  { intros j Hj Hp. destruct (ao_data _ _ _ _ (fk_addrs _ _ _ F2) j Hj Hp) as [Hd Hu].
    split_and!; [done|done|]. intros k Hk E. apply (apart_sym _ _ _ Hap j k Hj Hk Hp). congruence. }
  assert (U : unchanged (a_view a) (a_view a') (di_addrs d2)).
  { intros j Hj Hp. by apply (wr_other _ _ _ _ _ _ _ _ Wr), Ho. }
  split; [done|]. split.
  - eapply file_ok_frame; [done| |done]. intros x Hx. by eapply rep_used_mono.
  - apply apart_sym. intros j j' Hj Hj'. rewrite (unchanged_ptr (a_view a)) by done. intros Hp E.
    destruct (wr_other _ _ _ _ _ _ _ _ Wr _ (Ho j Hj Hp)) as [_ (_ & _ & H)].
    by apply (H j' Hj').
Qed.

Section append.
Context (s : mkfs) (a : astore) (F : list (dinode * list Z)) (k : nat) (d : dinode) (c p : list Z).
Hypothesis H : holds s a F.
Hypothesis Hk : F !! k = Some (d, c).
Local Abbreviation n := (Z.of_nat (length c) + Z.of_nat (length p)).
Hypothesis Hn : n <= MAXFILE * BSIZE.
Context (s1 : mkfs) (a1 : astore) (l1 : list Z).
Hypothesis P : appended s a (di_addrs d) (Z.of_nat (length c)) p s1 a1 l1.
Local Abbreviation d' := (set_size n (set_addrs l1 d)).
Local Abbreviation inum := (1 + Z.of_nat k).
Local Abbreviation a2 := (a_iput mkfs_sb inum d' a1).

Lemma append_inum : 0 <= inum < 200.
Proof. pose proof (lookup_lt_Some _ _ _ Hk). pose proof (ho_count _ _ _ H). lia. Qed.

Lemma append_mono : m_freeblock s <= m_freeblock s1.
Proof.
  rewrite (ap_block _ _ _ _ _ _ _ _ P).
  pose proof (blocks_of_mono (Z.of_nat (length c)) n ltac:(lia)). lia.
Qed.

(** The files of the new state. *)
Lemma append_files k2 d2 c2 :
  F !! k2 = Some (d2, c2) → k2 ≠ k →
  file_ok (a_view a2) d2 c2 ∧ (∀ j, ptr (a_view a2) (di_addrs d2) j = ptr (a_view a) (di_addrs d2) j) ∧
  apart (a_view a2) l1 (di_addrs d2).
Proof.
  intros Hk2 Hne. destruct (ho_disk _ _ _ H k2 d2 c2 Hk2) as [_ F2].
  destruct (ho_disk _ _ _ H k d c Hk) as [_ F1].
  destruct (appended_other _ _ _ _ _ _ _ _ _ _ _ P (ho_rep _ _ _ H) append_mono F1 F2) as (U & F2' & Ap).
  { by apply (ho_apart _ _ _ H k k2 (d, c) (d2, c2)). }
  pose proof (unchanged_iput a1 inum d' _ append_inum (fk_addrs _ _ _ F2')) as U2.
  pose proof (unchanged_iput a1 inum d' _ append_inum (ap_addrs _ _ _ _ _ _ _ _ P)) as U1.
  split_and!.
  - eapply file_ok_frame; [exact U2| |done]. intros x Hx.
    by rewrite (iput_used mkfs_sb mkfs_geo a1 inum d' mkfs_layout append_inum x Hx).
  - intros j. by rewrite (unchanged_ptr _ _ _ _ U2), (unchanged_ptr _ _ _ _ U).
  - intros j j' Hj Hj'. rewrite (unchanged_ptr _ _ _ _ U1), (unchanged_ptr _ _ _ _ U2). by apply Ap.
Qed.

Lemma append_file : file_ok (a_view a2) d' (c ++ p).
Proof.
  destruct (ho_disk _ _ _ H k d c Hk) as [_ F1].
  eapply file_ok_frame; [|intros x Hx|by eapply appended_file].
  - apply unchanged_iput; [apply append_inum|apply P].
  - by rewrite (iput_used mkfs_sb mkfs_geo a1 inum d' mkfs_layout append_inum x Hx).
Qed.

Lemma append_disk i :
  0 <= i < 200 → disk_inode mkfs_sb (a_view a2) i =
    if i =? inum then d' else disk_inode mkfs_sb (a_view a) i.
Proof.
  intros Hi. rewrite disk_inode_put; [|apply (ap_rep _ _ _ _ _ _ _ _ P)|apply (fk_wf _ _ _ append_file)].
  destruct (i =? inum); [done|]. unfold disk_inode.
  by rewrite (wr_inodes _ _ _ _ _ _ _ _ (ap_written _ _ _ _ _ _ _ _ P)).
Qed.

Lemma append_holds s2 : rep s2 a2 → same_ctr s1 s2 → holds s2 a2 (<[k := (d', c ++ p)]> F).
Proof.
  intros R2 [B2 I2]. pose proof (lookup_lt_Some _ _ _ Hk) as Hlt. pose proof (ho_count _ _ _ H) as Hc.
  split; rewrite ?length_insert; [done| |done| | | | |].
  - rewrite I2, (ap_inode _ _ _ _ _ _ _ _ P). apply H.
  - rewrite B2, (ap_block _ _ _ _ _ _ _ _ P), (ho_block _ _ _ H), (total_insert F k d c) by done.
    rewrite length_app, Nat2Z.inj_add. lia.
  - intros k2 d2 c2. destruct (decide (k2 = k)) as [->|Hne].
    + rewrite list_lookup_insert_eq by done. intros [= <- <-]. split; [|apply append_file].
      rewrite append_disk by apply append_inum. by rewrite Z.eqb_refl.
    + rewrite list_lookup_insert_ne by done. intros Hk2. pose proof (lookup_lt_Some _ _ _ Hk2).
      split; [|by eapply append_files].
      rewrite append_disk, (proj2 (Z.eqb_neq _ _)) by lia. apply (ho_disk _ _ _ H k2 d2 c2 Hk2).
  - intros k2 k3 x2 x3 H2 H3 Hne. apply list_lookup_insert_Some in H2 as [(<- & <- & _)|[Hne2 H2]];
      apply list_lookup_insert_Some in H3 as [(<- & <- & _)|[Hne3 H3]]; [done|..].
    + destruct x3 as [d3 c3]. cbn. by eapply append_files.
    + destruct x2 as [d2 c2]. cbn. apply apart_sym. by eapply append_files.
    + destruct x2 as [d2 c2], x3 as [d3 c3]. pose proof (ho_apart _ _ _ H _ _ _ _ H2 H3 Hne) as Ap.
      intros j j' Hj Hj'. cbn in *. rewrite (proj1 (proj2 (append_files k2 d2 c2 H2 ltac:(done)))),
        (proj1 (proj2 (append_files k3 d3 c3 H3 ltac:(done)))). by apply Ap.
  - intros i Hi. rewrite append_disk, (proj2 (Z.eqb_neq _ _)) by lia. by apply (ho_free _ _ _ H).
  - intros b Hb. rewrite <-(ho_boot _ _ _ H b Hb), <-(ap_low _ _ _ _ _ _ _ _ P b) by lia.
    pose proof (mkfs_iblock inum append_inum). unfold a_iput. cbn [a_view a_update].
    by rewrite view_set_ne by lia.
Qed.
End append.

(** ** The routines on the whole image *)

(** The same inode up to size and blocks. *)
Definition same_kind (d d' : dinode) : Prop :=
  di_type d' = di_type d ∧ di_major d' = di_major d ∧ di_minor d' = di_minor d ∧ di_nlink d' = di_nlink d.

Lemma iappend_spec s a F k d c p :
  let n := Z.of_nat (length c) + Z.of_nat (length p) in
  holds s a F → F !! k = Some (d, c) → Forall is_byte p → n <= MAXFILE * BSIZE →
  m_freeblock s + blocks_of n - blocks_of (Z.of_nat (length c)) <= 1000 →
  wp (iappend (1 + Z.of_nat k) p) (λ _ s', ∃ a' d', same_kind d d' ∧
    holds s' a' (<[k := (d', c ++ p)]> F)) s.
Proof.
  intros n H Hk Hp Hn Hroom. destruct (ho_disk _ _ _ H k d c Hk) as [Ed [W S Mx A D B]].
  assert (Hi : 0 <= 1 + Z.of_nat k < 200) by (by eapply append_inum). change (MAXFILE * BSIZE) with 71680 in Hn.
  unfold iappend. apply (rinode_rule s a); [apply H|done|]. rewrite Ed, S, xint_id by (unfold is_u32; lia).
  apply wp_bind. eapply wp_mono; [by apply (iappend_loop_spec _ s a); [apply H|..]; try done; lia|].
  intros r s1 (a1 & l1 & -> & P). fold n in P |- *. rewrite xint_id by (unfold is_u32; lia).
  eapply wp_mono; [apply (winode_spec s1 a1); [apply P|done|apply P]|].
  intros [] s2 [R2 C2]. exists (a_iput mkfs_sb (1 + Z.of_nat k) (set_size n (set_addrs l1 d)) a1).
  exists (set_size n (set_addrs l1 d)). split; [done|]. by apply (append_holds s a F k d c p H Hk Hn s1).
Qed.

Definition fresh (type : Z) : dinode := Dinode type 0 0 1 0 (replicate 13 0).

Lemma ptr_fresh v j : 0 <= j < NSLOT → ptr v (replicate 13 0) j = 0.
Proof.
  intros Hj. unfold ptr. destruct (Z.leb_spec j NDIRECT); [|done]. change NDIRECT with 12 in *.
  by rewrite lookup_total_replicate_2 by lia.
Qed.

Lemma file_ok_fresh v type : is_s16 type → file_ok v (fresh type) [].
Proof.
  intros Ht. split; cbn [fresh di_addrs di_size]; try done.
  - split_and!; try done. apply Forall_replicate. done.
  - split; [done|..]; intros j; intros; by rewrite ptr_fresh in *.
  - intros j Hj. rewrite ptr_fresh by done. split; [done|]. unfold need. change BSIZE with 512.
    cbn [length Z.of_nat]. destruct (Z.leb_spec j NDIRECT); change NDIRECT with 12 in *; lia.
  - intros i Hi. unfold byte_of. rewrite ptr_fresh; [done|].
    apply slot_range. change BSIZE with 512 in *. dlia.
Qed.

(** The invariant with one more inode. *)
Lemma fresh_holds s a F type s' :
  let i := 1 + Z.of_nat (length F) in
  let a' := a_iput mkfs_sb i (fresh type) a in
  holds s a F → (length F < 199)%nat → is_s16 type → rep s' a' →
  m_freeblock s' = m_freeblock s → m_freeinode s' = i + 1 →
  holds s' a' (F ++ [(fresh type, [])]).
Proof.
  intros i a' H Hlen Hs16 R2 B2 I2.
  assert (Hi : 0 <= i < 200) by lia. pose proof (mkfs_iblock i Hi) as Hib.
  assert (Hd : ∀ x, disk_inode mkfs_sb (a_view a') x =
    if x =? i then fresh type else disk_inode mkfs_sb (a_view a) x).
  { intros x. apply disk_inode_put; [apply H|apply (fk_wf (a_view a) _ [] (file_ok_fresh _ _ Hs16))]. }
  assert (HU : ∀ k d c, F !! k = Some (d, c) → unchanged (a_view a) (a_view a') (di_addrs d)).
  { intros k d c Hk. destruct (ho_disk _ _ _ H k d c Hk) as [_ Fk]. apply unchanged_iput; [done|apply Fk]. }
  split; rewrite ?length_app; cbn [length]; [done|lia|lia| | | | |].
  - rewrite total_app, B2, (ho_block _ _ _ H). change (total [(fresh type, [])]) with 0. lia.
  - intros k d c Hk. apply lookup_app_Some in Hk as [Hk|[Hle Hk]].
    + destruct (ho_disk _ _ _ H k d c Hk) as [Ek Fk]. pose proof (lookup_lt_Some _ _ _ Hk).
      rewrite Hd, (proj2 (Z.eqb_neq _ _)) by lia. split; [done|].
      eapply file_ok_frame; [by eapply HU| |done]. intros x Hx.
      subst a'. by rewrite (iput_used mkfs_sb mkfs_geo a i _ mkfs_layout Hi x Hx).
    + apply list_lookup_singleton_Some in Hk as [Hk [= <- <-]].
      replace (1 + Z.of_nat k) with i by lia. rewrite Hd, Z.eqb_refl. split; [done|].
      by apply file_ok_fresh.
  - intros k k' [d c] [d' c'] Hk Hk' Hne j j' Hj Hj'. cbn [fst].
    apply lookup_app_Some in Hk as [Hk|[Hle Hk]];
      [|apply list_lookup_singleton_Some in Hk as [Hk [= <- <-]]; by rewrite ptr_fresh].
    rewrite (unchanged_ptr _ _ _ _ (HU k d c Hk)).
    apply lookup_app_Some in Hk' as [Hk'|[Hle' Hk']];
      [|apply list_lookup_singleton_Some in Hk' as [Hk' [= <- <-]]; by rewrite ptr_fresh].
    rewrite (unchanged_ptr _ _ _ _ (HU k' d' c' Hk')).
    by apply (ho_apart _ _ _ H k k' (d, c) (d', c')).
  - intros x Hx. rewrite Hd, (proj2 (Z.eqb_neq _ _)) by lia. apply (ho_free _ _ _ H). lia.
  - intros b Hb. rewrite <-(ho_boot _ _ _ H b Hb). subst a'. unfold a_iput. cbn [a_view a_update].
    by rewrite view_set_ne by lia.
Qed.

Lemma mk_ialloc_spec s a F type :
  holds s a F → (length F < 199)%nat → 0 <= type < 2 ^ 15 →
  wp (Mkfs.ialloc type) (λ inum s', inum = 1 + Z.of_nat (length F) ∧
    ∃ a', holds s' a' (F ++ [(fresh type, [])])) s.
Proof.
  intros H Hlen Ht. unfold Mkfs.ialloc, next_inode. apply wp_bind, wp_bind, wp_gets, wp_bind, wp_modify.
  apply wp_ret. rewrite (ho_inode _ _ _ H). set (i := 1 + Z.of_nat (length F)).
  assert (Ei : u32 (i + 1) = i + 1) by (unfold u32; rewrite Z.mod_small; lia). rewrite Ei.
  assert (Ety : s16 (xshort type) = type).
  { rewrite xshort_id by lia. unfold s16, signed. rewrite Z.mod_small by lia.
    by rewrite (proj2 (Z.ltb_lt _ _)) by (cbn; lia). }
  rewrite Ety. change (s16 (xshort 1)) with 1. change (xint 0) with 0. fold (fresh type).
  assert (R1 : rep (Mkfs (m_img s) (m_sb s) (i + 1) (m_freeblock s)) a)
    by (destruct (ho_rep _ _ _ H); by split).
  apply wp_bind. eapply wp_mono; [apply (winode_spec _ a); [done|lia|done]|].
  intros [] s1 [R2 [B2 I2]]. apply wp_ret. split; [done|]. eexists.
  apply (fresh_holds s); try done. unfold is_s16. lia.
Qed.

(** ** The empty image *)

Lemma put_sector_end n d :
  put_sector n d (replicate n zero_block) = replicate n zero_block ++ [d].
Proof.
  unfold put_sector. rewrite length_replicate, decide_False by lia. by rewrite Nat.sub_diag.
Qed.

Lemma wipe_eq n s :
  (n ≤ 1000)%nat → m_img s = [] → wipe n s = Ret tt (set_img (replicate n zero_block) s).
Proof.
  intros Hn Hs. induction n as [|n IH].
  - cbn. unfold mret, M_ret, set_img. rewrite <-Hs. by destruct s.
  - cbn [wipe]. rewrite (bind_ret _ _ _ _ _ (IH ltac:(lia))). unfold wsect, modify, set_img. cbn [m_img m_sb m_freeinode m_freeblock].
    rewrite sector_small, Nat2Z.id, put_sector_end by lia.
    by rewrite <-replicate_S_end.
Qed.

Definition first_view (b : Z) : block :=
  if b =? 58 then balloc_bits 59
  else if b =? 1 then splice 0 (superblock_bytes mkfs_sb) zero_block else zero_block.

Lemma first_view_wf b : wf_block (first_view b).
Proof.
  unfold first_view. destruct (b =? 58); [apply balloc_bits_wf; lia|].
  destruct (b =? 1); [|apply wf_zero_block].
  split; [done|]. apply Forall_splice; [apply wf_zero_block|].
  unfold superblock_bytes, word_bytes. cbn [fmap list_fmap mjoin list_join].
  repeat (apply Forall_app; split; [apply le_bytes_byte|]). constructor.
Qed.

Lemma start_spec : wp start (λ _ s', ∃ a, holds s' a []) mkfs0.
Proof.
  unfold start. apply wp_bind, wp_modify. apply wp_bind.
  eapply wp_intro; [apply wipe_eq; [change (Z.to_nat FSSIZE) with 1000%nat; lia|done]|].
  apply wp_modify. change (sector 1) with 1%nat. change (Z.to_nat FSSIZE) with 1000%nat.
  unfold set_img, put_sector. cbn [m_img m_sb m_freeinode m_freeblock].
  rewrite length_replicate, decide_True by lia.
  exists (AStore first_view ∅ ∅ mkfs_geo).
  assert (V : ∀ b, first_view b = if b =? 58 then balloc_bits 59 else
    mk_view (<[1%nat := splice 0 (superblock_bytes mkfs_sb) zero_block]> (replicate 1000 zero_block)) b).
  { intros b. unfold first_view, mk_view. destruct (b =? 58); [done|].
    destruct (Z.eqb_spec b 1) as [->|]; [by rewrite list_lookup_insert_eq by (rewrite length_replicate; lia)|].
    rewrite list_lookup_insert_ne by lia.
    destruct (replicate 1000 zero_block !! Z.to_nat b) as [x|] eqn:E; [|done].
    by apply lookup_replicate in E as [-> _]. }
  split; cbn [a_view m_freeinode m_freeblock length]; try done.
  - split; cbn [m_img m_sb m_freeblock a_view]; try done.
    + intros b Hb. rewrite V. by rewrite (proj2 (Z.eqb_neq _ _)).
    + intros b Hb. change nmeta with 59 in Hb. unfold first_view. by rewrite !(proj2 (Z.eqb_neq _ _)) by lia.
    + apply first_view_wf.
  - lia.
  - intros i Hi. pose proof (mkfs_iblock i ltac:(lia)) as Hib. unfold disk_inode, first_view.
    rewrite !(proj2 (Z.eqb_neq _ _)) by lia. cbn [di_type dinode_at].
    pose proof (slot_bound i) as Hs. change (Z.to_nat BSIZE) with 512%nat in Hs.
    unfold get16, zero_block, slice. rewrite drop_replicate, take_replicate.
    change (Z.to_nat BSIZE) with 512%nat.
    by replace (2 `min` (512 - 64 * Z.to_nat (i mod IPB)))%nat with 2%nat by lia.
  - intros b Hb. unfold first_view. by rewrite (proj2 (Z.eqb_neq b 58)) by lia.
Qed.
