(* ===== verification/MkfsImage.v ===== *)
(** * What mkfs leaves on the disk

    [main] of mkfs.c from the empty file to the bitmap: the image has an
    empty log, the root directory with the given names, and the files with
    the given contents, in the layout fs.c expects. *)

From S2P Require Import Prelude Str Layout BlockLayer Fs FsBlock FsInode FsFile FsRw FsDir Mkfs MkfsSpec.

Local Abbreviation addrs_ok := (addrs_ok mkfs_sb mkfs_geo).

(** ** Adding files *)

Lemma copy_in_spec reads s a F k d c :
  let n := Z.of_nat (length (c ++ mjoin reads)) in
  holds s a F → F !! k = Some (d, c) →
  Forall (λ p, (0 < length p)%nat ∧ Forall is_byte p) reads → n <= MAXFILE * BSIZE →
  m_freeblock s + blocks_of n - blocks_of (Z.of_nat (length c)) <= 1000 →
  wp (copy_in (1 + Z.of_nat k) reads) (λ _ s', ∃ a' d', same_kind d d' ∧
    holds s' a' (<[k := (d', c ++ mjoin reads)]> F)) s.
Proof.
  revert s a F d c. induction reads as [|p reads IH]; intros s a F d c n H Hk Hr Hn Hroom; cbn [copy_in].
  - apply wp_ret. exists a, d. split; [done|]. cbn. by rewrite app_nil_r, list_insert_id.
  - apply Forall_cons in Hr as [[Hp Hb] Hr]. rewrite (proj2 (Nat.ltb_lt _ _)) by done. cbn [negb].
    assert (Ej : mjoin (p :: reads) = p ++ mjoin reads) by done. subst n. rewrite Ej in *.
    rewrite !length_app, !Nat2Z.inj_add in Hn, Hroom.
    assert (blocks_of (Z.of_nat (length c) + Z.of_nat (length p)) <= blocks_of
      (Z.of_nat (length c) + (Z.of_nat (length p) + Z.of_nat (length (mjoin reads)))))
      by (apply blocks_of_mono; lia).
    apply wp_bind. eapply wp_mono; [apply (iappend_spec s a F k d c p H Hk Hb); lia|].
    intros [] s1 (a1 & d1 & S1 & H1). pose proof (lookup_lt_Some _ _ _ Hk) as Hlt.
    assert (Hk1 : <[k := (d1, c ++ p)]> F !! k = Some (d1, c ++ p)) by (by apply list_lookup_insert_eq).
    pose proof (ho_block _ _ _ H1) as B1. rewrite (total_insert F k d c) in B1 by done.
    pose proof (ho_block _ _ _ H) as B. rewrite length_app, Nat2Z.inj_add in B1.
    eapply wp_mono; [apply (IH s1 a1 _ d1 (c ++ p) H1 Hk1 Hr);
      rewrite !length_app, !Nat2Z.inj_add, <-!Z.add_assoc; lia|].
    intros [] s2 (a2 & d2 & S2 & H2). exists a2, d2.
    split; [unfold same_kind in *; intuition congruence|].
    by rewrite list_insert_insert_eq, <-app_assoc in H2.
Qed.

Section main.
Variable host : list Z → option (list (list Z)).

(** What reading the file gives. *)
Definition content (arg : list Z) : list Z := mjoin (default [] (host arg)).

(** An argument mkfs accepts: a name without slash of a file that can be
    opened and is not too large. *)
Record good (arg : list Z) : Prop := {
  gd_slash : 47 ∉ arg;
  gd_name : Forall is_byte arg;
  gd_open : is_Some (host arg);
  gd_reads : Forall (λ p, (0 < length p)%nat ∧ Forall is_byte p) (default [] (host arg));
  gd_size : Z.of_nat (length (content arg)) <= MAXFILE * BSIZE }.

(** The directory entries for the files, from inode [n] on. *)
Fixpoint dir_of (n : Z) (args : list (list Z)) : list dirent :=
  match args with
  | [] => []
  | arg :: args => Dirent n (cname (strip arg)) :: dir_of (n + 1) args
  end.

Definition dir_bytes (es : list dirent) : list Z := mjoin (dirent_bytes <$> es).

Lemma entry_bytes_eq n name :
  0 <= n < 2 ^ 16 → entry_bytes n name = dirent_bytes (Dirent n (cname name)).
Proof. intros Hn. unfold entry_bytes. by rewrite xshort_id by done. Qed.

Lemma dirent_bytes_byte n name : Forall is_byte name → Forall is_byte (dirent_bytes (Dirent n (cname name))).
Proof. intros H. apply Forall_app; split; [apply le_bytes_byte|by apply cname_byte]. Qed.

Lemma length_dirent_cname n name : length (dirent_bytes (Dirent n (cname name))) = 16%nat.
Proof. unfold dirent_bytes. cbn [de_inum de_name]. by rewrite length_app, length_le_bytes, length_cname. Qed.

Lemma strip_byte arg : Forall is_byte arg → Forall is_byte (strip arg).
Proof. destruct arg as [|c l]; [done|]. cbn [strip]. destruct (c =? _); [|done]. by intros [_ ?]%Forall_cons. Qed.

(** The inode and the content of the file of an argument. *)
Definition file_for (arg : list Z) (x : dinode * list Z) : Prop :=
  same_kind (fresh T_FILE) x.1 ∧ x.2 = content arg.

Definition sizes (args : list (list Z)) : Z :=
  foldr (λ arg n, blocks_of (Z.of_nat (length (content arg))) + n) 0 args.

Lemma total_cons d c F : total ((d, c) :: F) = blocks_of (Z.of_nat (length c)) + total F.
Proof. done. Qed.

Lemma total_fresh F d : total (F ++ [(d, [])]) = total F.
Proof. rewrite total_app. change (total [(d, [])]) with 0. lia. Qed.

(** A round of the loop over the arguments; [eb] is the new entry of the
    root directory. *)
Lemma add_file_spec s a d c F arg eb :
  let n := 1 + Z.of_nat (S (length F)) in
  let len := Z.of_nat (length c) in
  let len' := Z.of_nat (length c) + Z.of_nat (length eb) in
  holds s a ((d, c) :: F) → good arg → (S (length F) < 199)%nat →
  eb = dirent_bytes (Dirent n (cname (strip arg))) → len' <= MAXFILE * BSIZE →
  m_freeblock s + (blocks_of len' - blocks_of len) + blocks_of (Z.of_nat (length (content arg))) <= 1000 →
  wp (add_file host ROOTINO arg) (λ _ s', ∃ a' d' x, same_kind d d' ∧ file_for arg x ∧
    holds s' a' ((d', c ++ eb) :: F ++ [x])) s.
Proof.
  intros n len len' H [Hs Hna [reads Hrd] Hre Hsz] Hlen Heb Hmax Hroom.
  subst len len'. unfold add_file.
  rewrite decide_False by done. unfold file_for, content in *. rewrite Hrd in *.
  change (default [] (Some reads)) with reads in *.
  set (body := mjoin reads) in *.
  assert (Hmono : blocks_of 0 <= blocks_of (Z.of_nat (length body))) by (apply blocks_of_mono; lia).
  change (blocks_of 0) with 0 in Hmono.
  pose proof (ho_block _ _ _ H) as B. rewrite total_cons in B.
  apply wp_bind. eapply wp_mono; [by apply (mk_ialloc_spec s a _ T_FILE H)|].
  intros inum s1 (-> & a1 & H1). cbn [length]. fold n. rewrite entry_bytes_eq, <-Heb by lia.
  cbn [app] in H1. pose proof (ho_block _ _ _ H1) as B1. rewrite total_cons, total_fresh in B1.
  apply wp_bind. eapply wp_mono; [apply (iappend_spec s1 a1 _ 0 d c eb H1 eq_refl); [|lia|lia]|].
  { rewrite Heb. by apply dirent_bytes_byte, strip_byte. }
  intros [] s2 (a2 & d2 & S2 & H2). cbn [insert list_insert] in H2.
  pose proof (ho_block _ _ _ H2) as B2. rewrite total_cons, total_fresh, length_app, Nat2Z.inj_add in B2.
  eapply wp_mono; [apply (copy_in_spec reads s2 a2 _ (S (length F)) (fresh T_FILE) [] H2)|].
  - cbn. by apply list_lookup_middle.
  - done.
  - done.
  - change ([] ++ mjoin reads) with body. change (blocks_of (Z.of_nat (length []))) with 0. lia.
  - intros [] s3 (a3 & d3 & S3 & H3). exists a3, d2, (d3, body). split; [done|]. split; [done|].
    pose proof (insert_app_r_alt ((d2, c ++ eb) :: F) [(fresh T_FILE, [])] (S (length F)) (d3, body)
      (le_n _)) as E. cbn [length] in E. rewrite Nat.sub_diag in E. exact (eq_ind _ (holds s3 a3) H3 _ E).
Qed.

Lemma dir_bytes_cons e es : dir_bytes (e :: es) = dirent_bytes e ++ dir_bytes es.
Proof. done. Qed.

Lemma sizes_pos args : 0 <= sizes args.
Proof.
  induction args as [|arg args IH]; [done|]. cbn [sizes foldr]. fold (sizes args).
  assert (blocks_of 0 <= blocks_of (Z.of_nat (length (content arg)))) by (apply blocks_of_mono; lia).
  change (blocks_of 0) with 0 in *. lia.
Qed.

Lemma add_files_spec args s a d c F es :
  holds s a ((d, c) :: F) → Forall good args → (S (length F) + length args ≤ 199)%nat →
  es = dir_bytes (dir_of (2 + Z.of_nat (length F)) args) →
  Z.of_nat (length c) + Z.of_nat (length es) <= MAXFILE * BSIZE →
  m_freeblock s + (blocks_of (Z.of_nat (length c) + Z.of_nat (length es)) -
    blocks_of (Z.of_nat (length c))) + sizes args <= 1000 →
  wp (add_files host ROOTINO args) (λ _ s', ∃ a' d' G, same_kind d d' ∧ Forall2 file_for args G ∧
    holds s' a' ((d', c ++ es) :: F ++ G)) s.
Proof.
  revert s a d c F es. induction args as [|arg args IH]; intros s a d c F es H Hg Hlen -> Hmax Hroom;
    cbn [add_files].
  { apply wp_ret. exists a, d, []. rewrite !app_nil_r. by split_and!. }
  apply Forall_cons in Hg as [Hga Hg]. cbn [dir_of] in *. rewrite dir_bytes_cons in *.
  cbn [length] in Hlen. change (sizes (arg :: args)) with
    (blocks_of (Z.of_nat (length (content arg))) + sizes args) in Hroom.
  replace (2 + Z.of_nat (length F)) with (1 + Z.of_nat (S (length F))) in * by lia.
  remember (dirent_bytes (Dirent (1 + Z.of_nat (S (length F))) (cname (strip arg)))) as eb eqn:Heb.
  remember (dir_bytes (dir_of _ args)) as es eqn:Hes.
  rewrite length_app, Nat2Z.inj_add in Hmax, Hroom. pose proof (sizes_pos args) as Hsp.
  change (MAXFILE * BSIZE) with 71680 in *.
  assert (Hm1 : blocks_of (Z.of_nat (length c) + Z.of_nat (length eb)) <=
    blocks_of (Z.of_nat (length c) + (Z.of_nat (length eb) + Z.of_nat (length es))))
    by (apply blocks_of_mono; lia).
  apply wp_bind. eapply wp_mono; [apply (add_file_spec s a d c F arg eb H Hga); [lia|done|change (MAXFILE * BSIZE) with 71680; lia|lia]|].
  intros [] s1 (a1 & d1 & x & S1 & Hx & H1).
  pose proof (ho_block _ _ _ H) as B. pose proof (ho_block _ _ _ H1) as B1.
  rewrite total_cons in B, B1. rewrite total_app, length_app, Nat2Z.inj_add in B1.
  assert (Ex : total [x] = blocks_of (Z.of_nat (length (content arg)))).
  { destruct x as [dx cx], Hx as [_ Hc]. cbn [snd] in Hc. rewrite total_cons, Hc.
    change (total []) with 0. lia. }
  eapply wp_mono; [apply (IH s1 a1 d1 (c ++ eb) (F ++ [x]) es H1 Hg)|].
  - rewrite length_app. cbn. lia.
  - rewrite Hes. do 2 f_equal. rewrite length_app. cbn [length]. lia.
  - change (MAXFILE * BSIZE) with 71680. rewrite length_app, Nat2Z.inj_add. lia.
  - rewrite length_app, Nat2Z.inj_add, <-(Z.add_assoc (Z.of_nat (length c))). lia.
  - intros [] s2 (a2 & d2 & G & S2 & HG & H2). exists a2, d2, (x :: G).
    split; [unfold same_kind in *; intuition congruence|]. split; [by constructor|].
    by rewrite <-!app_assoc in H2.
Qed.

(** ** The end of main *)

(** The size the root directory is given. *)
Definition round_up (n : Z) : Z := (n / BSIZE + 1) * BSIZE.

Lemma finish_spec s a d c G :
  let d' := set_size (round_up (Z.of_nat (length c))) d in
  holds s a ((d, c) :: G) →
  wp (din ← rinode ROOTINO;
      let off := u32 ((xint (di_size din) / BSIZE + 1) * BSIZE) in
      winode ROOTINO (set_size (xint off) din);;
      used ← gets m_freeblock;
      Mkfs.balloc used) (λ _ s', length (m_img s') = 1000%nat ∧
    ∀ b, mk_view (m_img s') b = a_view (a_iput mkfs_sb ROOTINO d' a) b) s.
Proof.
  intros d' H. destruct (ho_disk _ _ _ H 0 d c eq_refl) as [Ed [_ Es Mx A _ _]].
  pose proof (ho_rep _ _ _ H) as R. change (1 + Z.of_nat 0) with ROOTINO in Ed.
  change (MAXFILE * BSIZE) with 71680 in Mx.
  apply (rinode_rule s a); [done|done|]. rewrite Ed, Es.
  rewrite (xint_id (Z.of_nat (length c))) by (unfold is_u32; lia). cbn zeta.
  assert (Eo : u32 ((Z.of_nat (length c) / BSIZE + 1) * BSIZE) = round_up (Z.of_nat (length c))).
  { unfold u32, round_up. apply Z.mod_small. change BSIZE with 512. dlia. }
  rewrite Eo, xint_id by (unfold is_u32, round_up; change BSIZE with 512; dlia). fold d'.
  apply wp_bind. eapply wp_mono; [apply (winode_spec s a); [done|done|apply A]|].
  intros [] s1 [R1 [B1 _]]. set (a1 := a_iput mkfs_sb ROOTINO d' a) in *.
  apply wp_bind, wp_gets. unfold Mkfs.balloc. pose proof (rp_fb _ _ R1) as Hfb.
  change (BSIZE * 8) with 4096. rewrite (proj2 (Z.ltb_lt _ _)) by lia. cbn [negb].
  apply wp_bind, wp_gets, wp_modify. rewrite (rp_sb _ _ R1). change (sector (sb_bmapstart mkfs_sb)) with 58%nat.
  pose proof (rp_len _ _ R1) as Hl. unfold set_img, put_sector. cbn [m_img].
  rewrite decide_True by lia. split; [by rewrite length_insert|].
  intros b. unfold mk_view. destruct (decide (b = 58)) as [->|Hb].
  - change (Z.to_nat 58) with 58%nat. rewrite list_lookup_insert_eq by lia. symmetry. apply R1.
  - rewrite (rp_view _ _ R1) by done. unfold mk_view.
    destruct (decide (Z.to_nat b = 58%nat)); [lia|]. by rewrite list_lookup_insert_ne.
Qed.

(** The root directory. *)
Definition root_entries (args : list (list Z)) : list dirent :=
  Dirent ROOTINO (cname [46]) :: Dirent ROOTINO (cname [46; 46]) :: dir_of 2 args.

(** The arguments are acceptable and the disk has room for them. *)
Record fits (args : list (list Z)) : Prop := {
  ft_good : Forall good args;
  ft_count : (length args ≤ 198)%nat;
  ft_room : nmeta + blocks_of (DIRENT_SIZE * (2 + Z.of_nat (length args))) + sizes args <= FSSIZE }.

Lemma length_dir_of n args : length (dir_bytes (dir_of n args)) = (16 * length args)%nat.
Proof.
  revert n; induction args as [|arg args IH]; intros n; [done|]. cbn [dir_of].
  rewrite dir_bytes_cons, length_app, length_dirent_cname, IH. cbn [length]. lia.
Qed.

(** The entries "." and "..". *)
Lemma dots_rule {B} s a (k : M mkfs B) Q :
  holds s a [(fresh T_DIR, [])] →
  (∀ s' a' d' c, same_kind (fresh T_DIR) d' → length c = 32%nat →
    c = dir_bytes [Dirent ROOTINO (cname [46]); Dirent ROOTINO (cname [46; 46])] →
    holds s' a' [(d', c)] → wp k Q s') →
  wp (iappend ROOTINO (entry_bytes ROOTINO [46]);;
      iappend ROOTINO (entry_bytes ROOTINO [46; 46]);; k) Q s.
Proof.
  intros H Hk. rewrite !dir_bytes_cons in Hk. rewrite !entry_bytes_eq by done.
  assert (Hb : ∀ name, Forall is_byte name → Forall is_byte (dirent_bytes (Dirent ROOTINO (cname name))))
    by (intros; by apply dirent_bytes_byte).
  pose proof (ho_block _ _ _ H) as B1. change (nmeta + total [(fresh T_DIR, [])]) with 59 in B1.
  pose proof (length_dirent_cname ROOTINO [46]) as L1. pose proof (length_dirent_cname ROOTINO [46; 46]) as L2.
  assert (Hb1 := Hb [46] ltac:(by repeat constructor)). assert (Hb2 := Hb [46; 46] ltac:(by repeat constructor)).
  remember (dirent_bytes (Dirent ROOTINO (cname [46]))) as e1 eqn:He1.
  remember (dirent_bytes (Dirent ROOTINO (cname [46; 46]))) as e2 eqn:He2.
  apply wp_bind. eapply wp_mono; [apply (iappend_spec s a _ 0 _ [] e1 H eq_refl Hb1)|].
  { by rewrite L1. }
  { rewrite L1, B1. change (59 + 1 - 0 <= 1000). lia. }
  intros [] s2 (a2 & d2 & S2 & H2). cbn [insert list_insert app] in H2.
  pose proof (ho_block _ _ _ H2) as B2. rewrite total_cons, L1 in B2. change (_ + (_ + _)) with 60 in B2.
  apply wp_bind. eapply wp_mono; [apply (iappend_spec s2 a2 _ 0 d2 e1 e2 H2 eq_refl Hb2)|].
  { by rewrite L1, L2. }
  { rewrite L1, L2, B2. change (60 + 1 - 1 <= 1000). lia. }
  intros [] s3 (a3 & d3 & S3 & H3). cbn [insert list_insert] in H3.
  apply (Hk s3 a3 d3 (e1 ++ e2)); [|by rewrite length_app, L1, L2| |done].
  - unfold same_kind in *. intuition congruence.
  - by rewrite app_nil_r.
Qed.

Lemma main_spec args :
  fits args →
  wp (Mkfs.main host args) (λ _ s', length (m_img s') = 1000%nat ∧ ∃ s a d G,
    let c := dir_bytes (root_entries args) in
    let d' := set_size (round_up (Z.of_nat (length c))) d in
    same_kind (fresh T_DIR) d ∧ Forall2 file_for args G ∧ holds s a ((d, c) :: G) ∧
    ∀ b, mk_view (m_img s') b = a_view (a_iput mkfs_sb ROOTINO d' a) b) mkfs0.
Proof.
  intros [Hg Hc Hr]. unfold Mkfs.main. apply wp_bind. eapply wp_mono; [apply start_spec|].
  intros [] s0 [a0 H0]. apply wp_bind.
  eapply wp_mono; [apply (mk_ialloc_spec s0 a0 [] T_DIR H0); [cbn; lia|done]|].
  intros root s1 (-> & a1 & H1). cbn [app length] in H1 |- *. change (1 + Z.of_nat 0) with ROOTINO in *.
  rewrite Z.eqb_refl. cbn [negb].
  change DIRENT_SIZE with 16 in Hr. change nmeta with 59 in Hr. change FSSIZE with 1000 in Hr.
  pose proof (sizes_pos args) as Hsp. set (N := blocks_of (16 * (2 + Z.of_nat (length args)))) in *.
  apply (dots_rule s1 a1 _ _ H1). intros s3 a3 d3 c S3 L Ec H3.
  pose proof (ho_block _ _ _ H3) as B3. rewrite total_cons, L in B3.
  change (_ + (_ + _)) with 60 in B3. pose proof (length_dir_of 2 args) as L3.
  apply wp_bind. eapply wp_mono; [apply (add_files_spec args s3 a3 d3 c [] (dir_bytes (dir_of 2 args)) H3 Hg);
    [cbn; lia|done|..]|].
  { rewrite L, L3. change (MAXFILE * BSIZE) with 71680. lia. }
  { rewrite L, L3, B3.
    replace (Z.of_nat 32 + Z.of_nat (16 * length args)) with (16 * (2 + Z.of_nat (length args))) by lia.
    fold N. change (blocks_of (Z.of_nat 32)) with 1. lia. }
  intros [] s4 (a4 & d4 & G & S4 & HG & H4).
  assert (E : c ++ dir_bytes (dir_of 2 args) = dir_bytes (root_entries args)).
  { rewrite Ec. unfold root_entries. by rewrite !dir_bytes_cons, app_nil_r, <-app_assoc. }
  rewrite E in H4. cbn [app] in H4.
  eapply wp_mono; [apply (finish_spec s4 a4 d4 _ G H4)|].
  intros [] s5 [Hl Hv]. split; [done|]. exists s4, a4, d4, G.
  split; [unfold same_kind in *; intuition congruence|]. by split_and!.
Qed.
End main.

(** ** Reading the directory back *)

Definition wf_entry (e : dirent) : Prop := 0 <= de_inum e < 2 ^ 16 ∧ length (de_name e) = 14%nat.

Lemma length_dir_bytes es : Forall wf_entry es → length (dir_bytes es) = (16 * length es)%nat.
Proof.
  induction 1 as [|e es [_ He] _ IH]; [done|]. rewrite dir_bytes_cons, length_app, IH.
  unfold dirent_bytes. rewrite length_app, length_le_bytes, He. cbn [length]. lia.
Qed.

Lemma rd_fmap_middle l1 l2 l3 :
  rd (l1 ++ l2 ++ l3) <$> seqZ (Z.of_nat (length l1)) (Z.of_nat (length l2)) = l2.
Proof.
  apply list_eq. intros i. rewrite list_lookup_fmap. destruct (decide (i < length l2)%nat) as [Hi|Hi].
  - rewrite lookup_seqZ_lt by lia. cbn. unfold rd.
    replace (Z.to_nat (Z.of_nat (length l1) + Z.of_nat i)) with (length l1 + i)%nat by lia.
    rewrite lookup_app_r, lookup_app_l by lia. replace (length l1 + i - length l1)%nat with i by lia.
    by destruct (lookup_lt_is_Some_2 l2 i Hi) as [x ->].
  - rewrite lookup_seqZ_ge by lia. by rewrite lookup_ge_None_2 by lia.
Qed.

Lemma rd_fmap_zero l k n :
  (Z.of_nat (length l) <= k) → rd l <$> seqZ k (Z.of_nat n) = replicate n 0.
Proof.
  intros Hk. apply list_eq. intros i. rewrite list_lookup_fmap.
  destruct (decide (i < n)%nat) as [Hi|Hi].
  - rewrite lookup_seqZ_lt, lookup_replicate_2 by lia. cbn. unfold rd.
    by rewrite lookup_ge_None_2 by lia.
  - rewrite lookup_seqZ_ge by lia. symmetry. apply lookup_ge_None_2. rewrite length_replicate. lia.
Qed.

Definition free_entry : dirent := Dirent 0 (replicate 14 0).

(** A file that holds the entries [es] and zeroes reads as the directory
    [es] with free entries after it. *)
Lemma entries_dir_bytes v l n es :
  Forall wf_entry es → Z.of_nat (16 * length es) <= n <= MAXFILE * BSIZE →
  (∀ i, 0 <= i < MAXFILE * BSIZE → byte_of v l i = rd (dir_bytes es) i) →
  entries v l n = es ++ replicate (Z.to_nat (n / DIRENT_SIZE) - length es) free_entry.
Proof.
  intros Hw Hn Hb. pose proof (length_dir_bytes es Hw) as Hl. change (MAXFILE * BSIZE) with 71680 in *.
  assert (Hlen : (length es ≤ Z.to_nat (n / DIRENT_SIZE))%nat) by (change DIRENT_SIZE with 16; dlia).
  apply list_eq. intros k. destruct (decide (k < Z.to_nat (n / DIRENT_SIZE))%nat) as [Hk|Hk].
  2: { rewrite !lookup_ge_None_2; [done|rewrite length_app, length_replicate; lia|rewrite length_entries; lia]. }
  rewrite entries_lookup by done. unfold entry, file_slice.
  assert (E : byte_of v l <$> seqZ (16 * Z.of_nat k) 16 = rd (dir_bytes es) <$> seqZ (16 * Z.of_nat k) 16).
  { apply list_fmap_ext. intros j x Hx. apply lookup_seqZ in Hx as [-> ?]. apply Hb.
    change DIRENT_SIZE with 16 in Hk. dlia. }
  rewrite E. destruct (es !! k) as [e|] eqn:He.
  - pose proof (lookup_lt_Some _ _ _ He) as Hlt. rewrite lookup_app_l, He by done. f_equal.
    pose proof (Forall_lookup_1 _ _ _ _ Hw He) as [Hi Hnm].
    assert (L16 : length (dirent_bytes e) = 16%nat).
    { unfold dirent_bytes. by rewrite length_app, length_le_bytes, Hnm. }
    assert (Hpre : length (dir_bytes (take k es)) = (16 * k)%nat).
    { rewrite length_dir_bytes, length_take by (by apply Forall_take). lia. }
    assert (Es : dir_bytes es = dir_bytes (take k es) ++ dirent_bytes e ++ dir_bytes (drop (S k) es)).
    { rewrite <-(take_drop_middle es k e He) at 1. unfold dir_bytes. by rewrite fmap_app, join_app. }
    pose proof (rd_fmap_middle (dir_bytes (take k es)) (dirent_bytes e) (dir_bytes (drop (S k) es))) as M.
    rewrite <-Es, Hpre, L16 in M. change (Z.of_nat 16) with 16 in M.
    replace (Z.of_nat (16 * k)) with (16 * Z.of_nat k) in M by lia. rewrite M. by apply dirent_at_bytes.
  - apply lookup_ge_None in He. rewrite lookup_app_r, lookup_replicate_2 by lia. f_equal.
    change 16 with (Z.of_nat 16) at 2. rewrite rd_fmap_zero by lia. reflexivity.
Qed.

Lemma dir_of_lookup n args k : dir_of n args !! k = (λ arg, Dirent (n + Z.of_nat k) (cname (strip arg))) <$> args !! k.
Proof.
  revert n k; induction args as [|arg args IH]; intros n [|k]; [done..|cbn; do 2 f_equal; lia|].
  cbn [dir_of lookup list_lookup]. rewrite IH. destruct (args !! k); [|done]. cbn. do 2 f_equal. lia.
Qed.

Lemma length_root_entries args : length (root_entries args) = (2 + length args)%nat.
Proof.
  unfold root_entries. cbn [length]. do 2 f_equal. generalize 2.
  induction args as [|arg args IH]; intros n; [done|]. cbn. by rewrite IH.
Qed.

Lemma root_entries_wf args : (length args ≤ 198)%nat → Forall wf_entry (root_entries args).
Proof.
  intros Hl. apply Forall_cons; split; [by split; [|apply length_cname]|].
  apply Forall_cons; split; [by split; [|apply length_cname]|].
  apply Forall_lookup. intros k e. rewrite dir_of_lookup. destruct (args !! k) as [arg|] eqn:E; [|done].
  apply lookup_lt_Some in E. cbn. intros [= <-]. split; [cbn; lia|apply length_cname].
Qed.

(** ** The image *)

(** Size of the root directory in use. *)
Definition root_size (args : list (list Z)) : Z := DIRENT_SIZE * (2 + Z.of_nat (length args)).

Lemma length_root_bytes args :
  (length args ≤ 198)%nat → Z.of_nat (length (dir_bytes (root_entries args))) = root_size args.
Proof.
  intros H. rewrite length_dir_bytes, length_root_entries by (by apply root_entries_wf).
  unfold root_size. change DIRENT_SIZE with 16. lia.
Qed.

(** A file with the content [c], at most the last block of it partly used,
    zeroes after it. *)
Record file_data (v : Z → block) (l c : list Z) : Prop := {
  fd_addrs : addrs_ok v l;
  fd_dense : dense v l (Z.of_nat (length c));
  fd_bytes i : 0 <= i < MAXFILE * BSIZE → byte_of v l i = rd c i }.

Record mkfs_image (host : list Z → option (list (list Z))) (args : list (list Z))
    (v : Z → block) : Prop := {
  im_wf b : wf_block (v b);
  im_super : superblock_at (v 1) = mkfs_sb;
  im_log : v 2 = zero_block;
  im_meta : meta_used mkfs_sb mkfs_geo v;
  im_used x : 0 <= x < FSSIZE →
    used mkfs_sb v x = (x <? nmeta + blocks_of (root_size args) + sizes host args);
  im_root : let d := disk_inode mkfs_sb v ROOTINO in
    di_type d = T_DIR ∧ di_nlink d = 1 ∧ di_size d = round_up (root_size args) ∧
    file_data v (di_addrs d) (dir_bytes (root_entries args)) ∧
    ∃ n, entries v (di_addrs d) (di_size d) = root_entries args ++ replicate n free_entry;
  im_file k arg : args !! k = Some arg → let d := disk_inode mkfs_sb v (2 + Z.of_nat k) in
    di_type d = T_FILE ∧ di_nlink d = 1 ∧ di_size d = Z.of_nat (length (content host arg)) ∧
    file_data v (di_addrs d) (content host arg) ∧
    file_slice v (di_addrs d) 0 (di_size d) = content host arg;
  im_apart i j : 1 <= i < 2 + Z.of_nat (length args) → 1 <= j < 2 + Z.of_nat (length args) → i ≠ j →
    apart v (di_addrs (disk_inode mkfs_sb v i)) (di_addrs (disk_inode mkfs_sb v j));
  im_free i : 2 + Z.of_nat (length args) <= i < NINODES →
    di_type (disk_inode mkfs_sb v i) = 0 }.

Lemma file_data_slice v l c :
  file_data v l c → Z.of_nat (length c) <= MAXFILE * BSIZE → file_slice v l 0 (Z.of_nat (length c)) = c.
Proof.
  intros [_ _ B] Hc. apply file_slice_src. intros i Hi. rewrite B by lia. unfold rd.
  replace (i - 0) with i by lia. destruct (lookup_lt_is_Some_2 c (Z.to_nat i)) as [x Hx]; [lia|].
  by rewrite (list_lookup_total_correct _ _ _ Hx), Hx.
Qed.

Lemma total_files host args G : Forall2 (file_for host) args G → total G = sizes host args.
Proof.
  induction 1 as [|arg [dx cx] args G [_ Hx] _ IH]; [done|]. cbn [snd] in Hx.
  rewrite total_cons, Hx, IH. done.
Qed.

Section final.
Context (host : list Z → option (list (list Z))) (args : list (list Z)).
Context (s : mkfs) (a : astore) (d : dinode) (G : list (dinode * list Z)) (v : Z → block).
Local Abbreviation c := (dir_bytes (root_entries args)).
Local Abbreviation d' := (set_size (round_up (Z.of_nat (length c))) d).
Hypothesis Fi : fits host args.
Hypothesis Sk : same_kind (fresh T_DIR) d.
Hypothesis HG : Forall2 (file_for host) args G.
Hypothesis H : holds s a ((d, c) :: G).
Hypothesis V : ∀ b, v b = a_view (a_iput mkfs_sb ROOTINO d' a) b.

Lemma final_used x : 0 <= x < 1000 → used mkfs_sb v x = used mkfs_sb (a_view a) x.
Proof.
  intros Hx. rewrite (used_ext _ _ _ _ (V _)).
  by apply (iput_used mkfs_sb mkfs_geo a ROOTINO d' mkfs_layout).
Qed.

Lemma final_unchanged l : addrs_ok (a_view a) l → unchanged (a_view a) v l.
Proof. intros A j Hj Hp. rewrite V. by apply unchanged_iput. Qed.

Lemma final_file k x : ((d, c) :: G) !! k = Some x → file_data v (di_addrs x.1) x.2.
Proof.
  destruct x as [dx cx]. intros Hk. destruct (ho_disk _ _ _ H k dx cx Hk) as [_ F]. cbn [fst snd].
  pose proof (final_unchanged _ (fk_addrs _ _ _ F)) as U.
  destruct (file_ok_frame _ v dx cx U ltac:(intros y Hy; by rewrite final_used) F) as [_ _ _ A D B].
  by split.
Qed.

Lemma final_wf : wf_dinode d'.
Proof.
  destruct (ho_disk _ _ _ H 0 d c eq_refl) as [_ [W Sz Mx _ _ _]].
  destruct W as (? & ? & ? & ? & _ & ? & ?). split_and!; try done.
  cbn [di_size set_size]. unfold is_u32, round_up. change (MAXFILE * BSIZE) with 71680 in Mx.
  change BSIZE with 512. dlia.
Qed.

Lemma final_disk i :
  disk_inode mkfs_sb v i = if i =? ROOTINO then d' else disk_inode mkfs_sb (a_view a) i.
Proof.
  unfold disk_inode at 1. rewrite V. fold (disk_inode mkfs_sb (a_view (a_iput mkfs_sb ROOTINO d' a)) i).
  apply disk_inode_put; [apply H|apply final_wf].
Qed.

(** The inodes in use and their pointers. *)
Lemma final_inode k x :
  ((d, c) :: G) !! k = Some x → di_addrs (disk_inode mkfs_sb v (1 + Z.of_nat k)) = di_addrs x.1.
Proof.
  destruct x as [dx cx]. intros Hk. rewrite final_disk. destruct k as [|k]; [by injection Hk as <- <-|].
  rewrite (proj2 (Z.eqb_neq _ _)) by (unfold ROOTINO; lia).
  destruct (ho_disk _ _ _ H (S k) dx cx Hk) as [E _]. by rewrite E.
Qed.

Lemma final_total : total ((d, c) :: G) = blocks_of (root_size args) + sizes host args.
Proof.
  rewrite total_cons, length_root_bytes by apply Fi. f_equal. by apply total_files.
Qed.

Lemma final_root : let d := disk_inode mkfs_sb v ROOTINO in
  di_type d = T_DIR ∧ di_nlink d = 1 ∧ di_size d = round_up (root_size args) ∧
  file_data v (di_addrs d) c ∧
  ∃ n, entries v (di_addrs d) (di_size d) = root_entries args ++ replicate n free_entry.
Proof.
  cbn zeta. rewrite final_disk. cbn [Z.eqb Pos.eqb ROOTINO]. rewrite (length_root_bytes args) by apply Fi.
  destruct Sk as (St & _ & _ & Sn). pose proof (final_file 0 (d, c) eq_refl) as FD.
  split_and!; [done|done|done|done|]. eexists. apply entries_dir_bytes; [apply root_entries_wf, Fi| |apply FD].
  pose proof (ft_count _ _ Fi). rewrite length_root_entries. cbn [di_size set_size].
  unfold round_up, root_size. change DIRENT_SIZE with 16. change (MAXFILE * BSIZE) with 71680.
  change BSIZE with 512. dlia.
Qed.

Lemma final_entry k arg : args !! k = Some arg → let d := disk_inode mkfs_sb v (2 + Z.of_nat k) in
  di_type d = T_FILE ∧ di_nlink d = 1 ∧ di_size d = Z.of_nat (length (content host arg)) ∧
  file_data v (di_addrs d) (content host arg) ∧
  file_slice v (di_addrs d) 0 (di_size d) = content host arg.
Proof.
  intros Hk. cbn zeta. destruct (Forall2_lookup_l _ _ _ _ _ HG Hk) as ([dx cx] & Hx & (St & _ & _ & Sn) & Ec).
  cbn [fst snd] in *. destruct (ho_disk _ _ _ H (S k) dx cx Hx) as [E F].
  pose proof (final_file (S k) (dx, cx) Hx) as FD. cbn [fst snd] in FD.
  rewrite final_disk, (proj2 (Z.eqb_neq _ _)) by (unfold ROOTINO; lia).
  replace (2 + Z.of_nat k) with (1 + Z.of_nat (S k)) by lia. rewrite E, (fk_size _ _ _ F), <-Ec.
  split_and!; try done. apply file_data_slice; [done|apply F].
Qed.

Lemma final_image : mkfs_image host args v.
Proof.
  pose proof (Forall2_length _ _ _ HG) as Hlen. pose proof (ho_rep _ _ _ H) as R.
  assert (Hu : ∀ x, 0 <= x < 1000 → used mkfs_sb v x = (x <? m_freeblock s)).
  { intros x Hx. rewrite final_used by done. by apply rep_used. }
  assert (Hlow : ∀ b, 0 <= b < 32 → v b = a_view a b).
  { intros b Hb. rewrite V. unfold a_iput. cbn [a_view a_update]. pose proof (mkfs_iblock ROOTINO ltac:(done)).
    by rewrite view_set_ne by lia. }
  split; [| | | | |apply final_root|apply final_entry| |].
  - intros b. rewrite V. unfold a_iput, view_set. cbn [a_view a_update]. unfold view_set.
    destruct (b =? _); [|apply R]. apply wf_put_dinode; [apply R|apply final_wf].
  - rewrite Hlow, (ho_boot _ _ _ H) by lia. reflexivity.
  - by rewrite Hlow, (ho_boot _ _ _ H) by lia.
  - intros b Hb. rewrite Hu by done. intros Hf%Z.ltb_ge. pose proof (rp_fb _ _ R).
    change (g_size mkfs_geo) with 1000 in Hb. apply mkfs_data. lia.
  - intros x Hx. rewrite Hu, (ho_block _ _ _ H), final_total by done. by rewrite Z.add_assoc.
  - intros i j Hi Hj Hij.
    assert (L : ∀ i, 1 <= i < 2 + Z.of_nat (length args) → ∃ x, ((d, c) :: G) !! Z.to_nat (i - 1) = Some x).
    { intros y Hy. apply lookup_lt_is_Some_2. cbn [length]. lia. }
    destruct (L i Hi) as [x Hx], (L j Hj) as [y Hy].
    pose proof (final_inode _ _ Hx) as Ex. pose proof (final_inode _ _ Hy) as Ey.
    replace (1 + Z.of_nat (Z.to_nat (i - 1))) with i in Ex by lia.
    replace (1 + Z.of_nat (Z.to_nat (j - 1))) with j in Ey by lia. rewrite Ex, Ey.
    intros p q Hp Hq. destruct x as [dx cx], y as [dy cy].
    destruct (ho_disk _ _ _ H _ _ _ Hx) as [_ Fx], (ho_disk _ _ _ H _ _ _ Hy) as [_ Fy].
    rewrite (unchanged_ptr _ _ _ _ (final_unchanged _ (fk_addrs _ _ _ Fx))),
      (unchanged_ptr _ _ _ _ (final_unchanged _ (fk_addrs _ _ _ Fy))).
    apply (ho_apart _ _ _ H _ _ _ _ Hx Hy); [lia|done|done].
  - intros i Hi. change NINODES with 200 in Hi. rewrite final_disk, (proj2 (Z.eqb_neq _ _)) by (unfold ROOTINO; lia).
    apply (ho_free _ _ _ H). cbn [length]. lia.
Qed.
End final.

Lemma main_image host args :
  fits host args →
  wp (Mkfs.main host args) (λ _ s', length (m_img s') = Z.to_nat FSSIZE ∧
    mkfs_image host args (mk_view (m_img s'))) mkfs0.
Proof.
  intros Fi. eapply wp_mono; [exact (main_spec host args Fi)|].
  intros [] s' (Hl & s & a & d & G & Sk & HG & H & V). split; [done|].
  by apply (final_image host args s a d G).
Qed.

(** C9: mkfs builds a well-formed file system.  When the files named on the
    command line can be read, are not too large and fit on the disk together
    with the directory, mkfs succeeds, and the image has the super block and
    an empty log, its bitmap marks exactly the blocks in use, the root
    directory lists the names with consecutive inode numbers, every one of
    these inodes is a file with the content that was read, no two inodes
    share a block, and all other inodes are free. *)
Theorem mkfs_builds_image host args :
  fits host args →
  ∃ s', Mkfs.main host args mkfs0 = Ret tt s' ∧ length (m_img s') = Z.to_nat FSSIZE ∧
    mkfs_image host args (mk_view (m_img s')).
Proof.
  intros Fi. destruct (wp_returns _ _ _ (main_image host args Fi)) as (s' & E & Hl & I).
  exists s'. split; [exact E|]. split; [exact Hl|exact I].
Qed.
