(* ===== verification/MkfsBoot.v ===== *)
(** * The kernel on the disk of mkfs

    mkfs.c and the kernel are separate programs that share the layout of
    fs.h.  Here the kernel boots from the image, looks a file up by its
    name and reads it: it gets the bytes mkfs was given.  The last part
    shows a directory size for which mkfs leaves a block of the root
    directory out. *)

From S2P Require Import Prelude Str Layout Sleeplock Bio BioRing BlockLayer BioSpec Log LogSpec Crash LogLayer.
From S2P Require Import Fs FsBlock FsInode FsFile FsRw FsDir FsPath FsNamei Mkfs MkfsSpec MkfsImage.

(** ** Views that agree outside the log header *)

Section agree.
Context (v v' : Z → block).
Hypothesis V : ∀ b, 0 <= b → b ≠ 2 → v' b = v b.

Lemma agree_used x : 0 <= x < 1000 → used mkfs_sb v' x = used mkfs_sb v x.
Proof. intros Hx. apply used_ext. rewrite mkfs_bblock by done. by apply V. Qed.

Lemma agree_inode i : 0 <= i < 200 → disk_inode mkfs_sb v' i = disk_inode mkfs_sb v i.
Proof. intros Hi. pose proof (mkfs_iblock i Hi). unfold disk_inode. by rewrite V by lia. Qed.

Lemma agree_unchanged l : FsFile.addrs_ok mkfs_sb mkfs_geo v l → unchanged v v' l.
Proof.
  intros A j Hj Hp. destruct (ao_data _ _ _ _ A j Hj Hp) as [Hd _]. apply data_low in Hd. apply V; lia.
Qed.

Lemma agree_file l c : file_data v l c → file_data v' l c.
Proof.
  intros [A D B]. pose proof (agree_unchanged l A) as U. split.
  - split; [apply A| |].
    + intros k Hk. rewrite (unchanged_ptr v v') by done. intros Hp.
      destruct (ao_data _ _ _ _ A k Hk Hp) as [Hd Hu]. split; [done|].
      rewrite agree_used; [done|by apply data_block_range in Hd].
    + intros k k' Hk Hk'. rewrite !(unchanged_ptr v v') by done. by apply (ao_inj _ _ _ _ A).
  - intros j Hj. rewrite (unchanged_ptr v v') by done. by apply D.
  - intros i Hi. rewrite (unchanged_byte v v') by done. by apply B.
Qed.

Lemma agree_meta : meta_used mkfs_sb mkfs_geo v → meta_used mkfs_sb mkfs_geo v'.
Proof. intros H b Hb Hf. apply H; [done|]. by rewrite <-agree_used. Qed.

Lemma agree_entries l c n :
  file_data v l c → n <= MAXFILE * BSIZE → entries v' l n = entries v l n.
Proof.
  intros FD Hn. pose proof (agree_unchanged l (fd_addrs _ _ _ FD)) as U.
  unfold entries. apply list_fmap_ext. intros j k Hk. apply lookup_seq in Hk as [-> Hj].
  unfold entry. f_equal. apply file_slice_ext. intros i Hi. apply (unchanged_byte v v'); [done|].
  change DIRENT_SIZE with 16 in Hj. dlia.
Qed.
End agree.

(** The blocks of a dense file are there. *)
Lemma dense_mapped v l n : dense v l n → n <= MAXFILE * BSIZE → mapped v l n.
Proof.
  intros D Hn bn H0 Hb. change (MAXFILE * BSIZE) with 71680 in Hn.
  assert (Hbn : 0 <= bn < MAXFILE) by (change BSIZE with 512 in Hb; change MAXFILE with 140; lia).
  destruct (slot_range bn Hbn) as [Hs _]. apply (D _ Hs). rewrite need_slot. lia.
Qed.

(** The directory is rounded up to whole blocks; they are there unless it
    fills its last block. *)
Lemma dense_mapped_up v l n :
  dense v l n → 0 <= n < MAXFILE * BSIZE → n mod BSIZE ≠ 0 → mapped v l (round_up n).
Proof.
  intros D Hn Hm bn H0 Hb. unfold round_up in Hb. change (MAXFILE * BSIZE) with 71680 in Hn.
  change BSIZE with 512 in *.
  assert (Hbn : 0 <= bn < MAXFILE) by (change MAXFILE with 140; dlia).
  destruct (slot_range bn Hbn) as [Hs _]. apply (D _ Hs). rewrite need_slot. change BSIZE with 512. dlia.
Qed.

(** ** Names *)

Lemma elems_single name :
  Forall (λ c, c ≠ SLASH ∧ c ≠ 0) name → name ≠ [] → elems (SLASH :: name) = [name].
Proof.
  intros Hf Hne. unfold elems. cbn [elems_from flush app Z.eqb Pos.eqb SLASH].
  assert (G : ∀ cur, cur ++ name ≠ [] → elems_from cur name = [cur ++ name]).
  { clear Hne. induction name as [|c name IH]; intros cur Hc.
    - rewrite app_nil_r in *. by destruct cur.
    - apply Forall_cons in Hf as [[Hs Hz] Hf]. cbn [elems_from].
      rewrite (proj2 (Z.eqb_neq _ _)), (proj2 (Z.eqb_neq _ _)) by done.
      rewrite (IH Hf (cur ++ [c])), <-app_assoc; [done|]. by destruct cur. }
  by apply (G []).
Qed.

(** The name of the [k]th file is the name of no entry before it. *)
Record name_free (args : list (list Z)) (k : nat) (name : list Z) : Prop := {
  nf_chars : Forall (λ c, c ≠ SLASH ∧ c ≠ 0) name ∧ name ≠ [];
  nf_dots : cname name ≠ cname [46] ∧ cname name ≠ cname [46; 46];
  nf_first j arg : (j < k)%nat → args !! j = Some arg → cname (strip arg) ≠ cname name }.

Lemma found_file args k arg n :
  args !! k = Some arg → name_free args k (strip arg) →
  found (strip arg) (root_entries args ++ replicate n free_entry) =
    Some (16 * Z.of_nat (2 + k), 2 + Z.of_nat k).
Proof.
  intros Hk [_ [Hd1 Hd2] Hfirst].
  change (2 + Z.of_nat k) with (de_inum (Dirent (2 + Z.of_nat k) (cname (strip arg)))).
  pose proof (lookup_lt_Some _ _ _ Hk) as Hlt.
  apply found_Some.
  - rewrite lookup_app_l by (rewrite length_root_entries; lia). cbn [lookup list_lookup root_entries Nat.add].
    change (dir_of 2 args !! k = Some (Dirent (2 + Z.of_nat k) (cname (strip arg)))).
    by rewrite dir_of_lookup, Hk.
  - split; [cbn; lia|]. apply cname_idem.
  - intros j y Hy Hj [_ Hn]. rewrite lookup_app_l in Hy by (rewrite length_root_entries; lia).
    destruct j as [|[|j]]; cbn [lookup list_lookup root_entries] in Hy.
    + injection Hy as <-. cbn in Hn. by rewrite cname_idem in Hn.
    + injection Hy as <-. cbn in Hn. by rewrite cname_idem in Hn.
    + change (dir_of 2 args !! j = Some y) in Hy. rewrite dir_of_lookup in Hy.
      destruct (args !! j) as [arg'|] eqn:E; [|done]. injection Hy as <-. cbn [de_name] in Hn.
      rewrite cname_idem in Hn. by apply (Hfirst j arg'); [lia|..].
Qed.

(** ** Booting and reading a file *)

Section boot.
Variable me : Z.
Variable dr : Z → option (nat → Z → M (fs store) (Z * list Z)).
#[local] Existing Instance store_block_layer.

(** The kernel's memory before [iinit] and [initlog], and the disk. *)
Definition fs_boot (disk : gmap Z block) : fs store :=
  Fs (Store (boot disk FSSIZE) log0) (Superblock 0 0 0 0 0 0 0) (replicate NINODE inhabitant).

(** Mount, open a file in a transaction and read from it. *)
Definition boot_read (path : list Z) (n : Z) : M (fs store) (Z * list Z) :=
  on_st (initlog me ROOTDEV;; begin_op);;
  iinit (BlockLayer0 := store_block_layer me) ROOTDEV;;
  r ← namei (BlockLayer0 := store_block_layer me) me 0 dr path;
  match r with
  | None => panic "open"
  | Some ip =>
    ilock (BlockLayer0 := store_block_layer me) me ip;;
    readi (BlockLayer0 := store_block_layer me) dr ip 0 n
  end.

Lemma fresh_cache_ok v :
  cache_ok mkfs_sb me v None (with_lock initsleeplock <$> replicate NINODE inhabitant).
Proof.
  assert (H : ∀ i x, (with_lock initsleeplock <$> replicate NINODE inhabitant) !! i = Some x →
    i_ref x = 0 ∧ i_lock x = initsleeplock).
  { intros i x. rewrite list_lookup_fmap. destruct (replicate NINODE inhabitant !! i) as [y|] eqn:E; [|done].
    apply lookup_replicate in E as [-> _]. by intros [= <-]. }
  split; [split|..].
  - intros i x [-> _]%H. done.
  - intros i j x y [E _]%H. lia.
  - intros i x [E _]%H. lia.
  - intros i x [_ E]%H. by rewrite decide_False, E.
  - intros i x [E _]%H. lia.
Qed.

Lemma fresh_cache_room :
  let l := with_lock initsleeplock <$> replicate NINODE inhabitant in
  (size (used_inums l) + 2 ≤ length l)%nat.
Proof. vm_compute. lia. Qed.

(** The image as the disk of the kernel. *)
Definition disk_of (img : list block) : gmap Z block := map_seqZ 0 img.

Lemma disk_of_view img b : 0 <= b → default zero_block (disk_of img !! b) = mk_view img b.
Proof. intros Hb. unfold disk_of, mk_view. by rewrite lookup_map_seqZ_0. Qed.

Lemma disk_of_wf img b : (∀ b, wf_block (mk_view img b)) → wf_block (default zero_block (disk_of img !! b)).
Proof.
  intros H. destruct (decide (0 <= b)); [by rewrite disk_of_view|].
  unfold disk_of. rewrite (proj2 (lookup_map_seqZ_None _ _ _)) by lia. apply wf_zero_block.
Qed.

(** After [initlog] and [begin_op]. *)
Lemma boot_spec host args img :
  mkfs_image host args (mk_view img) →
  wp (initlog me ROOTDEV;; begin_op) (λ _ s, ∃ v, store_rep me s (AStore v ∅ ∅ mkfs_geo) ∧
    ∀ b, 0 <= b → b ≠ 2 → v b = mk_view img b) (Store (boot (disk_of img) FSSIZE) log0).
Proof.
  intros I. apply wp_bind. eapply wp_mono; [apply (initlog_idle me (disk_of img) mkfs_geo)|].
  - intros b. apply disk_of_wf, I.
  - split; change (g_size mkfs_geo) with 1000; change (g_logstart mkfs_geo) with 2;
      change (g_logsize mkfs_geo) with 30; change NBUF with 30%nat; lia.
  - rewrite disk_of_view by done. unfold superblock_places. by rewrite (im_super _ _ _ I).
  - change (g_logstart mkfs_geo) with 2. rewrite disk_of_view, (im_log _ _ _ I) by done.
    split; [done|]. intros k b H. by rewrite lookup_nil in H.
  - intros [] s1 (v & Hid & Hv). eapply wp_mono; [by apply begin_op_idle|].
    intros [] s2 SR. exists v. split; [exact SR|]. intros b Hb Hne. rewrite <-disk_of_view by done. by apply Hv.
Qed.

Lemma room_empty v k : (k ≤ 29)%nat → room k (AStore v ∅ ∅ mkfs_geo).
Proof.
  intros Hk. unfold room, a_busy. cbn [a_held a_dirty a_geo].
  rewrite dom_empty_L, union_empty_l_L, size_empty.
  change (log_cap mkfs_geo) with 29. change NBUF with 30%nat. lia.
Qed.
End boot.

(** Reading the super block. *)
Lemma iinit_spec {T} `{!BlockLayer T} (s : fs T) a :
  shows s a → 1 < a_size a → a_held a = ∅ → room 1 a →
  wp (iinit ROOTDEV) (λ _ s', shows s' a ∧ f_sb s' = superblock_at (a_view a 1) ∧
    f_icache s' = with_lock initsleeplock <$> f_icache s) s.
Proof.
  intros R Hs Hh Hroom. unfold iinit, readsb. apply wp_bind, wp_modify. apply wp_bind.
  apply (bread_rule _ a 1); [exact R|lia|by rewrite Hh|done|]. intros i s1 R1 [K1 K2].
  eapply data_rule; [exact R1|apply lookup_insert_eq|].
  apply (drop_rule s1 a 1 i); [exact R1|by rewrite Hh|]. intros s2 R2 [K3 K4]. apply wp_ret, wp_modify.
  split_and!; [exact R2|done|]. cbn [f_icache]. by rewrite K4, K2.
Qed.

(** Reading the first [n] bytes. *)
Lemma file_data_take v l c n :
  file_data v l c → Z.of_nat (length c) <= MAXFILE * BSIZE → 0 <= n →
  file_slice v l 0 (Z.min n (Z.of_nat (length c))) = take (Z.to_nat n) c.
Proof.
  intros FD Hc Hn. pose proof (file_data_slice v l c FD Hc) as E.
  destruct (decide (n <= Z.of_nat (length c))) as [Hle|Hgt].
  - rewrite Z.min_l by done. rewrite <-E.
    replace (Z.of_nat (length c)) with (n + (Z.of_nat (length c) - n)) by lia.
    rewrite file_slice_app by lia. rewrite take_app_length'; [done|].
    unfold file_slice. by rewrite length_fmap, length_seqZ.
  - rewrite Z.min_r, E by lia. by rewrite take_ge by lia.
Qed.

Section read.
Context {T : Type} `{!BlockLayer T}.
Context (me : Z) (dr : Z → option (nat → Z → M (fs T) (Z * list Z))).
Context (host : list Z → option (list (list Z))) (args : list (list Z)) (img : list block).
Context (v : Z → block).
Hypothesis Fi : fits host args.
Hypothesis I : mkfs_image host args (mk_view img).
Hypothesis V : ∀ b, 0 <= b → b ≠ 2 → v b = mk_view img b.
Hypothesis Hpart : root_size args mod BSIZE ≠ 0.
Local Abbreviation a := (AStore v ∅ ∅ mkfs_geo).

Lemma image_fs_ok : fs_ok mkfs_sb mkfs_geo a.
Proof.
  split; [apply mkfs_layout|done| |].
  - cbn [a_view]. by eapply agree_meta, im_meta.
  - intros b [i Hi]. cbn in Hi. by rewrite lookup_empty in Hi.
Qed.

Lemma root_size_bound : 0 <= root_size args <= 3200.
Proof. pose proof (ft_count _ _ Fi). unfold root_size. change DIRENT_SIZE with 16. lia. Qed.

(** The root directory can be read. *)
Lemma root_node : node_ok mkfs_sb mkfs_geo v ROOTINO.
Proof.
  pose proof root_size_bound as Hb. destruct (im_root _ _ _ I) as (Ht & Hn & Hs & FD & _).
  pose proof (agree_inode _ v V ROOTINO ltac:(done)) as E.
  split; rewrite ?E; [done|by rewrite Ht|by rewrite Hn|]. cbn zeta. intros _. rewrite Hs.
  apply (agree_file _ v V) in FD. split_and!; [apply FD|..].
  - unfold round_up. change BSIZE with 512. dlia.
  - unfold round_up. change (MAXFILE * BSIZE) with 71680. change BSIZE with 512. dlia.
  - unfold round_up. change DIRENT_SIZE with 16. change BSIZE with 512. dlia.
  - apply dense_mapped_up; [|change (MAXFILE * BSIZE) with 71680; lia|done].
    rewrite <-(length_root_bytes args) by apply Fi. apply FD.
Qed.

Context (k : nat) (arg : list Z).
Hypothesis Hk : args !! k = Some arg.
Hypothesis Hname : name_free args k (strip arg).

Lemma file_walk :
  walk mkfs_sb v false ROOTINO (elems (SLASH :: strip arg)) = Some (2 + Z.of_nat k) ∧
  walk_ok mkfs_sb mkfs_geo v ROOTINO (elems (SLASH :: strip arg)).
Proof.
  rewrite elems_single by apply Hname. cbn [walk walk_ok andb].
  pose proof root_size_bound as Hb. destruct (im_root _ _ _ I) as (Ht & _ & Hs & FD & n & He).
  rewrite (agree_inode _ v V ROOTINO) by done. rewrite Ht. change (negb (T_DIR =? T_DIR)) with false. cbn iota.
  rewrite (agree_entries _ v V _ _ _ FD), He, (found_file args k arg) by
    (done || rewrite Hs; unfold round_up; change (MAXFILE * BSIZE) with 71680; change BSIZE with 512; dlia).
  split; [done|]. split; [apply root_node|done].
Qed.

Lemma file_node : node_ok mkfs_sb mkfs_geo v (2 + Z.of_nat k).
Proof.
  pose proof (lookup_lt_Some _ _ _ Hk). pose proof (ft_count _ _ Fi).
  destruct (im_file _ _ _ I k arg Hk) as (Ht & Hn & _).
  pose proof (agree_inode _ v V (2 + Z.of_nat k) ltac:(lia)) as E.
  split; rewrite ?E; [change (sb_ninodes mkfs_sb) with 200; lia|by rewrite Ht|by rewrite Hn|].
  cbn zeta. by rewrite Ht.
Qed.

(** Opening the file by its name and reading it. *)
Lemma open_read_spec (s : fs T) n :
  shows s a → f_sb s = mkfs_sb → f_icache s = with_lock initsleeplock <$> replicate NINODE inhabitant →
  0 <= n < 2 ^ 31 →
  wp (r ← namei me 0 dr (SLASH :: strip arg);
      match r with
      | None => panic "open"
      | Some ip => ilock me ip;; readi dr ip 0 n
      end) (λ r _, r = (Z.min n (Z.of_nat (length (content host arg))),
        take (Z.to_nat n) (content host arg))) s.
Proof.
  intros R Hsb Hic Hn. pose proof image_fs_ok as F. pose proof file_walk as [Ew Hw]. pose proof file_node as Hnode.
  assert (R0 : ready mkfs_sb me a None s) by (split; [done|done|rewrite Hic; apply fresh_cache_ok]).
  apply wp_bind. unfold namei. apply wp_bind. eapply wp_mono.
  { apply (namex_spec mkfs_sb mkfs_geo me a dr F (room_empty v 5 ltac:(lia)) eq_refl 0 _ false _ s R0);
      try done. rewrite Hic. apply fresh_cache_room. }
  intros [r nm] s1 [R1 W]. unfold walked in W. cbn [a_view] in W.
  change (start_inum 0 (SLASH :: strip arg) s) with ROOTINO in W. rewrite Ew in W.
  destruct W as (ip & Er & E1 & C1 & _). cbn [fst] in Er. subst r. apply wp_ret, wp_bind.
  eapply wp_mono; [by apply (ilock_ready mkfs_sb mkfs_geo me a F (room_empty v 5 ltac:(lia)) eq_refl s1 ip _ _ _ R1 E1 Hnode C1)|].
  intros [] s2 (R2 & _ & x & Hx & Hr & Hi & Hdi). cbn [a_view] in Hdi.
  destruct (im_file _ _ _ I k arg Hk) as (Ht & _ & Hs & FD & Hsl).
  pose proof (lookup_lt_Some _ _ _ Hk). pose proof (ft_count _ _ Fi).
  rewrite (agree_inode _ v V) in Hdi by lia. set (d := disk_inode mkfs_sb (mk_view img) (2 + Z.of_nat k)) in *.
  assert (Ed : i_addrs x = di_addrs d ∧ i_size x = di_size d ∧ i_type x = di_type d) by (by rewrite <-Hdi).
  destruct Ed as (Ea & Es & Et). apply (agree_file _ v V) in FD.
  pose proof (gd_size _ _ (Forall_lookup_1 _ _ _ _ (ft_good _ _ Fi) Hk)) as Hmax.
  pose proof R2 as [Rs Rsb Rc]. change (MAXFILE * BSIZE) with 71680 in Hmax.
  eapply wp_mono; [apply (readi_spec mkfs_sb mkfs_geo dr s2 a ip x 0 n)|].
  - split; [done|done|done|done|by apply (co_dev _ _ _ _ _ Rc ip x)|by rewrite Ea; apply FD].
  - apply room_empty. lia.
  - done.
  - by rewrite Et, Ht.
  - rewrite Es, Hs. change (MAXFILE * BSIZE) with 71680. lia.
  - rewrite Ea, Es, Hs. apply dense_mapped; [apply FD|done].
  - rewrite Es, Hs. lia.
  - lia.
  - lia.
  - intros r s3 (-> & _). rewrite Ea, Es, Hs, Z.sub_0_r. f_equal. cbn [a_view].
    apply file_data_take; [done|change (MAXFILE * BSIZE) with 71680; lia|lia].
Qed.
End read.

Lemma wp_result {S A} (m : M S A) Q s x s' : wp m Q s → m s = Ret x s' → Q x s'.
Proof. unfold wp. by intros W E; rewrite E in W. Qed.

(** ** Properties *)

(** C10: The kernel reads back what mkfs wrote.  A disk that mkfs built
    boots; opening "/name" for a name of the command line finds the file,
    and reading [n] bytes from it returns the first [n] bytes of the
    contents that mkfs read on the host.  Names are those the directory can
    tell apart, and the directory does not end at a block boundary. *)
Theorem mkfs_kernel_reads me dr host args k arg m n :
  fits host args → root_size args mod BSIZE ≠ 0 →
  args !! k = Some arg → name_free args k (strip arg) → 0 <= n < 2 ^ 31 →
  Mkfs.main host args mkfs0 = Ret tt m →
  ∃ s', boot_read me dr (SLASH :: strip arg) n (fs_boot (disk_of (m_img m))) =
    Ret (Z.min n (Z.of_nat (length (content host arg))), take (Z.to_nat n) (content host arg)) s'.
Proof.
  intros Fi Hpart Hk Hname Hn Em. destruct (wp_result _ _ _ _ _ (main_image host args Fi) Em) as [_ I].
  assert (W : wp (boot_read me dr (SLASH :: strip arg) n) (λ r _,
    r = (Z.min n (Z.of_nat (length (content host arg))), take (Z.to_nat n) (content host arg)))
    (fs_boot (disk_of (m_img m)))).
  { unfold boot_read. apply wp_bind, wp_on_st. eapply wp_mono; [exact (boot_spec me host args _ I)|].
    intros [] t (v & SR & V). cbn [fs_boot f_sb f_icache]. apply wp_bind.
    eapply wp_mono; [apply (iinit_spec (BlockLayer0 := store_block_layer me) _ (AStore v ∅ ∅ mkfs_geo));
      [exact SR|done|done|apply room_empty; lia]|].
    intros [] s1 (R1 & Hsb & Hic). cbn [a_view] in Hsb. rewrite V, (im_super _ _ _ I) in Hsb by done.
    exact (open_read_spec (BlockLayer0 := store_block_layer me) me dr host args (m_img m) v Fi I V Hpart
      k arg Hk Hname s1 n R1 Hsb Hic Hn). }
  apply wp_elim in W as (r & s' & E & ->). exists s'. exact E.
Qed.

(** Two small files, given by one read each, and an empty one. *)
Definition demo_host (arg : list Z) : option (list (list Z)) :=
  Some (if decide (arg = [95; 97]) then [[104; 105]] else if decide (arg = [98]) then [[1]; [2; 3]] else []).
Definition demo_args : list (list Z) := [[95; 97]; [98]; [99]].

Lemma demo_fits : fits demo_host demo_args.
Proof.
  split; [|cbn; lia|vm_compute; discriminate].
  repeat (apply Forall_cons; split; [split; [vm_compute; intros H; repeat (apply elem_of_cons in H as [H|H];
    [discriminate H|]); by apply not_elem_of_nil in H| | | |]|]); [..|constructor].
  all: try (by eexists); try (vm_compute; discriminate);
    repeat constructor; vm_compute; try lia; discriminate.
Qed.

Lemma mkfs_builds_image_witness :
  ∃ m, Mkfs.main demo_host demo_args mkfs0 = Ret tt m ∧ mkfs_image demo_host demo_args (mk_view (m_img m)).
Proof.
  destruct (mkfs_builds_image demo_host demo_args demo_fits) as (m & E & _ & I).
  exists m. split; [exact E|exact I].
Defined.

Lemma mkfs_kernel_reads_witness :
  ∃ m s', Mkfs.main demo_host demo_args mkfs0 = Ret tt m ∧
  boot_read 1 (λ _, None) [47; 98] 10 (fs_boot (disk_of (m_img m))) = Ret (3, [1; 2; 3]) s'.
Proof.
  destruct (wp_returns _ _ _ (main_image _ _ demo_fits)) as (m & E & _).
  destruct (mkfs_kernel_reads 1 (λ _, None) demo_host demo_args 1 [98] m 10 demo_fits) as [s' Hs'].
  - vm_compute. discriminate.
  - reflexivity.
  - split.
    + split; [repeat constructor; discriminate|discriminate].
    + split; vm_compute; discriminate.
    + intros [|j] arg Hj Ha; [injection Ha as <-; vm_compute; discriminate|lia].
  - lia.
  - exact E.
  - exists m, s'. split; [exact E|exact Hs'].
Defined.

(** ** A directory that ends at a block boundary *)

(** Reading a directory as [ls] does: [fileread] has no transaction. *)
Definition boot_list (me : Z) (dr : Z → option (nat → Z → M (fs store) (Z * list Z))) (off : Z)
    : M (fs store) (Z * list Z) :=
  on_st (initlog me ROOTDEV);;
  iinit (BlockLayer0 := store_block_layer me) ROOTDEV;;
  ip ← iget ROOTDEV ROOTINO;
  ilock (BlockLayer0 := store_block_layer me) me ip;;
  readi (BlockLayer0 := store_block_layer me) dr ip off DIRENT_SIZE.

