(* ===== verification/File.v ===== *)
(** * file.c and pipealloc: the table of open files

    Open files over the file system (Fs.v), the pipes (Pipe.v) and the
    page allocator (Kalloc.v).  A [struct file] pointer is an index into
    [ftable.file]; a pipe is known by the address of its page.  Reading
    returns the bytes that the code stores at [addr], writing takes the
    bytes found there.  [me] and [killed] are those of the running
    process. *)

From S2P Require Import Prelude Layout BlockLayer Kalloc Pipe Fs.

Inductive ftype := FD_NONE | FD_PIPE | FD_INODE.

#[global] Instance ftype_eq_dec : EqDecision ftype.
Proof. solve_decision. Defined.

Record file := File {
  f_type : ftype; f_ref : Z; f_readable : Z; f_writable : Z;
  f_pipe : Z; f_ip : nat; f_off : Z }.

#[global] Instance file_inhabited : Inhabited file := populate (File FD_NONE 0 0 0 0 0 0).

Definition with_fref (r : Z) (f : file) : file :=
  File (f_type f) r (f_readable f) (f_writable f) (f_pipe f) (f_ip f) (f_off f).
Definition with_ftype (t : ftype) (f : file) : file :=
  File t (f_ref f) (f_readable f) (f_writable f) (f_pipe f) (f_ip f) (f_off f).
Definition with_off (o : Z) (f : file) : file :=
  File (f_type f) (f_ref f) (f_readable f) (f_writable f) (f_pipe f) (f_ip f) o.
Definition as_pipe (r w p : Z) (f : file) : file := File FD_PIPE (f_ref f) r w p (f_ip f) (f_off f).
Definition as_inode (ip : nat) (r w : Z) (f : file) : file := File FD_INODE (f_ref f) r w (f_pipe f) ip 0.

(** The transactions of log.c, as the file layer uses them. *)
Class TxLayer (T : Type) := { tx_begin : M T unit; tx_end : M T unit }.

Record kern (T : Type) := Kern {
  k_files : list file; k_pipes : gmap Z psys; k_kmem : kmem; k_fs : fs T }.
Arguments Kern {T}.
Arguments k_files {T}.
Arguments k_pipes {T}.
Arguments k_kmem {T}.
Arguments k_fs {T}.

Section file_code.
Context {T : Type} `{!BlockLayer T, !TxLayer T}.
Variables kend me : Z.
Variable killed : bool.
Variable devsw_read : Z → option (nat → Z → M (fs T) (Z * list Z)).
Variable devsw_write : Z → option (nat → list Z → M (fs T) Z).

Local Abbreviation F := (M (kern T)).

Definition on_fs {A} (m : M (fs T) A) : F A :=
  lift k_fs (λ x s, Kern (k_files s) (k_pipes s) (k_kmem s) x) m.
Definition on_kmem {A} (m : M kmem A) : F A :=
  lift k_kmem (λ x s, Kern (k_files s) (k_pipes s) x (k_fs s)) m.

Definition begin_op : F unit := on_fs (on_st tx_begin).
Definition end_op : F unit := on_fs (on_st tx_end).

Definition file_at (s : kern T) (f : nat) : file := k_files s !!! f.
Definition get_file (f : nat) : F file := gets (λ s, file_at s f).
Definition upd_file (f : nat) (g : file → file) : F unit :=
  modify (λ s, Kern (alter g f (k_files s)) (k_pipes s) (k_kmem s) (k_fs s)).

Definition set_pipes (g : gmap Z psys → gmap Z psys) : F unit :=
  modify (λ s, Kern (k_files s) (g (k_pipes s)) (k_kmem s) (k_fs s)).
Definition get_pipe (p : Z) : F psys :=
  gets (λ s, default (new_sys []) (k_pipes s !! p)).

(** The scan of [filealloc] from file [i] on. *)
Fixpoint filealloc_scan (l : list file) (i : nat) : option nat :=
  match l with
  | [] => None
  | f :: l' => if f_ref f =? 0 then Some i else filealloc_scan l' (S i)
  end.

Definition filealloc : F (option nat) :=
  l ← gets k_files;
  match filealloc_scan l 0 with
  | Some f => upd_file f (with_fref 1);; mret (Some f)
  | None => mret None
  end.

Definition filedup (f : nat) : F nat :=
  x ← get_file f;
  if f_ref x <? 1 then panic "filedup"
  else upd_file f (with_fref (f_ref x + 1));; mret f.

(** [pipeclose], and the page is freed when both ends are closed. *)
Definition close_pipe (p : Z) (writable : Z) : F unit :=
  s ← get_pipe p;
  let '(freed, s) := pipeclose (negb (writable =? 0)) s in
  set_pipes (if freed : bool then delete p else insert p s);;
  if freed : bool then on_kmem (kfree kend p) else mret tt.

Definition fileclose (f : nat) : F unit :=
  x ← get_file f;
  if f_ref x <? 1 then panic "fileclose"
  else
    upd_file f (with_fref (f_ref x - 1));;
    if f_ref x - 1 >? 0 then mret tt
    else
      ff ← get_file f;
      upd_file f (with_fref 0);;
      upd_file f (with_ftype FD_NONE);;
      match f_type ff with
      | FD_PIPE => close_pipe (f_pipe ff) (f_writable ff)
      | FD_INODE => begin_op;; on_fs (iput me (f_ip ff));; end_op
      | FD_NONE => mret tt
      end.

Definition filestat (f : nat) : F (option stat) :=
  x ← get_file f;
  match f_type x with
  | FD_INODE =>
    on_fs (ilock me (f_ip x));;
    st ← on_fs (stati (f_ip x));
    on_fs (iunlock me (f_ip x));;
    mret (Some st)
  | _ => mret None
  end.

(** Run [piperead] or [pipewrite] of the running process on the pipe; the
    outcome [Sleeps] when it has to wait. *)
Definition run_pipe {A} (p : Z) (op : psys → result A * psys) : F A := λ s,
  let '(r, x) := op (default (new_sys []) (k_pipes s !! p)) in
  let s := Kern (k_files s) (<[p := x]> (k_pipes s)) (k_kmem s) (k_fs s) in
  match r with Returned a => Ret a s | Asleep => Sleeps s end.

Definition fileread (f : nat) (n : Z) : F (Z * list Z) :=
  x ← get_file f;
  if f_readable x =? 0 then mret (-1, [])
  else match f_type x with
  | FD_PIPE => run_pipe (f_pipe x) (piperead (Z.to_nat me) killed n)
  | FD_INODE =>
    on_fs (ilock me (f_ip x));;
    r ← on_fs (readi devsw_read (f_ip x) (f_off x) (u32 n));
    (if r.1 >? 0 then upd_file f (with_off (u32 (f_off x + r.1))) else mret tt);;
    on_fs (iunlock me (f_ip x));;
    mret r
  | FD_NONE => panic "fileread"
  end.

Definition WRITE_MAX : Z := ((MAXOPBLOCKS - 1 - 1 - 2) / 2) * 512.

(** The loop of [filewrite]: [src] holds the bytes from [i] on, [n] the
    length of the whole request. *)
Fixpoint filewrite_loop (fuel : nat) (f : nat) (src : list Z) (n i : Z) : F Z :=
  match fuel with
  | O => diverge
  | S fuel' =>
    if negb (i <? n) then mret (if i =? n then n else -1)
    else
      let n1 := Z.min (n - i) WRITE_MAX in
      begin_op;;
      x ← get_file f;
      on_fs (ilock me (f_ip x));;
      r ← on_fs (writei devsw_write (f_ip x) (take (Z.to_nat n1) src) (f_off x));
      (if r >? 0 then upd_file f (with_off (u32 (f_off x + r))) else mret tt);;
      on_fs (iunlock me (f_ip x));;
      end_op;;
      if r <? 0 then mret (if i =? n then n else -1)
      else if negb (r =? n1) then panic "short filewrite"
      else filewrite_loop fuel' f (drop (Z.to_nat n1) src) n (i + r)
  end.

(** [filewrite(f, addr, n)], where [src] is the list of the bytes at
    [addr]; the system call checks that [n] is not negative. *)
Definition filewrite (f : nat) (src : list Z) : F Z :=
  let n := Z.of_nat (length src) in
  x ← get_file f;
  if f_writable x =? 0 then mret (-1)
  else match f_type x with
  | FD_PIPE => run_pipe (f_pipe x) (pipewrite (Z.to_nat me) killed n src)
  | FD_INODE => filewrite_loop (1 + length src) f src n 0
  | FD_NONE => panic "filewrite"
  end.

(** [pipealloc]: the files of the two ends.  The error exit frees what was
    allocated; the new pipe's page keeps its old bytes. *)
Definition pipealloc_bad (f0 f1 : option nat) : F (option (nat * nat)) :=
  (if f0 is Some f then fileclose f else mret tt);;
  (if f1 is Some f then fileclose f else mret tt);;
  mret None.

Definition pipealloc (junk : list Z) : F (option (nat * nat)) :=
  f0 ← filealloc;
  match f0 with
  | None => pipealloc_bad None None
  | Some a =>
    f1 ← filealloc;
    match f1 with
    | None => pipealloc_bad f0 None
    | Some b =>
      p ← on_kmem kalloc;
      if p =? 0 then pipealloc_bad f0 f1
      else
        set_pipes (insert p (new_sys junk));;
        upd_file a (as_pipe 1 0 p);;
        upd_file b (as_pipe 0 1 p);;
        mret (Some (a, b))
    end
  end.
End file_code.
