(* ===== verification/Proc.v ===== *)
(** * proc.c: processes

    The process table over the components a process uses: open files,
    file system and page allocator (File.v) and page tables (Vm.v).  A
    [struct proc] pointer is an index into [ptable.proc]; [cur] is
    [myproc()].  Trap frames and contexts are the words in memory that the
    code writes.  Regions under [ptable.lock] are single steps; a routine
    that enters the scheduler ends with the outcome [Sleeps] and the state
    it left, the code after [sched()] is a routine of its own. *)

From S2P Require Import Prelude Str Layout Mmu BlockLayer Kalloc Vm Pipe Fs File.


Inductive procstate := UNUSED | EMBRYO | SLEEPING | RUNNABLE | RUNNING | ZOMBIE.

#[global] Instance procstate_eq_dec : EqDecision procstate.
Proof. solve_decision. Defined.

(** What a process can sleep on: a process (in [wait]) or another address. *)
Inductive pchan := ChanProc (p : nat) | ChanAddr (a : Z).

#[global] Instance pchan_eq_dec : EqDecision pchan.
Proof. solve_decision. Defined.

Record proc := Proc {
  p_sz : Z; p_pgdir : Z; p_kstack : Z; p_state : procstate; p_pid : Z;
  p_parent : option nat; p_tf : Z; p_context : Z; p_chan : option pchan;
  p_killed : Z; p_ofile : list (option nat); p_cwd : option nat; p_name : list Z }.

Definition proc0 : proc :=
  Proc 0 0 0 UNUSED 0 None 0 0 None 0 (replicate NOFILE None) None (replicate 16 0).
#[global] Instance proc_inhabited : Inhabited proc := populate proc0.

Definition set_sz (v : Z) (p : proc) : proc :=
  Proc v (p_pgdir p) (p_kstack p) (p_state p) (p_pid p) (p_parent p) (p_tf p) (p_context p)
    (p_chan p) (p_killed p) (p_ofile p) (p_cwd p) (p_name p).
Definition set_pgdir (v : Z) (p : proc) : proc :=
  Proc (p_sz p) v (p_kstack p) (p_state p) (p_pid p) (p_parent p) (p_tf p) (p_context p)
    (p_chan p) (p_killed p) (p_ofile p) (p_cwd p) (p_name p).
Definition set_kstack (v : Z) (p : proc) : proc :=
  Proc (p_sz p) (p_pgdir p) v (p_state p) (p_pid p) (p_parent p) (p_tf p) (p_context p)
    (p_chan p) (p_killed p) (p_ofile p) (p_cwd p) (p_name p).
Definition set_state (v : procstate) (p : proc) : proc :=
  Proc (p_sz p) (p_pgdir p) (p_kstack p) v (p_pid p) (p_parent p) (p_tf p) (p_context p)
    (p_chan p) (p_killed p) (p_ofile p) (p_cwd p) (p_name p).
Definition set_pid (v : Z) (p : proc) : proc :=
  Proc (p_sz p) (p_pgdir p) (p_kstack p) (p_state p) v (p_parent p) (p_tf p) (p_context p)
    (p_chan p) (p_killed p) (p_ofile p) (p_cwd p) (p_name p).
Definition set_parent (v : option nat) (p : proc) : proc :=
  Proc (p_sz p) (p_pgdir p) (p_kstack p) (p_state p) (p_pid p) v (p_tf p) (p_context p)
    (p_chan p) (p_killed p) (p_ofile p) (p_cwd p) (p_name p).
Definition set_frames (tf ctx : Z) (p : proc) : proc :=
  Proc (p_sz p) (p_pgdir p) (p_kstack p) (p_state p) (p_pid p) (p_parent p) tf ctx
    (p_chan p) (p_killed p) (p_ofile p) (p_cwd p) (p_name p).
Definition set_chan (v : option pchan) (p : proc) : proc :=
  Proc (p_sz p) (p_pgdir p) (p_kstack p) (p_state p) (p_pid p) (p_parent p) (p_tf p) (p_context p)
    v (p_killed p) (p_ofile p) (p_cwd p) (p_name p).
Definition set_killed (v : Z) (p : proc) : proc :=
  Proc (p_sz p) (p_pgdir p) (p_kstack p) (p_state p) (p_pid p) (p_parent p) (p_tf p) (p_context p)
    (p_chan p) v (p_ofile p) (p_cwd p) (p_name p).
Definition set_ofile (v : list (option nat)) (p : proc) : proc :=
  Proc (p_sz p) (p_pgdir p) (p_kstack p) (p_state p) (p_pid p) (p_parent p) (p_tf p) (p_context p)
    (p_chan p) (p_killed p) v (p_cwd p) (p_name p).
Definition set_cwd (v : option nat) (p : proc) : proc :=
  Proc (p_sz p) (p_pgdir p) (p_kstack p) (p_state p) (p_pid p) (p_parent p) (p_tf p) (p_context p)
    (p_chan p) (p_killed p) (p_ofile p) v (p_name p).
Definition set_name (v : list Z) (p : proc) : proc :=
  Proc (p_sz p) (p_pgdir p) (p_kstack p) (p_state p) (p_pid p) (p_parent p) (p_tf p) (p_context p)
    (p_chan p) (p_killed p) (p_ofile p) (p_cwd p) v.

(** Sizes and offsets of struct trapframe and struct context. *)
Definition TF_SIZE : Z := 76.
Definition TF_EAX : Z := 28.
Definition TF_ES : Z := 40.
Definition TF_DS : Z := 44.
Definition TF_EIP : Z := 56.
Definition TF_CS : Z := 60.
Definition TF_EFLAGS : Z := 64.
Definition TF_ESP : Z := 68.
Definition TF_SS : Z := 72.
Definition CONTEXT_SIZE : Z := 20.
Definition CONTEXT_EIP : Z := 16.

(** [safestrcpy] into a [name] field, on the field's bytes. *)
Definition copy_name (old src : list Z) : list Z :=
  let m := safestrcpy (λ a, if a <? 16 then rd old a else rd src (a - 16)) 0 16 16 in
  m <$> seqZ 0 16.

Record kernel (T : Type) := Kernel {
  kn : kern T; ptab : list proc; nextpid : Z; initproc : option nat; ticks : Z;
  cr3 : Z; tss_esp0 : Z }.
Arguments Kernel {T}.
Arguments kn {T}.
Arguments ptab {T}.
Arguments nextpid {T}.
Arguments initproc {T}.
Arguments ticks {T}.
Arguments cr3 {T}.
Arguments tss_esp0 {T}.

Section proc_code.
Context {T : Type} `{!BlockLayer T, !TxLayer T}.
Variables kend data forkret trapret : Z.
Variable cur : nat.

Local Abbreviation P := (M (kernel T)).

Definition on_kern {A} (m : M (kern T) A) : P A :=
  lift kn (λ x s, Kernel x (ptab s) (nextpid s) (initproc s) (ticks s) (cr3 s) (tss_esp0 s)) m.
Definition on_mem {A} (m : M kmem A) : P A := on_kern (on_kmem m).

Definition proc_at (s : kernel T) (p : nat) : proc := ptab s !!! p.
Definition get_proc (p : nat) : P proc := gets (λ s, proc_at s p).
Definition set_ptab (f : list proc → list proc) : P unit :=
  modify (λ s, Kernel (kn s) (f (ptab s)) (nextpid s) (initproc s) (ticks s) (cr3 s) (tss_esp0 s)).
Definition upd_proc (p : nat) (f : proc → proc) : P unit := set_ptab (alter f p).

(** The scan of [allocproc]. *)
Fixpoint find_unused (l : list proc) (i : nat) : option nat :=
  match l with
  | [] => None
  | p :: l' => if decide (p_state p = UNUSED) then Some i else find_unused l' (S i)
  end.

Definition allocproc : P (option nat) :=
  l ← gets ptab;
  match find_unused l 0 with
  | None => mret None
  | Some p =>
    pid ← gets nextpid;
    upd_proc p (set_state EMBRYO);;
    upd_proc p (set_pid pid);;
    modify (λ s, Kernel (kn s) (ptab s) (s32 (nextpid s + 1)) (initproc s) (ticks s) (cr3 s) (tss_esp0 s));;
    kstack ← on_mem kalloc;
    upd_proc p (set_kstack kstack);;
    if kstack =? 0 then upd_proc p (set_state UNUSED);; mret None
    else
      let tf := kstack + KSTACKSIZE - TF_SIZE in
      let ret := tf - 4 in
      let context := ret - CONTEXT_SIZE in
      upd_proc p (set_frames tf context);;
      on_mem (kstore ret trapret);;
      on_mem (with_mem (λ m, memset m context 0 CONTEXT_SIZE));;
      on_mem (kstore (context + CONTEXT_EIP) forkret);;
      mret (Some p)
  end.

(** [switchuvm]: the page table and the kernel stack in the task state; the
    descriptor of the task state segment and its other fields are left out. *)
Definition switchuvm (p : nat) : P unit :=
  x ← get_proc p;
  if p_kstack x =? 0 then panic "switchuvm: no kstack"
  else if p_pgdir x =? 0 then panic "switchuvm: no pgdir"
  else modify (λ s, Kernel (kn s) (ptab s) (nextpid s) (initproc s) (ticks s)
                      (V2P (p_pgdir x)) (p_kstack x + KSTACKSIZE)).

Definition SEG_UCODE : Z := 3.
Definition SEG_UDATA : Z := 4.
Definition DPL_USER : Z := 3.
Definition FL_IF : Z := 0x200.

(** A 16-bit store into memory, for the segment registers of the frame. *)
Definition store_half (a w : Z) : P unit :=
  on_mem (with_mem (λ m, upd (upd m a (u8 w)) (a + 1) (u8 (Z.shiftr w 8)))).
Definition load_half (m : mem) (a : Z) : Z := m a + 256 * m (a + 1).

(** [userinit]; the first program is at [initcode], [initsize] bytes long.
    No process is running, and the path is absolute. *)
Definition userinit (initcode initsize : Z) : P unit :=
  r ← allocproc;
  match r with
  | None => panic "page fault"
  | Some p =>
    modify (λ s, Kernel (kn s) (ptab s) (nextpid s) (Some p) (ticks s) (cr3 s) (tss_esp0 s));;
    pgdir ← on_mem (setupkvm kend data);
    upd_proc p (set_pgdir pgdir);;
    if pgdir =? 0 then panic "userinit: out of memory?"
    else
      on_mem (inituvm pgdir initcode initsize);;
      upd_proc p (set_sz PGSIZE);;
      x ← get_proc p;
      let tf := p_tf x in
      on_mem (with_mem (λ m, memset m tf 0 TF_SIZE));;
      store_half (tf + TF_CS) (Z.lor (Z.shiftl SEG_UCODE 3) DPL_USER);;
      store_half (tf + TF_DS) (Z.lor (Z.shiftl SEG_UDATA 3) DPL_USER);;
      ds ← on_mem (gets (λ k, load_half (k_mem k) (tf + TF_DS)));
      store_half (tf + TF_ES) ds;;
      store_half (tf + TF_SS) ds;;
      on_mem (kstore (tf + TF_EFLAGS) FL_IF);;
      on_mem (kstore (tf + TF_ESP) PGSIZE);;
      on_mem (kstore (tf + TF_EIP) 0);;
      upd_proc p (λ x, set_name (copy_name (p_name x) [105; 110; 105; 116; 99; 111; 100; 101]) x);;
      cwd ← on_kern (on_fs (namei 0 0 (λ _, None) [SLASH]));
      upd_proc p (set_cwd cwd);;
      upd_proc p (set_state RUNNABLE)
  end.
Definition growproc (n : Z) : P Z :=
  x ← get_proc cur;
  let sz := p_sz x in
  r ← (if n >? 0 then on_mem (allocuvm kend (p_pgdir x) sz (u32 (sz + n)))
       else if n <? 0 then on_mem (deallocuvm kend (p_pgdir x) sz (u32 (sz + n)))
       else mret sz);
  if negb (n =? 0) && (r =? 0) then mret (-1)
  else
    upd_proc cur (set_sz r);;
    switchuvm cur;;
    mret 0.

(** The loop of [fork] over the open files [l] of the parent, from
    descriptor [i] on. *)
Fixpoint fork_files (np : nat) (l : list (option nat)) (i : nat) : P unit :=
  match l with
  | [] => mret tt
  | None :: l' => fork_files np l' (S i)
  | Some f :: l' =>
    g ← on_kern (filedup f);
    upd_proc np (λ x, set_ofile (<[i := Some g]> (p_ofile x)) x);;
    fork_files np l' (S i)
  end.

Definition fork : P Z :=
  r ← allocproc;
  match r with
  | None => mret (-1)
  | Some np =>
    c ← get_proc cur;
    pgdir ← on_mem (copyuvm kend data (p_pgdir c) (p_sz c));
    upd_proc np (set_pgdir pgdir);;
    if pgdir =? 0 then
      x ← get_proc np;
      on_mem (kfree kend (p_kstack x));;
      upd_proc np (set_kstack 0);;
      upd_proc np (set_state UNUSED);;
      mret (-1)
    else
      upd_proc np (set_sz (p_sz c));;
      upd_proc np (set_parent (Some cur));;
      x ← get_proc np;
      on_mem (with_mem (λ m, memmove m (p_tf x) (p_tf c) TF_SIZE));;
      on_mem (kstore (p_tf x + TF_EAX) 0);;
      fork_files np (p_ofile c) 0;;
      cwd ← (match p_cwd c with
             | Some ip => r ← on_kern (on_fs (idup ip)); mret (Some r)
             | None => panic "page fault"
             end);
      upd_proc np (set_cwd cwd);;
      upd_proc np (λ x, set_name (copy_name (p_name x) (p_name c)) x);;
      x ← get_proc np;
      upd_proc np (set_state RUNNABLE);;
      mret (p_pid x)
  end.

Definition wake (c : pchan) (p : proc) : proc :=
  if decide (p_state p = SLEEPING ∧ p_chan p = Some c) then set_state RUNNABLE p else p.

Definition wakeup1 (c : pchan) : P unit := set_ptab (fmap (wake c)).
Definition wakeup (c : pchan) : P unit := wakeup1 c.

(** [sched]: the process has given up the CPU; control comes back when
    the scheduler runs it. *)
Definition sched : P unit :=
  x ← get_proc cur;
  if decide (p_state x = RUNNING) then panic "sched running" else sleeps.

Definition yield : P unit :=
  upd_proc cur (set_state RUNNABLE);;
  sched.

(** [sleep] up to [sched()], and the rest of it. *)
Definition sleep (c : pchan) : P unit :=
  upd_proc cur (set_chan (Some c));;
  upd_proc cur (set_state SLEEPING);;
  sched.
Definition sleep_return : P unit := upd_proc cur (set_chan None).

(** [exit] closes the files and the directory, ... *)
Fixpoint exit_files (n fd : nat) : P unit :=
  match n with
  | O => mret tt
  | S n' =>
    x ← get_proc cur;
    match p_ofile x !!! fd with
    | Some f =>
      on_kern (fileclose kend (p_pid x) f);;
      upd_proc cur (λ x, set_ofile (<[fd := None]> (p_ofile x)) x)
    | None => mret tt
    end;;
    exit_files n' (S fd)
  end.

Definition exit_cwd : P unit :=
  x ← get_proc cur;
  on_kern begin_op;;
  (match p_cwd x with
   | Some ip => on_kern (on_fs (iput (p_pid x) ip))
   | None => panic "page fault"
   end);;
  on_kern end_op;;
  upd_proc cur (set_cwd None).

(** ... then passes the children to [initproc], entry by entry from [i]
    on, ... *)
Fixpoint reparent (n i : nat) : P unit :=
  match n with
  | O => mret tt
  | S n' =>
    x ← get_proc i;
    (if decide (p_parent x = Some cur) then
       ip ← gets initproc;
       upd_proc i (set_parent ip);;
       if decide (p_state x = ZOMBIE) then
         match ip with Some q => wakeup1 (ChanProc q) | None => mret tt end
       else mret tt
     else mret tt);;
    reparent n' (S i)
  end.

(** ... and becomes a zombie, all under [ptable.lock]. *)
Definition exit_table : P unit :=
  x ← get_proc cur;
  (match p_parent x with Some q => wakeup1 (ChanProc q) | None => mret tt end);;
  reparent NPROC 0;;
  upd_proc cur (set_state ZOMBIE);;
  sched.

Definition exit : P unit :=
  ip ← gets initproc;
  if decide (ip = Some cur) then panic "init exiting"
  else
    exit_files NOFILE 0;;
    exit_cwd;;
    exit_table;;
    panic "zombie exit".

(** The scan of [wait]: the first exited child, and whether there is a
    child before it. *)
Fixpoint wait_scan (l : list proc) (i : nat) (havekids : bool) : option nat * bool :=
  match l with
  | [] => (None, havekids)
  | p :: l' =>
    if decide (p_parent p = Some cur) then
      if decide (p_state p = ZOMBIE) then (Some i, true) else wait_scan l' (S i) true
    else wait_scan l' (S i) havekids
  end.

(** [wait], entered or woken up. *)
Definition wait : P Z :=
  l ← gets ptab;
  match wait_scan l 0 false with
  | (Some p, _) =>
    x ← get_proc p;
    on_mem (kfree kend (p_kstack x));;
    upd_proc p (set_kstack 0);;
    on_mem (freevm kend (p_pgdir x));;
    upd_proc p (set_pid 0);;
    upd_proc p (set_parent None);;
    upd_proc p (λ x, set_name (<[0%nat := 0]> (p_name x)) x);;
    upd_proc p (set_killed 0);;
    upd_proc p (set_state UNUSED);;
    mret (p_pid x)
  | (None, havekids) =>
    c ← get_proc cur;
    if negb havekids || negb (p_killed c =? 0) then mret (-1)
    else sleep (ChanProc cur);; mret 0
  end.

(** One step of [scheduler]'s loop at table index [i]: the process to run
    and the index the loop goes on with.  [None] when none is run. *)
Definition sched_step (l : list proc) (i : nat) : option nat * nat :=
  match l !! i with
  | Some p => (if decide (p_state p = RUNNABLE) then Some i else None, S i)
  | None => (None, 0%nat)
  end.

(** What [scheduler] does to run process [p]. *)
Definition dispatch (p : nat) : P unit :=
  switchuvm p;;
  upd_proc p (set_state RUNNING).

(** The scan of [kill]. *)
Fixpoint kill_scan (pid : Z) (l : list proc) (i : nat) : option nat :=
  match l with
  | [] => None
  | p :: l' => if p_pid p =? pid then Some i else kill_scan pid l' (S i)
  end.

Definition kill (pid : Z) : P Z :=
  l ← gets ptab;
  match kill_scan pid l 0 with
  | Some p =>
    upd_proc p (set_killed 1);;
    x ← get_proc p;
    (if decide (p_state x = SLEEPING) then upd_proc p (set_state RUNNABLE) else mret tt);;
    mret 0
  | None => mret (-1)
  end.
End proc_code.
