(* ===== verification/ProcSpec.v ===== *)
(** * The process table

    The life cycle of processes as a transition system: fork, exit, wait,
    kill, sleep, wakeup, yield and the scheduler, in any order.  The
    invariant of the table says that process numbers are unique, that
    every process but the first has a living parent, and that no wakeup of
    [wait] is lost. *)

From S2P Require Import Prelude Str Layout Mmu BlockLayer Kalloc Vm Pipe Fs File Proc.

(** What the invariant is about. *)
Record pinfo := PInfo { i_state : procstate; i_pid : Z; i_parent : option nat; i_chan : option pchan }.

Definition info (p : proc) : pinfo := PInfo (p_state p) (p_pid p) (p_parent p) (p_chan p).

Definition alive (x : pinfo) : Prop := i_state x ≠ UNUSED ∧ i_state x ≠ ZOMBIE.

Record table_ok (l : list pinfo) (next : Z) (init : option nat) : Prop := {
  to_len : length l = NPROC;
  to_embryo i x : l !! i = Some x → i_state x ≠ EMBRYO;
  to_pid i x : l !! i = Some x → i_state x ≠ UNUSED → 0 < i_pid x < next;
  to_pids i j x y : l !! i = Some x → l !! j = Some y → i_state x ≠ UNUSED → i_state y ≠ UNUSED →
    i_pid x = i_pid y → i = j;
  to_unused i x : l !! i = Some x → i_state x = UNUSED → i_parent x = None;
  to_self i x : l !! i = Some x → i_parent x ≠ Some i;
  to_parent i x : l !! i = Some x → i_state x ≠ UNUSED → init ≠ Some i →
    ∃ j y, i_parent x = Some j ∧ l !! j = Some y ∧ alive y;
  to_init : ∃ i x, init = Some i ∧ l !! i = Some x ∧ alive x ∧ i_parent x = None;
  to_wait i x : l !! i = Some x → i_state x = SLEEPING → i_chan x = Some (ChanProc i) →
    ∀ j y, l !! j = Some y → i_parent y = Some i → i_state y ≠ ZOMBIE;
  to_next : 0 < next }.

(** ** Changes of state that keep the invariant *)

(** Entry [i] changes from [x] to [x'] as long as the process lives, and
    does not fall asleep in [wait]. *)
Record mild (i : nat) (x x' : pinfo) : Prop := {
  mi_pid : i_pid x' = i_pid x;
  mi_parent : i_parent x' = i_parent x;
  mi_state : i_state x' = i_state x ∨ (alive x ∧ alive x' ∧ i_state x' ≠ EMBRYO);
  mi_wait : i_state x' = SLEEPING → i_chan x' = Some (ChanProc i) →
    i_state x = SLEEPING ∧ i_chan x = Some (ChanProc i) }.

Definition mildly (l l' : list pinfo) : Prop :=
  length l' = length l ∧ ∀ i x, l !! i = Some x → ∃ x', l' !! i = Some x' ∧ mild i x x'.

Lemma mildly_back l l' i x' :
  mildly l l' → l' !! i = Some x' → ∃ x, l !! i = Some x ∧ mild i x x'.
Proof.
  intros [Hlen H] Hi. destruct (lookup_lt_is_Some_2 l i) as [x Hx].
  { rewrite <-Hlen. by eapply lookup_lt_Some. }
  destruct (H i x Hx) as (x'' & Hx'' & Hm). exists x. rewrite Hi in Hx''. by injection Hx'' as <-.
Qed.

Lemma mild_unused i x x' : mild i x x' → i_state x' = UNUSED ↔ i_state x = UNUSED.
Proof. intros [_ _ [->|((? & ?) & (? & ?) & _)] _]; tauto. Qed.

Lemma mild_zombie i x x' : mild i x x' → i_state x' = ZOMBIE ↔ i_state x = ZOMBIE.
Proof. intros [_ _ [->|((? & ?) & (? & ?) & _)] _]; tauto. Qed.

Lemma mild_alive i x x' : mild i x x' → alive x' ↔ alive x.
Proof. intros Hm. unfold alive. by rewrite (mild_unused i x x'), (mild_zombie i x x'). Qed.

Lemma mild_refl i x : mild i x x.
Proof. split; auto. Qed.

Lemma mildly_ok l l' next init : mildly l l' → table_ok l next init → table_ok l' next init.
Proof.
  intros Hm Hok. assert (Hb := mildly_back l l'). destruct Hm as [Hlen Hf].
  split.
  - rewrite Hlen. apply Hok.
  - intros i x' Hx'. destruct (Hb i x') as (x & Hx & Hm); [done..|].
    destruct (mi_state _ _ _ Hm) as [->|(_ & _ & ?)]; [by eapply Hok|done].
  - intros i x' Hx'. destruct (Hb i x') as (x & Hx & Hm); [done..|].
    rewrite (mi_pid _ _ _ Hm), (mild_unused _ _ _ Hm). by eapply Hok.
  - intros i j x' y' Hx' Hy'. destruct (Hb i x') as (x & Hx & Hm); [done..|].
    destruct (Hb j y') as (y & Hy & Hn); [done..|].
    rewrite (mi_pid _ _ _ Hm), (mild_unused _ _ _ Hm), (mi_pid _ _ _ Hn), (mild_unused _ _ _ Hn). by eapply Hok.
  - intros i x' Hx'. destruct (Hb i x') as (x & Hx & Hm); [done..|].
    rewrite (mi_parent _ _ _ Hm), (mild_unused _ _ _ Hm). by eapply Hok.
  - intros i x' Hx'. destruct (Hb i x') as (x & Hx & Hm); [done..|].
    rewrite (mi_parent _ _ _ Hm). by eapply Hok.
  - intros i x' Hx' Hu Hi. destruct (Hb i x') as (x & Hx & Hm); [done..|].
    rewrite (mild_unused _ _ _ Hm) in Hu. destruct (to_parent _ _ _ Hok i x Hx Hu Hi) as (j & y & Hp & Hy & Ha).
    destruct (Hf j y Hy) as (y' & Hy' & Hn). exists j, y'.
    by rewrite (mi_parent _ _ _ Hm), (mild_alive _ _ _ Hn).
  - destruct (to_init _ _ _ Hok) as (i & x & Hi & Hx & Ha & Hp). destruct (Hf i x Hx) as (x' & Hx' & Hm).
    exists i, x'. by rewrite (mild_alive _ _ _ Hm), (mi_parent _ _ _ Hm).
  - intros i x' Hx' Hs Hc j y' Hy'. destruct (Hb i x') as (x & Hx & Hm); [done..|].
    destruct (Hb j y') as (y & Hy & Hn); [done..|]. destruct (mi_wait _ _ _ Hm Hs Hc).
    rewrite (mi_parent _ _ _ Hn), (mild_zombie _ _ _ Hn). by eapply Hok.
  - apply Hok.
Qed.

Lemma mildly_insert l i x x' : l !! i = Some x → mild i x x' → mildly l (<[i := x']> l).
Proof.
  intros Hx Hm. split; [by rewrite length_insert|]. intros j y Hy. destruct (decide (i = j)) as [<-|Hne].
  - exists x'. rewrite list_lookup_insert_eq by (by eapply lookup_lt_Some). by simplify_eq.
  - exists y. rewrite list_lookup_insert_ne by done. split; [done|apply mild_refl].
Qed.

(** ** Creation and reaping *)

(** An unused slot stays unused. *)
Lemma unused_ok l next next' init i x x' :
  l !! i = Some x → i_state x = UNUSED → i_state x' = UNUSED → i_parent x' = None → next <= next' →
  table_ok l next init → table_ok (<[i := x']> l) next' init.
Proof.
  intros Hi Hx Hu Hp Hn Hok. assert (Hlt : (i < length l)%nat) by (by eapply lookup_lt_Some).
  assert (Hl : ∀ j y, <[i := x']> l !! j = Some y → (j = i ∧ y = x') ∨ l !! j = Some y).
  { intros j y [(-> & <- & _)|(_ & ?)]%list_lookup_insert_Some; auto. }
  assert (Hk : ∀ j y, l !! j = Some y → i_state y ≠ UNUSED → <[i := x']> l !! j = Some y).
  { intros j y Hy ?. rewrite list_lookup_insert_ne; [done|]. intros ->. congruence. }
  split.
  - rewrite length_insert. apply Hok.
  - intros j y [[-> ->]|Hy]%Hl; [congruence|by eapply Hok].
  - intros j y [[-> ->]|Hy]%Hl ?; [done|]. pose proof (to_pid _ _ _ Hok j y Hy). lia || naive_solver lia.
  - intros j k y z [[-> ->]|Hy]%Hl [[-> ->]|Hz]%Hl ? ?; try done. by eapply Hok.
  - intros j y [[-> ->]|Hy]%Hl; [done|by eapply Hok].
  - intros j y [[-> ->]|Hy]%Hl; [congruence|by eapply Hok].
  - intros j y [[-> ->]|Hy]%Hl Hj Hne; [done|].
    destruct (to_parent _ _ _ Hok j y Hy Hj Hne) as (k & z & ? & Hz & Ha). exists k, z.
    split_and!; [done|apply Hk; [done|apply Ha]|done..].
  - destruct (to_init _ _ _ Hok) as (j & y & ? & Hy & Ha & ?). exists j, y.
    split_and!; [done|apply Hk; [done|apply Ha]|done..].
  - intros j y [[-> ->]|Hy]%Hl Hs Hc k z [[-> ->]|Hz]%Hl; try congruence. by eapply Hok.
  - pose proof (to_next _ _ _ Hok). lia.
Qed.

(** An exited process is reaped: it has no children. *)
Lemma reap_ok l next init i x x' :
  l !! i = Some x → i_state x = ZOMBIE → i_state x' = UNUSED → i_parent x' = None →
  table_ok l next init → table_ok (<[i := x']> l) next init.
Proof.
  intros Hi Hx Hu Hp Hok.
  assert (Hl : ∀ j y, <[i := x']> l !! j = Some y → (j = i ∧ y = x') ∨ l !! j = Some y).
  { intros j y [(-> & <- & _)|(_ & ?)]%list_lookup_insert_Some; auto. }
  assert (Hk : ∀ j y, l !! j = Some y → alive y → <[i := x']> l !! j = Some y).
  { intros j y Hy [_ Hz]. rewrite list_lookup_insert_ne; [done|]. intros ->. congruence. }
  split.
  - rewrite length_insert. apply Hok.
  - intros j y [[-> ->]|Hy]%Hl; [congruence|by eapply Hok].
  - intros j y [[-> ->]|Hy]%Hl ?; [done|]. by eapply Hok.
  - intros j k y z [[-> ->]|Hy]%Hl [[-> ->]|Hz]%Hl ? ?; try done. by eapply Hok.
  - intros j y [[-> ->]|Hy]%Hl; [done|by eapply Hok].
  - intros j y [[-> ->]|Hy]%Hl; [congruence|by eapply Hok].
  - intros j y [[-> ->]|Hy]%Hl Hj Hne; [done|].
    destruct (to_parent _ _ _ Hok j y Hy Hj Hne) as (k & z & ? & Hz & Ha). exists k, z. auto.
  - destruct (to_init _ _ _ Hok) as (j & y & ? & Hy & Ha & ?). exists j, y. auto.
  - intros j y [[-> ->]|Hy]%Hl Hs Hc k z [[-> ->]|Hz]%Hl; try congruence. by eapply Hok.
  - apply Hok.
Qed.

(** A child of the running process [cur] takes an unused slot. *)
Lemma child_ok l next next' init i x x' cur c :
  l !! i = Some x → i_state x = UNUSED → l !! cur = Some c → i_state c = RUNNING →
  i_state x' = RUNNABLE → i_pid x' = next → i_parent x' = Some cur → next < next' →
  table_ok l next init → table_ok (<[i := x']> l) next' init.
Proof.
  intros Hi Hx Hc Hrun Hs' Hpid Hpar Hn Hok. assert (Hne : i ≠ cur) by congruence.
  assert (Hl : ∀ j y, <[i := x']> l !! j = Some y → (j = i ∧ y = x') ∨ (j ≠ i ∧ l !! j = Some y)).
  { intros j y [(-> & <- & _)|(? & ?)]%list_lookup_insert_Some; auto. }
  assert (Hk : ∀ j y, l !! j = Some y → i_state y ≠ UNUSED → <[i := x']> l !! j = Some y).
  { intros j y Hy ?. rewrite list_lookup_insert_ne; [done|]. intros ->. congruence. }
  assert (Hlt : ∀ j y, l !! j = Some y → i_state y ≠ UNUSED → i_pid y < next).
  { intros j y Hy Hu. by apply (to_pid _ _ _ Hok j y). }
  pose proof (to_next _ _ _ Hok) as Hnext. split.
  - rewrite length_insert. apply Hok.
  - intros j y [[-> ->]|[_ Hy]]%Hl; [congruence|by eapply Hok].
  - intros j y [[-> ->]|[_ Hy]]%Hl ?; [lia|]. pose proof (to_pid _ _ _ Hok j y Hy H). lia.
  - intros j k y z [[-> ->]|[_ Hy]]%Hl [[-> ->]|[_ Hz]]%Hl Hu1 Hu2 E; try done.
    + pose proof (Hlt k z Hz Hu2). lia.
    + pose proof (Hlt j y Hy Hu1). lia.
    + by eapply Hok.
  - intros j y [[-> ->]|[_ Hy]]%Hl; [congruence|by eapply Hok].
  - intros j y [[-> ->]|[_ Hy]]%Hl; [congruence|by eapply Hok].
  - intros j y [[-> ->]|[_ Hy]]%Hl Hj Hni.
    + exists cur, c. rewrite list_lookup_insert_ne by done. split_and!; [done|done|]. split; congruence.
    + destruct (to_parent _ _ _ Hok j y Hy Hj Hni) as (k & z & ? & Hz & Ha). exists k, z.
      split_and!; [done|apply Hk; [done|apply Ha]|done..].
  - destruct (to_init _ _ _ Hok) as (j & y & ? & Hy & Ha & ?). exists j, y.
    split_and!; [done|apply Hk; [done|apply Ha]|done..].
  - intros j y [[-> ->]|[_ Hy]]%Hl Hs Hch k z [[-> ->]|[_ Hz]]%Hl; try congruence. by eapply Hok.
  - lia.
Qed.

(** The running process falls asleep in [wait]; no child has exited. *)
Lemma sleep_wait_ok l next init cur c :
  l !! cur = Some c → i_state c = RUNNING →
  (∀ j y, l !! j = Some y → i_parent y = Some cur → i_state y ≠ ZOMBIE) →
  table_ok l next init →
  table_ok (<[cur := PInfo SLEEPING (i_pid c) (i_parent c) (Some (ChanProc cur))]> l) next init.
Proof.
  intros Hc Hrun Hz Hok. set (x' := PInfo _ _ _ _).
  assert (Hl : ∀ j y, <[cur := x']> l !! j = Some y → ∃ y0, l !! j = Some y0 ∧ i_pid y = i_pid y0 ∧
    i_parent y = i_parent y0 ∧ (alive y ↔ alive y0) ∧ (i_state y = UNUSED ↔ i_state y0 = UNUSED) ∧
    (i_state y = ZOMBIE ↔ i_state y0 = ZOMBIE) ∧ i_state y ≠ EMBRYO ∧ (y = y0 ∨ j = cur)).
  { intros j y [(-> & <- & _)|(_ & Hy)]%list_lookup_insert_Some.
    - exists c. unfold alive. rewrite Hrun. cbn. split_and!; try done; auto.
    - exists y. split_and!; try done; auto. by apply (to_embryo _ _ _ Hok j). }
  assert (Hk : ∀ j y, l !! j = Some y → ∃ y', <[cur := x']> l !! j = Some y' ∧ i_parent y' = i_parent y ∧ (alive y → alive y')).
  { intros j y Hy. destruct (decide (j = cur)) as [->|?].
    - exists x'. rewrite list_lookup_insert_eq by (by eapply lookup_lt_Some). simplify_eq. split_and!; try done.
    - exists y. by rewrite list_lookup_insert_ne. }
  split.
  - rewrite length_insert. apply Hok.
  - intros j y (? & _ & _ & _ & _ & _ & _ & ? & _)%Hl. done.
  - intros j y (y0 & Hy & -> & _ & _ & -> & _)%Hl. by eapply Hok.
  - intros j k y z (y0 & Hy & -> & _ & _ & -> & _)%Hl (z0 & Hz0 & -> & _ & _ & -> & _)%Hl. by eapply Hok.
  - intros j y (y0 & Hy & _ & -> & _ & -> & _)%Hl. by eapply Hok.
  - intros j y (y0 & Hy & _ & -> & _)%Hl. by eapply Hok.
  - intros j y (y0 & Hy & _ & -> & _ & -> & _)%Hl Hu Hni.
    destruct (to_parent _ _ _ Hok j y0 Hy Hu Hni) as (k & z & ? & Hz' & Ha).
    destruct (Hk k z Hz') as (z' & ? & _ & Ha'). exists k, z'. auto.
  - destruct (to_init _ _ _ Hok) as (j & y & ? & Hy & Ha & ?). destruct (Hk j y Hy) as (y' & ? & E & Ha').
    exists j, y'. rewrite E. auto.
  - intros j y (y0 & Hy & _ & _ & _ & _ & _ & _ & Hcase)%Hl Hs Hch k z (z0 & Hz0 & _ & -> & _ & _ & -> & _)%Hl Hp.
    destruct Hcase as [E | E]; subst; [by apply (to_wait _ _ _ Hok j y0 Hy Hs Hch k z0)|by apply (Hz k z0)].
  - apply Hok.
Qed.

(** ** Exit *)

Definition waits_on (q : nat) (x : pinfo) : Prop := i_state x = SLEEPING ∧ i_chan x = Some (ChanProc q).

(** Entry [x] after the exit of [cur]: its parent is [init] if it was a
    child, and it may have been woken up. *)
Record left_by (cur : nat) (init : option nat) (x x' : pinfo) : Prop := {
  lb_pid : i_pid x' = i_pid x;
  lb_parent : i_parent x' = if decide (i_parent x = Some cur) then init else i_parent x;
  lb_chan : i_chan x' = i_chan x;
  lb_state : i_state x' = i_state x ∨ (i_state x = SLEEPING ∧ i_state x' = RUNNABLE) }.

Record exited (cur : nat) (init : option nat) (l l' : list pinfo) : Prop := {
  ex_len : length l' = length l;
  ex_cur c : l !! cur = Some c → ∃ c', l' !! cur = Some c' ∧ i_state c' = ZOMBIE ∧ i_pid c' = i_pid c ∧
    i_parent c' = if decide (i_parent c = Some cur) then init else i_parent c;
  ex_other i x : i ≠ cur → l !! i = Some x → ∃ x', l' !! i = Some x' ∧ left_by cur init x x';
  ex_parent c q i x' : l !! cur = Some c → i_parent c = Some q → l' !! i = Some x' → ¬ waits_on q x';
  ex_zombie k x q i x' : l !! k = Some x → i_parent x = Some cur → i_state x = ZOMBIE → init = Some q →
    l' !! i = Some x' → ¬ waits_on q x' }.

Lemma exited_back cur init l l' i x' :
  exited cur init l l' → i ≠ cur → l' !! i = Some x' → ∃ x, l !! i = Some x ∧ left_by cur init x x'.
Proof.
  intros He Hne Hi. destruct (lookup_lt_is_Some_2 l i) as [x Hx].
  { rewrite <-(ex_len _ _ _ _ He). by eapply lookup_lt_Some. }
  destruct (ex_other _ _ _ _ He i x Hne Hx) as (x2 & Hx2 & Hl). exists x. by simplify_eq.
Qed.

Lemma left_unused cur init x x' : left_by cur init x x' → i_state x' = UNUSED ↔ i_state x = UNUSED.
Proof. intros [_ _ _ [->|[-> ->]]]; [done|]. done. Qed.

Lemma left_zombie cur init x x' : left_by cur init x x' → i_state x' = ZOMBIE ↔ i_state x = ZOMBIE.
Proof. intros [_ _ _ [->|[-> ->]]]; [done|]. done. Qed.

Lemma left_alive cur init x x' : left_by cur init x x' → alive x' ↔ alive x.
Proof. intros Hl. unfold alive. by rewrite (left_unused _ _ _ _ Hl), (left_zombie _ _ _ _ Hl). Qed.

(** Every entry after the exit: its number and parent are from before. *)
Lemma exited_from cur init l l' c i x' :
  exited cur init l l' → l !! cur = Some c → i_state c = RUNNING → l' !! i = Some x' →
  ∃ x, l !! i = Some x ∧ i_pid x' = i_pid x ∧ (i_state x' = UNUSED ↔ i_state x = UNUSED) ∧
    i_parent x' = (if decide (i_parent x = Some cur) then init else i_parent x) ∧
    (i = cur ∧ i_state x' = ZOMBIE ∨ i ≠ cur ∧ left_by cur init x x').
Proof.
  intros He Hc Hr Hi. destruct (decide (i = cur)) as [->|Hne].
  - destruct (ex_cur _ _ _ _ He c Hc) as (c' & Hc' & Hz & Hp & Hq). simplify_eq. exists c.
    split_and!; try done; [|by left]. by rewrite Hz, Hr.
  - destruct (exited_back _ _ _ _ i x' He Hne Hi) as (x & Hx & Hl). exists x.
    split_and!; [done|apply Hl|by eapply left_unused|apply Hl|by right].
Qed.

Lemma exited_ok cur init l l' next c :
  exited cur init l l' → l !! cur = Some c → i_state c = RUNNING → init ≠ Some cur →
  table_ok l next init → table_ok l' next init.
Proof.
  intros He Hc Hr Hinit Hok. assert (Hb := λ i x', exited_from cur init l l' c i x' He Hc Hr).
  destruct (to_init _ _ _ Hok) as (q & xq & Eq & Hxq & Haq & Hpq).
  assert (Hq' : ∃ x, l' !! q = Some x ∧ alive x ∧ i_parent x = None).
  { destruct (ex_other _ _ _ _ He q xq) as (x' & Hx' & Hl); [congruence|done|]. exists x'.
    rewrite (left_alive _ _ _ _ Hl), (lb_parent _ _ _ _ Hl), Hpq. done. }
  split.
  - rewrite (ex_len _ _ _ _ He). apply Hok.
  - intros i x' Hx'. destruct (Hb i x' Hx') as (x & Hx & _ & _ & _ & [[_ ->]|[_ Hl]]); [done|].
    destruct (lb_state _ _ _ _ Hl) as [->|[_ ->]]; [by eapply Hok|done].
  - intros i x' Hx'. destruct (Hb i x' Hx') as (x & Hx & -> & -> & _). by eapply Hok.
  - intros i j x' y' Hx' Hy'. destruct (Hb i x' Hx') as (x & Hx & -> & -> & _).
    destruct (Hb j y' Hy') as (y & Hy & -> & -> & _). by eapply Hok.
  - intros i x' Hx'. destruct (Hb i x' Hx') as (x & Hx & _ & -> & -> & _). intros Hu.
    by rewrite (to_unused _ _ _ Hok i x Hx Hu).
  - intros i x' Hx'. destruct (Hb i x' Hx') as (x & Hx & _ & _ & -> & _). case_decide as Hd.
    + rewrite Eq. intros [= ->]. simplify_eq.
    + by eapply Hok.
  - intros i x' Hx' Hu Hni. destruct (Hb i x' Hx') as (x & Hx & _ & E & -> & _). rewrite E in Hu.
    case_decide as Hd.
    + destruct Hq' as (z & Hz & Ha & _). exists q, z. auto.
    + destruct (to_parent _ _ _ Hok i x Hx Hu Hni) as (j & y & Hp & Hy & Ha).
      destruct (ex_other _ _ _ _ He j y) as (y' & Hy' & Hl); [congruence|done|].
      exists j, y'. by rewrite (left_alive _ _ _ _ Hl).
  - destruct Hq' as (z & ? & ? & ?). exists q, z. auto.
  - intros i x' Hx' Hs Hch j y' Hy' Hp Hz.
    destruct (Hb i x' Hx') as (x & Hx & _ & _ & _ & [[_ ?]|[Hne Hl]]); [congruence|].
    destruct (Hb j y' Hy') as (y & Hy & _ & _ & Hpar & [[-> _]|[Hnj Hlj]]).
    + simplify_eq. rewrite decide_False in Hpar by (by eapply Hok). rewrite Hpar in Hp.
      by apply (ex_parent _ _ _ _ He c i i x').
    + rewrite (left_zombie _ _ _ _ Hlj) in Hz. rewrite Hpar in Hp. case_decide as Hd.
      * by apply (ex_zombie _ _ _ _ He j y i i x').
      * destruct (lb_state _ _ _ _ Hl) as [E|[_ E]]; [|congruence].
        by apply (to_wait _ _ _ Hok i x Hx) with (j := j) (y := y); rewrite <-?E, <-?(lb_chan _ _ _ _ Hl).
  - apply Hok.
Qed.

(** ** The routines on the table *)

Lemma alter_proc_at (f : proc → proc) cur (l : list proc) :
  (cur < length l)%nat → alter f cur l !!! cur = f (l !!! cur).
Proof. intros [x Hx]%lookup_lt_is_Some. by rewrite (alter_insert _ _ _ _ Hx), list_lookup_total_insert_eq, (list_lookup_total_correct _ _ _ Hx) by by eapply lookup_lt_Some. Qed.

Section table.
Context {T : Type} `{!BlockLayer T, !TxLayer T}.
Variables kend data forkret trapret : Z.

Abbreviation K := (kernel T).

Definition tabi (s : K) : list pinfo := info <$> ptab s.
Definition tab_ok (s : K) : Prop := table_ok (tabi s) (nextpid s) (initproc s).

(** The table is [base] with entry [p] replaced by [x]. *)
Record slot_is (base : list proc) (p : nat) (x : proc) (next : Z) (init : option nat) (s : K) : Prop := {
  sl_tab : ptab s = <[p := x]> base;
  sl_next : nextpid s = next;
  sl_init : initproc s = init }.

Lemma slot_self s p x : ptab s !! p = Some x → slot_is (ptab s) p x (nextpid s) (initproc s) s.
Proof. intros H. split; [by rewrite list_insert_id|done..]. Qed.

(** Routines on the other components leave the table alone. *)
Lemma run_on_kern {A} (m : M (kern T) A) base p x next init (Q : A → K → Prop) (R : K → Prop) s :
  slot_is base p x next init s →
  (∀ a s', slot_is base p x next init s' → Q a s') → (∀ s', slot_is base p x next init s' → R s') →
  run (on_kern m) Q R s.
Proof.
  intros [? ? ?] HQ HR. unfold run, on_kern, lift. destruct (m (kn s)); [apply HQ|done|apply HR|done]; by split.
Qed.

Lemma run_on_mem {A} (m : M kmem A) base p x next init (Q : A → K → Prop) (R : K → Prop) s :
  quiet m → slot_is base p x next init s → (∀ a s', slot_is base p x next init s' → Q a s') →
  run (on_mem m) Q R s.
Proof.
  intros Hq [? ? ?] HQ. unfold run, on_mem, on_kern, on_kmem, lift. pose proof (Hq (k_kmem (kn s))) as H.
  destruct (m (k_kmem (kn s))); [|done|by edestruct H|done]. apply HQ. by split.
Qed.

Lemma run_upd base p x next init f (Q : unit → K → Prop) R s :
  (p < length base)%nat → slot_is base p x next init s →
  (∀ s', slot_is base p (f x) next init s' → Q tt s') → run (upd_proc p f) Q R s.
Proof.
  intros Hp [Ht ? ?] HQ. apply run_modify, HQ. split; cbn; [|done..]. rewrite Ht.
  rewrite (alter_insert f _ p x) by (by apply list_lookup_insert_eq). by rewrite list_insert_insert_eq.
Qed.

Lemma run_get_proc base p x next init (Q : proc → K → Prop) R s :
  (p < length base)%nat → slot_is base p x next init s → Q x s → run (get_proc p) Q R s.
Proof.
  intros Hp [Ht _ _] HQ. apply run_gets. unfold proc_at. rewrite Ht.
  by rewrite list_lookup_total_insert_eq.
Qed.

Lemma find_unused_spec l i :
  match find_unused l i with
  | Some j => (i <= j)%nat ∧ ∃ x, l !! (j - i)%nat = Some x ∧ p_state x = UNUSED
  | None => ∀ j x, l !! j = Some x → p_state x ≠ UNUSED
  end.
Proof.
  revert i. induction l as [|p l IH]; intros i; cbn; [done|]. case_decide as Hd.
  - split; [done|]. exists p. by rewrite Nat.sub_diag.
  - specialize (IH (S i)). destruct (find_unused l (S i)) as [j|].
    + destruct IH as (Hj & x & Hx & Hu). split; [lia|]. exists x. by replace (j - i)%nat with (S (j - S i)) by lia.
    + intros [|j] x Hx; cbn in Hx; [congruence|by eapply IH].
Qed.

(** [allocproc] takes an unused entry, or leaves all of them as they
    were but for the number of an unused one. *)
Lemma allocproc_run (s : K) :
  0 < nextpid s < 2 ^ 31 - 1 →
  run (allocproc forkret trapret) (λ r s',
    match r with
    | None => (∃ p x, ptab s !! p = Some x ∧ p_state x = UNUSED ∧ ∃ x',
        p_state x' = UNUSED ∧ p_parent x' = p_parent x ∧
        slot_is (ptab s) p x' (nextpid s + 1) (initproc s) s') ∨ s' = s
    | Some p => ∃ x x', ptab s !! p = Some x ∧ p_state x = UNUSED ∧
        p_pid x' = nextpid s ∧ p_parent x' = p_parent x ∧ p_chan x' = p_chan x ∧ p_killed x' = p_killed x ∧
        slot_is (ptab s) p x' (nextpid s + 1) (initproc s) s'
    end) (λ _, True) s.
Proof.
  intros Hn. unfold allocproc. apply run_bind, run_gets. pose proof (find_unused_spec (ptab s) 0) as Hf.
  destruct (find_unused (ptab s) 0) as [p|]; [|by apply run_ret; right].
  destruct Hf as (_ & x & Hx & Hu). rewrite Nat.sub_0_r in Hx.
  assert (Hp : (p < length (ptab s))%nat) by (by eapply lookup_lt_Some).
  apply run_bind, run_gets. pose proof (slot_self s p x Hx) as H0.
  apply run_bind. eapply run_upd; [done..|]. intros s1 H1.
  apply run_bind. eapply run_upd; [done..|]. intros s2 H2.
  apply run_bind, run_modify.
  set (s3 := Kernel (kn s2) _ _ _ _ _ _).
  assert (H3 : slot_is (ptab s) p (set_pid (nextpid s) (set_state EMBRYO x)) (nextpid s + 1) (initproc s) s3).
  { destruct H2 as [? E ?]. split; try done. cbn. rewrite E. unfold s32, signed. rewrite Z.mod_small by lia.
    case_match; lia || done. }
  apply run_bind. eapply run_on_kern; [done| |done]. intros kstack s4 H4.
  apply run_bind. eapply run_upd; [done..|]. intros s5 H5.
  destruct (kstack =? 0).
  - apply run_bind. eapply run_upd; [done..|]. intros s6 H6. apply run_ret. left.
    exists p, x. split_and!; try done. by exists (set_state UNUSED (set_kstack kstack (set_pid (nextpid s) (set_state EMBRYO x)))).
  - apply run_bind. eapply run_upd; [done..|]. intros s6 H6.
    do 3 (apply run_bind; eapply run_on_kern; [done| |done]; intros ? ? ?).
    apply run_ret. exists x. eexists. split_and!; [done..| | | | | |eassumption]; done.
Qed.

Lemma slot_tabi base p x next init s :
  slot_is base p x next init s → tabi s = <[p := info x]> (info <$> base) ∧ nextpid s = next ∧ initproc s = init.
Proof. intros [H ? ?]. unfold tabi. by rewrite H, list_fmap_insert. Qed.

Lemma tabi_lookup (s : K) i p : ptab s !! i = Some p → tabi s !! i = Some (info p).
Proof. intros H. unfold tabi. by rewrite list_lookup_fmap, H. Qed.

(** An unused slot with another content. *)
Lemma unused_tab_ok (s s' : K) p x x' next :
  tab_ok s → ptab s !! p = Some x → p_state x = UNUSED → p_state x' = UNUSED → p_parent x' = p_parent x →
  nextpid s <= next → slot_is (ptab s) p x' next (initproc s) s' → tab_ok s'.
Proof.
  intros Hok Hx Hu Hu' Hp Hn Hs. destruct (slot_tabi _ _ _ _ _ _ Hs) as (Et & En & Ei).
  unfold tab_ok. rewrite Et, En, Ei. apply (unused_ok _ (nextpid s) _ _ _ (info x)); try done.
  - by apply tabi_lookup.
  - cbn. rewrite Hp. apply (to_unused _ _ _ Hok p (info x)); [by apply tabi_lookup|done].
Qed.

Lemma fork_files_run base p next init (Q : unit → K → Prop) l : ∀ i x s,
  (p < length base)%nat → slot_is base p x next init s →
  (∀ x' s', info x' = info x → slot_is base p x' next init s' → Q tt s') →
  run (fork_files p l i) Q (λ _, True) s.
Proof.
  induction l as [|[f|] l IH]; intros i x s Hp Hs HQ; cbn [fork_files].
  - apply run_ret. by eapply HQ.
  - apply run_bind. eapply run_on_kern; [done| |done]. intros g s1 H1.
    apply run_bind. eapply run_upd; [done..|]. intros s2 H2. eapply IH; [done..|].
    intros x' s' E H. by eapply HQ.
  - by eapply IH.
Qed.

Lemma run_get_other base p x next init q y (Q : proc → K → Prop) R s :
  q ≠ p → base !! q = Some y → slot_is base p x next init s → Q y s → run (get_proc q) Q R s.
Proof.
  intros Hne Hy [Ht _ _] HQ. apply run_gets. unfold proc_at. rewrite Ht.
  rewrite list_lookup_total_insert_ne by done. by rewrite (list_lookup_total_correct _ _ _ Hy).
Qed.

Lemma fork_run cur c (s : K) :
  tab_ok s → ptab s !! cur = Some c → p_state c = RUNNING → nextpid s < 2 ^ 31 - 1 →
  run (fork kend data forkret trapret cur) (λ _ s', tab_ok s') (λ _, True) s.
Proof.
  intros Hok Hc Hrun Hn. pose proof (to_next _ _ _ Hok) as Hpos. unfold fork. apply run_bind.
  eapply run_mono; [by apply allocproc_run|..|done]. intros [p|] s1 H; cbn beta iota in H |- *.
  2:{ apply run_ret. destruct H as [(p & x & Hx & Hu & x' & Hu' & Hp & Hs)| ->]; [|done].
      eapply (unused_tab_ok s); [| | | | | |exact Hs]; [done..|lia]. }
  destruct H as (x & x1 & Hx & Hu & Hpid & Hpar & Hch & _ & H1).
  assert (Hne : cur ≠ p) by congruence. assert (Hp : (p < length (ptab s))%nat) by (by eapply lookup_lt_Some).
  apply run_bind. eapply run_get_other; [done..|].
  apply run_bind. eapply run_on_kern; [done| |done]. intros pgdir s2 H2.
  apply run_bind. eapply run_upd; [done..|]. intros s3 H3. destruct (pgdir =? 0).
  - apply run_bind. eapply run_get_proc; [done..|].
    apply run_bind. eapply run_on_kern; [done| |done]. intros [] s4 H4.
    do 2 (apply run_bind; eapply run_upd; [done..|]; intros ? ?).
    apply run_ret. eapply (unused_tab_ok s); [| | | | | |eassumption]; [done..|lia].
  - do 2 (apply run_bind; eapply run_upd; [done..|]; intros ? ?).
    apply run_bind. eapply run_get_proc; [done..|].
    do 2 (apply run_bind; eapply run_on_kern; [done| |done]; intros ? ? ?).
    apply run_bind. eapply fork_files_run; [done..|]. intros x2 s5 E2 Hs5.
    apply run_bind. destruct (p_cwd c) as [ip|]; [|done].
    apply run_bind. eapply run_on_kern; [done| |done]. intros cwd s6 Hs6. apply run_ret.
    do 2 (apply run_bind; eapply run_upd; [done..|]; intros ? ?).
    apply run_bind. eapply run_get_proc; [done..|].
    apply run_bind. eapply run_upd; [done..|]. intros s7 Hs7. apply run_ret.
    destruct (slot_tabi _ _ _ _ _ _ Hs7) as (Et & En & Ei). unfold tab_ok. rewrite Et, En, Ei.
    injection E2 as Es2 Ep2 Epar2 Ech2.
    apply (child_ok _ (nextpid s) _ _ _ (info x) _ cur (info c)); try done; try (by apply tabi_lookup).
    + cbn. by rewrite Ep2.
    + lia.
Qed.

(** ** exit, wait and the rest *)

Definition wake_info (c : pchan) (x : pinfo) : pinfo :=
  if decide (i_state x = SLEEPING ∧ i_chan x = Some c)
  then PInfo RUNNABLE (i_pid x) (i_parent x) (i_chan x) else x.

Lemma info_wake c p : info (wake c p) = wake_info c (info p).
Proof. unfold wake, wake_info. cbn. by repeat case_decide. Qed.

(** [x'] is [x], perhaps woken up. *)
Definition woken (x x' : pinfo) : Prop :=
  i_chan x' = i_chan x ∧ (i_state x' = i_state x ∨ (i_state x = SLEEPING ∧ i_state x' = RUNNABLE)).

Lemma woken_trans x y z : woken x y → woken y z → woken x z.
Proof. unfold woken. intros [-> [->|[? ->]]] [-> [->|[? ->]]]; auto. Qed.

Lemma woken_waits q x x' : woken x x' → waits_on q x' → waits_on q x.
Proof. intros [E [E'|[? E']]] [? ?]; split; congruence. Qed.

Lemma wake_info_spec c x :
  i_pid (wake_info c x) = i_pid x ∧ i_parent (wake_info c x) = i_parent x ∧ woken x (wake_info c x).
Proof. unfold wake_info, woken. case_decide as Hd; cbn; [|by auto]. destruct Hd. split_and!; auto. Qed.

Lemma wake_info_not q x : ¬ waits_on q (wake_info (ChanProc q) x).
Proof. unfold wake_info, waits_on. case_decide; cbn; [by intros [? _]|done]. Qed.

(** The table after [reparent] has passed the entries from [i] on. *)
Record passed (cur : nat) (init : option nat) (i : nat) (l l' : list pinfo) : Prop := {
  ps_len : length l' = length l;
  ps_fwd k x : l !! k = Some x → ∃ x', l' !! k = Some x' ∧ i_pid x' = i_pid x ∧ woken x x' ∧
    i_parent x' = if decide ((i <= k)%nat ∧ i_parent x = Some cur) then init else i_parent x;
  ps_zombie k x q j x' : (i <= k)%nat → l !! k = Some x → i_parent x = Some cur → i_state x = ZOMBIE →
    init = Some q → l' !! j = Some x' → ¬ waits_on q x' }.

(** Entry [i] is handed over, and [init] is woken when it is a zombie. *)
Lemma passed_step cur init i l l1 l2 x :
  l !! i = Some x → init ≠ Some cur → length l1 = length l →
  (∀ k y, l !! k = Some y → ∃ y', l1 !! k = Some y' ∧ i_pid y' = i_pid y ∧ woken y y' ∧
    i_parent y' = if decide (k = i ∧ i_parent y = Some cur) then init else i_parent y) →
  (i_parent x = Some cur → i_state x = ZOMBIE → ∀ q j y', init = Some q → l1 !! j = Some y' → ¬ waits_on q y') →
  passed cur init (S i) l1 l2 → passed cur init i l l2.
Proof.
  intros Hx Hinit Hlen Hf Hz [Hlen2 Hf2 Hz2]. split; [congruence|..].
  - intros k y Hy. destruct (Hf k y Hy) as (y1 & Hy1 & Hp1 & Hw1 & Hq1).
    destruct (Hf2 k y1 Hy1) as (y2 & Hy2 & Hp2 & Hw2 & Hq2). exists y2.
    split_and!; [done|congruence|by eapply woken_trans|]. rewrite Hq2.
    destruct (decide (i_parent y = Some cur)) as [Ey|Ey], (decide (k = i)) as [Ek|Ek].
    + rewrite decide_True in Hq1 by done. rewrite (decide_True (P := (i <= k)%nat ∧ _)) by (split; [lia|done]).
      case_decide; congruence.
    + rewrite decide_False in Hq1 by tauto. rewrite Hq1, Ey.
      destruct (decide (i < k)%nat).
      * by rewrite !decide_True by (split; [lia|done]).
      * by rewrite !decide_False by lia.
    + rewrite decide_False in Hq1 by tauto. rewrite Hq1. repeat case_decide; tauto || done.
    + rewrite decide_False in Hq1 by tauto. rewrite Hq1. repeat case_decide; tauto || done.
  - intros k y q j y2 Hk Hy Hpar Hs Hq Hy2. destruct (decide (k = i)) as [->|Hne].
    + simplify_eq. destruct (lookup_lt_is_Some_2 l1 j) as [y1 Hy1].
      { rewrite <-Hlen2. by eapply lookup_lt_Some. }
      destruct (Hf2 j y1 Hy1) as (y3 & Hy3 & _ & Hw & _). rewrite Hy2 in Hy3. injection Hy3 as <-.
      intros Hwait. by apply (Hz Hpar Hs q j y1 eq_refl Hy1), (woken_waits q y1 y2).
    + destruct (Hf k y Hy) as (y1 & Hy1 & _ & [_ Hw1] & Hq1). rewrite decide_False in Hq1 by tauto.
      apply (Hz2 k y1 q j y2); try done; [lia|congruence|]. by destruct Hw1 as [->|[? _]]; [|congruence].
Qed.

Lemma reparent_run cur next init n : ∀ i (s : K),
  (i + n)%nat = length (ptab s) → init ≠ Some cur → nextpid s = next → initproc s = init →
  run (reparent cur n i) (λ _ s', nextpid s' = next ∧ initproc s' = init ∧
    passed cur init i (tabi s) (tabi s')) (λ _, False) s.
Proof.
  induction n as [|n IH]; intros i s Hlen Hcur Hnext Hinit; cbn [reparent].
  { apply run_ret. split_and!; try done. assert (Hlt : length (tabi s) = i) by (unfold tabi; rewrite length_fmap; lia).
    split; [done|..].
    - intros k x Hx. exists x. assert (k < i)%nat by (rewrite <-Hlt; by eapply lookup_lt_Some).
      rewrite decide_False by lia. unfold woken. split_and!; auto.
    - intros k x q j x' Hk Hx. assert (k < i)%nat by (rewrite <-Hlt; by eapply lookup_lt_Some). lia. }
  destruct (lookup_lt_is_Some_2 (ptab s) i) as [p Hp]; [lia|].
  assert (Hx : tabi s !! i = Some (info p)) by (by apply tabi_lookup).
  apply run_bind, run_gets. unfold proc_at. rewrite (list_lookup_total_correct _ _ _ Hp). apply run_bind.
  assert (Hpl : (i < length (ptab s))%nat) by (by eapply lookup_lt_Some).
  case_decide as Hpar.
  2:{ apply run_ret. eapply run_mono; [apply IH; try done; lia| |done].
      intros _ s2 (? & ? & H2). split_and!; try done. apply (passed_step _ _ _ _ (tabi s) _ (info p)); try done.
      intros k y Hy. exists y. rewrite decide_False by naive_solver. unfold woken. split_and!; auto. }
  apply run_bind, run_gets, run_bind. eapply run_upd; [done|by apply slot_self|]. intros s1 H1.
  destruct (slot_tabi _ _ _ _ _ _ H1) as (Et & En & Ei). rewrite Hinit in *.
  assert (Hf1 : ∀ k y, tabi s !! k = Some y → ∃ y', tabi s1 !! k = Some y' ∧ i_pid y' = i_pid y ∧ woken y y' ∧
    i_parent y' = if decide (k = i ∧ i_parent y = Some cur) then init else i_parent y).
  { intros k y Hy. rewrite Et. destruct (decide (k = i)) as [->|Hne].
    - exists (info (set_parent init p)). rewrite list_lookup_insert_eq by (by rewrite length_fmap).
      rewrite Hx in Hy. injection Hy as <-. rewrite decide_True by done. unfold woken. split_and!; auto.
    - exists y. rewrite list_lookup_insert_ne by done. rewrite decide_False by naive_solver. unfold woken. split_and!; auto. }
  assert (Hl1 : length (ptab s1) = length (ptab s)) by (by rewrite (sl_tab _ _ _ _ _ _ H1), length_insert).
  case_decide as Hz; [destruct init as [q|]|].
  - apply run_modify. eapply run_mono; [apply IH; cbn; rewrite ?length_fmap; try done; lia| |done].
    intros _ s2 (? & ? & H2). split_and!; try done. cbn in H2.
    assert (Ew : ∀ k, tabi (Kernel (kn s1) (wake (ChanProc q) <$> ptab s1) (nextpid s1) (initproc s1) (ticks s1) (cr3 s1) (tss_esp0 s1)) !! k =
      wake_info (ChanProc q) <$> tabi s1 !! k).
    { intros k. unfold tabi. cbn. rewrite !list_lookup_fmap. destruct (ptab s1 !! k); cbn; [by rewrite info_wake|done]. }
    eapply passed_step; [exact Hx|done| | | |exact H2].
    + unfold tabi. cbn. by rewrite !length_fmap.
    + intros k y Hy. destruct (Hf1 k y Hy) as (y1 & Hy1 & Hp1 & Hw1 & Hq1). exists (wake_info (ChanProc q) y1).
      destruct (wake_info_spec (ChanProc q) y1) as (-> & -> & Hw). rewrite Ew, Hy1.
      split_and!; [done|done|by eapply woken_trans|done].
    + intros _ _ q' j y' [= <-]. rewrite Ew. intros (y1 & _ & ->)%fmap_Some. apply wake_info_not.
  - apply run_ret. eapply run_mono; [apply IH; try done; lia| |done].
    intros _ s2 (? & ? & H2). split_and!; try done. eapply passed_step; [exact Hx|done| |exact Hf1|done|exact H2].
    unfold tabi. by rewrite !length_fmap.
  - apply run_ret. eapply run_mono; [apply IH; try done; lia| |done].
    intros _ s2 (? & ? & H2). split_and!; try done. eapply passed_step; [exact Hx|done| |exact Hf1|done|exact H2].
    unfold tabi. by rewrite !length_fmap.
Qed.

Lemma wakeup1_lookup c (s : K) k :
  tabi (Kernel (kn s) (wake c <$> ptab s) (nextpid s) (initproc s) (ticks s) (cr3 s) (tss_esp0 s)) !! k =
  wake_info c <$> tabi s !! k.
Proof.
  unfold tabi. cbn. rewrite !list_lookup_fmap. destruct (ptab s !! k); cbn; [by rewrite info_wake|done].
Qed.

(** Table [l1] has its sleepers on the parent woken, [l2] its children
    handed over, and then [cur] becomes a zombie. *)
Lemma passed_exited cur init l l1 l2 c c2 :
  l !! cur = Some c → init ≠ Some cur → length l1 = length l →
  (∀ k x, l !! k = Some x → ∃ x', l1 !! k = Some x' ∧ i_pid x' = i_pid x ∧ i_parent x' = i_parent x ∧ woken x x') →
  (∀ q k x', i_parent c = Some q → l1 !! k = Some x' → ¬ waits_on q x') →
  passed cur init 0 l1 l2 → l2 !! cur = Some c2 →
  exited cur init l (<[cur := PInfo ZOMBIE (i_pid c2) (i_parent c2) (i_chan c2)]> l2).
Proof.
  intros Hc Hinit Hlen Hf Hw [Hlen2 Hf2 Hz2] Hc2.
  assert (Hall : ∀ k x, l !! k = Some x → ∃ x1 x2, l1 !! k = Some x1 ∧ l2 !! k = Some x2 ∧ i_pid x2 = i_pid x ∧
    woken x x1 ∧ woken x1 x2 ∧ i_parent x1 = i_parent x ∧
    i_parent x2 = if decide (i_parent x = Some cur) then init else i_parent x).
  { intros k x Hx. destruct (Hf k x Hx) as (x1 & Hx1 & E1 & P1 & W1). destruct (Hf2 k x1 Hx1) as (x2 & Hx2 & E2 & W2 & P2).
    exists x1, x2. split_and!; try done; [congruence|]. rewrite P2, P1.
    destruct (decide (i_parent x = Some cur)) as [E|E];
      [rewrite decide_True by (split; [lia|done])|rewrite decide_False by tauto]; done. }
  assert (Hback : ∀ k x2, l2 !! k = Some x2 → ∃ x1, l1 !! k = Some x1 ∧ woken x1 x2).
  { intros k x2 Hx2. destruct (lookup_lt_is_Some_2 l1 k) as [x1 Hx1].
    { rewrite <-Hlen2. by eapply lookup_lt_Some. }
    destruct (Hf2 k x1 Hx1) as (x & Hx & _ & W & _). exists x1. by simplify_eq. }
  set (z := PInfo _ _ _ _). assert (Hlt : (cur < length l2)%nat) by (by eapply lookup_lt_Some).
  split.
  - rewrite length_insert. congruence.
  - intros c' Hc'. exists z. rewrite list_lookup_insert_eq by done.
    destruct (Hall cur c' Hc') as (x1 & x2 & _ & Hx2 & ? & _ & _ & _ & ?). simplify_eq. by split_and!.
  - intros k x Hne Hx. destruct (Hall k x Hx) as (x1 & x2 & _ & Hx2 & ? & W1 & W2 & _ & ?). exists x2.
    rewrite list_lookup_insert_ne by done. split; [done|]. destruct (woken_trans _ _ _ W1 W2). by split.
  - intros c' q k x' Hc' Hp [(-> & <- & _)|(_ & Hk)]%list_lookup_insert_Some; [by intros [? _]|].
    destruct (Hback k x' Hk) as (x1 & Hx1 & W). intros Hwait. simplify_eq.
    by apply (Hw q k x1 Hp Hx1), (woken_waits q x1 x').
  - intros k x q j x' Hx Hp Hzo Hq [(-> & <- & _)|(_ & Hj)]%list_lookup_insert_Some; [by intros [? _]|].
    destruct (Hall k x Hx) as (x1 & x2 & Hx1 & _ & _ & [_ W1] & _ & P1 & _).
    apply (Hz2 k x1 q j x'); try done; [lia|congruence|]. by destruct W1 as [->|[? _]]; [|congruence].
Qed.

Lemma exit_table_run cur c (s : K) :
  tab_ok s → ptab s !! cur = Some c → p_state c = RUNNING → initproc s ≠ Some cur →
  run (exit_table cur) (λ _ _, False) tab_ok s.
Proof.
  intros Hok Hc Hrun Hinit. unfold exit_table. apply run_bind, run_gets.
  unfold proc_at. rewrite (list_lookup_total_correct _ _ _ Hc).
  assert (Hci : tabi s !! cur = Some (info c)) by (by apply tabi_lookup).
  assert (Hn : length (ptab s) = NPROC).
  { pose proof (to_len _ _ _ Hok) as H. unfold tabi in H. by rewrite length_fmap in H. }
  apply run_bind.
  assert (Hgo : ∀ s1 : K, length (ptab s1) = NPROC → nextpid s1 = nextpid s → initproc s1 = initproc s →
    (∀ k x, tabi s !! k = Some x → ∃ x', tabi s1 !! k = Some x' ∧ i_pid x' = i_pid x ∧ i_parent x' = i_parent x ∧ woken x x') →
    (∀ q k x', p_parent c = Some q → tabi s1 !! k = Some x' → ¬ waits_on q x') →
    run (reparent cur NPROC 0;; upd_proc cur (set_state ZOMBIE);; sched cur) (λ _ _, False) tab_ok s1).
  { intros s1 Hl1 En1 Ei1 Hf Hw. apply run_bind.
    eapply run_mono; [apply (reparent_run cur (nextpid s) (initproc s)); try done|..|done].
    intros [] s2 (En & Ei & Hp). destruct (lookup_lt_is_Some_2 (ptab s2) cur) as [c2 Hc2].
    { pose proof (ps_len _ _ _ _ _ Hp) as H. unfold tabi in H. rewrite !length_fmap in H. rewrite H, Hl1, <-Hn.
      by eapply lookup_lt_Some. }
    apply run_bind. eapply run_upd; [by eapply lookup_lt_Some|by apply slot_self|]. intros s3 H3.
    apply run_bind. eapply run_get_proc; [by eapply lookup_lt_Some|done|]. cbn.
    destruct (slot_tabi _ _ _ _ _ _ H3) as (Et & En3 & Ei3). apply run_sleeps. unfold tab_ok.
    rewrite Et, En3, Ei3, En, Ei. eapply (exited_ok cur _ (tabi s) _ _ (info c)); try done.
    apply (passed_exited cur _ (tabi s) (tabi s1) (tabi s2) (info c) (info c2)); try done.
    - unfold tabi. rewrite !length_fmap. congruence.
    - by apply tabi_lookup. }
  destruct (p_parent c) as [q|] eqn:Eq.
  - apply run_modify, Hgo; cbv beta; try done.
    + cbn. by rewrite length_fmap.
    + intros k x Hx. rewrite wakeup1_lookup, Hx. exists (wake_info (ChanProc q) x). split; [done|].
      destruct (wake_info_spec (ChanProc q) x) as (? & ? & ?). by split_and!.
    + intros q' k x' [= <-]. rewrite wakeup1_lookup. intros (x & _ & ->)%fmap_Some. apply wake_info_not.
  - apply run_ret, Hgo; try done. intros k x Hx. exists x. unfold woken. split_and!; auto.
Qed.

End table.
