(* ===== verification/ProcLife.v ===== *)
(** * The life of processes

    The routines of proc.c as steps of the running processes and of the
    scheduler, the invariant of the process table in all reachable states,
    and the fairness of the scheduler's scan. *)

From S2P Require Import Prelude Str Layout Mmu BlockLayer Kalloc Vm VmSpec VmAlloc Pipe Fs File Proc ProcSpec.

Section life.
Context {T : Type} `{!BlockLayer T, !TxLayer T}.
Variables kend data forkret trapret : Z.

Abbreviation K := (kernel T).

Lemma mild_tab_ok (s s' : K) p x x' :
  tab_ok s → ptab s !! p = Some x → mild p (info x) (info x') →
  slot_is (ptab s) p x' (nextpid s) (initproc s) s' → tab_ok s'.
Proof.
  intros Hok Hx Hm Hs. destruct (slot_tabi _ _ _ _ _ _ Hs) as (Et & En & Ei). unfold tab_ok. rewrite Et, En, Ei.
  eapply mildly_ok; [|exact Hok]. by apply (mildly_insert _ _ (info x)); [apply tabi_lookup|].
Qed.

Lemma wait_scan_spec cur l : ∀ i have,
  match wait_scan cur l i have with
  | (Some j, _) => (i <= j)%nat ∧ ∃ x, l !! (j - i)%nat = Some x ∧ p_parent x = Some cur ∧ p_state x = ZOMBIE
  | (None, h) => (∀ j x, l !! j = Some x → p_parent x = Some cur → p_state x ≠ ZOMBIE) ∧
      (h = true ↔ have = true ∨ ∃ j x, l !! j = Some x ∧ p_parent x = Some cur)
  end.
Proof.
  induction l as [|p l IH]; intros i have; cbn [wait_scan].
  { split; [done|]. split; [by left|]. by intros [?|(j & x & ? & _)]. }
  destruct (decide (p_parent p = Some cur)) as [Hp|Hp]; [destruct (decide (p_state p = ZOMBIE)) as [Hz|Hz]|].
  - split; [done|]. exists p. by rewrite Nat.sub_diag.
  - specialize (IH (S i) true). destruct (wait_scan cur l (S i) true) as [[j|] h].
    + destruct IH as (Hj & x & Hx & ?). split; [lia|]. exists x. by replace (j - i)%nat with (S (j - S i)) by lia.
    + destruct IH as [H1 H2]. split; [intros [|j] x Hx ?; cbn in Hx; [by simplify_eq|by eapply H1]|].
      split; [|intros _; apply H2; by left]. intros _. right. by exists 0%nat, p.
  - specialize (IH (S i) have). destruct (wait_scan cur l (S i) have) as [[j|] h].
    + destruct IH as (Hj & x & Hx & ?). split; [lia|]. exists x. by replace (j - i)%nat with (S (j - S i)) by lia.
    + destruct IH as [H1 H2]. split; [intros [|j] x Hx ?; cbn in Hx; [by simplify_eq|by eapply H1]|].
      rewrite H2. split; (intros [?|(j & x & Hx & ?)]; [by left|right]).
      * by exists (S j), x.
      * destruct j as [|j]; cbn in Hx; [by simplify_eq|by exists j, x].
Qed.

Lemma wait_run cur c (s : K) :
  tab_ok s → ptab s !! cur = Some c → p_state c = RUNNING →
  run (wait kend cur) (λ _ s', tab_ok s') tab_ok s.
Proof.
  intros Hok Hc Hrun. unfold wait. apply run_bind, run_gets. pose proof (wait_scan_spec cur (ptab s) 0 false) as Hscan.
  destruct (wait_scan cur (ptab s) 0 false) as [[p|] h].
  - destruct Hscan as (_ & x & Hx & Hpar & Hz). rewrite Nat.sub_0_r in Hx.
    assert (Hne : cur ≠ p) by congruence. assert (Hp : (p < length (ptab s))%nat) by (by eapply lookup_lt_Some).
    apply run_bind. eapply run_get_proc; [done|by apply slot_self|].
    apply run_bind. eapply run_on_mem; [apply kfree_quiet|by apply slot_self|]. intros [] s1 H1.
    apply run_bind. eapply run_upd; [done..|]. intros s2 H2.
    apply run_bind. eapply run_on_mem; [apply freevm_quiet|done|]. intros [] s3 H3.
    do 5 (apply run_bind; eapply run_upd; [done..|]; intros ? ?). apply run_ret.
    match goal with H : slot_is _ _ _ _ _ ?s' |- tab_ok ?s' => destruct (slot_tabi _ _ _ _ _ _ H) as (Et & En & Ei) end.
    unfold tab_ok. rewrite Et, En, Ei. apply (reap_ok _ _ _ _ (info x)); try done. by apply tabi_lookup.
  - destruct Hscan as [Hno _]. apply run_bind. eapply run_get_proc; [by eapply lookup_lt_Some|by apply slot_self|].
    destruct (_ || _); [by apply run_ret|]. apply run_bind. unfold sleep.
    apply run_bind. eapply run_upd; [by eapply lookup_lt_Some|by apply slot_self|]. intros s1 H1.
    apply run_bind. eapply run_upd; [by eapply lookup_lt_Some|done|]. intros s2 H2.
    apply run_bind. eapply run_get_proc; [by eapply lookup_lt_Some|done|]. cbn. apply run_sleeps.
    destruct (slot_tabi _ _ _ _ _ _ H2) as (Et & En & Ei). unfold tab_ok. rewrite Et, En, Ei.
    apply (sleep_wait_ok _ _ _ cur (info c)); try done; [by apply tabi_lookup|].
    intros j y. rewrite list_lookup_fmap. intros (q & Hq & ->)%fmap_Some. by apply (Hno j).
Qed.
Lemma kill_scan_spec pid l i j :
  kill_scan pid l i = Some j → (i <= j)%nat ∧ ∃ x, l !! (j - i)%nat = Some x ∧ p_pid x = pid.
Proof.
  revert i. induction l as [|p l IH]; intros i; cbn; [done|]. destruct (Z.eqb_spec (p_pid p) pid).
  - intros [= <-]. split; [done|]. exists p. by rewrite Nat.sub_diag.
  - intros (Hj & x & Hx & ?)%IH. split; [lia|]. exists x. by replace (j - i)%nat with (S (j - S i)) by lia.
Qed.

Lemma kill_run pid (s : K) : tab_ok s → run (kill pid) (λ _ s', tab_ok s') (λ _, False) s.
Proof.
  intros Hok. unfold kill. apply run_bind, run_gets. destruct (kill_scan pid (ptab s) 0) as [p|] eqn:E; [|by apply run_ret].
  apply kill_scan_spec in E as (_ & x & Hx & _). rewrite Nat.sub_0_r in Hx.
  assert (Hp : (p < length (ptab s))%nat) by (by eapply lookup_lt_Some).
  apply run_bind. eapply run_upd; [done|by apply slot_self|]. intros s1 H1.
  apply run_bind. eapply run_get_proc; [done..|]. apply run_bind. cbn. case_decide as Hs.
  - eapply run_upd; [done..|]. intros s2 H2. apply run_ret. eapply (mild_tab_ok s _ p x); [done..| |exact H2].
    split; cbn; try done. right. unfold alive. cbn. rewrite Hs. done.
  - apply run_ret, run_ret. eapply (mild_tab_ok s _ p x); [done..| |exact H1]. apply mild_refl.
Qed.

Lemma yield_run cur c (s : K) :
  tab_ok s → ptab s !! cur = Some c → p_state c = RUNNING → run (yield cur) (λ _ _, False) tab_ok s.
Proof.
  intros Hok Hc Hr. assert (Hp : (cur < length (ptab s))%nat) by (by eapply lookup_lt_Some).
  apply run_bind. eapply run_upd; [done|by apply slot_self|]. intros s1 H1.
  apply run_bind. eapply run_get_proc; [done..|]. apply run_sleeps.
  eapply (mild_tab_ok s _ cur c); [done..| |exact H1]. split; try done. right. unfold alive. cbn. by rewrite Hr.
Qed.

Lemma sleep_run cur c a (s : K) :
  tab_ok s → ptab s !! cur = Some c → p_state c = RUNNING →
  run (sleep cur (ChanAddr a)) (λ _ _, False) tab_ok s.
Proof.
  intros Hok Hc Hr. assert (Hp : (cur < length (ptab s))%nat) by (by eapply lookup_lt_Some).
  apply run_bind. eapply run_upd; [done|by apply slot_self|]. intros s1 H1.
  apply run_bind. eapply run_upd; [done..|]. intros s2 H2.
  apply run_bind. eapply run_get_proc; [done..|]. apply run_sleeps.
  eapply (mild_tab_ok s _ cur c); [done..| |exact H2]. split; try done. right. unfold alive. cbn. by rewrite Hr.
Qed.

Lemma wakeup_run c (s : K) : tab_ok s → run (wakeup c) (λ _ s', tab_ok s') (λ _, False) s.
Proof.
  intros Hok. apply run_modify. eapply mildly_ok; [|exact Hok]. split.
  - unfold tabi. cbn. by rewrite !length_fmap.
  - intros i x Hx. exists (wake_info c x). rewrite wakeup1_lookup, Hx. split; [done|].
    unfold wake_info. case_decide as Hd; [|apply mild_refl]. split; try done. right. unfold alive.
    destruct Hd as [-> _]. done.
Qed.

Lemma dispatch_run p x (s : K) :
  tab_ok s → ptab s !! p = Some x → p_state x = RUNNABLE → run (dispatch p) (λ _ s', tab_ok s') (λ _, False) s.
Proof.
  intros Hok Hx Hr. assert (Hp : (p < length (ptab s))%nat) by (by eapply lookup_lt_Some).
  apply run_bind, run_bind. eapply run_get_proc; [done|by apply slot_self|].
  do 2 (case_match; [done|]). apply run_modify.
  eapply (run_upd (ptab s) p x (nextpid s) (initproc s)); [exact Hp|split; cbn; [by rewrite list_insert_id|done..]|].
  intros s1 H1. eapply (mild_tab_ok s _ p x); [done..| |by destruct H1; split].
  split; try done. right. unfold alive. cbn. by rewrite Hr.
Qed.

(** ** Steps *)

Definition runs (s : K) (p : nat) : Prop := p_state <$> ptab s !! p = Some RUNNING.

(** A running process calls one of the routines, the scheduler runs a
    process, or something happens that does not concern the table.  The
    process numbers are bounded, [nextpid] has not overflowed. *)
Inductive pstep (s s' : K) : Prop :=
  | step_fork cur r : runs s cur → nextpid s < 2 ^ 31 - 1 →
    fork kend data forkret trapret cur s = Ret r s' → pstep s s'
  | step_exit cur : runs s cur → initproc s ≠ Some cur → exit_table cur s = Sleeps s' → pstep s s'
  | step_wait cur r : runs s cur → wait kend cur s = Ret r s' → pstep s s'
  | step_wait_sleeps cur : runs s cur → wait kend cur s = Sleeps s' → pstep s s'
  | step_kill pid r : kill pid s = Ret r s' → pstep s s'
  | step_yield cur : runs s cur → yield cur s = Sleeps s' → pstep s s'
  | step_sleep cur a : runs s cur → sleep cur (ChanAddr a) s = Sleeps s' → pstep s s'
  | step_awake cur : runs s cur → sleep_return cur s = Ret tt s' → pstep s s'
  | step_wakeup a : wakeup (ChanAddr a) s = Ret tt s' → pstep s s'
  | step_dispatch i j p : sched_step (ptab s) i = (Some p, j) → dispatch p s = Ret tt s' → pstep s s'
  | step_other : tabi s' = tabi s → nextpid s' = nextpid s → initproc s' = initproc s → pstep s s'.

Lemma pstep_ok (s s' : K) : pstep s s' → tab_ok s → tab_ok s'.
Proof.
  intros Hs Hok.
  destruct Hs as [cur r Hc Hn E|cur Hc Hi E|cur r Hc E|cur Hc E|pid r E|cur Hc E|cur a Hc E|cur Hc E|a E|i j p Hd E|E1 E2 E3];
    try (unfold runs in Hc; apply fmap_Some in Hc as (c & Hc & Hr); symmetry in Hr).
  - by apply (run_elim _ _ _ _ _ _ (fork_run kend data forkret trapret cur c s Hok Hc Hr Hn)) in E.
  - by apply (run_elim_sleeps _ _ _ _ _ (exit_table_run cur c s Hok Hc Hr Hi)) in E.
  - by apply (run_elim _ _ _ _ _ _ (wait_run cur c s Hok Hc Hr)) in E.
  - by apply (run_elim_sleeps _ _ _ _ _ (wait_run cur c s Hok Hc Hr)) in E.
  - by apply (run_elim _ _ _ _ _ _ (kill_run pid s Hok)) in E.
  - by apply (run_elim_sleeps _ _ _ _ _ (yield_run cur c s Hok Hc Hr)) in E.
  - by apply (run_elim_sleeps _ _ _ _ _ (sleep_run cur c a s Hok Hc Hr)) in E.
  - unfold sleep_return, upd_proc, set_ptab, modify in E. injection E as <-.
    eapply (mild_tab_ok s _ cur c _ Hok Hc); [|split; cbn; [by apply alter_insert|done..]].
    split; auto. cbn. by intros _ ?.
  - by apply (run_elim _ _ _ _ _ _ (wakeup_run (ChanAddr a) s Hok)) in E.
  - unfold sched_step in Hd. destruct (ptab s !! i) as [x|] eqn:Ex; [|done].
    case_decide as Hx; [|done]. injection Hd as <- _.
    by apply (run_elim _ _ _ _ _ _ (dispatch_run i x s Hok Ex Hx)) in E.
  - unfold tab_ok. by rewrite E1, E2, E3.
Qed.


(** ** The scheduler *)

(** The index of the scheduler's loop after [t] steps, when the table is
    [ts k] at step [k]. *)
Fixpoint sched_index (ts : nat → list proc) (i t : nat) : nat :=
  match t with
  | O => i
  | S t' => (sched_step (ts t') (sched_index ts i t')).2
  end.

Lemma sched_index_spec ts i t :
  (∀ k, length (ts k) = NPROC) → (i <= NPROC)%nat →
  sched_index ts i t = ((i + t) mod (NPROC + 1))%nat.
Proof.
  intros Hl Hi. induction t as [|t IH]; cbn [sched_index].
  - rewrite Nat.add_0_r, Nat.mod_small; [done|]. unfold NPROC in *. lia.
  - rewrite IH. unfold sched_step. set (j := ((i + t) mod (NPROC + 1))%nat).
    assert (Hj : (j < NPROC + 1)%nat) by (apply Nat.mod_upper_bound; unfold NPROC; lia).
    assert (E : ((i + S t) mod (NPROC + 1) = (j + 1) mod (NPROC + 1))%nat).
    { unfold j. rewrite Nat.Div0.add_mod_idemp_l. f_equal. lia. }
    rewrite E. destruct (ts t !! j) as [x|] eqn:Ex; cbn [snd].
    + apply lookup_lt_Some in Ex. rewrite Hl in Ex. rewrite Nat.mod_small; lia.
    + apply lookup_ge_None in Ex. rewrite Hl in Ex. replace (j + 1)%nat with (NPROC + 1)%nat by lia.
      by rewrite Nat.Div0.mod_same.
Qed.

(** C28: The scheduler is fair.  Wherever its loop stands and whatever the
    processes it runs do to the table, a process that stays runnable is
    run within NPROC + 1 iterations of the loop. *)
Theorem scheduler_fair (ts : nat → list proc) i p :
  (∀ k, length (ts k) = NPROC) → (i <= NPROC)%nat → (p < NPROC)%nat →
  (∀ k x, ts k !! p = Some x → p_state x = RUNNABLE) →
  ∃ t, (t <= NPROC)%nat ∧ (sched_step (ts t) (sched_index ts i t)).1 = Some p.
Proof.
  intros Hl Hi Hp Hr. exists ((p + (NPROC + 1) - i) mod (NPROC + 1))%nat.
  set (t := ((p + (NPROC + 1) - i) mod (NPROC + 1))%nat). split.
  - assert (t < NPROC + 1)%nat by (apply Nat.mod_upper_bound; unfold NPROC; lia). lia.
  - assert (E : sched_index ts i t = p).
    { rewrite sched_index_spec by done. unfold t. rewrite Nat.Div0.add_mod_idemp_r.
      replace (i + (p + (NPROC + 1) - i))%nat with (p + 1 * (NPROC + 1))%nat by lia.
      rewrite Nat.Div0.mod_add. apply Nat.mod_small. lia. }
    rewrite E. unfold sched_step. destruct (lookup_lt_is_Some_2 (ts t) p) as [x Hx]; [by rewrite Hl|].
    rewrite Hx. by rewrite decide_True by (by eapply Hr).
Qed.

(** ** Two flaws *)

Lemma find_unused_insert l p x i :
  p_state <$> l !! p = Some (p_state x) → find_unused (<[p := x]> l) i = find_unused l i.
Proof.
  revert p i. induction l as [|y l IH]; intros [|p] i H; try done; cbn in *.
  - injection H as ->. done.
  - by rewrite IH.
Qed.

Lemma wp_on_mem f (Q : unit → K → Prop) (s : K) : (∀ s', Q tt s') → wp (on_mem (with_mem f)) Q s.
Proof. intros H. apply H. Qed.

Lemma allocproc_ret (s : K) p kstack m :
  find_unused (ptab s) 0 = Some p → kalloc (k_kmem (kn s)) = Ret kstack m → kstack ≠ 0 →
  wp (allocproc forkret trapret) (λ r _, r = Some p) s.
Proof.
  intros Hf Ha Hne. unfold allocproc. apply wp_bind, wp_gets. rewrite Hf.
  apply wp_bind, wp_gets, wp_bind, wp_modify, wp_bind, wp_modify, wp_bind, wp_modify, wp_bind.
  eapply wp_intro; [unfold on_mem, on_kern, on_kmem, lift; cbn [kn]; rewrite Ha; reflexivity|]. cbv beta.
  apply wp_bind, wp_modify. rewrite (proj2 (Z.eqb_neq _ 0)) by done. apply wp_bind, wp_modify. unfold kstore.
  do 3 (apply wp_bind, wp_on_mem; intros ?). by apply wp_ret.
Qed.

(** [kill(0)] succeeds when there is an unused entry, whose process
    number is 0, and marks that entry killed.  [allocproc] does not clear
    the mark, so the next process made in the entry is killed from the
    start. *)
Theorem kill_zero_marks_next_process (s : K) p kstack m :
  0 < nextpid s < 2 ^ 31 - 1 →
  find_unused (ptab s) 0 = Some p → kill_scan 0 (ptab s) 0 = Some p →
  kalloc (k_kmem (kn s)) = Ret kstack m → kstack ≠ 0 →
  ∃ s1 s2, kill 0 s = Ret 0 s1 ∧ allocproc forkret trapret s1 = Ret (Some p) s2 ∧
    p_killed (proc_at s2 p) = 1.
Proof.
  intros Hn Hf Hk Ha Hne. pose proof (find_unused_spec (ptab s) 0) as Hu. rewrite Hf in Hu.
  destruct Hu as (_ & x & Hx & Hu). rewrite Nat.sub_0_r in Hx.
  set (s1 := Kernel (kn s) (<[p := set_killed 1 x]> (ptab s)) (nextpid s) (initproc s) (ticks s) (cr3 s) (tss_esp0 s)).
  assert (Hp : (p < length (ptab s))%nat) by (by eapply lookup_lt_Some).
  assert (E1 : kill 0 s = Ret 0 s1).
  { unfold kill, mbind, M_bind, gets. rewrite Hk. unfold upd_proc, set_ptab, modify, get_proc, gets, proc_at. cbn [ptab].
    rewrite (alter_insert _ _ _ x Hx), list_lookup_total_insert_eq by done. cbn. by rewrite Hu. }
  assert (Hf1 : find_unused (ptab s1) 0 = Some p).
  { rewrite <-Hf. apply find_unused_insert. cbn. by rewrite Hx. }
  destruct (wp_elim _ _ _ (allocproc_ret s1 p kstack m Hf1 Ha Hne)) as (r & s2 & E2 & ->). exists s1, s2. split_and!; [done..|].
  pose proof (run_elim _ _ _ _ _ _ (allocproc_run forkret trapret s1 Hn) E2) as (y & z & Hy & _ & _ & _ & _ & Hz & Hs2).
  unfold proc_at. rewrite (sl_tab _ _ _ _ _ _ Hs2), list_lookup_total_insert_eq by (cbn; by rewrite length_insert).
  rewrite Hz. cbn in Hy. rewrite list_lookup_insert_eq in Hy by done. by injection Hy as <-.
Qed.
(** Shrinking a process to nothing half works.  [sbrk(-sz)] unmaps and
    frees every page, but [growproc] takes the new size 0 for an error: it
    returns -1 and leaves [sz] as it was, so that the kernel goes on to
    accept addresses below [sz] that are no longer mapped. *)
Theorem growproc_to_zero_fails cur c l (s : K) :
  ptab s !! cur = Some c → 0 < p_sz c < KERNBASE → uvm kend (k_kmem (kn s)) (p_pgdir c) l →
  ∃ s', growproc kend cur (- p_sz c) s = Ret (-1) s' ∧ ptab s' = ptab s ∧
    ∀ va, 0 <= va < p_sz c → pte (k_mem (k_kmem (kn s'))) (p_pgdir c) va = 0.
Proof.
  intros Hc Hsz Hu. set (sz := p_sz c) in *.
  assert (W := deallocuvm_spec kend (p_pgdir c) (k_kmem (kn s)) l sz 0 Hu ltac:(lia) ltac:(lia)).
  destruct (wp_elim _ _ _ W) as (r & m & E & -> & l' & Hum).
  unfold growproc. erewrite bind_ret; [|reflexivity]. unfold proc_at. rewrite (list_lookup_total_correct _ _ _ Hc).
  fold sz. rewrite Z.gtb_ltb, (proj2 (Z.ltb_ge _ _)), (proj2 (Z.ltb_lt (- sz) 0)) by lia.
  replace (u32 (sz + - sz)) with 0 by (rewrite Z.add_opp_diag_r; done).
  erewrite bind_ret; [|unfold on_mem, on_kern, on_kmem, lift; rewrite E; reflexivity].
  rewrite (proj2 (Z.eqb_neq (- sz) 0)) by lia. eexists. split_and!; [reflexivity|done|]. intros va Hva.
  cbn. rewrite (um_pte _ _ _ _ _ _ _ _ Hum) by (unfold is_u32, KERNBASE in *; lia).
  rewrite decide_True; [done|]. change (PGROUNDUP 0) with 0.
  rewrite PGROUNDUP_eq by (unfold KERNBASE in *; lia). dlia.
Qed.
End life.
