(* ===== verification/KernDemo.v ===== *)
(** * A small kernel state

    The log of log.c as the transactions of the upper layers, and concrete
    states on which the theorems about processes and files apply. *)

From S2P Require Import Prelude Str Layout Mmu BlockLayer Kalloc Vm VmSpec VmAlloc Pipe Bio BioSpec Log Crash LogLayer Fs FsDemo.
From S2P Require Import File Proc ProcSpec ProcLife.

#[global] Instance store_tx (me : Z) : TxLayer store := {
  tx_begin := Log.begin_op;
  tx_end := Log.end_op me }.

#[local] Existing Instance store_block_layer.

(** The first process, its child, and a grandchild that has exited. *)
Definition demo_procs : list proc :=
  [ Proc 4096 demo_base 1 SLEEPING 1 None 0 0 (Some (ChanProc 0)) 0 (replicate NOFILE None) (Some 0%nat) [];
    Proc 4096 demo_base 1 RUNNING 2 (Some 0%nat) 0 0 None 0 (replicate NOFILE None) (Some 0%nat) [];
    Proc 4096 demo_base 1 ZOMBIE 3 (Some 1%nat) 0 0 None 0 (replicate NOFILE None) None [] ]
  ++ replicate 61 proc0.

Definition demo_kernel (k : kern store) : kernel store := Kernel k demo_procs 4 (Some 0%nat) 0 0 0.

Definition demo_x0 : pinfo := PInfo SLEEPING 1 None (Some (ChanProc 0)).
Definition demo_x1 : pinfo := PInfo RUNNING 2 (Some 0%nat) None.
Definition demo_x2 : pinfo := PInfo ZOMBIE 3 (Some 1%nat) None.

Lemma demo_info k i x :
  tabi (demo_kernel k) !! i = Some x →
  (i = 0%nat ∧ x = demo_x0) ∨ (i = 1%nat ∧ x = demo_x1) ∨ (i = 2%nat ∧ x = demo_x2) ∨
  x = PInfo UNUSED 0 None None.
Proof.
  unfold tabi. cbn [demo_kernel ptab]. unfold demo_procs. rewrite fmap_app, fmap_replicate.
  destruct i as [|[|[|i]]]; cbn [app fmap list_fmap lookup list_lookup].
  1-3: intros [= <-]; auto.
  intros [-> _]%lookup_replicate. auto.
Qed.

Lemma demo_tab_ok k : tab_ok (demo_kernel k).
Proof.
  assert (Hi := demo_info k). split.
  - reflexivity.
  - intros i x [[-> ->]|[[-> ->]|[[-> ->]| ->]]]%Hi; done.
  - intros i x [[-> ->]|[[-> ->]|[[-> ->]| ->]]]%Hi; cbn; try done; lia.
  - intros i j x y [[-> ->]|[[-> ->]|[[-> ->]| ->]]]%Hi [[-> ->]|[[-> ->]|[[-> ->]| ->]]]%Hi; cbn; done.
  - intros i x [[-> ->]|[[-> ->]|[[-> ->]| ->]]]%Hi; done.
  - intros i x [[-> ->]|[[-> ->]|[[-> ->]| ->]]]%Hi; done.
  - intros i x [[-> ->]|[[-> ->]|[[-> ->]| ->]]]%Hi; cbn; try done; intros _ _.
    + by exists 0%nat, demo_x0.
    + by exists 1%nat, demo_x1.
  - by exists 0%nat, demo_x0.
  - intros i x [[-> ->]|[[-> ->]|[[-> ->]| ->]]]%Hi; try done.
    intros _ _ j y [[-> ->]|[[-> ->]|[[-> ->]| ->]]]%Hi; done.
  - done.
Qed.

(** The other components, before the log is read. *)
Definition demo_kern : kern store :=
  Kern (replicate NFILE inhabitant) ∅ demo_kmem (demo_fs (Store (boot demo_disk 100) log0)).

(** The child exits: the first process is woken up for it and for the
    grandchild it inherits. *)
Lemma demo_exit k : ∃ s', exit_table 1 (demo_kernel k) = Sleeps s' ∧
  p_state <$> ptab s' !! 0%nat = Some RUNNABLE ∧ p_parent <$> ptab s' !! 2%nat = Some (Some 0%nat).
Proof. eexists. split; [vm_compute; reflexivity|]. split; reflexivity. Qed.

Lemma demo_exit_step k s' :
  exit_table 1 (demo_kernel k) = Sleeps s' →
  pstep 0 0 0 0 (demo_kernel k) s'.
Proof. intros E. by apply (step_exit 0 0 0 0 _ _ 1). Qed.


Lemma scheduler_fair_witness :
  ∃ t, (t <= NPROC)%nat ∧
    (sched_step (replicate NPROC (set_state RUNNABLE proc0)) (sched_index (λ _, replicate NPROC (set_state RUNNABLE proc0)) 7 t)).1 = Some 3%nat.
Proof.
  apply (scheduler_fair (λ _, replicate NPROC (set_state RUNNABLE proc0)) 7 3).
  - intros k. reflexivity.
  - unfold NPROC. lia.
  - unfold NPROC. lia.
  - intros k x Hx. apply lookup_replicate in Hx as [-> _]. reflexivity.
Defined.

Lemma demo_kalloc : kalloc demo_kmem = Ret (demo_base + 4096) (Kmem (k_mem demo_kmem) 0 (demo_base + 8192)).
Proof. unfold kalloc, mbind, M_bind, gets, mret, M_ret. vm_compute freelist. cbn. reflexivity. Qed.

Lemma kill_zero_marks_next_process_witness :
  ∃ s1 s2, kill 0 (demo_kernel demo_kern) = Ret 0 s1 ∧ allocproc 0 0 s1 = Ret (Some 3%nat) s2 ∧
    p_killed (proc_at s2 3) = 1.
Proof.
  apply (kill_zero_marks_next_process 0 0 (demo_kernel demo_kern) 3 (demo_base + 4096)
    (Kmem (k_mem demo_kmem) 0 (demo_base + 8192))).
  - cbn. lia.
  - reflexivity.
  - reflexivity.
  - exact demo_kalloc.
  - discriminate.
Defined.

Lemma growproc_to_zero_fails_witness :
  ∃ s', growproc demo_base 1 (-4096) (demo_kernel demo_kern) = Ret (-1) s' ∧
    pte (k_mem (k_kmem (kn s'))) demo_base 0 = 0.
Proof.
  destruct (growproc_to_zero_fails demo_base 1 (demo_procs !!! 1%nat) demo_pages (demo_kernel demo_kern))
    as (s' & E & _ & H).
  - reflexivity.
  - cbn. unfold KERNBASE. lia.
  - exact demo_uvm.
  - exists s'. split; [exact E|]. apply H. cbn. lia.
Defined.
