(* ===== verification/Syscall.v ===== *)
(** * syscall.c: fetching system call arguments

    The kernel reads and writes user memory at user addresses, through the
    page table of the running process; an access the hardware refuses
    traps in the kernel, which panics.  A C string argument is the list of
    its bytes. *)

From S2P Require Import Prelude Str Layout Mmu BlockLayer Kalloc Vm VmSpec Pipe Fs File Proc.

Section syscall_code.
Context {T : Type} `{!BlockLayer T, !TxLayer T}.
Variable cur : nat.

Local Abbreviation P := (M (kernel T)).

(** The memory and the page directory in use. *)
Definition cur_mem (s : kernel T) : mem := k_mem (k_kmem (kn s)).
Definition cur_dir (s : kernel T) : Z := p_pgdir (proc_at s cur).

Definition uload (a : Z) : P Z := λ s,
  if has (pte (cur_mem s) (cur_dir s) a) PTE_P then Ret (ubyte (cur_mem s) (cur_dir s) a) s
  else Panic "trap".

Definition ustore (a v : Z) : P unit := λ s,
  let e := pte (cur_mem s) (cur_dir s) a in
  if has e PTE_P && has e PTE_W then
    on_mem (with_mem (λ m, upd m (frame (cur_mem s) (cur_dir s) a + a mod PGSIZE) v)) s
  else Panic "trap".

Fixpoint uloads (n : nat) (a : Z) : P (list Z) :=
  match n with
  | O => mret []
  | S n' => c ← uload a; l ← uloads n' (a + 1); mret (c :: l)
  end.

Fixpoint ustores (a : Z) (l : list Z) : P unit :=
  match l with
  | [] => mret tt
  | c :: l' => ustore a c;; ustores (a + 1) l'
  end.

(** [fetchint]: the word, unsigned; [None] for -1. *)
Definition fetchint (addr : Z) : P (option Z) :=
  x ← get_proc cur;
  if (addr >=? p_sz x) || (u32 (addr + 4) >? p_sz x) then mret None
  else l ← uloads 4 addr; mret (Some (le_val l)).

(** The loop of [fetchstr] at [s], with [n] bytes left below [sz]. *)
Fixpoint fetchstr_loop (n : nat) (s : Z) : P (option (list Z)) :=
  match n with
  | O => mret None
  | S n' =>
    c ← uload s;
    if c =? 0 then mret (Some [])
    else r ← fetchstr_loop n' (s + 1); mret (cons c <$> r)
  end.

(** [fetchstr]: the string; the code returns its length. *)
Definition fetchstr (addr : Z) : P (option (list Z)) :=
  x ← get_proc cur;
  if addr >=? p_sz x then mret None
  else fetchstr_loop (Z.to_nat (p_sz x - addr)) addr.

Definition argint (n : Z) : P (option Z) :=
  x ← get_proc cur;
  esp ← on_mem (kload (p_tf x + TF_ESP));
  fetchint (u32 (esp + 4 + 4 * n)).

Definition argptr (n size : Z) : P (option Z) :=
  x ← get_proc cur;
  r ← argint n;
  match r with
  | None => mret None
  | Some i =>
    if (size <? 0) || (i >=? p_sz x) || (u32 (i + size) >? p_sz x) then mret None
    else mret (Some i)
  end.

Definition argstr (n : Z) : P (option (list Z)) :=
  r ← argint n;
  match r with
  | None => mret None
  | Some addr => fetchstr addr
  end.

(** ** What the checks promise *)

(** All of the process's memory below [sz] is mapped. *)
Definition mapped_to (s : kernel T) (sz : Z) : Prop :=
  ∀ va, 0 <= va < sz → has (pte (cur_mem s) (cur_dir s) va) PTE_P = true.

(** The byte of the running process at [a]. *)
Definition user_byte (s : kernel T) (a : Z) : Z := ubyte (cur_mem s) (cur_dir s) a.

Lemma uload_spec s sz a (Q : Z → kernel T → Prop) :
  mapped_to s sz → 0 <= a < sz → Q (user_byte s a) s → wp (uload a) Q s.
Proof. intros Hm Ha HQ. unfold wp, uload. by rewrite Hm. Qed.

Lemma uloads_spec s sz n : ∀ a (Q : list Z → kernel T → Prop),
  mapped_to s sz → 0 <= a → a + Z.of_nat n <= sz →
  Q (user_byte s <$> seqZ a (Z.of_nat n)) s → wp (uloads n a) Q s.
Proof.
  induction n as [|n IH]; intros a Q Hm Ha Hn HQ; cbn [uloads]; [by apply wp_ret|].
  apply wp_bind. eapply uload_spec; [done|lia|]. apply wp_bind. eapply IH; [done|lia|lia|]. apply wp_ret.
  rewrite seqZ_cons in HQ by lia. cbn in HQ.
  replace (Z.succ a) with (a + 1) in HQ by lia. by replace (Z.pred _) with (Z.of_nat n) in HQ by lia.
Qed.

(** The first zero byte in the [n] bytes from [a]. *)
Definition string_at (s : kernel T) (a : Z) (l : list Z) : Prop :=
  (∀ i, 0 <= i < Z.of_nat (length l) → l !! Z.to_nat i = Some (user_byte s (a + i)) ∧ user_byte s (a + i) ≠ 0) ∧
  user_byte s (a + Z.of_nat (length l)) = 0.

Lemma fetchstr_loop_spec s sz n : ∀ a,
  mapped_to s sz → 0 <= a → a + Z.of_nat n <= sz →
  wp (fetchstr_loop n a) (λ r s', s' = s ∧
    match r with
    | Some l => (length l < n)%nat ∧ string_at s a l
    | None => ∀ i, 0 <= i < Z.of_nat n → user_byte s (a + i) ≠ 0
    end) s.
Proof.
  induction n as [|n IH]; intros a Hm Ha Hn; cbn [fetchstr_loop].
  { apply wp_ret. split; [done|]. intros; lia. }
  apply wp_bind. eapply uload_spec; [done|lia|]. destruct (Z.eqb_spec (user_byte s a) 0) as [E|E].
  - apply wp_ret. split; [done|]. split; [cbn; lia|]. split; [cbn; intros; lia|]. cbn. by rewrite Z.add_0_r.
  - apply wp_bind. eapply wp_mono; [apply IH; [done|lia|lia]|]. intros r s' [-> Hr]. apply wp_ret. split; [done|].
    destruct r as [l|]; cbn [fmap option_fmap option_map].
    + destruct Hr as (Hl & Hb & Hz). unfold string_at. cbn [length]. split; [lia|]. split.
      * intros i Hi. destruct (decide (i = 0)) as [->|Hne]; [by rewrite Z.add_0_r|].
        destruct (Hb (i - 1)) as [H1 H2]; [lia|]. replace (a + 1 + (i - 1)) with (a + i) in H1, H2 by lia.
        split; [|done]. replace (Z.to_nat i) with (S (Z.to_nat (i - 1))) by lia. done.
      * replace (a + Z.of_nat (S (length l))) with (a + 1 + Z.of_nat (length l)) by lia. done.
    + intros i Hi. destruct (decide (i = 0)) as [->|Hne]; [by rewrite Z.add_0_r|].
      replace (a + i) with (a + 1 + (i - 1)) by lia. apply Hr. lia.
Qed.
(** The address of the [n]th argument on the user's stack. *)
Definition arg_addr (s : kernel T) (n : Z) : Z :=
  u32 (load_word (cur_mem s) (p_tf (proc_at s cur) + TF_ESP) + 4 + 4 * n).

(** The word at [a]. *)
Definition user_word (s : kernel T) (a : Z) : Z := le_val (user_byte s <$> seqZ a 4).

(** A process whose memory is mapped up to its size. *)
Record user_space (s : kernel T) : Prop := {
  us_size : 0 <= p_sz (proc_at s cur) <= KERNBASE;
  us_mapped : mapped_to s (p_sz (proc_at s cur));
  us_bytes a : is_byte (cur_mem s a) }.

Lemma user_word_u32 s a : user_space s → is_u32 (user_word s a).
Proof.
  intros Hu. unfold user_word, is_u32.
  assert (Hb : Forall is_byte (user_byte s <$> seqZ a 4)).
  { apply Forall_fmap, Forall_true. intros x. apply (us_bytes _ Hu). }
  apply le_val_bound in Hb. by rewrite length_fmap, length_seqZ in Hb.
Qed.

Lemma fetchint_spec s a :
  user_space s → is_u32 a →
  wp (fetchint a) (λ r s', s' = s ∧
    r = if decide (a + 4 <= p_sz (proc_at s cur)) then Some (user_word s a) else None) s.
Proof.
  intros Hu Ha. destruct (us_size _ Hu) as [Hs0 Hs]. unfold fetchint. apply wp_bind, wp_gets. unfold is_u32, KERNBASE in *.
  set (sz := p_sz (proc_at s cur)) in *. rewrite Z.geb_leb, Z.gtb_ltb.
  destruct (Z.leb_spec sz a); cbn [orb].
  { apply wp_ret. split; [done|]. by rewrite decide_False by lia. }
  unfold u32. rewrite (Z.mod_small (a + 4)) by lia.
  destruct (Z.ltb_spec sz (a + 4)).
  { apply wp_ret. split; [done|]. by rewrite decide_False by lia. }
  apply wp_bind. eapply (uloads_spec s sz); [apply Hu|lia|lia|]. apply wp_ret. split; [done|].
  by rewrite decide_True by lia.
Qed.

Lemma argint_spec s n :
  user_space s →
  wp (argint n) (λ r s', s' = s ∧
    r = if decide (arg_addr s n + 4 <= p_sz (proc_at s cur)) then Some (user_word s (arg_addr s n)) else None) s.
Proof.
  intros Hu. unfold argint. apply wp_bind, wp_gets, wp_bind.
  eapply wp_intro; [unfold on_mem, on_kern, on_kmem, lift, kload, gets; cbn; reflexivity|]. cbv beta.
  replace (Kernel _ _ _ _ _ _ _) with s by (by destruct s as [[] ? ? ? ? ? ?]).
  apply fetchint_spec; [done|]. apply Z.mod_pos_bound. lia.
Qed.

(** A string argument is checked.  When the memory of the process is
    mapped up to its size, [argstr] never faults and changes nothing; it
    yields the string that starts at the argument and ends before the
    first zero byte, or fails, which it does just when the argument word
    lies outside the process's memory, or the string starts outside or
    has no zero byte below [sz]. *)
Theorem argstr_checked s n :
  user_space s →
  let sz := p_sz (proc_at s cur) in
  let a := user_word s (arg_addr s n) in
  wp (argstr n) (λ r s', s' = s ∧
    match r with
    | Some l => arg_addr s n + 4 <= sz ∧ a + Z.of_nat (length l) < sz ∧ string_at s a l
    | None => arg_addr s n + 4 > sz ∨ a >= sz ∨ ∀ i, a <= i < sz → user_byte s i ≠ 0
    end) s.
Proof.
  intros Hu sz a. unfold argstr. apply wp_bind. eapply wp_mono; [by apply argint_spec|].
  intros r s' [-> ->]. case_decide as Hd; [|apply wp_ret; split; [done|left; subst sz; lia]].
  fold a. pose proof (user_word_u32 s (arg_addr s n) Hu) as Ha. fold a in Ha. unfold is_u32 in Ha.
  unfold fetchstr. apply wp_bind, wp_gets. fold sz. rewrite Z.geb_leb. destruct (Z.leb_spec sz a).
  { apply wp_ret. split; [done|]. right. left. lia. }
  eapply wp_mono; [apply (fetchstr_loop_spec s sz); [apply Hu|lia|lia]|]. intros r s' [-> Hr]. split; [done|].
  destruct r as [l|].
  - destruct Hr as [Hl Hs]. split; [done|]. split; [lia|done].
  - right. right. intros i Hi. replace i with (a + (i - a)) by lia. apply Hr. lia.
Qed.

(** C35: A buffer argument is checked.  [argptr] accepts a buffer just when
    the argument word and every byte of the buffer lie in the process's
    memory; it never faults and changes nothing, and the kernel can then
    read the whole buffer. *)
Theorem argptr_checked s n size :
  user_space s → - 2 ^ 31 <= size < 2 ^ 31 →
  let sz := p_sz (proc_at s cur) in
  let a := user_word s (arg_addr s n) in
  wp (argptr n size) (λ r s', s' = s ∧
    (r = None ∧ ¬ (arg_addr s n + 4 <= sz ∧ 0 <= size ∧ a < sz ∧ a + size <= sz) ∨
     r = Some a ∧ 0 <= size ∧ a < sz ∧ a + size <= sz ∧
     uloads (Z.to_nat size) a s = Ret (user_byte s <$> seqZ a size) s)) s.
Proof.
  intros Hu Hsize sz a. unfold argptr. apply wp_bind, wp_gets, wp_bind. eapply wp_mono; [by apply argint_spec|].
  intros r s' [-> ->]. case_decide as Hd; [|apply wp_ret; split; [done|left; split; [done|subst sz; lia]]].
  fold a sz. pose proof (user_word_u32 s (arg_addr s n) Hu) as Ha. fold a in Ha. unfold is_u32 in Ha.
  destruct (us_size _ Hu) as [Hs0 Hs]. fold sz in Hs0, Hs. unfold KERNBASE in Hs.
  rewrite Z.geb_leb, Z.gtb_ltb. destruct (Z.ltb_spec size 0), (Z.leb_spec sz a); cbn [orb];
    try (apply wp_ret; split; [done|left; split; [done|lia]]).
  unfold u32. rewrite (Z.mod_small (a + size)) by lia. destruct (Z.ltb_spec sz (a + size)).
  { apply wp_ret. split; [done|left; split; [done|lia]]. }
  apply wp_ret. split; [done|]. right. split_and!; try done; try lia.
  destruct (wp_elim _ _ _ (uloads_spec s sz (Z.to_nat size) a (λ l s', l = user_byte s <$> seqZ a size ∧ s' = s)
    ltac:(apply Hu) ltac:(lia) ltac:(lia) ltac:(by rewrite Z2Nat.id by lia))) as (l & s' & E & -> & ->). done.
Qed.
End syscall_code.
