(* ===== verification/Sysfile.v ===== *)
(** * sysfile.c: the file system calls

    Every call as a routine of the kernel state (Proc.v), with its
    arguments fetched from the user's stack (Syscall.v) and its operations
    composed from file.c, fs.c and log.c. *)

From S2P Require Import Prelude Str Layout Mmu BlockLayer Kalloc Vm Pipe Fs File Proc Syscall.

Definition O_RDONLY : Z := 0x000.
Definition O_WRONLY : Z := 0x001.
Definition O_RDWR : Z := 0x002.
Definition O_CREATE : Z := 0x200.

(** The size of a struct stat as the compiler lays it out. *)
Definition STAT_SIZE : Z := 20.

Definition DOT : Z := 46.

(** The fields [create] sets in a new inode. *)
Definition with_numbers (major minor nlink : Z) (ip : inode) : inode :=
  Inode (i_dev ip) (i_inum ip) (i_ref ip) (i_lock ip) (i_valid ip) (i_type ip) major minor
    nlink (i_size ip) (i_addrs ip).

Section sysfile_code.
Context {T : Type} `{!BlockLayer T, !TxLayer T}.
Variable kend : Z.
Variable cur : nat.
Variable devsw_read : Z → option (nat → Z → M (fs T) (Z * list Z)).
Variable devsw_write : Z → option (nat → list Z → M (fs T) Z).

Local Abbreviation P := (M (kernel T)).

Definition begin_op : P unit := on_kern File.begin_op.
Definition end_op : P unit := on_kern File.end_op.

(** Routines of fs.c, called by the running process. *)
Definition on_inodes {A} (m : M (fs T) A) : P A := on_kern (on_fs m).
Definition by_me {A} (f : Z → M (fs T) A) : P A := x ← get_proc cur; on_inodes (f (p_pid x)).
Definition ilock_ (ip : nat) : P unit := by_me (λ me, ilock me ip).
Definition iunlock_ (ip : nat) : P unit := by_me (λ me, iunlock me ip).
Definition iunlockput_ (ip : nat) : P unit := by_me (λ me, iunlockput me ip).
Definition iput_ (ip : nat) : P unit := by_me (λ me, iput me ip).
Definition inode_ (ip : nat) : P inode := on_inodes (get_inode ip).
Definition my_cwd (x : proc) : nat := default 0%nat (p_cwd x).
Definition namei_ (path : list Z) : P (option nat) :=
  x ← get_proc cur; on_inodes (namei (p_pid x) (my_cwd x) devsw_read path).
Definition nameiparent_ (path : list Z) : P (option nat * list Z) :=
  x ← get_proc cur;
  on_inodes (nameiparent (p_pid x) (my_cwd x) devsw_read path (replicate (Z.to_nat DIRSIZ) 0)).

(** [argfd]: the descriptor and the file. *)
Definition argfd (n : Z) : P (option (nat * nat)) :=
  r ← argint cur n;
  match r with
  | None => mret None
  | Some fd =>
    if (s32 fd <? 0) || (s32 fd >=? Z.of_nat NOFILE) then mret None
    else
      x ← get_proc cur;
      mret (pair (Z.to_nat fd) <$> (p_ofile x !!! Z.to_nat fd))
  end.

(** The scan of [fdalloc]. *)
Fixpoint free_fd {A} (l : list (option A)) (i : nat) : option nat :=
  match l with
  | [] => None
  | None :: _ => Some i
  | Some _ :: l' => free_fd l' (S i)
  end.

Definition set_fd (fd : nat) (f : option nat) : P unit :=
  upd_proc cur (λ x, set_ofile (<[fd := f]> (p_ofile x)) x).

Definition fdalloc (f : nat) : P Z :=
  x ← get_proc cur;
  match free_fd (p_ofile x) 0 with
  | Some fd => set_fd fd (Some f);; mret (Z.of_nat fd)
  | None => mret (-1)
  end.

Definition sys_dup : P Z :=
  r ← argfd 0;
  match r with
  | None => mret (-1)
  | Some (_, f) =>
    fd ← fdalloc f;
    if fd <? 0 then mret (-1)
    else on_kern (filedup f);; mret fd
  end.

(** The arguments of [read] and [write]: the file, the buffer and its
    length. *)
Definition rw_args : P (option (nat * Z * Z)) :=
  r ← argfd 0;
  match r with
  | None => mret None
  | Some (_, f) =>
    n ← argint cur 2;
    match n with
    | None => mret None
    | Some n =>
      p ← argptr cur 1 (s32 n);
      mret ((λ p, (f, p, s32 n)) <$> p)
    end
  end.

Definition sys_read : P Z :=
  r ← rw_args;
  match r with
  | None => mret (-1)
  | Some (f, p, n) =>
    x ← get_proc cur;
    r ← on_kern (fileread (p_pid x) (negb (p_killed x =? 0)) devsw_read f n);
    ustores cur p r.2;;
    mret r.1
  end.

Definition sys_write : P Z :=
  r ← rw_args;
  match r with
  | None => mret (-1)
  | Some (f, p, n) =>
    x ← get_proc cur;
    src ← uloads cur (Z.to_nat n) p;
    on_kern (filewrite (p_pid x) (negb (p_killed x =? 0)) devsw_write f src)
  end.

Definition sys_close : P Z :=
  r ← argfd 0;
  match r with
  | None => mret (-1)
  | Some (fd, f) =>
    set_fd fd None;;
    x ← get_proc cur;
    on_kern (fileclose kend (p_pid x) f);;
    mret 0
  end.

(** [stati] fills in the user's struct stat; the padding is not written. *)
Definition store_stat (p : Z) (st : stat) : P unit :=
  ustores cur (p + 4) (le_bytes 4 (s_dev st));;
  ustores cur (p + 8) (le_bytes 4 (s_ino st));;
  ustores cur p (le_bytes 2 (s_type st));;
  ustores cur (p + 12) (le_bytes 2 (s_nlink st));;
  ustores cur (p + 16) (le_bytes 4 (s_size st)).

Definition sys_fstat : P Z :=
  r ← argfd 0;
  match r with
  | None => mret (-1)
  | Some (_, f) =>
    st ← argptr cur 1 STAT_SIZE;
    match st with
    | None => mret (-1)
    | Some p =>
      x ← get_proc cur;
      r ← on_kern (filestat (p_pid x) f);
      match r with
      | Some st => store_stat p st;; mret 0
      | None => mret (-1)
      end
    end
  end.

(** The exit of [sys_link] that takes the link back. *)
Definition link_bad (ip : nat) : P Z :=
  ilock_ ip;;
  x ← inode_ ip;
  on_inodes (upd_inode ip (with_nlink (s16 (i_nlink x - 1))));;
  on_inodes (iupdate ip);;
  iunlockput_ ip;;
  end_op;;
  mret (-1).

Definition sys_link : P Z :=
  old ← argstr cur 0;
  new ← (match old with None => mret None | Some _ => argstr cur 1 end);
  match old, new with
  | Some old, Some new =>
    begin_op;;
    r ← namei_ old;
    match r with
    | None => end_op;; mret (-1)
    | Some ip =>
      ilock_ ip;;
      x ← inode_ ip;
      if i_type x =? T_DIR then iunlockput_ ip;; end_op;; mret (-1)
      else
        on_inodes (upd_inode ip (with_nlink (s16 (i_nlink x + 1))));;
        on_inodes (iupdate ip);;
        iunlock_ ip;;
        '(dp, name) ← nameiparent_ new;
        match dp with
        | None => link_bad ip
        | Some dp =>
          ilock_ dp;;
          d ← inode_ dp;
          x ← inode_ ip;
          r ← (if negb (i_dev d =? i_dev x) then mret (-1)
               else by_me (λ me, dirlink me devsw_read devsw_write dp name (i_inum x)));
          if r <? 0 then iunlockput_ dp;; link_bad ip
          else
            iunlockput_ dp;;
            iput_ ip;;
            end_op;;
            mret 0
        end
    end
  | _, _ => mret (-1)
  end.

(** The loop of [isdirempty] at offset [off]. *)
Fixpoint isdirempty_loop (fuel : nat) (dp : nat) (off : Z) : P bool :=
  match fuel with
  | O => diverge
  | S fuel' =>
    x ← inode_ dp;
    if negb (off <? i_size x) then mret true
    else
      r ← on_inodes (readi devsw_read dp off DIRENT_SIZE);
      if negb (r.1 =? DIRENT_SIZE) then panic "isdirempty: readi"
      else if negb (de_inum (dirent_at r.2) =? 0) then mret false
      else isdirempty_loop fuel' dp (off + DIRENT_SIZE)
  end.

Definition isdirempty (dp : nat) : P bool :=
  x ← inode_ dp;
  isdirempty_loop (1 + Z.to_nat (i_size x / DIRENT_SIZE)) dp (2 * DIRENT_SIZE).

(** The exit of [sys_unlink] that changes nothing. *)
Definition unlink_bad (dp : nat) : P Z :=
  iunlockput_ dp;;
  end_op;;
  mret (-1).

(** The removal of the entry at [off] of [dp] and of one link of [ip]. *)
Definition unlink_entry (dp ip : nat) (off : Z) : P Z :=
  r ← on_inodes (writei devsw_write dp (replicate (Z.to_nat DIRENT_SIZE) 0) off);
  if negb (r =? DIRENT_SIZE) then panic "unlink: writei"
  else
    x ← inode_ ip;
    (if i_type x =? T_DIR then
       d ← inode_ dp;
       on_inodes (upd_inode dp (with_nlink (s16 (i_nlink d - 1))));;
       on_inodes (iupdate dp)
     else mret tt);;
    iunlockput_ dp;;
    x ← inode_ ip;
    on_inodes (upd_inode ip (with_nlink (s16 (i_nlink x - 1))));;
    on_inodes (iupdate ip);;
    iunlockput_ ip;;
    end_op;;
    mret 0.

Definition sys_unlink : P Z :=
  path ← argstr cur 0;
  match path with
  | None => mret (-1)
  | Some path =>
    begin_op;;
    '(dp, name) ← nameiparent_ path;
    match dp with
    | None => end_op;; mret (-1)
    | Some dp =>
      ilock_ dp;;
      if (namecmp name [DOT] =? 0) || (namecmp name [DOT; DOT] =? 0) then unlink_bad dp
      else
        r ← on_inodes (dirlookup devsw_read dp name);
        match r with
        | None => unlink_bad dp
        | Some (ip, off) =>
          ilock_ ip;;
          x ← inode_ ip;
          if i_nlink x <? 1 then panic "unlink: nlink < 1"
          else
            full ← (if i_type x =? T_DIR then e ← isdirempty ip; mret (negb e) else mret false);
            if full : bool then iunlockput_ ip;; unlink_bad dp
            else unlink_entry dp ip off
        end
    end
  end.

(** The entries of a new directory. *)
Definition create_dots (dp ip : nat) : P unit :=
  d ← inode_ dp;
  on_inodes (upd_inode dp (with_nlink (s16 (i_nlink d + 1))));;
  on_inodes (iupdate dp);;
  x ← inode_ ip;
  r ← by_me (λ me, dirlink me devsw_read devsw_write ip [DOT] (i_inum x));
  r' ← (if r <? 0 then mret r
        else by_me (λ me, dirlink me devsw_read devsw_write ip [DOT; DOT] (i_inum d)));
  if (r <? 0) || (r' <? 0) then panic "create dots" else mret tt.

(** [create]: the locked inode. *)
Definition create (path : list Z) (type major minor : Z) : P (option nat) :=
  '(dp, name) ← nameiparent_ path;
  match dp with
  | None => mret None
  | Some dp =>
    ilock_ dp;;
    r ← on_inodes (dirlookup devsw_read dp name);
    match r with
    | Some (ip, _) =>
      iunlockput_ dp;;
      ilock_ ip;;
      x ← inode_ ip;
      if (type =? T_FILE) && (i_type x =? T_FILE) then mret (Some ip)
      else iunlockput_ ip;; mret None
    | None =>
      d ← inode_ dp;
      ip ← on_inodes (ialloc (i_dev d) type);
      ilock_ ip;;
      on_inodes (upd_inode ip (with_numbers major minor 1));;
      on_inodes (iupdate ip);;
      (if type =? T_DIR then create_dots dp ip else mret tt);;
      x ← inode_ ip;
      r ← by_me (λ me, dirlink me devsw_read devsw_write dp name (i_inum x));
      if r <? 0 then panic "create: dirlink"
      else iunlockput_ dp;; mret (Some ip)
    end
  end.

(** The inode [sys_open] opens, locked. *)
Definition open_inode (path : list Z) (omode : Z) : P (option nat) :=
  if has omode O_CREATE then create path T_FILE 0 0
  else
    r ← namei_ path;
    match r with
    | None => mret None
    | Some ip =>
      ilock_ ip;;
      x ← inode_ ip;
      if (i_type x =? T_DIR) && negb (omode =? O_RDONLY) then iunlockput_ ip;; mret None
      else mret (Some ip)
    end.

Definition sys_open : P Z :=
  path ← argstr cur 0;
  omode ← (match path with None => mret None | Some _ => argint cur 1 end);
  match path, omode with
  | Some path, Some omode =>
    begin_op;;
    r ← open_inode path omode;
    match r with
    | None => end_op;; mret (-1)
    | Some ip =>
      f ← on_kern filealloc;
      fd ← (match f with None => mret (-1) | Some f => fdalloc f end);
      match f with
      | Some f =>
        if fd <? 0 then
          x ← get_proc cur;
          on_kern (fileclose kend (p_pid x) f);;
          iunlockput_ ip;;
          end_op;;
          mret (-1)
        else
          iunlock_ ip;;
          end_op;;
          on_kern (upd_file f (as_inode ip (if has omode O_WRONLY then 0 else 1)
            (if has omode O_WRONLY || has omode O_RDWR then 1 else 0)));;
          mret fd
      | None => iunlockput_ ip;; end_op;; mret (-1)
      end
    end
  | _, _ => mret (-1)
  end.

(** The end of [sys_mkdir] and [sys_mknod]. *)
Definition made (r : option nat) : P Z :=
  match r with
  | None => end_op;; mret (-1)
  | Some ip => iunlockput_ ip;; end_op;; mret 0
  end.

Definition sys_mkdir : P Z :=
  begin_op;;
  path ← argstr cur 0;
  r ← (match path with None => mret None | Some path => create path T_DIR 0 0 end);
  made r.

Definition sys_mknod : P Z :=
  begin_op;;
  path ← argstr cur 0;
  major ← (match path with None => mret None | Some _ => argint cur 1 end);
  minor ← (match major with None => mret None | Some _ => argint cur 2 end);
  r ← (match path, major, minor with
       | Some path, Some major, Some minor => create path T_DEV (s16 major) (s16 minor)
       | _, _, _ => mret None
       end);
  made r.

Definition sys_chdir : P Z :=
  begin_op;;
  path ← argstr cur 0;
  r ← (match path with None => mret None | Some path => namei_ path end);
  match r with
  | None => end_op;; mret (-1)
  | Some ip =>
    ilock_ ip;;
    x ← inode_ ip;
    if negb (i_type x =? T_DIR) then iunlockput_ ip;; end_op;; mret (-1)
    else
      iunlock_ ip;;
      p ← get_proc cur;
      iput_ (my_cwd p);;
      end_op;;
      upd_proc cur (set_cwd (Some ip));;
      mret 0
  end.

(** [sys_pipe], the new pipe's page holding [junk]. *)
Definition sys_pipe (junk : list Z) : P Z :=
  r ← argptr cur 0 8;
  match r with
  | None => mret (-1)
  | Some fd =>
    x ← get_proc cur;
    r ← on_kern (pipealloc kend (p_pid x) junk);
    match r with
    | None => mret (-1)
    | Some (rf, wf) =>
      fd0 ← fdalloc rf;
      fd1 ← (if fd0 <? 0 then mret (-1) else fdalloc wf);
      if fd1 <? 0 then
        (if fd0 >=? 0 then set_fd (Z.to_nat fd0) None else mret tt);;
        on_kern (fileclose kend (p_pid x) rf);;
        on_kern (fileclose kend (p_pid x) wf);;
        mret (-1)
      else
        ustores cur fd (le_bytes 4 fd0 ++ le_bytes 4 fd1);;
        mret 0
    end
  end.
End sysfile_code.
