(* ===== verification/Exec.v ===== *)
(** * exec.c, and loaduvm of vm.c

    The strings of [argv] and the file's headers are lists of bytes; the
    new image is built in a page directory of its own and becomes the
    process's in the last steps. *)

From S2P Require Import Prelude Str Layout Mmu BlockLayer Kalloc Vm Pipe Fs File Proc Syscall Sysfile.

Definition ELF_MAGIC : Z := 0x464C457F.
Definition ELF_PROG_LOAD : Z := 1.
Definition ELFHDR_SIZE : Z := 52.
Definition PROGHDR_SIZE : Z := 32.

Record elfhdr := Elfhdr { elf_magic : Z; elf_entry : Z; elf_phoff : Z; elf_phnum : Z }.
Definition elfhdr_at (l : list Z) : elfhdr := Elfhdr (get32 0 l) (get32 24 l) (get32 28 l) (get16 44 l).

Record proghdr := Proghdr { ph_type : Z; ph_off : Z; ph_vaddr : Z; ph_filesz : Z; ph_memsz : Z }.
Definition proghdr_at (l : list Z) : proghdr :=
  Proghdr (get32 0 l) (get32 4 l) (get32 8 l) (get32 16 l) (get32 20 l).

(** The part of the path after the last slash. *)
Fixpoint last_elem (last s : list Z) : list Z :=
  match s with
  | [] => last
  | c :: s' => last_elem (if c =? SLASH then s' else last) s'
  end.

Section exec_code.
Context {T : Type} `{!BlockLayer T, !TxLayer T}.
Variables kend data : Z.
Variable cur : nat.
Variable devsw_read : Z → option (nat → Z → M (fs T) (Z * list Z)).

Local Abbreviation P := (M (kernel T)).

(** The loop of [loaduvm] at [i]. *)
Fixpoint loaduvm_loop (fuel : nat) (pgdir addr : Z) (ip : nat) (offset sz i : Z) : P Z :=
  match fuel with
  | O => diverge
  | S fuel' =>
    if negb (i <? sz) then mret 0
    else
      pte ← on_mem (walkpgdir pgdir (u32 (addr + i)) false);
      if pte =? 0 then panic "loaduvm: address should exist"
      else
        e ← on_mem (kload pte);
        let pa := PTE_ADDR e in
        let n := if sz - i <? PGSIZE then sz - i else PGSIZE in
        r ← on_inodes (readi devsw_read ip (u32 (offset + i)) n);
        on_mem (with_mem (λ m, store_bytes m (P2V pa) r.2));;
        if negb (u32 r.1 =? n) then mret (-1)
        else loaduvm_loop fuel' pgdir addr ip offset sz (u32 (i + PGSIZE))
  end.

Definition loaduvm (pgdir addr : Z) (ip : nat) (offset sz : Z) : P Z :=
  if negb (addr mod PGSIZE =? 0) then panic "loaduvm: addr must be page aligned"
  else loaduvm_loop (2 + Z.to_nat (sz / PGSIZE)) pgdir addr ip offset sz 0.

(** The loop over the program headers: the new size, [None] for [bad]. *)
Fixpoint load_segments (n : nat) (pgdir : Z) (ip : nat) (off sz : Z) : P (option Z) :=
  match n with
  | O => mret (Some sz)
  | S n' =>
    r ← on_inodes (readi devsw_read ip (u32 off) PROGHDR_SIZE);
    if negb (r.1 =? PROGHDR_SIZE) then mret None
    else
      let ph := proghdr_at r.2 in
      let next := u32 (off + PROGHDR_SIZE) in
      let end_ := u32 (ph_vaddr ph + ph_memsz ph) in
      if negb (ph_type ph =? ELF_PROG_LOAD) then load_segments n' pgdir ip next sz
      else if ph_memsz ph <? ph_filesz ph then mret None
      else if end_ <? ph_vaddr ph then mret None
      else
        sz' ← on_mem (allocuvm kend pgdir sz end_);
        if sz' =? 0 then mret None
        else if negb (ph_vaddr ph mod PGSIZE =? 0) then mret None
        else
          r ← loaduvm pgdir (ph_vaddr ph) ip (ph_off ph) (ph_filesz ph);
          if r <? 0 then mret None else load_segments n' pgdir ip next sz'
  end.

(** The loop that pushes the argument strings: the stack pointer and the
    addresses of the strings, the last one first. *)
Fixpoint push_args (argv : list (list Z)) (pgdir sp argc : Z) (us : list Z) : P (option (Z * Z * list Z)) :=
  match argv with
  | [] => mret (Some (sp, argc, us))
  | arg :: argv' =>
    if argc >=? MAXARG then mret None
    else
      let sp := Z.land (u32 (sp - (Z.of_nat (length arg) + 1))) (u32 (Z.lnot 3)) in
      r ← on_mem (copyout pgdir sp (arg ++ [0]));
      if r <? 0 then mret None else push_args argv' pgdir sp (argc + 1) (sp :: us)
  end.

Definition exec_bad (pgdir : Z) (ip : option nat) : P Z :=
  (if negb (pgdir =? 0) then on_mem (freevm kend pgdir) else mret tt);;
  (if ip is Some ip then iunlockput_ cur ip;; end_op else mret tt);;
  mret (-1).

(** The last steps of [exec]. *)
Definition exec_commit (path : list Z) (pgdir sz entry sp : Z) : P Z :=
  x ← get_proc cur;
  upd_proc cur (λ x, set_name (copy_name (p_name x) (last_elem path path)) x);;
  upd_proc cur (set_pgdir pgdir);;
  upd_proc cur (set_sz sz);;
  on_mem (kstore (p_tf x + TF_EIP) entry);;
  on_mem (kstore (p_tf x + TF_ESP) sp);;
  switchuvm cur;;
  on_mem (freevm kend (p_pgdir x));;
  mret 0.

(** The stack and the commit, once the program is loaded and [sz] is its
    size. *)
Definition exec_image (path : list Z) (argv : list (list Z)) (entry pgdir sz : Z) : P Z :=
  let sz := PGROUNDUP sz in
  sz ← on_mem (allocuvm kend pgdir sz (u32 (sz + 2 * PGSIZE)));
  if sz =? 0 then exec_bad pgdir None
  else
    on_mem (clearpteu pgdir (u32 (sz - 2 * PGSIZE)));;
    r ← push_args argv pgdir sz 0 [];
    match r with
    | None => exec_bad pgdir None
    | Some (sp, argc, us) =>
      let ustack := [0xffffffff; argc; u32 (sp - (argc + 1) * 4)] ++ reverse us ++ [0] in
      let sp := u32 (sp - (3 + argc + 1) * 4) in
      r ← on_mem (copyout pgdir sp (mjoin (le_bytes 4 <$> ustack)));
      if r <? 0 then exec_bad pgdir None
      else exec_commit path pgdir sz entry sp
    end.

Definition exec (path : list Z) (argv : list (list Z)) : P Z :=
  begin_op;;
  r ← namei_ cur devsw_read path;
  match r with
  | None => end_op;; mret (-1)
  | Some ip =>
    ilock_ cur ip;;
    r ← on_inodes (readi devsw_read ip 0 ELFHDR_SIZE);
    let elf := elfhdr_at r.2 in
    if negb (r.1 =? ELFHDR_SIZE) then exec_bad 0 (Some ip)
    else if negb (elf_magic elf =? ELF_MAGIC) then exec_bad 0 (Some ip)
    else
      pgdir ← on_mem (setupkvm kend data);
      if pgdir =? 0 then exec_bad 0 (Some ip)
      else
        r ← load_segments (Z.to_nat (elf_phnum elf)) pgdir ip (elf_phoff elf) 0;
        match r with
        | None => exec_bad pgdir (Some ip)
        | Some sz =>
          iunlockput_ cur ip;;
          end_op;;
          exec_image path argv (elf_entry elf) pgdir sz
        end
  end.

(** The loop of [sys_exec]: the strings up to the null pointer, of which
    [n] more fit. *)
Fixpoint fetch_argv (n : nat) (uargv i : Z) : P (option (list (list Z))) :=
  match n with
  | O => mret None
  | S n' =>
    uarg ← fetchint cur (u32 (uargv + 4 * i));
    match uarg with
    | None => mret None
    | Some a =>
      if a =? 0 then mret (Some [])
      else
        s ← fetchstr cur a;
        match s with
        | None => mret None
        | Some s => r ← fetch_argv n' uargv (i + 1); mret (cons s <$> r)
        end
    end
  end.

Definition sys_exec : P Z :=
  path ← argstr cur 0;
  uargv ← (match path with None => mret None | Some _ => argint cur 1 end);
  match path, uargv with
  | Some path, Some uargv =>
    argv ← fetch_argv (Z.to_nat MAXARG) uargv 0;
    match argv with
    | None => mret (-1)
    | Some argv => exec path argv
    end
  | _, _ => mret (-1)
  end.
End exec_code.
