(* ===== verification/Trap.v ===== *)
(** * sysproc.c, the system call table of syscall.c, and trap.c

    A system call that has to wait ends with the outcome [Sleeps].  The
    interrupt handlers of the drivers are arguments of [trap]: they are
    arbitrary routines of the kernel state. *)

From S2P Require Import Prelude Str Layout Mmu BlockLayer Kalloc Vm Pipe Fs File Proc Syscall Sysfile Exec.

Definition T_IRQ0 : Z := 32.
Definition T_SYSCALL : Z := 64.
Definition IRQ_TIMER : Z := 0.
Definition IRQ_KBD : Z := 1.
Definition IRQ_COM1 : Z := 4.
Definition IRQ_IDE : Z := 14.
Definition IRQ_SPURIOUS : Z := 31.
Definition TF_TRAPNO : Z := 48.

(** The handlers of the drivers. *)
Record handlers (T : Type) := Handlers {
  ideintr : M (kernel T) unit; kbdintr : M (kernel T) unit; uartintr : M (kernel T) unit }.
Arguments Handlers {T}.
Arguments ideintr {T}.
Arguments kbdintr {T}.
Arguments uartintr {T}.

Section trap_code.
Context {T : Type} `{!BlockLayer T, !TxLayer T}.
(** The end of the kernel, its data, the entry points of a new process
    and the address of [ticks]. *)
Variables kend data forkret trapret aticks : Z.
Variable devsw_read : Z → option (nat → Z → M (fs T) (Z * list Z)).
Variable devsw_write : Z → option (nat → list Z → M (fs T) Z).
(** What the page of a new pipe holds. *)
Variable junk : list Z.

Local Abbreviation P := (M (kernel T)).

Definition sys_fork (cur : nat) : P Z := fork kend data forkret trapret cur.
Definition sys_exit (cur : nat) : P Z := exit kend cur;; mret 0.
Definition sys_wait (cur : nat) : P Z := wait kend cur.

Definition sys_kill (cur : nat) : P Z :=
  pid ← argint cur 0;
  match pid with
  | None => mret (-1)
  | Some pid => kill (s32 pid)
  end.

Definition sys_getpid (cur : nat) : P Z := x ← get_proc cur; mret (p_pid x).

Definition sys_sbrk (cur : nat) : P Z :=
  n ← argint cur 0;
  match n with
  | None => mret (-1)
  | Some n =>
    x ← get_proc cur;
    r ← growproc kend cur (s32 n);
    if r <? 0 then mret (-1) else mret (s32 (p_sz x))
  end.

(** The loop of [sys_sleep], entered or woken up; [ticks - ticks0] and [n]
    are compared as unsigned. *)
Definition sleep_loop (cur : nat) (ticks0 n : Z) : P Z :=
  t ← gets ticks;
  if u32 (t - ticks0) <? u32 n then
    x ← get_proc cur;
    if negb (p_killed x =? 0) then mret (-1)
    else sleep cur (ChanAddr aticks);; mret 0
  else mret 0.

Definition sys_sleep (cur : nat) : P Z :=
  n ← argint cur 0;
  match n with
  | None => mret (-1)
  | Some n => ticks0 ← gets ticks; sleep_loop cur ticks0 (s32 n)
  end.

Definition sys_uptime : P Z := t ← gets ticks; mret (s32 t).

(** The table [syscalls]. *)
Definition syscalls (cur : nat) (num : Z) : option (P Z) :=
  match num with
  | 1 => Some (sys_fork cur)
  | 2 => Some (sys_exit cur)
  | 3 => Some (sys_wait cur)
  | 4 => Some (sys_pipe kend cur junk)
  | 5 => Some (sys_read cur devsw_read)
  | 6 => Some (sys_kill cur)
  | 7 => Some (sys_exec kend data cur devsw_read)
  | 8 => Some (sys_fstat cur)
  | 9 => Some (sys_chdir cur devsw_read)
  | 10 => Some (sys_dup cur)
  | 11 => Some (sys_getpid cur)
  | 12 => Some (sys_sbrk cur)
  | 13 => Some (sys_sleep cur)
  | 14 => Some sys_uptime
  | 15 => Some (sys_open kend cur devsw_read devsw_write)
  | 16 => Some (sys_write cur devsw_write)
  | 17 => Some (sys_mknod cur devsw_read devsw_write)
  | 18 => Some (sys_unlink cur devsw_read devsw_write)
  | 19 => Some (sys_link cur devsw_read devsw_write)
  | 20 => Some (sys_mkdir cur devsw_read devsw_write)
  | 21 => Some (sys_close kend cur)
  | _ => None
  end.

Definition syscall (cur : nat) : P unit :=
  x ← get_proc cur;
  num ← on_mem (kload (p_tf x + TF_EAX));
  r ← (match syscalls cur (s32 num) with
       | Some call => call
       | None => mret (-1)
       end);
  x ← get_proc cur;
  on_mem (kstore (p_tf x + TF_EAX) (u32 r)).

(** [exit()], if the process was killed. *)
Definition exit_if_killed (cur : nat) : P unit :=
  x ← get_proc cur;
  if negb (p_killed x =? 0) then exit kend cur else mret tt.

(** The handling of trap [trapno] on cpu [cpu], where [cur] is the process
    running there, if any. *)
Definition trap_switch (h : handlers T) (cpu : Z) (cur : option nat) (tf trapno : Z) : P unit :=
  if trapno =? T_IRQ0 + IRQ_TIMER then
    if cpu =? 0 then
      modify (λ s, Kernel (kn s) (ptab s) (nextpid s) (initproc s) (u32 (ticks s + 1)) (cr3 s) (tss_esp0 s));;
      wakeup (ChanAddr aticks)
    else mret tt
  else if trapno =? T_IRQ0 + IRQ_IDE then ideintr h
  else if trapno =? T_IRQ0 + IRQ_IDE + 1 then mret tt
  else if trapno =? T_IRQ0 + IRQ_KBD then kbdintr h
  else if trapno =? T_IRQ0 + IRQ_COM1 then uartintr h
  else if (trapno =? T_IRQ0 + 7) || (trapno =? T_IRQ0 + IRQ_SPURIOUS) then mret tt
  else
    cs ← on_mem (kload (tf + TF_CS));
    match cur with
    | Some p => if Z.land cs 3 =? 0 then panic "trap" else upd_proc p (set_killed 1)
    | None => panic "trap"
    end.

(** [exit()], if the process was killed and is in user space. *)
Definition exit_to_user (cur : option nat) (tf : Z) : P unit :=
  match cur with
  | None => mret tt
  | Some p =>
    x ← get_proc p;
    if p_killed x =? 0 then mret tt
    else
      cs ← on_mem (kload (tf + TF_CS));
      if Z.land cs 3 =? DPL_USER then exit kend p else mret tt
  end.

(** [trap] up to and with [yield()]; when that gives up the CPU the rest
    of [trap] is [exit_to_user]. *)
Definition trap (h : handlers T) (cpu : Z) (cur : option nat) (tf : Z) : P unit :=
  trapno ← on_mem (kload (tf + TF_TRAPNO));
  if trapno =? T_SYSCALL then
    match cur with
    | None => panic "trap"
    | Some p =>
      exit_if_killed p;;
      upd_proc p (λ x, set_frames tf (p_context x) x);;
      syscall p;;
      exit_if_killed p
    end
  else
    trap_switch h cpu cur tf trapno;;
    exit_to_user cur tf;;
    (match cur with
     | None => mret tt
     | Some p =>
       x ← get_proc p;
       if decide (p_state x = RUNNING) then
         if trapno =? T_IRQ0 + IRQ_TIMER then yield p else mret tt
       else mret tt
     end);;
    exit_to_user cur tf.
End trap_code.
