(* ===== verification/KernSpec.v ===== *)
(** * What exec and trap do to the processes

    [exec] replaces the memory of the calling process as a whole or
    not at all, and [trap] never goes back to a user program that was
    killed, and takes the CPU away at a clock tick. *)

From S2P Require Import Prelude Str Layout Mmu BlockLayer Kalloc Vm Pipe Fs File Proc ProcSpec Syscall Sysfile Exec Trap.

Section kern_spec.
Context {T : Type} `{!BlockLayer T, !TxLayer T}.
Variables kend data forkret trapret aticks : Z.
Variable devsw_read : Z → option (nat → Z → M (fs T) (Z * list Z)).
Variable devsw_write : Z → option (nat → list Z → M (fs T) Z).
Variable junk : list Z.

Local Abbreviation K := (kernel T).

(** The process table and the registers, without files and memory. *)
Definition same_procs (s s' : K) : Prop :=
  ptab s' = ptab s ∧ nextpid s' = nextpid s ∧ initproc s' = initproc s ∧ ticks s' = ticks s ∧
  cr3 s' = cr3 s ∧ tss_esp0 s' = tss_esp0 s.

#[local] Instance same_procs_preorder : PreOrder same_procs.
Proof. split; [by intros s|]. intros s1 s2 s3 (?&?&?&?&?&?) (?&?&?&?&?&?). split_and!; congruence. Qed.

Lemma on_kern_keeps {A} (m : M (kern T) A) : keeps same_procs (on_kern m).
Proof. intros s. unfold run, on_kern, lift. by destruct (m (kn s)). Qed.

Lemma on_mem_keeps {A} (m : M kmem A) : keeps same_procs (on_mem m : M K A).
Proof. apply on_kern_keeps. Qed.

Lemma on_inodes_keeps {A} (m : M (fs T) A) : keeps same_procs (on_inodes m).
Proof. apply on_kern_keeps. Qed.

Lemma get_proc_keeps p : keeps same_procs (get_proc p : M K proc).
Proof. apply keeps_gets, _. Qed.

Lemma by_me_keeps {A} cur (f : Z → M (fs T) A) : keeps same_procs (by_me cur f).
Proof. unfold by_me. apply keeps_bind; [apply _|apply get_proc_keeps|]. intros x. apply on_inodes_keeps. Qed.

#[local] Hint Resolve on_kern_keeps on_mem_keeps on_inodes_keeps get_proc_keeps by_me_keeps : keeps_db.

Lemma begin_op_keeps : keeps same_procs (begin_op : M K unit).
Proof. apply on_kern_keeps. Qed.

Lemma end_op_keeps : keeps same_procs (end_op : M K unit).
Proof. apply on_kern_keeps. Qed.

#[local] Hint Resolve begin_op_keeps end_op_keeps : keeps_db.

Lemma namei_keeps cur path : keeps same_procs (namei_ cur devsw_read path).
Proof. unfold namei_. keeps. Qed.

Lemma ilock_keeps cur ip : keeps same_procs (ilock_ cur ip : M K unit).
Proof. apply by_me_keeps. Qed.

Lemma iunlockput_keeps cur ip : keeps same_procs (iunlockput_ cur ip : M K unit).
Proof. apply by_me_keeps. Qed.

Lemma loaduvm_keeps pgdir addr ip off sz : keeps same_procs (loaduvm devsw_read pgdir addr ip off sz).
Proof.
  unfold loaduvm. case_match; [by keeps|]. generalize 0 as i.
  induction (2 + Z.to_nat (sz / PGSIZE))%nat as [|n IH]; intros i; cbn [loaduvm_loop]; keeps.
Qed.

#[local] Hint Resolve namei_keeps ilock_keeps iunlockput_keeps loaduvm_keeps : keeps_db.

Lemma load_segments_keeps n pgdir ip : ∀ off sz, keeps same_procs (load_segments kend devsw_read n pgdir ip off sz).
Proof. induction n as [|n IH]; intros off sz; cbn [load_segments]; keeps. Qed.

Lemma push_args_keeps argv pgdir : ∀ sp argc us, keeps same_procs (push_args argv pgdir sp argc us : M K _).
Proof. induction argv as [|a argv IH]; intros sp argc us; cbn [push_args]; keeps. Qed.

#[local] Hint Resolve load_segments_keeps push_args_keeps : keeps_db.

(** The process with a new image. *)
Definition new_image (name : list Z) (pgdir sz : Z) (x : proc) : proc :=
  set_sz sz (set_pgdir pgdir (set_name name x)).

(** What a call of [exec] may do: nothing to the processes, or the switch
    of process [cur] to a new image. *)
Definition exec_post (cur : nat) (path : list Z) (s : K) (r : Z) (s' : K) : Prop :=
  (r = -1 ∧ same_procs s s') ∨
  (r = 0 ∧ ∃ pgdir sz, pgdir ≠ 0 ∧ cr3 s' = V2P pgdir ∧ nextpid s' = nextpid s ∧ initproc s' = initproc s ∧
     ptab s' = alter (λ x, new_image (copy_name (p_name x) (last_elem path path)) pgdir sz x) cur (ptab s)).

Lemma exec_bad_run cur path pgdir ip s0 s :
  same_procs s0 s → run (exec_bad kend cur pgdir ip) (exec_post cur path s0) (same_procs s0) s.
Proof.
  intros Hs. unfold exec_bad. run_step. intros [] s1 Hs1. run_step. intros [] s2 Hs2. apply run_ret. by left.
Qed.

Lemma switchuvm_run cur (s : K) (Q : unit → K → Prop) R :
  (p_pgdir (proc_at s cur) ≠ 0 → ∀ esp0,
   Q tt (Kernel (kn s) (ptab s) (nextpid s) (initproc s) (ticks s) (V2P (p_pgdir (proc_at s cur))) esp0)) →
  run (switchuvm cur) Q R s.
Proof.
  intros HQ. unfold switchuvm. apply run_bind, run_gets. case_match; [apply run_panic|].
  destruct (Z.eqb_spec (p_pgdir (proc_at s cur)) 0) as [_|Hd]; [apply run_panic|]. by apply run_modify, HQ.
Qed.

Lemma exec_commit_run cur path pgdir sz entry sp s0 s :
  pgdir ≠ 0 → same_procs s0 s →
  run (exec_commit kend cur path pgdir sz entry sp) (exec_post cur path s0) (same_procs s0) s.
Proof.
  intros Hd (Ht & Hn & Hi & _). unfold exec_commit. apply run_bind, run_gets.
  do 3 apply run_bind, run_modify.
  match goal with |- run _ _ _ ?st => set (s1 := st); assert (Hs1 : same_procs s1 s1) by done end.
  do 2 (eapply run_keeps_quiet; [apply same_procs_preorder|keeps|by apply quiet_lift, quiet_lift, quiet_modify
    |eassumption|clear Hs1; intros [] ? Hs1]).
  destruct Hs1 as (Ht1 & Hn1 & Hi1 & _). apply run_bind, switchuvm_run. intros Hd' esp0.
  match goal with |- run _ _ _ ?st => set (s2 := st); assert (Hs2 : same_procs s2 s2) by done end.
  eapply run_keeps_quiet; [apply same_procs_preorder|keeps|apply quiet_lift, quiet_lift, freevm_quiet|eassumption|].
  intros [] s3 (Ht3 & Hn3 & Hi3 & _ & Hc3 & _). apply run_ret. right. split; [done|]. exists pgdir, sz.
  assert (Hp : ptab s3 = alter (λ x, new_image (copy_name (p_name x) (last_elem path path)) pgdir sz x) cur (ptab s0)).
  { rewrite Ht3. cbn. rewrite Ht1. cbn. by rewrite !list_alter_alter_eq, Ht. }
  split_and!; [done| | | |done].
  - rewrite Hc3. cbn. f_equal. revert Hd'. rewrite Ht3 in Hp. cbn in Hp. unfold proc_at. rewrite Hp.
    destruct (decide (cur < length (ptab s0))%nat) as [Hl|Hl]; [by rewrite alter_proc_at|].
    rewrite list_lookup_total_alt, lookup_ge_None_2; [done|]. rewrite length_alter. lia.
  - by rewrite Hn3; cbn; rewrite Hn1; cbn.
  - by rewrite Hi3; cbn; rewrite Hi1; cbn.
Qed.

Lemma exec_image_run cur path argv entry pgdir sz s0 s :
  pgdir ≠ 0 → same_procs s0 s →
  run (exec_image kend cur path argv entry pgdir sz) (exec_post cur path s0) (same_procs s0) s.
Proof.
  intros Hd Hs. unfold exec_image. run_step. intros sz1 s1 Hs1. cbv beta.
  case_match; [by apply exec_bad_run|]. run_step. intros [] s2 Hs2.
  run_step. intros [[[sp argc] us]|] s3 Hs3; [|by apply exec_bad_run].
  run_step. intros r s4 Hs4. case_match; [by apply exec_bad_run|by apply exec_commit_run].
Qed.

Lemma exec_run cur path argv s :
  run (exec kend data cur devsw_read path argv) (exec_post cur path s) (same_procs s) s.
Proof.
  assert (Hs : same_procs s s) by done. unfold exec. run_step. intros [] s1 Hs1.
  run_step. intros [ip|] s2 Hs2; [|run_step; intros [] s3 Hs3; apply run_ret; by left].
  run_step. intros [] s3 Hs3. run_step. intros r s4 Hs4. cbv beta.
  case_match; [by apply exec_bad_run|]. case_match; [by apply exec_bad_run|].
  run_step. intros pgdir s5 Hs5. destruct (Z.eqb_spec pgdir 0) as [_|Hd]; [by apply exec_bad_run|].
  run_step. intros [sz|] s6 Hs6; [|by apply exec_bad_run].
  run_step. intros [] s7 Hs7. run_step. intros [] s8 Hs8. by apply exec_image_run.
Qed.


(** ** Traps *)

Definition user_mode (tf : Z) (s : K) : Prop := Z.land (load_word (cur_mem s) (tf + TF_CS)) 3 = DPL_USER.

Lemma run_kload a (Q : Z → K → Prop) R s : Q (load_word (cur_mem s) a) s → run (on_mem (kload a)) Q R s.
Proof. by destruct s as [[] ? ? ? ? ? ?]. Qed.

Lemma exit_never_returns cur (Q : unit → K → Prop) s : run (exit kend cur) Q (λ _, True) s.
Proof.
  unfold exit. apply run_bind, run_gets. case_decide; [apply run_panic|].
  do 3 (apply run_bind, run_any; [intros|done]).
  apply run_panic.
Qed.

Lemma exit_if_killed_run cur s :
  run (exit_if_killed kend cur) (λ _ s', p_killed (proc_at s' cur) = 0) (λ _, True) s.
Proof.
  unfold exit_if_killed. apply run_bind, run_gets. case_match eqn:E; [apply exit_never_returns|].
  apply run_ret. apply negb_false_iff in E. lia.
Qed.

Lemma exit_to_user_run cur tf s :
  run (exit_to_user kend (Some cur) tf) (λ _ s', p_killed (proc_at s' cur) = 0 ∨ ¬ user_mode tf s') (λ _, True) s.
Proof.
  unfold exit_to_user. apply run_bind, run_gets. case_match eqn:E; [apply run_ret; left; lia|].
  apply run_bind, run_kload. case_match eqn:E2; [apply exit_never_returns|]. apply run_ret.
  right. unfold user_mode. lia.
Qed.


Lemma on_mem_kload a (s : K) : on_mem (kload a) s = Ret (load_word (cur_mem s) a) s.
Proof. by destruct s as [[] ? ? ? ? ? ?]. Qed.

(** The state after the clock's part of [trap]. *)
Definition ticked (cpu : Z) (s : K) : K :=
  if cpu =? 0 then
    Kernel (kn s) (wake (ChanAddr aticks) <$> ptab s) (nextpid s) (initproc s) (u32 (ticks s + 1)) (cr3 s) (tss_esp0 s)
  else s.

Lemma ticked_at cpu s p x :
  ptab s !! p = Some x →
  ∃ y, ptab (ticked cpu s) !! p = Some y ∧ p_killed y = p_killed x ∧ (p_state x = RUNNING → p_state y = RUNNING) ∧
    (cpu = 0 → p_state x = SLEEPING → p_chan x = Some (ChanAddr aticks) → p_state y = RUNNABLE).
Proof.
  intros Hx. unfold ticked. destruct (Z.eqb_spec cpu 0) as [->|Hc]; [|by exists x].
  exists (wake (ChanAddr aticks) x). cbn. rewrite list_lookup_fmap, Hx. split; [done|].
  unfold wake. case_decide as Hd; [destruct Hd as [-> _]; by split_and!|]. split_and!; try done.
  intros _ Hs Hw. by destruct Hd.
Qed.

Definition yielded (cur : nat) (s : K) : K :=
  Kernel (kn s) (alter (set_state RUNNABLE) cur (ptab s)) (nextpid s) (initproc s) (ticks s) (cr3 s) (tss_esp0 s).

Lemma yield_sleeps cur (s : K) x : ptab s !! cur = Some x → yield cur s = Sleeps (yielded cur s).
Proof.
  intros Hx. unfold yield. erewrite bind_ret by reflexivity. unfold sched. erewrite bind_ret by reflexivity.
  unfold proc_at. cbn. rewrite alter_proc_at by by eapply lookup_lt_Some. by case_decide.
Qed.

Lemma bind_sleeps {A B} (m : M K A) (k : A → M K B) s s' : m s = Sleeps s' → (m ≫= k) s = Sleeps s'.
Proof. unfold mbind, M_bind. by intros ->. Qed.

Lemma trap_timer h cpu cur tf s x :
  ptab s !! cur = Some x → p_state x = RUNNING → p_killed x = 0 →
  load_word (cur_mem s) (tf + TF_TRAPNO) = T_IRQ0 + IRQ_TIMER →
  trap kend data forkret trapret aticks devsw_read devsw_write junk h cpu (Some cur) tf s =
  Sleeps (yielded cur (ticked cpu s)).
Proof.
  intros Hx Hr Hk Htn. destruct (ticked_at cpu s cur x Hx) as (y & Hy & Hky & Hry & _).
  unfold trap. rewrite (bind_ret _ _ _ _ _ (on_mem_kload _ _)), Htn.
  change (T_IRQ0 + IRQ_TIMER =? T_SYSCALL) with false. cbv iota.
  assert (Hpa : proc_at (ticked cpu s) cur = y) by (unfold proc_at; by apply list_lookup_total_correct).
  rewrite (bind_ret _ _ _ tt (ticked cpu s)); [|unfold trap_switch, ticked; cbn; by destruct (cpu =? 0)].
  rewrite (bind_ret _ _ _ tt (ticked cpu s)).
  2:{ unfold exit_to_user, get_proc. rewrite (bind_ret _ _ _ y (ticked cpu s)); [|unfold gets; by rewrite Hpa].
      cbv beta. by rewrite Hky, Hk. }
  apply bind_sleeps. unfold get_proc. rewrite (bind_ret _ _ _ y (ticked cpu s)); [|unfold gets; by rewrite Hpa].
  cbv beta. rewrite decide_True by auto. by eapply yield_sleeps.
Qed.

(** A clock interrupt takes the CPU from a running process that was
    not killed: [trap] does not return to it, and the process is left
    runnable.  On the first CPU the tick is counted, modulo 2^32, and
    every process that sleeps on [ticks] becomes runnable. *)
Theorem clock_preempts h cpu cur tf s x :
  ptab s !! cur = Some x → p_state x = RUNNING → p_killed x = 0 →
  load_word (cur_mem s) (tf + TF_TRAPNO) = T_IRQ0 + IRQ_TIMER →
  ∃ s', trap kend data forkret trapret aticks devsw_read devsw_write junk h cpu (Some cur) tf s = Sleeps s' ∧
    p_state <$> ptab s' !! cur = Some RUNNABLE ∧
    ticks s' = (if cpu =? 0 then u32 (ticks s + 1) else ticks s) ∧
    (cpu = 0 → ∀ p y, ptab s !! p = Some y → p_state y = SLEEPING → p_chan y = Some (ChanAddr aticks) →
       p_state <$> ptab s' !! p = Some RUNNABLE).
Proof.
  intros Hx Hr Hk Htn. exists (yielded cur (ticked cpu s)).
  destruct (ticked_at cpu s cur x Hx) as (z & Hz & _). split; [by eapply trap_timer|]. split_and!.
  - cbn. by rewrite list_lookup_alter_eq, Hz.
  - unfold ticked. cbn. by case_match.
  - intros Hc p y Hy Hs Hw. destruct (ticked_at cpu s p y Hy) as (w & Hwl & _ & _ & Hwr). cbn.
    destruct (decide (p = cur)) as [->|Hne]; [by rewrite list_lookup_alter_eq, Hz|].
    rewrite list_lookup_alter_ne by done. rewrite Hwl. cbn. by rewrite Hwr.
Qed.

(** [sleep(-n)] with [0 < n] does not return at once: the loop of
    [sys_sleep] compares the ticks as unsigned numbers, and sleeps at every
    tick up to [2^32 - n]. *)
Theorem sleep_negative_waits cur (s : K) ticks0 n :
  0 < n < 2 ^ 31 → 0 <= u32 (ticks s - ticks0) < 2 ^ 32 - n →
  p_killed (proc_at s cur) = 0 → (cur < length (ptab s))%nat →
  ∃ s', sleep_loop aticks cur ticks0 (- n) s = Sleeps s' ∧
    p_state <$> ptab s' !! cur = Some SLEEPING ∧ p_chan <$> ptab s' !! cur = Some (Some (ChanAddr aticks)).
Proof.
  intros Hn Ht Hk [x Hx]%lookup_lt_is_Some. unfold sleep_loop.
  erewrite bind_ret by reflexivity. rewrite (proj2 (Z.ltb_lt _ _)).
  2:{ replace (u32 (- n)) with (2 ^ 32 - n); [lia|]. unfold u32. apply Z.mod_unique_pos with (-1); lia. }
  erewrite bind_ret by reflexivity. rewrite Hk. cbn -[sleep]. unfold sleep.
  erewrite bind_sleeps; [eexists; split; [reflexivity|]|].
  2:{ do 2 (erewrite bind_ret by reflexivity). unfold sched. erewrite bind_ret by reflexivity.
      unfold proc_at. cbn. rewrite !alter_proc_at by (rewrite ?length_alter; by eapply lookup_lt_Some). by case_decide. }
  cbn. by rewrite !list_lookup_alter_eq, Hx.
Qed.
End kern_spec.
