(* ===== verification/FileRefs.v ===== *)
(** * Open files and descriptors

    The reference count of every struct file is the number of descriptors
    of all processes that refer to it, and a process that is not alive has
    none: every system call that returns keeps this, and so does [exit]. *)

From S2P Require Import Prelude Str Layout Mmu BlockLayer Kalloc Vm Pipe Fs File Proc ProcSpec ProcLife Syscall Sysfile Exec Trap.

(** One if the slot refers to file [f]. *)
Definition refers (f : nat) (o : option nat) : Z := if decide (o = Some f) then 1 else 0.

Definition fd_count (f : nat) (l : list (option nat)) : Z := foldr (λ o n, refers f o + n) 0 l.

Lemma fd_count_insert f l fd o o' :
  l !! fd = Some o → fd_count f (<[fd := o']> l) = fd_count f l - refers f o + refers f o'.
Proof.
  unfold fd_count. revert fd; induction l as [|a l IH]; intros [|fd] H; try done; cbn in *.
  - injection H as ->. lia.
  - etransitivity; [apply f_equal, (IH fd H)|lia].
Qed.

Lemma fd_count_none f n : fd_count f (replicate n None) = 0.
Proof. unfold fd_count. by induction n as [|n IH]. Qed.

Lemma fd_count_nonneg f l : 0 <= fd_count f l.
Proof. unfold fd_count, refers. induction l as [|o l IH]; [done|]. cbn. case_decide; lia. Qed.

Lemma fd_count_pos f l fd : l !! fd = Some (Some f) → 0 < fd_count f l.
Proof.
  revert fd; induction l as [|a l IH]; intros [|fd] H; try done.
  - injection H as ->. pose proof (fd_count_nonneg f l). unfold fd_count, refers in *. cbn. rewrite decide_True by done. lia.
  - specialize (IH fd H). unfold fd_count, refers in *. cbn. case_decide; lia.
Qed.

(** A process that can hold open files. *)
Definition live (x : proc) : bool :=
  match p_state x with SLEEPING | RUNNABLE | RUNNING => true | UNUSED | EMBRYO | ZOMBIE => false end.

Section refs.
Context {T : Type} `{!BlockLayer T, !TxLayer T}.
Variables kend data forkret trapret aticks : Z.
Variable devsw_read : Z → option (nat → Z → M (fs T) (Z * list Z)).
Variable devsw_write : Z → option (nat → list Z → M (fs T) Z).
Variable junk : list Z.

Local Abbreviation K := (kernel T).

Definition ref_of (s : K) (f : nat) : Z := f_ref (k_files (kn s) !!! f).
Definition fds (l : list proc) (f : nat) : Z := foldr (λ x n, fd_count f (p_ofile x) + n) 0 l.

Lemma fds_insert l f p x y :
  l !! p = Some x → fds (<[p := y]> l) f = fds l f - fd_count f (p_ofile x) + fd_count f (p_ofile y).
Proof.
  unfold fds. revert p; induction l as [|a l IH]; intros [|p] H; try done; cbn in *.
  - injection H as ->. lia.
  - etransitivity; [apply f_equal, (IH p H)|lia].
Qed.

Lemma fds_member l f p x : l !! p = Some x → fd_count f (p_ofile x) <= fds l f.
Proof.
  assert (Hn : ∀ l, 0 <= fds l f).
  { unfold fds. induction l0 as [|y l0 IH]; cbn; [done|]. pose proof (fd_count_nonneg f (p_ofile y)). lia. }
  revert p; induction l as [|y l IH]; intros [|p] H; try done.
  - injection H as ->. specialize (Hn l). unfold fds in *. cbn. lia.
  - specialize (IH p H). pose proof (fd_count_nonneg f (p_ofile y)). unfold fds in *. cbn. lia.
Qed.

(** Counts and descriptors agree up to [d] references that are held by the
    call of process [cur], the slot [ex] being one that [fork] fills. *)
Record finv (cur : nat) (d : nat → Z) (ex : option nat) (s : K) : Prop := {
  fi_live : live (proc_at s cur) = true;
  fi_bal : ∀ f, ref_of s f = fds (ptab s) f + d f;
  fi_len : ∀ p x, ptab s !! p = Some x → length (p_ofile x) = NOFILE;
  fi_closed : ∀ p x, ptab s !! p = Some x → ex ≠ Some p → live x = false → p_ofile x = replicate NOFILE None }.

Definition none_held : nat → Z := λ _, 0.
Definition hold (f : nat) (n : Z) (d : nat → Z) : nat → Z := λ g, d g + n * refers g (Some f).

(** Changes of neither. *)
Definition same_files (k k' : kern T) : Prop := f_ref <$> k_files k' = f_ref <$> k_files k.
Definition view (x : proc) : list (option nat) * bool := (p_ofile x, live x).
Definition neutral (s s' : K) : Prop := same_files (kn s) (kn s') ∧ view <$> ptab s' = view <$> ptab s.

#[local] Instance same_files_preorder : PreOrder same_files.
Proof. unfold same_files. split; [by intros k|]. intros k1 k2 k3 H1 H2. congruence. Qed.
#[local] Instance neutral_preorder : PreOrder neutral.
Proof. split; [by intros s|]. intros s1 s2 s3 [] []. split; [by etrans|congruence]. Qed.

Lemma fds_view l l' f : view <$> l' = view <$> l → fds l' f = fds l f.
Proof.
  unfold fds. revert l'; induction l as [|x l IH]; intros [|y l'] E; try done. cbn in *. injection E as E1 E2 E3.
  by rewrite E1, (IH _ E3).
Qed.

Lemma ref_of_same s s' f : same_files (kn s) (kn s') → ref_of s' f = ref_of s f.
Proof.
  intros E. unfold ref_of. rewrite !list_lookup_total_alt.
  assert (H : f_ref <$> (k_files (kn s') !! f) = f_ref <$> (k_files (kn s) !! f)) by by rewrite <-!list_lookup_fmap, E.
  destruct (k_files (kn s') !! f), (k_files (kn s) !! f); cbn in *; congruence.
Qed.

Lemma view_lookup (l l' : list proc) p x :
  view <$> l' = view <$> l → l' !! p = Some x → ∃ y, l !! p = Some y ∧ view y = view x.
Proof.
  intros E Hx. assert (Hy : view <$> l !! p = Some (view x)) by by rewrite <-list_lookup_fmap, <-E, list_lookup_fmap, Hx.
  apply fmap_Some in Hy as (y & Hy & Ey). by exists y.
Qed.

Lemma view_at (l l' : list proc) p : view <$> l' = view <$> l → view (l' !!! p) = view (l !!! p).
Proof.
  intros E. rewrite !list_lookup_total_alt.
  assert (H : view <$> l' !! p = view <$> l !! p) by by rewrite <-!list_lookup_fmap, E.
  destruct (l' !! p), (l !! p); cbn in *; congruence.
Qed.

Lemma finv_neutral cur d ex s s' : neutral s s' → finv cur d ex s → finv cur d ex s'.
Proof.
  intros [Hf Hv] [Ha Hb Hl Hc]. split.
  - pose proof (view_at _ _ cur Hv) as E. unfold proc_at in *. injection E as _ E. congruence.
  - intros f. by rewrite (ref_of_same s s' f Hf), (fds_view _ _ f Hv).
  - intros p x Hx. destruct (view_lookup _ _ _ _ Hv Hx) as (y & Hy & E). injection E as <- _. by eapply Hl.
  - intros p x Hx Hne Hlx. destruct (view_lookup _ _ _ _ Hv Hx) as (y & Hy & E). injection E as <- E.
    eapply Hc; [done..|congruence].
Qed.

Lemma finv_ext cur d d' ex s : (∀ f, d f = d' f) → finv cur d ex s → finv cur d' ex s.
Proof. intros E [Ha Hb Hl Hc]. split; [done| |done..]. intros f. by rewrite <-E. Qed.

(** ** Routines that leave counts and descriptors alone *)

Lemma on_fs_same {A} (m : M (fs T) A) : keeps same_files (on_fs m).
Proof. intros k. unfold run, on_fs, lift. by destruct (m (k_fs k)). Qed.

Lemma on_kmem_same {A} (m : M kmem A) : keeps same_files (on_kmem m : M (kern T) A).
Proof. intros k. unfold run, on_kmem, lift. by destruct (m (k_kmem k)). Qed.

Lemma get_file_same f : keeps same_files (get_file f : M (kern T) file).
Proof. apply keeps_gets, _. Qed.

Lemma set_pipes_same g : keeps same_files (set_pipes g : M (kern T) unit).
Proof. by apply keeps_modify. Qed.

Lemma get_pipe_same p : keeps same_files (get_pipe p : M (kern T) psys).
Proof. apply keeps_gets, _. Qed.

Lemma begin_op_same : keeps same_files (File.begin_op : M (kern T) unit).
Proof. apply on_fs_same. Qed.

Lemma end_op_same : keeps same_files (File.end_op : M (kern T) unit).
Proof. apply on_fs_same. Qed.

Lemma upd_file_same f g : (∀ x, f_ref (g x) = f_ref x) → keeps same_files (upd_file f g : M (kern T) unit).
Proof.
  intros Hg. apply keeps_modify. intros k. unfold same_files. cbn.
  generalize (k_files k). intros l. revert f; induction l as [|x l IH]; intros [|f]; cbn; [done..| |].
  - by rewrite Hg.
  - by rewrite IH.
Qed.

#[local] Hint Resolve on_fs_same on_kmem_same get_file_same set_pipes_same get_pipe_same begin_op_same end_op_same : keeps_db.
#[local] Hint Extern 1 (keeps same_files (upd_file _ _)) => by apply upd_file_same : keeps_db.

Lemma run_pipe_same {A} p (op : psys → result A * psys) : keeps same_files (run_pipe p op : M (kern T) A).
Proof. intros k. unfold run, run_pipe. by destruct (op _) as [[] ?]. Qed.

#[local] Hint Extern 1 (keeps same_files (run_pipe _ _)) => apply run_pipe_same : keeps_db.

Lemma fileread_same me killed f n : keeps same_files (fileread me killed devsw_read f n).
Proof. unfold fileread. keeps. Qed.

Lemma filewrite_same me killed f src : keeps same_files (filewrite me killed devsw_write f src).
Proof.
  unfold filewrite. keeps. generalize (Z.of_nat (length src)) as n. generalize 0 as i.
  generalize src at 2 as l. induction (1 + length src)%nat as [|fuel IH]; intros l i n; cbn [filewrite_loop]; keeps.
Qed.

Lemma filestat_same me f : keeps same_files (filestat me f : M (kern T) _).
Proof. unfold filestat. keeps. Qed.

Lemma close_pipe_same p w : keeps same_files (close_pipe kend p w : M (kern T) unit).
Proof. unfold close_pipe. keeps. Qed.

(** ... of the whole kernel. *)
Lemma on_kern_neutral {A} (m : M (kern T) A) : keeps same_files m → keeps neutral (on_kern m).
Proof. intros Hm s. specialize (Hm (kn s)). unfold run, on_kern, lift in *. by destruct (m (kn s)). Qed.

Lemma on_mem_neutral {A} (m : M kmem A) : keeps neutral (on_mem m : M K A).
Proof. apply on_kern_neutral, on_kmem_same. Qed.

Lemma on_inodes_neutral {A} (m : M (fs T) A) : keeps neutral (on_inodes m).
Proof. apply on_kern_neutral, on_fs_same. Qed.

Lemma get_proc_neutral p : keeps neutral (get_proc p : M K proc).
Proof. apply keeps_gets, _. Qed.

Lemma set_ptab_neutral (g : list proc → list proc) :
  (∀ l, view <$> g l = view <$> l) → keeps neutral (set_ptab g : M K unit).
Proof. intros Hg. apply keeps_modify. intros s. split; [done|]. cbn. apply Hg. Qed.

Lemma alter_view f p (l : list proc) : (∀ x, view (f x) = view x) → view <$> alter f p l = view <$> l.
Proof. intros Hf. revert p; induction l as [|x l IH]; intros [|p]; cbn; [done..| |]; by rewrite ?Hf, ?IH. Qed.

Lemma upd_proc_neutral p f : (∀ x, view (f x) = view x) → keeps neutral (upd_proc p f : M K unit).
Proof. intros Hf. apply set_ptab_neutral. intros l. by apply alter_view. Qed.

Lemma by_me_neutral {A} cur (f : Z → M (fs T) A) : keeps neutral (by_me cur f).
Proof. apply keeps_bind; [apply _|apply get_proc_neutral|]. intros x. apply on_inodes_neutral. Qed.

#[local] Hint Resolve fileread_same filewrite_same filestat_same close_pipe_same on_mem_neutral on_inodes_neutral
  get_proc_neutral by_me_neutral : keeps_db.
#[local] Hint Extern 2 (keeps neutral (on_kern _)) => apply on_kern_neutral; solve [auto with keeps_db nocore] : keeps_db.
#[local] Hint Extern 2 (keeps neutral (upd_proc _ _)) => by apply upd_proc_neutral : keeps_db.
#[local] Hint Extern 2 (keeps neutral (modify _)) => by apply keeps_modify : keeps_db.
#[local] Hint Extern 2 (keeps neutral (gets _)) => apply keeps_gets, _ : keeps_db.

Lemma begin_neutral : keeps neutral (begin_op : M K unit).
Proof. apply on_kern_neutral, begin_op_same. Qed.

Lemma end_neutral : keeps neutral (end_op : M K unit).
Proof. apply on_kern_neutral, end_op_same. Qed.

Lemma uload_neutral cur a : keeps neutral (uload cur a : M K Z).
Proof. intros s. unfold run, uload. destruct (has _ _); [reflexivity|done]. Qed.

Lemma ustore_neutral cur a v : keeps neutral (ustore cur a v : M K unit).
Proof. intros s. unfold run, ustore. destruct (has _ _ && has _ _); [apply on_mem_neutral|done]. Qed.

#[local] Hint Resolve begin_neutral end_neutral uload_neutral ustore_neutral : keeps_db.

Lemma uloads_neutral cur n : ∀ a, keeps neutral (uloads cur n a : M K _).
Proof. induction n as [|n IH]; intros a; cbn [uloads]; keeps. Qed.

Lemma ustores_neutral cur l : ∀ a, keeps neutral (ustores cur a l : M K unit).
Proof. induction l as [|c l IH]; intros a; cbn [ustores]; keeps. Qed.

Lemma fetchstr_loop_neutral cur n : ∀ a, keeps neutral (fetchstr_loop cur n a : M K _).
Proof. induction n as [|n IH]; intros a; cbn [fetchstr_loop]; keeps. Qed.

#[local] Hint Resolve uloads_neutral ustores_neutral fetchstr_loop_neutral : keeps_db.
Lemma fetchint_neutral cur a : keeps neutral (fetchint cur a : M K _).
Proof. unfold fetchint. keeps. Qed.

Lemma fetchstr_neutral cur a : keeps neutral (fetchstr cur a : M K _).
Proof. unfold fetchstr. keeps. Qed.

#[local] Hint Resolve fetchint_neutral fetchstr_neutral : keeps_db.

Lemma argint_neutral cur n : keeps neutral (argint cur n : M K _).
Proof. unfold argint. keeps. Qed.

#[local] Hint Resolve argint_neutral : keeps_db.

Lemma argptr_neutral cur n sz : keeps neutral (argptr cur n sz : M K _).
Proof. unfold argptr. keeps. Qed.

Lemma argstr_neutral cur n : keeps neutral (argstr cur n : M K _).
Proof. unfold argstr. keeps. Qed.

Lemma argfd_neutral cur n : keeps neutral (argfd cur n : M K _).
Proof. unfold argfd. keeps. Qed.

Lemma inode_neutral ip : keeps neutral (inode_ ip : M K _).
Proof. unfold inode_. keeps. Qed.

Lemma ilock_neutral cur ip : keeps neutral (ilock_ cur ip : M K _).
Proof. unfold ilock_. keeps. Qed.

Lemma iunlock_neutral cur ip : keeps neutral (iunlock_ cur ip : M K _).
Proof. unfold iunlock_. keeps. Qed.

Lemma iunlockput_neutral cur ip : keeps neutral (iunlockput_ cur ip : M K _).
Proof. unfold iunlockput_. keeps. Qed.

Lemma iput_neutral cur ip : keeps neutral (iput_ cur ip : M K _).
Proof. unfold iput_. keeps. Qed.

Lemma namei_neutral cur path : keeps neutral (namei_ cur devsw_read path).
Proof. unfold namei_. keeps. Qed.

Lemma nameiparent_neutral cur path : keeps neutral (nameiparent_ cur devsw_read path).
Proof. unfold nameiparent_. keeps. Qed.

Lemma store_stat_neutral cur p st : keeps neutral (store_stat cur p st : M K _).
Proof. unfold store_stat. keeps. Qed.

#[local] Hint Resolve argptr_neutral argstr_neutral argfd_neutral inode_neutral ilock_neutral iunlock_neutral iunlockput_neutral iput_neutral namei_neutral nameiparent_neutral store_stat_neutral : keeps_db.

Lemma rw_args_neutral cur : keeps neutral (rw_args cur : M K _).
Proof. unfold rw_args. keeps. Qed.

Lemma link_bad_neutral cur ip : keeps neutral (link_bad cur ip : M K _).
Proof. unfold link_bad. keeps. Qed.

Lemma unlink_bad_neutral cur dp : keeps neutral (unlink_bad cur dp : M K _).
Proof. unfold unlink_bad. keeps. Qed.

Lemma create_dots_neutral cur dp ip : keeps neutral (create_dots cur devsw_read devsw_write dp ip).
Proof. unfold create_dots. keeps. Qed.

Lemma unlink_entry_neutral cur dp ip off : keeps neutral (unlink_entry cur devsw_write dp ip off).
Proof. unfold unlink_entry. keeps. Qed.

Lemma made_neutral cur r : keeps neutral (made cur r : M K _).
Proof. unfold made. keeps. Qed.

Lemma switchuvm_neutral p : keeps neutral (switchuvm p : M K _).
Proof. unfold switchuvm. keeps. Qed.

#[local] Hint Resolve rw_args_neutral link_bad_neutral unlink_bad_neutral create_dots_neutral unlink_entry_neutral made_neutral switchuvm_neutral : keeps_db.

Lemma create_neutral cur path type major minor : keeps neutral (create cur devsw_read devsw_write path type major minor).
Proof. unfold create. keeps. Qed.

Lemma isdirempty_neutral dp : keeps neutral (isdirempty devsw_read dp).
Proof.
  unfold isdirempty. apply keeps_bind; [apply _|apply inode_neutral|]. intros x. generalize (2 * DIRENT_SIZE) as off.
  induction (1 + Z.to_nat (i_size x / DIRENT_SIZE))%nat as [|n IH]; intros off; cbn [isdirempty_loop]; keeps.
Qed.

#[local] Hint Resolve create_neutral isdirempty_neutral : keeps_db.

Lemma open_inode_neutral cur path omode : keeps neutral (open_inode cur devsw_read devsw_write path omode).
Proof. unfold open_inode. keeps. Qed.

Lemma sys_read_neutral cur : keeps neutral (sys_read cur devsw_read).
Proof. unfold sys_read. keeps. Qed.

Lemma sys_write_neutral cur : keeps neutral (sys_write cur devsw_write).
Proof. unfold sys_write. keeps. Qed.

Lemma sys_fstat_neutral cur : keeps neutral (sys_fstat cur : M K _).
Proof. unfold sys_fstat. keeps. Qed.

Lemma sys_link_neutral cur : keeps neutral (sys_link cur devsw_read devsw_write).
Proof. unfold sys_link. keeps. Qed.

Lemma sys_unlink_neutral cur : keeps neutral (sys_unlink cur devsw_read devsw_write).
Proof. unfold sys_unlink. keeps. Qed.

Lemma sys_mkdir_neutral cur : keeps neutral (sys_mkdir cur devsw_read devsw_write).
Proof. unfold sys_mkdir. keeps. Qed.

Lemma sys_mknod_neutral cur : keeps neutral (sys_mknod cur devsw_read devsw_write).
Proof. unfold sys_mknod. keeps. Qed.

Lemma sys_chdir_neutral cur : keeps neutral (sys_chdir cur devsw_read).
Proof. unfold sys_chdir. keeps. Qed.

Lemma growproc_neutral cur n : keeps neutral (growproc kend cur n : M K _).
Proof. unfold growproc. keeps. Qed.

Lemma exec_bad_neutral cur d ip : keeps neutral (exec_bad kend cur d ip : M K _).
Proof. unfold exec_bad. keeps. Qed.

Lemma exec_commit_neutral cur path d sz e sp : keeps neutral (exec_commit kend cur path d sz e sp : M K _).
Proof. unfold exec_commit. keeps. Qed.

#[local] Hint Resolve open_inode_neutral sys_read_neutral sys_write_neutral sys_fstat_neutral sys_link_neutral sys_unlink_neutral sys_mkdir_neutral sys_mknod_neutral sys_chdir_neutral growproc_neutral exec_bad_neutral exec_commit_neutral : keeps_db.

Lemma loaduvm_neutral pgdir addr ip off sz : keeps neutral (loaduvm devsw_read pgdir addr ip off sz).
Proof.
  unfold loaduvm. case_match; [by keeps|]. generalize 0 as i.
  induction (2 + Z.to_nat (sz / PGSIZE))%nat as [|n IH]; intros i; cbn [loaduvm_loop]; keeps.
Qed.

#[local] Hint Resolve loaduvm_neutral : keeps_db.

Lemma load_segments_neutral n pgdir ip : ∀ off sz, keeps neutral (load_segments kend devsw_read n pgdir ip off sz).
Proof. induction n as [|n IH]; intros off sz; cbn [load_segments]; keeps. Qed.

Lemma push_args_neutral argv pgdir : ∀ sp argc us, keeps neutral (push_args argv pgdir sp argc us : M K _).
Proof. induction argv as [|a argv IH]; intros sp argc us; cbn [push_args]; keeps. Qed.

Lemma fetch_argv_neutral cur n uargv : ∀ i, keeps neutral (fetch_argv cur n uargv i : M K _).
Proof. induction n as [|n IH]; intros i; cbn [fetch_argv]; keeps. Qed.

#[local] Hint Resolve load_segments_neutral push_args_neutral fetch_argv_neutral : keeps_db.

Lemma sys_exec_neutral cur : keeps neutral (sys_exec kend data cur devsw_read).
Proof. unfold sys_exec, exec, exec_image. keeps. Qed.

Lemma alter_view_at f p (l : list proc) : view (f (l !!! p)) = view (l !!! p) → view <$> alter f p l = view <$> l.
Proof.
  revert p; induction l as [|x l IH]; intros [|p]; cbn; [done..| |]; intros E; f_equal; [done|]. by apply (IH p).
Qed.

Lemma kill_neutral pid : keeps neutral (kill pid : M K Z).
Proof.
  intros s. unfold kill. apply run_bind, run_gets. case_match; [|apply run_ret; reflexivity].
  eapply run_keeps; [apply neutral_preorder|by apply upd_proc_neutral|reflexivity| |done]. intros [] s1 H1.
  apply run_bind, run_gets. apply run_bind. case_decide as Hs; [|apply run_ret; by apply run_ret].
  apply run_modify, run_ret. etransitivity; [exact H1|]. split; [done|]. cbn. apply alter_view_at.
  unfold view, live, proc_at in *. cbn. by rewrite Hs.
Qed.

Lemma wakeup1_neutral c : keeps neutral (wakeup1 c : M K unit).
Proof.
  apply set_ptab_neutral. intros l. rewrite <-list_fmap_compose. apply list_fmap_ext. intros i x Hx. cbn.
  unfold wake. case_decide as Hd; [|done]. unfold view, live. cbn. by rewrite (proj1 Hd).
Qed.

Lemma reparent_neutral cur n : ∀ i, keeps neutral (reparent cur n i : M K unit).
Proof.
  pose proof wakeup1_neutral as Hw.
  induction n as [|n IH]; intros i; cbn [reparent]; keeps.
Qed.

Lemma sleep_never cur c {A} (k : unit → M K A) (Q : A → K → Prop) s : run (sleep cur c ≫= k) Q (λ _, True) s.
Proof.
  apply run_bind. unfold sleep. do 2 apply run_bind, run_modify. apply run_bind, run_gets.
  case_decide; [apply run_panic|by apply run_sleeps].
Qed.

(** ** Routines that move references *)

Lemma run_neutral {A B} (m : M K A) (k : A → M K B) cur d ex Q s :
  keeps neutral m → finv cur d ex s → (∀ a s', neutral s s' → finv cur d ex s' → run (k a) Q (λ _, True) s') →
  run (m ≫= k) Q (λ _, True) s.
Proof.
  intros Hm Hs Hk. eapply run_keeps; [apply neutral_preorder|exact Hm|reflexivity| |done].
  intros a s' Hn. apply Hk; [done|by eapply finv_neutral].
Qed.

(** The count of file [f] moves by [n]. *)
Definition bumped (f : nat) (n : Z) (k k' : kern T) : Prop :=
  ∀ g, f_ref (k_files k' !!! g) = f_ref (k_files k !!! g) + n * refers g (Some f).

Lemma bumped_same f n k k1 k2 : bumped f n k k1 → same_files k1 k2 → bumped f n k k2.
Proof.
  intros Hb Hs g. rewrite <-Hb. rewrite !list_lookup_total_alt.
  assert (H : f_ref <$> (k_files k2 !! g) = f_ref <$> (k_files k1 !! g)) by by rewrite <-!list_lookup_fmap, Hs.
  destruct (k_files k2 !! g), (k_files k1 !! g); cbn in *; congruence.
Qed.

Lemma bumped_upd f r n (k : kern T) :
  (f < length (k_files k))%nat → r = f_ref (k_files k !!! f) + n →
  bumped f n k (Kern (alter (with_fref r) f (k_files k)) (k_pipes k) (k_kmem k) (k_fs k)).
Proof.
  intros [x Hx]%lookup_lt_is_Some ->. intros g. cbn. rewrite (alter_insert _ _ _ _ Hx). unfold refers.
  destruct (decide (g = f)) as [->|Hne].
  - rewrite decide_True by done. rewrite list_lookup_total_insert_eq by by eapply lookup_lt_Some. cbn. lia.
  - rewrite list_lookup_total_insert_ne, decide_False by congruence. lia.
Qed.

Lemma ref_in_range (k : kern T) f : 1 <= f_ref (k_files k !!! f) → (f < length (k_files k))%nat.
Proof.
  intros Hr. destruct (decide (f < length (k_files k))%nat) as [|Hge]; [done|].
  rewrite list_lookup_total_alt, lookup_ge_None_2 in Hr by lia. cbn in Hr. lia.
Qed.

Lemma filedup_run f k : run (filedup f) (λ g k', g = f ∧ bumped f 1 k k') (λ _, True) (k : kern T).
Proof.
  unfold filedup. apply run_bind, run_gets. case_match eqn:E; [apply run_panic|].
  apply run_bind, run_modify, run_ret. split; [done|]. unfold file_at in *.
  apply bumped_upd; [apply ref_in_range; lia|done].
Qed.

Lemma fileclose_run me f k : run (fileclose kend me f) (λ _ k', bumped f (-1) k k') (λ _, True) (k : kern T).
Proof.
  unfold fileclose. apply run_bind, run_gets. case_match eqn:E; [apply run_panic|]. unfold file_at in *.
  assert (Hl : (f < length (k_files k))%nat) by (apply ref_in_range; lia).
  apply run_bind, run_modify. case_match eqn:E2; [apply run_ret; by apply bumped_upd|].
  apply run_bind, run_gets. apply run_bind, run_modify. cbn [k_files k_pipes k_kmem k_fs].
  match goal with |- run _ _ _ ?st => assert (Hb : bumped f (-1) k st) end.
  { rewrite list_alter_alter_eq. change (alter (with_fref 0 ∘ _)) with (alter (with_fref 0) : nat → list file → list file).
    apply (bumped_upd f 0 (-1) k Hl). lia. }
  assert (Hk : ∀ ff : file, keeps same_files (upd_file f (with_ftype FD_NONE);;
    match f_type ff with
    | FD_PIPE => close_pipe kend (f_pipe ff) (f_writable ff)
    | FD_INODE => File.begin_op;; on_fs (iput me (f_ip ff));; File.end_op
    | FD_NONE => mret tt
    end)) by (intros ff; keeps).
  eapply run_mono; [apply Hk|intros [] k' Hs; by eapply bumped_same|done].
Qed.

Lemma filealloc_run k :
  run filealloc (λ r k', match r with Some f => bumped f 1 k k' | None => k' = k end) (λ _, True) (k : kern T).
Proof.
  unfold filealloc. apply run_bind, run_gets. case_match eqn:E; [|by apply run_ret].
  apply run_bind, run_modify, run_ret.
  assert (Hs : ∀ l i j, filealloc_scan l i = Some j → (i <= j)%nat ∧ ∃ x, l !! (j - i)%nat = Some x ∧ f_ref x = 0).
  { induction l as [|x l IH]; intros i j Hj; [done|]. cbn in Hj. destruct (Z.eqb_spec (f_ref x) 0) as [Hz|Hz].
    - injection Hj as <-. split; [lia|]. exists x. by rewrite Nat.sub_diag.
    - apply IH in Hj as (Hle & y & Hy & Hz'). split; [lia|]. exists y. split; [|done].
      replace (j - i)%nat with (S (j - S i))%nat by lia. done. }
  apply Hs in E as (_ & x & Hx & Hz). rewrite Nat.sub_0_r in Hx.
  apply bumped_upd; [by eapply lookup_lt_Some|]. rewrite (list_lookup_total_correct _ _ _ Hx). lia.
Qed.

Lemma finv_bumped cur d ex f n s k' :
  finv cur d ex s → bumped f n (kn s) k' →
  finv cur (hold f n d) ex (Kernel k' (ptab s) (nextpid s) (initproc s) (ticks s) (cr3 s) (tss_esp0 s)).
Proof.
  intros [Ha Hb Hl Hc] Hk. split; [done| |done..]. intros g. unfold ref_of, hold. cbn [kn ptab]. rewrite Hk.
  specialize (Hb g). unfold ref_of in Hb. lia.
Qed.

(** A routine of file.c in the kernel. *)
Lemma run_kern {A} (m : M (kern T) A) (Q : A → kern T → Prop) (Q' : A → K → Prop) s :
  run m Q (λ _, True) (kn s) →
  (∀ a k', Q a k' → Q' a (Kernel k' (ptab s) (nextpid s) (initproc s) (ticks s) (cr3 s) (tss_esp0 s))) →
  run (on_kern m) Q' (λ _, True) s.
Proof. intros Hm HQ. unfold run, on_kern, lift in *. destruct (m (kn s)); auto. Qed.

Lemma run_filedup cur d ex f s (Q : nat → K → Prop) :
  finv cur d ex s → (∀ s', ptab s' = ptab s → finv cur (hold f 1 d) ex s' → Q f s') →
  run (on_kern (filedup f)) Q (λ _, True) s.
Proof. intros Hs HQ. eapply run_kern; [apply filedup_run|]. intros g k' [-> Hb]. apply HQ; [done|by apply finv_bumped]. Qed.

Lemma run_fileclose cur d ex me f s (Q : unit → K → Prop) :
  finv cur d ex s → (∀ s', ptab s' = ptab s → finv cur (hold f (-1) d) ex s' → Q tt s') →
  run (on_kern (fileclose kend me f)) Q (λ _, True) s.
Proof. intros Hs HQ. eapply run_kern; [apply fileclose_run|]. intros [] k' Hb. apply HQ; [done|by apply finv_bumped]. Qed.

Lemma run_filealloc cur d ex s (Q : option nat → K → Prop) :
  finv cur d ex s → (∀ f s', ptab s' = ptab s → finv cur (hold f 1 d) ex s' → Q (Some f) s') →
  (∀ s', ptab s' = ptab s → finv cur d ex s' → Q None s') →
  run (on_kern filealloc) Q (λ _, True) s.
Proof.
  intros Hs HQ HN. eapply run_kern; [apply filealloc_run|]. intros [f|] k'; [intros Hb|intros ->].
  - apply HQ; [done|by apply finv_bumped].
  - apply HN; [done|]. by destruct s.
Qed.

(** A process that changes its descriptors. *)
Lemma finv_upd cur d ex p f x s :
  finv cur d ex s → ptab s !! p = Some x → live (f x) = live x →
  length (p_ofile (f x)) = NOFILE → (live x = true ∨ ex = Some p) →
  finv cur (λ g, d g + fd_count g (p_ofile x) - fd_count g (p_ofile (f x))) ex
    (Kernel (kn s) (alter f p (ptab s)) (nextpid s) (initproc s) (ticks s) (cr3 s) (tss_esp0 s)).
Proof.
  intros [Ha Hb Hl Hc] Hx Hlf Hlen Hor. rewrite (alter_insert _ _ _ _ Hx). split; cbn [kn ptab].
  - unfold proc_at in *. cbn [ptab]. destruct (decide (cur = p)) as [->|Hne].
    + rewrite list_lookup_total_insert_eq by by eapply lookup_lt_Some.
      by rewrite (list_lookup_total_correct _ _ _ Hx), <-Hlf in Ha.
    + by rewrite list_lookup_total_insert_ne.
  - intros g. rewrite (fds_insert _ _ _ _ _ Hx). specialize (Hb g). unfold ref_of in *. cbn [kn]. lia.
  - intros q y Hy. apply list_lookup_insert_Some in Hy as [(-> & <- & _)|[_ Hy]]; [done|by eapply Hl].
  - intros q y Hy Hq Hlv. apply list_lookup_insert_Some in Hy as [(-> & <- & _)|[_ Hy]]; [|by eapply Hc].
    destruct Hor; congruence.
Qed.

Lemma live_lookup cur d ex s : finv cur d ex s → ptab s !! cur = Some (proc_at s cur).
Proof.
  intros [Ha _ _ _]. unfold proc_at in *. rewrite list_lookup_total_alt in *.
  by destruct (ptab s !! cur) eqn:E.
Qed.

Lemma run_set_fd cur d ex fd o o' s (Q : unit → K → Prop) :
  finv cur d ex s → p_ofile (proc_at s cur) !! fd = Some o →
  (∀ s', p_ofile (proc_at s' cur) = <[fd := o']> (p_ofile (proc_at s cur)) →
     finv cur (λ g, d g + refers g o - refers g o') ex s' → Q tt s') →
  run (set_fd cur fd o') Q (λ _, True) s.
Proof.
  intros Hs Ho HQ. pose proof (live_lookup _ _ _ _ Hs) as Hx. apply run_modify, HQ.
  - unfold proc_at. cbn. rewrite (alter_insert _ _ _ _ Hx), list_lookup_total_insert_eq by by eapply lookup_lt_Some. done.
  - eapply finv_ext; [|eapply (finv_upd _ _ _ _ _ _ _ Hs Hx)]; cbn [set_ofile p_ofile].
    + intros g. rewrite (fd_count_insert _ _ _ _ _ Ho). lia.
    + done.
    + rewrite length_insert. by eapply fi_len.
    + left. apply Hs.
Qed.

Lemma free_fd_spec (l : list (option nat)) : ∀ i fd, free_fd l i = Some fd → (i <= fd)%nat ∧ l !! (fd - i)%nat = Some None.
Proof.
  induction l as [|[f|] l IH]; intros i fd E; try done; cbn in E.
  - apply IH in E as [Hle E]. split; [lia|]. by replace (fd - i)%nat with (S (fd - S i))%nat by lia.
  - injection E as <-. split; [lia|]. by rewrite Nat.sub_diag.
Qed.

(** [fdalloc] takes over a reference of the caller. *)
Lemma run_fdalloc cur d ex f s (Q : Z → K → Prop) :
  finv cur d ex s →
  (∀ fd s', p_ofile (proc_at s' cur) !! fd = Some (Some f) → finv cur (hold f (-1) d) ex s' → Q (Z.of_nat fd) s') →
  Q (-1) s → run (fdalloc cur f) Q (λ _, True) s.
Proof.
  intros Hs HQ HN. unfold fdalloc. apply run_bind, run_gets. case_match eqn:E; [|by apply run_ret].
  apply free_fd_spec in E as [_ E]. rewrite Nat.sub_0_r in E.
  apply run_bind. eapply run_set_fd; [done..|]. intros s' Ho Hs'. apply run_ret, HQ.
  - rewrite Ho. apply list_lookup_insert_eq. by eapply lookup_lt_Some.
  - eapply finv_ext; [|exact Hs']. intros g. unfold hold. change (refers g None) with 0. lia.
Qed.

(** ** The system calls *)

Lemma argfd_run cur d ex n s :
  finv cur d ex s →
  run (argfd cur n) (λ r s', finv cur d ex s' ∧
    match r with Some (fd, f) => p_ofile (proc_at s' cur) !! fd = Some (Some f) | None => True end) (λ _, True) s.
Proof.
  intros Hs. unfold argfd. eapply run_neutral; [apply argint_neutral|done|]. intros [fd|] s1 _ H1; [|by apply run_ret].
  case_match eqn:E; [by apply run_ret|]. apply run_bind, run_gets, run_ret. split; [done|].
  destruct (p_ofile (proc_at s1 cur) !!! Z.to_nat fd) as [f|] eqn:Eo; [|done]. cbn.
  rewrite list_lookup_total_alt in Eo. by destruct (p_ofile (proc_at s1 cur) !! Z.to_nat fd) as [o|]; cbn in Eo; subst.
Qed.

Lemma sys_dup_run cur s :
  finv cur none_held None s → run (sys_dup cur) (λ _, finv cur none_held None) (λ _, True) s.
Proof.
  intros Hs. unfold sys_dup. apply run_bind. eapply run_mono; [by apply argfd_run| |done].
  intros [[fd f]|] s1 [H1 _]; [|by apply run_ret]. apply run_bind. eapply run_fdalloc; [done| |by apply run_ret].
  intros fd' s2 _ H2. destruct (Z.ltb_spec (Z.of_nat fd') 0) as [|_]; [lia|].
  apply run_bind. eapply run_filedup; [done|]. intros s3 _ H3. apply run_ret.
  eapply finv_ext; [|exact H3]. intros g. unfold hold, none_held. lia.
Qed.

Lemma sys_close_run cur s :
  finv cur none_held None s → run (sys_close kend cur) (λ _, finv cur none_held None) (λ _, True) s.
Proof.
  intros Hs. unfold sys_close. apply run_bind. eapply run_mono; [by apply argfd_run| |done].
  intros [[fd f]|] s1 [H1 Hf]; [|by apply run_ret]. apply run_bind. eapply run_set_fd; [done..|]. intros s2 _ H2.
  apply run_bind, run_gets, run_bind. eapply run_fileclose; [done|]. intros s3 _ H3. apply run_ret.
  eapply finv_ext; [|exact H3]. intros g. unfold hold, none_held. change (refers g None) with 0. lia.
Qed.

Lemma sys_open_run cur s :
  finv cur none_held None s →
  run (sys_open kend cur devsw_read devsw_write) (λ _, finv cur none_held None) (λ _, True) s.
Proof.
  intros Hs. unfold sys_open. eapply run_neutral; [keeps|done|]. intros path s1 _ H1.
  eapply run_neutral; [keeps|done|]. intros omode s2 _ H2.
  destruct path as [path|], omode as [omode|]; try by apply run_ret.
  eapply run_neutral; [keeps|done|]. intros [] s3 _ H3. eapply run_neutral; [keeps|done|]. intros [ip|] s4 _ H4.
  2:{ eapply run_neutral; [keeps|done|]. intros [] s5 _ H5. by apply run_ret. }
  apply run_bind. eapply run_filealloc; [done| |].
  2:{ intros s5 _ H5. apply run_bind, run_ret. do 2 (eapply run_neutral; [keeps|done|]; intros [] ? _ ?). by apply run_ret. }
  intros f s5 _ H5. apply run_bind. eapply run_fdalloc; [done| |].
  - intros fd s6 _ H6. destruct (Z.ltb_spec (Z.of_nat fd) 0) as [|_]; [lia|].
    do 3 (eapply run_neutral; [keeps|done|]; intros [] ? _ ?). apply run_ret.
    eapply finv_ext; [|done]. intros g. unfold hold, none_held. lia.
  - apply run_bind, run_gets, run_bind. eapply run_fileclose; [done|]. intros s6 _ H6.
    do 2 (eapply run_neutral; [keeps|done|]; intros [] ? _ ?). apply run_ret.
    eapply finv_ext; [|done]. intros g. unfold hold, none_held. lia.
Qed.

Lemma run_kern_bind {A B} (m : M (kern T) A) (k : A → M (kern T) B) Q R (s : K) :
  run (on_kern m ≫= λ a, on_kern (k a)) Q R s → run (on_kern (m ≫= k)) Q R s.
Proof. unfold run, on_kern, lift, mbind, M_bind. by destruct (m (kn s)). Qed.

Lemma run_kern_ret {A} (a : A) (Q : A → K → Prop) R s : Q a s → run (on_kern (mret a)) Q R s.
Proof. by destruct s. Qed.

Lemma run_pipealloc cur ex me s (Q : option (nat * nat) → K → Prop) :
  finv cur none_held ex s →
  (∀ a b s', finv cur (hold b 1 (hold a 1 none_held)) ex s' → Q (Some (a, b)) s') →
  (∀ s', finv cur none_held ex s' → Q None s') →
  run (on_kern (pipealloc kend me junk)) Q (λ _, True) s.
Proof.
  intros Hs HQ HN. unfold pipealloc, pipealloc_bad. apply run_kern_bind, run_bind. eapply run_filealloc; [done| |].
  2:{ intros s1 _ H1. do 2 (apply run_kern_bind, run_bind, run_kern_ret). by apply run_kern_ret, HN. }
  intros a s1 _ H1. apply run_kern_bind, run_bind. eapply run_filealloc; [done| |].
  2:{ intros s2 _ H2. apply run_kern_bind, run_bind. eapply run_fileclose; [done|]. intros s3 _ H3.
      apply run_kern_bind, run_bind, run_kern_ret, run_kern_ret, HN. eapply finv_ext; [|done].
      intros g. unfold hold, none_held. lia. }
  intros b s2 _ H2. apply run_kern_bind. eapply run_neutral; [keeps|done|]. intros p s3 _ H3. case_match.
  - apply run_kern_bind, run_bind. eapply run_fileclose; [done|]. intros s4 _ H4.
    apply run_kern_bind, run_bind. eapply run_fileclose; [done|]. intros s5 _ H5.
    apply run_kern_ret, HN. eapply finv_ext; [|done]. intros g. unfold hold, none_held. lia.
  - do 3 (apply run_kern_bind; eapply run_neutral; [keeps|done|]; intros [] ? _ ?). by apply run_kern_ret, HQ.
Qed.

Lemma sys_pipe_run cur s :
  finv cur none_held None s → run (sys_pipe kend cur junk) (λ _, finv cur none_held None) (λ _, True) s.
Proof.
  intros Hs. unfold sys_pipe. eapply run_neutral; [keeps|done|]. intros [fd|] s1 _ H1; [|by apply run_ret].
  apply run_bind, run_gets, run_bind. eapply run_pipealloc; [done| |intros; by apply run_ret].
  intros a b s2 H2. apply run_bind. eapply run_fdalloc; [done| |].
  - intros fd0 s3 Hf0 H3. destruct (Z.ltb_spec (Z.of_nat fd0) 0) as [|_]; [lia|].
    apply run_bind. eapply run_fdalloc; [done| |].
    + intros fd1 s4 _ H4. destruct (Z.ltb_spec (Z.of_nat fd1) 0) as [|_]; [lia|].
      eapply run_neutral; [keeps|done|]. intros [] s5 _ H5. apply run_ret.
      eapply finv_ext; [|done]. intros g. unfold hold, none_held. lia.
    + cbn [Z.ltb]. destruct (Z.geb_spec (Z.of_nat fd0) 0) as [_|]; [|lia]. rewrite Nat2Z.id.
      apply run_bind. eapply run_set_fd; [done..|]. intros s4 _ H4.
      apply run_bind. eapply run_fileclose; [done|]. intros s5 _ H5.
      apply run_bind. eapply run_fileclose; [done|]. intros s6 _ H6. apply run_ret.
      eapply finv_ext; [|done]. intros g. unfold hold, none_held. change (refers g None) with 0. lia.
  - cbn. apply run_bind. apply run_ret. cbn. apply run_bind, run_ret.
    apply run_bind. eapply run_fileclose; [done|]. intros s5 _ H5.
    apply run_bind. eapply run_fileclose; [done|]. intros s6 _ H6. apply run_ret.
    eapply finv_ext; [|done]. intros g. unfold hold, none_held. lia.
Qed.

(** The invariant with a process [p] that is not alive. *)
Definition dead_inv (cur p : nat) (s : K) : Prop :=
  finv cur none_held None s ∧ live (proc_at s p) = false ∧ (p < length (ptab s))%nat.

Lemma dead_neutral cur p s s' : neutral s s' → dead_inv cur p s → dead_inv cur p s'.
Proof.
  intros Hn (Hs & Hl & Hp). split; [by eapply finv_neutral|]. destruct Hn as [_ Hv].
  pose proof (view_at _ _ p Hv) as E. unfold proc_at in *. injection E as _ E. split; [congruence|].
  pose proof (f_equal length Hv) as El. rewrite !length_fmap in El. lia.
Qed.

Lemma run_dead {A B} (m : M K A) (k : A → M K B) cur p Q s :
  keeps neutral m → dead_inv cur p s → (∀ a s', dead_inv cur p s' → run (k a) Q (λ _, True) s') →
  run (m ≫= k) Q (λ _, True) s.
Proof.
  intros Hm Hs Hk. eapply run_keeps; [apply neutral_preorder|exact Hm|reflexivity| |done].
  intros a s' Hn. apply Hk. by eapply dead_neutral.
Qed.

(** It stays without descriptors in whatever dead state it is. *)
Lemma run_set_dead cur p st s (Q : unit → K → Prop) :
  dead_inv cur p s → (∀ x, live (set_state st x) = false) → (∀ s', dead_inv cur p s' → Q tt s') →
  run (upd_proc p (set_state st)) Q (λ _, True) s.
Proof.
  intros Hs Hst HQ. apply run_modify, HQ. eapply dead_neutral; [|exact Hs]. destruct Hs as (_ & Hl & _).
  split; [done|]. cbn. apply alter_view_at. unfold view, proc_at in *. by rewrite Hst, Hl.
Qed.

Lemma dead_at cur s p x :
  finv cur none_held None s → ptab s !! p = Some x → live x = false → dead_inv cur p s.
Proof.
  intros Hs Hx Hl. split; [done|]. split; [|by eapply lookup_lt_Some].
  unfold proc_at. by rewrite (list_lookup_total_correct _ _ _ Hx).
Qed.

Lemma wait_run_files cur s :
  finv cur none_held None s → run (wait kend cur) (λ _, finv cur none_held None) (λ _, True) s.
Proof.
  intros Hs. unfold wait. apply run_bind, run_gets. pose proof (wait_scan_spec cur (ptab s) 0 false) as Hw.
  destruct (wait_scan cur (ptab s) 0 false) as [[p|] k].
  2:{ apply run_bind, run_gets. case_match; [by apply run_ret|apply sleep_never]. }
  destruct Hw as (_ & y & Hy & _ & Hz). rewrite Nat.sub_0_r in Hy.
  assert (Hd : dead_inv cur p s) by (eapply dead_at; [done..|]; unfold live; by rewrite Hz).
  apply run_bind, run_gets. do 7 (eapply run_dead; [keeps|eassumption|clear Hd; intros [] ? Hd]).
  apply run_bind. eapply run_set_dead; [done..|]. intros ? Hs'. apply run_ret, Hs'.
Qed.

(** [allocproc] leaves all descriptors alone; the new process is not alive
    yet. *)
Lemma allocproc_run_files cur s :
  finv cur none_held None s →
  run (allocproc forkret trapret) (λ r s', finv cur none_held None s' ∧
    match r with Some np => dead_inv cur np s' | None => True end) (λ _, True) s.
Proof.
  intros Hs. unfold allocproc. apply run_bind, run_gets. pose proof (find_unused_spec (ptab s) 0) as Hu.
  case_match; [|by apply run_ret]. destruct Hu as (_ & y & Hy & Hz). rewrite Nat.sub_0_r in Hy.
  assert (Hd : dead_inv cur n s) by (eapply dead_at; [done..|]; unfold live; by rewrite Hz).
  apply run_bind, run_gets. apply run_bind. eapply run_set_dead; [done..|]. intros s1 H1.
  eapply run_dead; [keeps|done|]. intros [] s2 H2. eapply run_dead; [keeps|done|]. intros [] s3 H3.
  eapply run_dead; [keeps|done|]. intros kstack s4 H4. eapply run_dead; [keeps|done|]. intros [] s5 H5.
  case_match.
  - apply run_bind. eapply run_set_dead; [done..|]. intros s6 H6. apply run_ret. split; [apply H6|done].
  - do 4 (eapply run_dead; [keeps|eassumption|clear H5; intros [] ? H5]). apply run_ret. split; [apply H5|done].
Qed.

(** What [fork] has done of the new process's descriptors: those from [i] on
    are still closed. *)
Definition filling (cur np i : nat) (s : K) : Prop :=
  finv cur none_held (Some np) s ∧ live (proc_at s np) = false ∧ (np < length (ptab s))%nat ∧
  ∀ j, (i <= j < NOFILE)%nat → p_ofile (proc_at s np) !! j = Some None.

Lemma filling_start cur np s : dead_inv cur np s → filling cur np 0 s.
Proof.
  intros ([Ha Hb Hl Hc] & Hd & Hp). split; [|split_and!; try done].
  - split; try done. intros p x Hx _. by eapply Hc.
  - intros j Hj. apply lookup_lt_is_Some in Hp as [x Hx]. unfold proc_at in *.
    rewrite (list_lookup_total_correct _ _ _ Hx) in *. rewrite (Hc np x) by done. apply lookup_replicate. split; [done|lia].
Qed.

Lemma fork_files_refs cur np l : ∀ i s,
  filling cur np i s → (i + length l = NOFILE)%nat →
  run (fork_files np l i) (λ _ s', filling cur np NOFILE s') (λ _, True) s.
Proof.
  induction l as [|[f|] l IH]; intros i s Hf Hi; cbn [fork_files]; cbn in Hi.
  - apply run_ret. by replace NOFILE with i by lia.
  - destruct Hf as (Hs & Hd & Hp & Hc). apply run_bind. eapply run_filedup; [done|]. intros s1 Ht H1.
    assert (E1 : proc_at s1 np = proc_at s np) by (unfold proc_at; by rewrite Ht).
    assert (Hx : ptab s1 !! np = Some (proc_at s np)).
    { rewrite Ht. unfold proc_at. by apply list_lookup_lookup_total_lt. }
    assert (Hlen : length (p_ofile (proc_at s np)) = NOFILE) by by eapply fi_len.
    apply run_bind, run_modify. apply IH; [|lia]. split_and!.
    + eapply finv_ext; [|eapply (finv_upd _ _ _ _ _ _ _ H1 Hx); [done| |by right]]; cbn [set_ofile p_ofile].
      * intros g. rewrite (fd_count_insert _ _ _ _ _ (Hc i ltac:(lia))). change (refers g None) with 0.
        unfold hold, none_held. lia.
      * by rewrite length_insert.
    + unfold proc_at. cbn. rewrite alter_proc_at by (rewrite Ht; lia). by rewrite Ht.
    + cbn. rewrite length_alter, Ht. lia.
    + intros j Hj. unfold proc_at. cbn [ptab]. rewrite alter_proc_at by (rewrite Ht; lia). cbn [p_ofile set_ofile].
      rewrite list_lookup_insert_ne by lia. rewrite Ht. apply Hc. lia.
  - apply IH; [|lia]. destruct Hf as (? & ? & ? & Hc). split_and!; try done. intros j Hj. apply Hc. lia.
Qed.

Lemma filling_neutral cur np i s s' : neutral s s' → filling cur np i s → filling cur np i s'.
Proof.
  intros Hn (Hs & Hl & Hp & Hc). split; [by eapply finv_neutral|]. destruct Hn as [_ Hv].
  pose proof (view_at _ _ np Hv) as E. unfold proc_at in *. injection E as E1 E2.
  pose proof (f_equal length Hv) as El. rewrite !length_fmap in El.
  split_and!; [congruence|lia|]. intros j Hj. rewrite E1. by apply Hc.
Qed.

Lemma run_filling {A B} (m : M K A) (k : A → M K B) cur np i Q s :
  keeps neutral m → filling cur np i s → (∀ a s', filling cur np i s' → run (k a) Q (λ _, True) s') →
  run (m ≫= k) Q (λ _, True) s.
Proof.
  intros Hm Hs Hk. eapply run_keeps; [apply neutral_preorder|exact Hm|reflexivity| |done].
  intros a s' Hn. apply Hk. by eapply filling_neutral.
Qed.

Lemma finv_runnable cur np i s :
  filling cur np i s → np ≠ cur →
  finv cur none_held None (Kernel (kn s) (alter (set_state RUNNABLE) np (ptab s)) (nextpid s) (initproc s) (ticks s) (cr3 s) (tss_esp0 s)).
Proof.
  intros ([Ha Hb Hl Hc] & Hd & Hp & _) Hne. apply lookup_lt_is_Some in Hp as [x Hx].
  rewrite (alter_insert _ _ _ _ Hx). split; cbn [kn ptab].
  - unfold proc_at in *. cbn [ptab]. by rewrite list_lookup_total_insert_ne.
  - intros g. rewrite (fds_insert _ _ _ _ _ Hx). specialize (Hb g). unfold ref_of in *. cbn [kn p_ofile set_state]. lia.
  - intros q y Hy. apply list_lookup_insert_Some in Hy as [(-> & <- & _)|[_ Hy]]; [exact (Hl _ _ Hx)|by eapply Hl].
  - intros q y Hy _ Hlv. apply list_lookup_insert_Some in Hy as [(-> & <- & _)|[Hqn Hy]]; [done|].
    eapply Hc; [done|congruence|done].
Qed.

Lemma sys_fork_run cur s :
  finv cur none_held None s →
  run (sys_fork kend data forkret trapret cur) (λ _, finv cur none_held None) (λ _, True) s.
Proof.
  intros Hs. unfold sys_fork, fork. apply run_bind. eapply run_mono; [by apply allocproc_run_files| |done].
  intros [np|] s1 [H1 Hd]; [|by apply run_ret].
  assert (Hne : np ≠ cur) by (intros ->; destruct Hd as ([Ha _ _ _] & Hd & _); congruence).
  apply run_bind, run_gets. assert (Hlen : length (p_ofile (proc_at s1 cur)) = NOFILE).
  { eapply fi_len; [exact H1|by eapply live_lookup]. }
  eapply run_dead; [keeps|done|]. intros pgdir s2 H2. eapply run_dead; [keeps|done|]. intros [] s3 H3. case_match.
  - apply run_bind, run_gets. do 2 (eapply run_dead; [keeps|eassumption|clear H3; intros [] ? H3]).
    apply run_bind. eapply run_set_dead; [done..|]. intros s4 H4. apply run_ret, H4.
  - do 2 (eapply run_dead; [keeps|eassumption|clear H3; intros [] ? H3]). apply run_bind, run_gets.
    do 2 (eapply run_dead; [keeps|eassumption|clear H3; intros [] ? H3]).
    apply run_bind. eapply run_mono; [apply (fork_files_refs cur); [by apply filling_start|lia]| |done].
    intros [] s4 H4. eapply run_filling; [keeps|done|]. intros cwd s5 H5.
    do 2 (eapply run_filling; [keeps|eassumption|clear H5; intros [] ? H5]). apply run_bind, run_gets.
    apply run_bind, run_modify, run_ret. by eapply finv_runnable.
Qed.

Lemma run_neutral_end {A} (m : M K A) cur d ex s :
  keeps neutral m → finv cur d ex s → run m (λ _, finv cur d ex) (λ _, True) s.
Proof. intros Hm Hs. eapply run_mono; [apply Hm| |done]. intros a s' Hn. eapply finv_neutral; [exact Hn|done]. Qed.

Lemma sleep_loop_run cur d ex s t n : finv cur d ex s → run (sleep_loop aticks cur t n) (λ _, finv cur d ex) (λ _, True) s.
Proof.
  intros Hs. unfold sleep_loop. apply run_bind, run_gets. case_match; [|by apply run_ret].
  apply run_bind, run_gets. case_match; [by apply run_ret|apply sleep_never].
Qed.

Lemma exit_call_never cur (Q : Z → K → Prop) s : run (sys_exit kend cur) Q (λ _, True) s.
Proof.
  unfold sys_exit, exit. apply run_bind. apply run_bind, run_gets. case_decide; [apply run_panic|].
  do 3 (apply run_bind, run_any; [intros|done]). apply run_panic.
Qed.

Lemma syscall_run cur num call s :
  syscalls kend data forkret trapret aticks devsw_read devsw_write junk cur num = Some call →
  finv cur none_held None s → run call (λ _, finv cur none_held None) (λ _, True) s.
Proof.
  intros E Hs. pose proof kill_neutral as Hk. pose proof sys_exec_neutral as He. unfold syscalls in E.
  repeat (case_match; try discriminate E); injection E as <-.
  all: lazymatch goal with
    | |- run (sys_fork _ _ _ _ _) _ _ _ => by apply sys_fork_run
    | |- run (sys_exit _ _) _ _ _ => apply exit_call_never
    | |- run (sys_wait _ _) _ _ _ => by apply wait_run_files
    | |- run (sys_pipe _ _ _) _ _ _ => by apply sys_pipe_run
    | |- run (sys_dup _) _ _ _ => by apply sys_dup_run
    | |- run (sys_open _ _ _ _) _ _ _ => by apply sys_open_run
    | |- run (sys_close _ _) _ _ _ => by apply sys_close_run
    | |- run (sys_sleep _ _) _ _ _ => idtac
    | |- _ => apply run_neutral_end; [unfold sys_kill, sys_getpid, sys_sbrk, sys_uptime; keeps|done]
    end.
  unfold sys_sleep. eapply run_neutral; [keeps|done|]. intros [n|] s1 _ Hs1; [|by apply run_ret].
  apply run_bind, run_gets. by apply sleep_loop_run.
Qed.

(** ** Exit *)

(** [exit] has closed the descriptors below [fd]. *)
Definition closing (cur fd : nat) (s : K) : Prop :=
  finv cur none_held None s ∧ ∀ j, (j < fd)%nat → p_ofile (proc_at s cur) !! j = Some None.

Lemma exit_files_run cur n : ∀ fd s,
  closing cur fd s → (fd + n = NOFILE)%nat →
  run (exit_files kend cur n fd) (λ _, closing cur NOFILE) (λ _, True) s.
Proof.
  induction n as [|n IH]; intros fd s [Hs Hc] Hn; cbn [exit_files].
  { apply run_ret. by replace NOFILE with fd by lia. }
  apply run_bind, run_gets. assert (Hlen : length (p_ofile (proc_at s cur)) = NOFILE).
  { eapply fi_len; [exact Hs|by eapply live_lookup]. }
  assert (Ho : p_ofile (proc_at s cur) !! fd = Some (p_ofile (proc_at s cur) !!! fd)) by (apply list_lookup_lookup_total_lt; lia).
  apply run_bind. destruct (p_ofile (proc_at s cur) !!! fd) as [f|].
  - apply run_bind. eapply run_fileclose; [done|]. intros s1 Ht H1.
    assert (E1 : proc_at s1 cur = proc_at s cur) by (unfold proc_at; by rewrite Ht). rewrite <-E1 in *.
    eapply (run_set_fd cur _ None fd (Some f) None); [exact H1|done|]. intros s2 E2 H2. apply IH; [|lia]. split.
    + eapply finv_ext; [|exact H2]. intros g. unfold hold, none_held. change (refers g None) with 0. lia.
    + intros j Hj. rewrite E2. destruct (decide (j = fd)) as [->|Hne]; [apply list_lookup_insert_eq; lia|].
      rewrite list_lookup_insert_ne by done. apply Hc. lia.
  - apply run_ret, IH; [|lia]. split; [done|]. intros j Hj. destruct (decide (j = fd)) as [->|Hne]; [done|]. apply Hc. lia.
Qed.

(** The reference counts are exact and a process that is not alive has no
    descriptor. *)
Record refs_ok (s : K) : Prop := {
  ro_count : ∀ f, ref_of s f = fds (ptab s) f;
  ro_len : ∀ p x, ptab s !! p = Some x → length (p_ofile x) = NOFILE;
  ro_closed : ∀ p x, ptab s !! p = Some x → live x = false → p_ofile x = replicate NOFILE None }.

Lemma finv_refs_ok cur s : finv cur none_held None s → refs_ok s.
Proof. intros [Ha Hb Hl Hc]. split; [|done|]. { intros f. rewrite Hb. unfold none_held. lia. } intros p x Hx. by eapply Hc. Qed.

Lemma refs_ok_finv cur s : refs_ok s → live (proc_at s cur) = true → finv cur none_held None s.
Proof. intros [Hb Hl Hc] Ha. split; [done| |done|]. { intros f. rewrite Hb. unfold none_held. lia. } intros p x Hx _. by eapply Hc. Qed.

Lemma refs_ok_neutral s s' : neutral s s' → refs_ok s → refs_ok s'.
Proof.
  intros [Hf Hv] [Hb Hl Hc]. split.
  - intros f. by rewrite (ref_of_same s s' f Hf), (fds_view _ _ f Hv).
  - intros p x Hx. destruct (view_lookup _ _ _ _ Hv Hx) as (y & Hy & E). injection E as <- _. by eapply Hl.
  - intros p x Hx Hlx. destruct (view_lookup _ _ _ _ Hv Hx) as (y & Hy & E). injection E as <- E. eapply Hc; [done|congruence].
Qed.

Lemma closing_list cur s : closing cur NOFILE s → p_ofile (proc_at s cur) = replicate NOFILE None.
Proof.
  intros [Hs Hc]. apply list_eq. intros j. assert (Hlen : length (p_ofile (proc_at s cur)) = NOFILE).
  { eapply fi_len; [exact Hs|by eapply live_lookup]. }
  destruct (decide (j < NOFILE)%nat) as [Hj|Hj]; [rewrite Hc by done; symmetry; by apply lookup_replicate|].
  rewrite !lookup_ge_None_2; [done|rewrite length_replicate; lia|lia].
Qed.

Lemma refs_ok_zombie cur s :
  refs_ok s → p_ofile (proc_at s cur) = replicate NOFILE None →
  refs_ok (Kernel (kn s) (alter (set_state ZOMBIE) cur (ptab s)) (nextpid s) (initproc s) (ticks s) (cr3 s) (tss_esp0 s)).
Proof.
  intros [Hb Hl Hc] Ho. unfold proc_at in Ho.
  destruct (ptab s !! cur) as [x|] eqn:Hx.
  2:{ apply (refs_ok_neutral s); [|by split]. split; [done|]. cbn. apply alter_view_at. by rewrite list_lookup_total_alt, Hx. }
  rewrite (list_lookup_total_correct _ _ _ Hx) in Ho. rewrite (alter_insert _ _ _ _ Hx). split; cbn [kn ptab].
  - intros f. rewrite (fds_insert _ _ _ _ _ Hx). specialize (Hb f). unfold ref_of in *. cbn [kn p_ofile set_state]. lia.
  - intros q y Hy. apply list_lookup_insert_Some in Hy as [(-> & <- & _)|[_ Hy]]; [exact (Hl _ _ Hx)|by eapply Hl].
  - intros q y Hy Hlv. apply list_lookup_insert_Some in Hy as [(-> & <- & _)|[_ Hy]]; [done|by eapply Hc].
Qed.

Lemma exit_table_files cur s :
  closing cur NOFILE s → run (exit_table cur) (λ _ _, True) refs_ok s.
Proof.
  intros Hs. pose proof (closing_list _ _ Hs) as Hl. destruct Hs as [Hs _]. unfold exit_table. apply run_bind, run_gets.
  pose proof (finv_refs_ok _ _ Hs) as Hro.
  assert (Hk : ∀ s', neutral s s' → refs_ok s') by (intros s' Hn; by eapply refs_ok_neutral).
  eapply run_keeps; [apply neutral_preorder| |reflexivity| |exact Hk].
  { pose proof wakeup1_neutral. keeps. }
  intros [] s1 H1. eapply run_keeps; [apply neutral_preorder|apply reparent_neutral|exact H1| |exact Hk].
  intros [] s2 H2. apply run_bind, run_modify, run_bind, run_gets.
  case_decide; [apply run_panic|]. apply run_sleeps, refs_ok_zombie; [by apply Hk|].
  destruct H2 as [_ Hv]. pose proof (view_at _ _ cur Hv) as E. unfold proc_at in *. injection E as E _. congruence.
Qed.

(** A system call of a process that is alive, and its [exit]. *)
Inductive fd_step (s s' : K) : Prop :=
  | fd_call cur num call r :
    live (proc_at s cur) = true →
    syscalls kend data forkret trapret aticks devsw_read devsw_write junk cur num = Some call →
    call s = Ret r s' → fd_step s s'
  | fd_exit cur s1 s2 :
    live (proc_at s cur) = true → exit_files kend cur NOFILE 0 s = Ret tt s1 → exit_cwd cur s1 = Ret tt s2 →
    exit_table cur s2 = Sleeps s' → fd_step s s'.

Lemma exit_cwd_closing cur s : closing cur NOFILE s → run (exit_cwd cur) (λ _, closing cur NOFILE) (λ _, True) s.
Proof.
  intros [Hs Hc]. assert (Hk : keeps neutral (exit_cwd cur : M K unit)) by (unfold exit_cwd; keeps).
  eapply run_mono; [apply Hk| |done]. intros [] s' Hn. split; [by eapply finv_neutral; [exact Hn|]|].
  destruct Hn as [_ Hv]. pose proof (view_at _ _ cur Hv) as E. unfold proc_at in *. injection E as E _.
  intros j Hj. rewrite E. by apply Hc.
Qed.

Lemma fd_step_ok s s' : fd_step s s' → refs_ok s → refs_ok s'.
Proof.
  intros Hs Hok. destruct Hs as [cur num call r Ha Ec E|cur s1 s2 Ha E1 E2 E3].
  - apply (finv_refs_ok cur). by apply (run_elim _ _ _ _ _ _ (syscall_run _ _ _ _ Ec (refs_ok_finv _ _ Hok Ha))) in E.
  - assert (H0 : closing cur 0 s) by (split; [by apply refs_ok_finv|lia]).
    apply (run_elim _ _ _ _ _ _ (exit_files_run cur NOFILE 0 s H0 eq_refl)) in E1.
    apply (run_elim _ _ _ _ _ _ (exit_cwd_closing cur s1 E1)) in E2.
    by apply (run_elim_sleeps _ _ _ _ _ (exit_table_files cur s2 E2)) in E3.
Qed.

End refs.
