(* ===== verification/SysDemo.v ===== *)
(** * A process with a page of memory

    A concrete state in which system calls find their arguments, and the
    theorems about system calls, traps and descriptors applied to it. *)

From S2P Require Import Prelude Str Layout Mmu BlockLayer Kalloc Vm VmSpec VmAlloc Pipe Bio BioSpec Log Crash LogLayer Fs FsDemo.
From S2P Require Import File Proc ProcSpec ProcLife KernDemo Syscall Sysfile Exec Trap KernSpec FileRefs.

#[local] Instance ud_layer : BlockLayer store := store_block_layer 2.
#[local] Instance ud_tx : TxLayer store := store_tx 2.

(** The page directory, its table, the page at address 0 and a trap frame. *)
Definition ud_dir : Z := KERNBASE + 0x400000.
Definition ud_tab : Z := ud_dir + 4096.
Definition ud_page : Z := ud_dir + 8192.
Definition ud_tf : Z := ud_dir + 12288.

Definition words (l : list (Z * Z)) : mem := foldr (λ aw m, store_word m aw.1 aw.2) (λ _, 0) l.

(** The page starts with the string [ab]; the user stack at 16 holds a
    return address and three arguments, 0, 0 and 3; the trap is a clock
    interrupt of user code. *)
Definition ud_mem : mem := words
  [ (ud_dir, V2P ud_tab + 7); (ud_tab, V2P ud_page + 7);
    (ud_page, 0x6261); (ud_page + 20, 0); (ud_page + 24, 0); (ud_page + 28, 3);
    (ud_tf + TF_TRAPNO, 32); (ud_tf + TF_CS, 27); (ud_tf + TF_ESP, 16) ].

Definition ud_proc : proc :=
  Proc 4096 ud_dir 1 RUNNING 2 (Some 0%nat) ud_tf 0 None 0 (<[0%nat := Some 0%nat]> (replicate NOFILE None)) (Some 0%nat) [].
Definition ud_files : list file := File FD_PIPE 1 1 1 0 0 0 :: replicate 99 inhabitant.
Definition ud_state (x : fs store) : kernel store :=
  Kernel (Kern ud_files ∅ (Kmem ud_mem 0 0) x)
    [Proc 4096 ud_dir 1 SLEEPING 1 None ud_tf 0 (Some (ChanAddr 5)) 0 (replicate NOFILE None) (Some 0%nat) []; ud_proc]
    3 (Some 0%nat) 7 0 0.
Definition ud_fs : fs store := demo_fs (Store (boot demo_disk 100) log0).

Lemma words_bytes l a : is_byte (words l a).
Proof.
  revert a. induction l as [|[b w] l IH]; intros a; cbn; [unfold is_byte; lia|].
  by apply store_word_byte.
Qed.

Lemma ud_user_space x : user_space 1 (ud_state x).
Proof.
  split; cbn.
  - unfold KERNBASE. lia.
  - intros va Hva. change (has (pte ud_mem ud_dir va) PTE_P = true).
    assert (Hs : PDX va = PDX 0 ∧ PTX va = PTX 0).
    { apply same_page_idx; unfold is_u32, same_page; try lia. change PGSIZE with 4096. dlia. }
    unfold pte. destruct Hs as [-> ->]. vm_compute. reflexivity.
  - intros a. change (is_byte (ud_mem a)). apply words_bytes.
Qed.

Lemma argstr_checked_witness :
  wp (argstr 1 0) (λ r s', s' = ud_state ud_fs ∧
    match r with Some l => Z.of_nat (length l) < 4096 | None => ∀ i, 0 <= i < 4096 → user_byte 1 (ud_state ud_fs) i ≠ 0 end)
    (ud_state ud_fs).
Proof.
  eapply wp_mono; [apply (argstr_checked 1 (ud_state ud_fs) 0), ud_user_space|].
  assert (E : user_word 1 (ud_state ud_fs) (arg_addr 1 (ud_state ud_fs) 0) = 0) by (vm_compute; reflexivity).
  assert (E2 : arg_addr 1 (ud_state ud_fs) 0 = 20) by (vm_compute; reflexivity).
  rewrite E, E2. cbn [p_sz proc_at].
  intros r s' [-> Hr]. split; [reflexivity|]. destruct r as [l|].
  - destruct Hr as (_ & Hl & _). exact Hl.
  - destruct Hr as [Hr|[Hr|Hr]]; [exfalso; cbn in Hr; lia|exfalso; cbn in Hr; lia|exact Hr].
Defined.

Lemma argptr_checked_witness :
  wp (argptr 1 1 12) (λ r s', s' = ud_state ud_fs ∧ r = Some 0) (ud_state ud_fs).
Proof.
  eapply wp_mono; [apply (argptr_checked 1 (ud_state ud_fs) 1 12); [apply ud_user_space|lia]|].
  assert (E : user_word 1 (ud_state ud_fs) (arg_addr 1 (ud_state ud_fs) 1) = 0) by (vm_compute; reflexivity).
  assert (E2 : arg_addr 1 (ud_state ud_fs) 1 = 24) by (vm_compute; reflexivity).
  rewrite E, E2. intros r s' [-> [[_ Hr]|[Hr _]]]; split; try reflexivity.
  - exfalso. apply Hr. cbn. lia.
  - exact Hr.
Defined.

Lemma clock_preempts_witness :
  ∃ s', trap 0 0 0 0 5 (λ _, None) (λ _, None) [] (Handlers (mret tt) (mret tt) (mret tt)) 0 (Some 1%nat) ud_tf (ud_state ud_fs)
      = Sleeps s' ∧
    p_state <$> ptab s' !! 1%nat = Some RUNNABLE ∧ ticks s' = 8 ∧ p_state <$> ptab s' !! 0%nat = Some RUNNABLE.
Proof.
  destruct (clock_preempts 0 0 0 0 5 (λ _, None) (λ _, None) [] (Handlers (mret tt) (mret tt) (mret tt)) 0 1 ud_tf
    (ud_state ud_fs) ud_proc) as (s' & E & Hr & Ht & Hw).
  - reflexivity.
  - reflexivity.
  - reflexivity.
  - vm_compute. reflexivity.
  - exists s'. split; [exact E|]. split; [exact Hr|]. split; [exact Ht|]. eapply Hw; reflexivity.
Defined.

Lemma sleep_negative_waits_witness :
  ∃ s', sleep_loop 5 1 7 (- 1) (ud_state ud_fs) = Sleeps s' ∧ p_state <$> ptab s' !! 1%nat = Some SLEEPING.
Proof.
  destruct (sleep_negative_waits 5 1 (ud_state ud_fs) 7 1) as (s' & E & H & _).
  - lia.
  - split; [vm_compute; discriminate|vm_compute; reflexivity].
  - reflexivity.
  - cbn. lia.
  - exists s'. split; [exact E|exact H].
Defined.

Lemma ud_refs_ok x : refs_ok (ud_state x).
Proof.
  split.
  - intros [|f]; [reflexivity|]. unfold ref_of. rewrite list_lookup_total_alt.
    transitivity 0.
    + cbn [kn ud_state k_files ud_files lookup list_lookup]. destruct (replicate 99 inhabitant !! f) as [y|] eqn:E; [|done].
      by apply lookup_replicate in E as [-> _].
    + change (0 = fd_count (S f) (replicate NOFILE None) +
        (fd_count (S f) (<[0%nat := Some 0%nat]> (replicate NOFILE None)) + 0)).
      rewrite (fd_count_insert (S f) (replicate NOFILE None) 0 None (Some 0%nat) eq_refl), fd_count_none. reflexivity.
  - intros [|[|p]] y Hy; [by injection Hy as <-..|done].
  - intros [|[|p]] y Hy Hl; [by injection Hy as <-..|done].
Qed.

Definition is_ret {S A} (o : outcome S A) : bool := match o with Ret _ _ => true | _ => false end.

Lemma is_ret_true {S A} (o : outcome S A) : is_ret o = true → ∃ a s, o = Ret a s.
Proof. destruct o; try done. eauto. Qed.

