(* ===== verification/Grep.v ===== *)
(** * grep.c

    The pattern matcher and the loop over a file's lines.  Strings are
    lists of bytes without the terminating zero, so that a read at the end
    of the list is the zero byte. *)

From S2P Require Import Prelude Layout.

Definition STAR : Z := 42.
Definition DOLLAR : Z := 36.
Definition PERIOD : Z := 46.
Definition CARET : Z := 94.
Definition NEWLINE : Z := 10.

(** [matchstar(c, re, text)], with [m] for [matchhere] of [re]. *)
Fixpoint matchstar (c : Z) (m : list Z → bool) (text : list Z) : bool :=
  m text ||
  match text with
  | [] => false
  | a :: text' => ((a =? c) || (c =? PERIOD)) && matchstar c m text'
  end.

Fixpoint matchhere (re text : list Z) {struct re} : bool :=
  match re with
  | [] => true
  | c :: re' =>
    let rest :=
      if (c =? DOLLAR) && bool_decide (re' = []) then bool_decide (text = [])
      else match text with
           | [] => false
           | a :: text' => ((c =? PERIOD) || (c =? a)) && matchhere re' text'
           end in
    match re' with
    | s :: re'' => if s =? STAR then matchstar c (matchhere re'') text else rest
    | [] => rest
    end
  end.

(** The loop of [match]. *)
Fixpoint match_loop (re text : list Z) : bool :=
  matchhere re text || match text with [] => false | _ :: text' => match_loop re text' end.

Definition match_ (re text : list Z) : bool :=
  match re with
  | c :: re' => if c =? CARET then matchhere re' text else match_loop re text
  | [] => match_loop re text
  end.

(** [strchr(p, newline)]: the text before the newline and after it. *)
Fixpoint split_line (p : list Z) : option (list Z * list Z) :=
  match p with
  | [] => None
  | c :: p' =>
    if c =? 0 then None
    else if c =? NEWLINE then Some ([], p')
    else '(l, r) ← split_line p'; Some (c :: l, r)
  end.

(** The loop over the lines at [p]: what is written, and the final [p]. *)
Fixpoint grep_lines (fuel : nat) (pattern p : list Z) : list Z * list Z :=
  match fuel with
  | O => ([], p)
  | S fuel' =>
    match split_line p with
    | None => ([], p)
    | Some (l, p') =>
      let '(out, r) := grep_lines fuel' pattern p' in
      ((if match_ pattern l then l ++ [NEWLINE] else []) ++ out, r)
    end
  end.

(** The loop of [grep] with [buf] the bytes kept, on the results of its
    [read] calls: what is written. *)
Fixpoint grep_loop (pattern buf : list Z) (reads : list (list Z)) : list Z :=
  match reads with
  | [] | [] :: _ => []
  | chunk :: reads' =>
    let data := buf ++ chunk in
    let '(out, p) := grep_lines (length data) pattern data in
    let kept := if bool_decide (length p = length data) then [] else p in
    out ++ grep_loop pattern kept reads'
  end.
Definition grep (pattern : list Z) (reads : list (list Z)) : list Z := grep_loop pattern [] reads.

(** ** What a pattern means *)

(** One pattern character matches one text character. *)
Definition sat (c a : Z) : Prop := c = PERIOD ∨ c = a.

(** The pattern matches a prefix of the text. *)
Inductive here : list Z → list Z → Prop :=
  | here_nil t : here [] t
  | here_star c re t1 t2 : Forall (sat c) t1 → here re t2 → here (c :: STAR :: re) (t1 ++ t2)
  | here_end : here [DOLLAR] []
  | here_one c re a t :
    head re ≠ Some STAR → (c = DOLLAR → re ≠ []) → sat c a → here re t → here (c :: re) (a :: t).

Lemma matchstar_spec c m t :
  matchstar c m t = true ↔ ∃ t1 t2, t = t1 ++ t2 ∧ Forall (sat c) t1 ∧ m t2 = true.
Proof.
  induction t as [|a t IH]; cbn; rewrite orb_true_iff.
  - split; [intros [Hm|]; [|done]; by exists [], []|].
    intros (t1 & t2 & E & _ & Hm). symmetry in E. apply app_eq_nil in E as [-> ->]. by left.
  - rewrite andb_true_iff, orb_true_iff, !Z.eqb_eq, IH. split.
    + intros [Hm|[Hc (t1 & t2 & -> & Hs & Hm)]]; [by exists [], (a :: t)|].
      exists (a :: t1), t2. split_and!; [done| |done]. constructor; [unfold sat; naive_solver|done].
    + intros ([|b t1] & t2 & E & Hs & Hm); [left; by rewrite E|]. cbn in E. injection E as <- ->.
      apply Forall_cons in Hs as [Hb Hs]. right. split; [unfold sat in Hb; naive_solver|by exists t1, t2].
Qed.

Lemma matchhere_star c re t : matchhere (c :: STAR :: re) t = matchstar c (matchhere re) t.
Proof. done. Qed.

Lemma matchhere_one c re t :
  head re ≠ Some STAR →
  matchhere (c :: re) t =
    if (c =? DOLLAR) && bool_decide (re = []) then bool_decide (t = [])
    else match t with [] => false | a :: t' => ((c =? PERIOD) || (c =? a)) && matchhere re t' end.
Proof.
  intros Hh. cbn [matchhere]. destruct re as [|s re]; [done|]. destruct (Z.eqb_spec s STAR) as [->|]; [done|done].
Qed.

Lemma matchhere_here re : ∀ t, matchhere re t = true ↔ here re t.
Proof.
  induction re as [re IH] using (induction_ltof1 _ length). unfold ltof in IH. intros t. destruct re as [|c re].
  { split; [constructor|done]. }
  destruct (decide (head re = Some STAR)) as [Hh|Hh].
  - destruct re as [|s re]; [done|]. cbn in Hh. injection Hh as ->.
    rewrite matchhere_star, matchstar_spec. split.
    + intros (t1 & t2 & -> & Hs & Hm). constructor; [done|]. apply IH; [cbn; lia|done].
    + intros H. inversion H as [|? ? t1 t2 Hs Hh|  |? ? ? ? Hn]; subst; [|by destruct Hn].
      exists t1, t2. split_and!; [done..|]. apply IH; [cbn; lia|done].
  - rewrite matchhere_one by done. destruct (Z.eqb_spec c DOLLAR) as [->|Hc]; cbn [andb].
    + destruct (decide (re = [])) as [->|Hre].
      * rewrite (bool_decide_true ([] = [])), bool_decide_eq_true by done. split; [intros ->; constructor|]. intros H. inversion H as [| | |? ? ? ? _ Hn]; [done|by destruct Hn].
      * rewrite bool_decide_false by done. destruct t as [|a t].
        { split; [done|]. intros H. inversion H; subst; done. }
        rewrite andb_true_iff, orb_true_iff, !Z.eqb_eq, IH by (cbn; lia). split.
        -- intros [Hs Hr]. constructor; [done|done|unfold sat; naive_solver|done].
        -- intros H. inversion H as [| | |? ? ? ? _ _ Hs Hr]; subst; [done|]. unfold sat in Hs. naive_solver.
    + destruct t as [|a t].
      { split; [done|]. intros H. inversion H; subst; done. }
      rewrite andb_true_iff, orb_true_iff, !Z.eqb_eq, IH by (cbn; lia). split.
      * intros [Hs Hr]. constructor; [done|done|unfold sat; naive_solver|done].
      * intros H. inversion H as [| | |? ? ? ? _ _ Hs Hr]; subst; [done|]. unfold sat in Hs. naive_solver.
Qed.

Lemma match_loop_spec re t : match_loop re t = true ↔ ∃ t1 t2, t = t1 ++ t2 ∧ here re t2.
Proof.
  induction t as [|a t IH]; cbn; rewrite orb_true_iff, matchhere_here.
  - split; [intros [H|]; [|done]; by exists [], []|]. intros (t1 & t2 & E & H). symmetry in E.
    apply app_eq_nil in E as [-> ->]. by left.
  - rewrite IH. split.
    + intros [H|(t1 & t2 & -> & H)]; [by exists [], (a :: t)|by exists (a :: t1), t2].
    + intros ([|b t1] & t2 & E & H); [left; by rewrite E|]. cbn in E. injection E as <- ->. right. by exists t1, t2.
Qed.

(** C36: the matcher finds exactly what the pattern means, for every pattern
    and every text: a pattern that starts with a caret has to match a prefix
    of the text, any other a prefix of some suffix, where a character followed
    by a star matches any number of characters and a final dollar only the
    end of the text.  Being a total function of the two strings, it also
    always terminates. *)
Theorem grep_match_correct re t :
  match_ re t = true ↔
  (∃ re', re = CARET :: re' ∧ here re' t) ∨ (head re ≠ Some CARET ∧ ∃ t1 t2, t = t1 ++ t2 ∧ here re t2).
Proof.
  unfold match_. destruct re as [|c re].
  { rewrite match_loop_spec. naive_solver. }
  destruct (Z.eqb_spec c CARET) as [->|Hc].
  - rewrite matchhere_here. naive_solver.
  - rewrite match_loop_spec. naive_solver.
Qed.

(** ** The lines of a file *)

(** The matching lines of a text, after the beginning [line] of one. *)
Fixpoint select (pattern line s : list Z) : list Z :=
  match s with
  | [] => []
  | c :: s' =>
    if c =? NEWLINE then (if match_ pattern line then line ++ [NEWLINE] else []) ++ select pattern [] s'
    else select pattern (line ++ [c]) s'
  end.

Lemma split_line_select pattern p : ∀ line,
  0 ∉ p →
  match split_line p with
  | Some (l, r) => p = l ++ NEWLINE :: r ∧ ∀ q, select pattern line (p ++ q) =
      (if match_ pattern (line ++ l) then (line ++ l) ++ [NEWLINE] else []) ++ select pattern [] (r ++ q)
  | None => NEWLINE ∉ p ∧ ∀ q, select pattern line (p ++ q) = select pattern (line ++ p) q
  end.
Proof.
  induction p as [|c p IH]; intros line H0; cbn [split_line].
  { split; [apply not_elem_of_nil|]. intros q. by rewrite app_nil_r. }
  apply not_elem_of_cons in H0 as [Hc H0]. destruct (Z.eqb_spec c 0) as [|_]; [lia|].
  destruct (Z.eqb_spec c NEWLINE) as [->|Hn].
  { split; [done|]. intros q. cbn [app select]. rewrite Z.eqb_refl. by rewrite app_nil_r. }
  specialize (IH (line ++ [c]) H0). destruct (split_line p) as [[l r]|]; cbn.
  - destruct IH as [-> IH]. split; [done|]. intros q. cbn [app select].
    destruct (Z.eqb_spec c NEWLINE) as [|_]; [done|]. rewrite IH. by rewrite <-!app_assoc.
  - destruct IH as [Hnp IH]. split; [rewrite not_elem_of_cons; naive_solver|]. intros q. cbn [app select].
    destruct (Z.eqb_spec c NEWLINE) as [|_]; [done|]. rewrite IH. by rewrite <-app_assoc.
Qed.

Lemma grep_lines_select pattern n : ∀ p,
  (length p <= n)%nat → 0 ∉ p →
  match grep_lines n pattern p with
  | (out, r) => NEWLINE ∉ r ∧ 0 ∉ r ∧ (length r <= length p)%nat ∧ (NEWLINE ∈ p → length r ≠ length p) ∧
      ∀ q, select pattern [] (p ++ q) = out ++ select pattern r q
  end.
Proof.
  induction n as [|n IH]; intros p Hn H0; cbn [grep_lines].
  { destruct p; [|cbn in Hn; lia]. split_and!; try done; [apply not_elem_of_nil|by intros Hx%elem_of_nil]. }
  pose proof (split_line_select pattern p [] H0) as Hs. destruct (split_line p) as [[l p']|].
  2:{ destruct Hs as [Hnl Hs]. split_and!; try done. }
  destruct Hs as [-> Hs]. rewrite length_app in *. cbn [length] in *.
  apply not_elem_of_app in H0 as [_ H0]. apply not_elem_of_cons in H0 as [_ H0].
  specialize (IH p' ltac:(lia) H0). destruct (grep_lines n pattern p') as [out r].
  destruct IH as (Hr & Hr0 & Hl & _ & IH). split_and!; try done; [lia|lia|].
  intros q. rewrite Hs, IH. cbn [app]. by rewrite <-app_assoc.
Qed.

Lemma grep_loop_select pattern reads : ∀ buf,
  NEWLINE ∉ buf → 0 ∉ buf → Forall (λ c, NEWLINE ∈ c ∧ 0 ∉ c) reads →
  grep_loop pattern buf reads = select pattern [] (buf ++ mjoin reads).
Proof.
  induction reads as [|c reads IH]; intros buf Hn H0 Hr; cbn [grep_loop].
  { pose proof (split_line_select pattern buf [] H0) as Hs. cbn [mjoin list_join].
    destruct (split_line buf) as [[l r]|].
    - destruct Hs as [-> _]. exfalso. apply Hn. rewrite elem_of_app, elem_of_cons. naive_solver.
    - destruct Hs as [_ ->]. done. }
  apply Forall_cons in Hr as [[Hc Hc0] Hr]. destruct c as [|a c]; [by apply elem_of_nil in Hc|].
  pose proof (grep_lines_select pattern (length (buf ++ a :: c)) (buf ++ a :: c) ltac:(lia)
    ltac:(rewrite not_elem_of_app; done)) as Hg.
  destruct (grep_lines _ pattern (buf ++ a :: c)) as [out r]. destruct Hg as (Hrn & Hr0 & Hl & Hne & Hg).
  rewrite bool_decide_false by (apply Hne; rewrite elem_of_app; by right).
  rewrite IH by done. cbn [mjoin list_join]. rewrite app_assoc, Hg.
  pose proof (split_line_select pattern r [] Hr0) as Hs. destruct (split_line r) as [[l r']|].
  - destruct Hs as [-> _]. exfalso. apply Hrn. rewrite elem_of_app, elem_of_cons. naive_solver.
  - destruct Hs as [_ Hs]. by rewrite Hs.
Qed.

(** When every [read] brings at least one end of line, grep writes the
    matching lines of the whole input, in their order and complete, however
    the reads cut the lines. *)
Theorem grep_writes_matching_lines pattern reads :
  Forall (λ c, NEWLINE ∈ c ∧ 0 ∉ c) reads → grep pattern reads = select pattern [] (mjoin reads).
Proof. intros Hr. apply grep_loop_select; [apply not_elem_of_nil..|done]. Qed.

(** A [read] that brings no end of line, as from a pipe, loses the text
    read so far: for the input line [abc] read in two parts, grep for [ab]
    finds nothing. *)
Theorem grep_loses_partial_line :
  grep [97; 98] [[97; 98]; [99; NEWLINE]] = [] ∧
  select [97; 98] [] (mjoin [[97; 98]; [99; NEWLINE]]) = [97; 98; 99; NEWLINE].
Proof. split; vm_compute; reflexivity. Qed.

Lemma grep_writes_matching_lines_witness :
  grep [94; 97; 46; 42; 36] [[97; 98; 10; 99]; [100; 10; 97]; [10]] = [97; 98; 10; 97; 10].
Proof.
  rewrite (grep_writes_matching_lines [94; 97; 46; 42; 36] [[97; 98; 10; 99]; [100; 10; 97]; [10]]).
  - vm_compute. reflexivity.
  - repeat constructor; rewrite ?elem_of_cons, ?not_elem_of_cons, ?elem_of_nil; unfold NEWLINE; intuition lia.
Defined.
