(* ===== verification/Printf.v ===== *)
(** * printf.c, the printing of console.c, and atoi of ulib.c

    Output is the list of the characters written; [strings] gives the
    strings that the arguments of [%s] point to. *)

From S2P Require Import Prelude.

(** The characters 0123456789ABCDEF and 0123456789abcdef. *)
Definition DIGITS : list Z := [48; 49; 50; 51; 52; 53; 54; 55; 56; 57; 65; 66; 67; 68; 69; 70].
Definition digits : list Z := [48; 49; 50; 51; 52; 53; 54; 55; 56; 57; 97; 98; 99; 100; 101; 102].
Definition MINUS : Z := 45.
Definition PERCENT : Z := 37.

(** The loop that fills [buf], least digit first; [None] when it does not
    end within [fuel] rounds. *)
Fixpoint digits_loop (tbl : list Z) (fuel : nat) (x base : Z) : option (list Z) :=
  match fuel with
  | O => None
  | S fuel' =>
    let d := tbl !!! Z.to_nat (x mod base) in
    if x / base =? 0 then Some [d]
    else l ← digits_loop tbl fuel' (x / base) base; Some (d :: l)
  end.

(** [buf] when [printint] of printf.c starts to print it, ... *)
Definition printint_buf (tbl : list Z) (xx base : Z) (sgn : bool) : option (list Z) :=
  let neg := sgn && (xx <? 0) in
  let x := if neg then u32 (- xx) else u32 xx in
  l ← digits_loop tbl 32 x base;
  Some (l ++ (if neg then [MINUS] else [])).

(** ... and what it prints. *)
Definition printint (xx base : Z) (sgn : bool) : option (list Z) :=
  reverse <$> printint_buf DIGITS xx base sgn.

(** The [printint] of console.c. *)
Definition cprintint (xx base : Z) (sign : bool) : option (list Z) :=
  reverse <$> printint_buf digits xx base sign.

Definition NULL_STRING : list Z := [40; 110; 117; 108; 108; 41].

Section printing.
Variable strings : Z → list Z.

Definition string_arg (a : Z) : list Z := if a =? 0 then NULL_STRING else strings a.

(** The loop of [printf] after a percent sign or not, with the arguments
    [ap] that are left. *)
Fixpoint printf_loop (state : bool) (fmt ap : list Z) : option (list Z) :=
  match fmt with
  | [] => Some []
  | c :: fmt' =>
    if negb state then
      if c =? PERCENT then printf_loop true fmt' ap
      else cons c <$> printf_loop false fmt' ap
    else
      let a := hd 0 ap in
      if c =? 100 then
        o ← printint (s32 a) 10 true; app o <$> printf_loop false fmt' (tl ap)
      else if (c =? 120) || (c =? 112) then
        o ← printint (s32 a) 16 false; app o <$> printf_loop false fmt' (tl ap)
      else if c =? 115 then app (string_arg a) <$> printf_loop false fmt' (tl ap)
      else if c =? 99 then cons (u8 a) <$> printf_loop false fmt' (tl ap)
      else if c =? PERCENT then cons c <$> printf_loop false fmt' ap
      else app [PERCENT; c] <$> printf_loop false fmt' ap
  end.
Definition printf (fmt ap : list Z) : option (list Z) := printf_loop false fmt ap.

(** The loop of [cprintf]; a percent sign at the end of the format ends it. *)
Fixpoint cprintf (fmt argp : list Z) : option (list Z) :=
  match fmt with
  | [] => Some []
  | c :: fmt' =>
    if negb (c =? PERCENT) then cons c <$> cprintf fmt' argp
    else match fmt' with
    | [] => Some []
    | c :: fmt'' =>
      let a := hd 0 argp in
      if c =? 100 then o ← cprintint (s32 a) 10 true; app o <$> cprintf fmt'' (tl argp)
      else if (c =? 120) || (c =? 112) then o ← cprintint (s32 a) 16 false; app o <$> cprintf fmt'' (tl argp)
      else if c =? 115 then app (string_arg a) <$> cprintf fmt'' (tl argp)
      else if c =? PERCENT then cons PERCENT <$> cprintf fmt'' argp
      else app [PERCENT; c] <$> cprintf fmt'' argp
    end
  end.
End printing.

(** The loop of [atoi] with the value [n] so far. *)
Fixpoint atoi_loop (s : list Z) (n : Z) : Z :=
  match s with
  | [] => n
  | c :: s' => if (48 <=? c) && (c <=? 57) then atoi_loop s' (s32 (n * 10 + c - 48)) else n
  end.
Definition atoi (s : list Z) : Z := atoi_loop s 0.

(** ** The digits *)

Lemma digits_loop_length tbl base k : ∀ fuel x,
  2 <= base → 0 <= x < base ^ Z.of_nat k → (1 <= k <= fuel)%nat →
  ∃ l, digits_loop tbl fuel x base = Some l ∧ (length l <= k)%nat.
Proof.
  induction k as [|k IH]; intros fuel x Hb Hx Hk; [lia|]. destruct fuel as [|fuel]; [lia|]. cbn [digits_loop].
  destruct (Z.eqb_spec (x / base) 0) as [Hz|Hz].
  { eexists. split; [done|]. cbn. lia. }
  assert (Hpow : base ^ Z.of_nat (S k) = base * base ^ Z.of_nat k) by (rewrite Nat2Z.inj_succ, Z.pow_succ_r; lia).
  assert (0 <= x / base < base ^ Z.of_nat k).
  { split; [apply Z.div_pos; lia|]. apply Z.div_lt_upper_bound; lia. }
  destruct k as [|k]; [exfalso; cbn in *; lia|].
  destruct (IH fuel (x / base)) as (l & -> & Hl); [lia|done|lia|]. eexists. split; [done|]. cbn in *. lia.
Qed.

(** C38: [printint] always terminates and never writes past its buffer of 16
    characters, for every 32-bit number and every base from 10 on, signed or
    not: no more than 11 characters are stored.  This holds for printf.c as
    for console.c. *)
Theorem printint_fits tbl xx base sgn :
  - 2 ^ 31 <= xx < 2 ^ 31 → 10 <= base →
  ∃ l, printint_buf tbl xx base sgn = Some l ∧ (length l <= 11)%nat.
Proof.
  intros Hx Hb. unfold printint_buf. set (neg := sgn && (xx <? 0)).
  assert (H32 : ∀ y, 0 <= u32 y < base ^ Z.of_nat 10).
  { intros y. unfold u32. pose proof (Z.mod_pos_bound y (2 ^ 32) ltac:(lia)).
    pose proof (Z.pow_le_mono_l 10 base 10 ltac:(lia)). change (Z.of_nat 10) with 10. lia. }
  destruct (digits_loop_length tbl base 10 32 (if neg then u32 (- xx) else u32 xx)) as (l & -> & Hl);
    [lia|by destruct neg|lia|].
  eexists. split; [done|]. rewrite length_app. destruct neg; cbn; lia.
Qed.

(** The value of decimal digits, least first. *)
Fixpoint digits_val (l : list Z) : Z := match l with [] => 0 | d :: l' => d - 48 + 10 * digits_val l' end.

Lemma DIGITS_dec d : 0 <= d < 10 → DIGITS !!! Z.to_nat d = d + 48.
Proof. intros Hd. assert (Hc : d ∈ seqZ 0 10) by (apply elem_of_seqZ; lia). revert Hc. vm_compute seqZ.
  rewrite !elem_of_cons, elem_of_nil. intuition subst; reflexivity. Qed.

Lemma digits_loop_val fuel : ∀ x l, 0 <= x → digits_loop DIGITS fuel x 10 = Some l →
  digits_val l = x ∧ Forall (λ c, 48 <= c <= 57) l.
Proof.
  induction fuel as [|fuel IH]; intros x l Hx E; [done|]. cbn [digits_loop] in E.
  pose proof (Z.mod_pos_bound x 10 ltac:(lia)) as Hm. pose proof (Z.div_mod x 10 ltac:(lia)) as Hd.
  rewrite DIGITS_dec in E by done. destruct (Z.eqb_spec (x / 10) 0) as [Hz|Hz].
  - injection E as <-. cbn. split; [lia|]. constructor; [lia|done].
  - apply bind_Some in E as (l' & El & E). injection E as <-. apply IH in El as [Hv Hf]; [|apply Z.div_pos; lia].
    cbn [digits_val]. split; [lia|]. constructor; [lia|done].
Qed.

Lemma atoi_digits l : ∀ s n,
  Forall (λ c, 48 <= c <= 57) l → 0 <= n → n * 10 ^ Z.of_nat (length l) + digits_val l < 2 ^ 31 →
  atoi_loop (reverse l ++ s) n = atoi_loop s (n * 10 ^ Z.of_nat (length l) + digits_val l).
Proof.
  induction l as [|d l IH]; intros s n Hf Hn Hb; cbn [length digits_val] in *.
  { cbn. f_equal. lia. }
  apply Forall_cons in Hf as [Hd Hf]. rewrite Nat2Z.inj_succ, Z.pow_succ_r in * by lia.
  assert (0 <= digits_val l) by (clear -Hf; induction Hf; cbn; lia).
  pose proof (Z.pow_pos_nonneg 10 (Z.of_nat (length l)) ltac:(lia) ltac:(lia)).
  rewrite reverse_cons, <-app_assoc, IH by (done || nia). cbn [app atoi_loop].
  destruct (Z.leb_spec 48 d), (Z.leb_spec d 57); try lia. cbn [andb]. f_equal. rewrite s32_id by nia. lia.
Qed.

(** Reading back what printf prints: for every number from 0 to
    [2^31 - 1], [atoi] of the characters that [%d] writes is the number. *)
Theorem atoi_printint x :
  0 <= x < 2 ^ 31 → ∃ l, printint x 10 true = Some l ∧ atoi l = x.
Proof.
  intros Hx. unfold printint, printint_buf. destruct (Z.ltb_spec x 0) as [|_]; [lia|]. cbn [andb].
  unfold u32. rewrite Z.mod_small by lia.
  destruct (digits_loop_length DIGITS 10 10 32 x) as (l & E & _); [lia|change (10 ^ Z.of_nat 10) with 10000000000; lia|lia|].
  rewrite E. cbn [mbind option_bind fmap option_fmap option_map]. eexists. split; [done|]. rewrite app_nil_r.
  apply digits_loop_val in E as [Hv Hf]; [|lia]. unfold atoi.
  rewrite <-(app_nil_r (reverse l)), atoi_digits by (done || lia). cbn. lia.
Qed.

Lemma printint_fits_witness :
  ∃ l, printint_buf DIGITS (- 2 ^ 31) 10 true = Some l ∧ (length l <= 11)%nat.
Proof. apply (printint_fits DIGITS (- 2 ^ 31) 10 true); lia. Defined.

Lemma atoi_printint_witness : ∃ l, printint 2026 10 true = Some l ∧ atoi l = 2026.
Proof. apply (atoi_printint 2026). lia. Defined.
