(* ===== verification/Console.v ===== *)
(** * console.c: the input of the console

    The ring of typed characters with its three indices, which run freely
    modulo [2^32]; what the interrupt handler does with one character, and
    [consoleread].  What the handler echoes on the screen is a list of
    arguments for [consputc]. *)

From S2P Require Import Prelude Layout.

Definition BACKSPACE : Z := 0x100.
Definition INPUT_BUF : Z := 128.
Definition CTRL_D : Z := 4.
Definition CTRL_H : Z := 8.
Definition CTRL_P : Z := 16.
Definition CTRL_U : Z := 21.
Definition DEL : Z := 127.
Definition NL : Z := 10.
Definition CR : Z := 13.

Record input := Input { in_buf : list Z; in_r : Z; in_w : Z; in_e : Z }.

Definition in_at (s : input) (k : Z) : Z := in_buf s !!! Z.to_nat (k mod INPUT_BUF).

(** The loop that kills the line, with its echo. *)
Fixpoint kill_line (fuel : nat) (s : input) : option (list Z * input) :=
  match fuel with
  | O => None
  | S fuel' =>
    if negb (in_e s =? in_w s) && negb (in_at s (u32 (in_e s - 1)) =? NL) then
      '(echo, s) ← kill_line fuel' (Input (in_buf s) (in_r s) (in_w s) (u32 (in_e s - 1)));
      Some (BACKSPACE :: echo, s)
    else Some ([], s)
  end.

(** [consoleintr] on one character: whether it wakes up the readers, the
    echo, and the new state; [None] when the loop above does not end. *)
Definition consoleintr (c : Z) (s : input) : option (bool * list Z * input) :=
  if c =? CTRL_P then Some (false, [], s)
  else if c =? CTRL_U then '(echo, s') ← kill_line 129 s; Some (false, echo, s')
  else if (c =? CTRL_H) || (c =? DEL) then
    if negb (in_e s =? in_w s) then
      Some (false, [BACKSPACE], Input (in_buf s) (in_r s) (in_w s) (u32 (in_e s - 1)))
    else Some (false, [], s)
  else if negb (c =? 0) && (u32 (in_e s - in_r s) <? INPUT_BUF) then
    let c := if c =? CR then NL else c in
    let buf := <[Z.to_nat (in_e s mod INPUT_BUF) := u8 c]> (in_buf s) in
    let e := u32 (in_e s + 1) in
    if (c =? NL) || (c =? CTRL_D) || (e =? u32 (in_r s + INPUT_BUF)) then Some (true, [c], Input buf (in_r s) e e)
    else Some (false, [c], Input buf (in_r s) (in_w s) e)
  else Some (false, [], s).

(** [consoleread] returns, or sleeps with [n] bytes still to read and the
    bytes [dst] stored. *)
Inductive cread := CReturned (r : Z) (dst : list Z) | CAsleep (n : Z) (dst : list Z).

(** The loop of [consoleread], entered or woken up. *)
Fixpoint consoleread_loop (fuel : nat) (killed : bool) (target n : Z) (dst : list Z) (s : input) : option (cread * input) :=
  match fuel with
  | O => None
  | S fuel' =>
    if negb (0 <? n) then Some (CReturned (target - n) dst, s)
    else if in_r s =? in_w s then
      if killed then Some (CReturned (-1) dst, s) else Some (CAsleep n dst, s)
    else
      let c := in_at s (in_r s) in
      let s' := Input (in_buf s) (u32 (in_r s + 1)) (in_w s) (in_e s) in
      if c =? CTRL_D then Some (CReturned (target - n) dst, if n <? target then s else s')
      else if c =? NL then Some (CReturned (target - (n - 1)) (dst ++ [c]), s')
      else consoleread_loop fuel' killed target (n - 1) (dst ++ [c]) s'
  end.

Definition consoleread (killed : bool) (n : Z) (s : input) : option (cread * input) :=
  consoleread_loop (1 + Z.to_nat n) killed n n [] s.

(** ** What is in the ring *)

Definition waiting (s : input) : Z := u32 (in_w s - in_r s).
Definition held (s : input) : Z := u32 (in_e s - in_r s).

(** Characters of complete lines that were not read, and the characters of
    the line being typed. *)
Definition unread (s : input) : list Z := (λ i, in_at s (in_r s + i)) <$> seqZ 0 (waiting s).
Definition typed (s : input) : list Z := (λ i, in_at s (in_r s + i)) <$> seqZ (waiting s) (held s - waiting s).

Record input_ok (s : input) : Prop := {
  io_len : length (in_buf s) = Z.to_nat INPUT_BUF;
  io_bytes : Forall is_byte (in_buf s);
  io_u32 : is_u32 (in_r s) ∧ is_u32 (in_w s) ∧ is_u32 (in_e s);
  io_order : waiting s <= held s <= INPUT_BUF }.

Lemma u32_sub a b k : is_u32 a → is_u32 b → u32 (a - b) = k → a = u32 (b + k).
Proof. unfold is_u32, u32. intros. dlia. Qed.

(** The three indices as one base and two lengths. *)
Lemma input_indices s : input_ok s → in_w s = u32 (in_r s + waiting s) ∧ in_e s = u32 (in_r s + held s).
Proof. intros [_ _ (Hr & Hw & He) _]. split; by apply u32_sub. Qed.

(** Storing behind the last character changes none of them. *)
Lemma in_at_store s c r w e i :
  input_ok s → 0 <= i < held s → held s < INPUT_BUF →
  in_at (Input (<[Z.to_nat (in_e s mod INPUT_BUF) := c]> (in_buf s)) r w e) (in_r s + i) = in_at s (in_r s + i).
Proof.
  intros Hok Hi Hh. destruct (input_indices s Hok) as [_ ->]. unfold in_at. cbn [in_buf].
  apply list_lookup_total_insert_ne. unfold u32, INPUT_BUF in *. dlia.
Qed.

Lemma in_at_new s c r w e :
  input_ok s → held s < INPUT_BUF →
  in_at (Input (<[Z.to_nat (in_e s mod INPUT_BUF) := c]> (in_buf s)) r w e) (in_r s + held s) = c.
Proof.
  intros Hok Hh. destruct (input_indices s Hok) as [_ He]. unfold in_at. cbn [in_buf].
  replace ((in_r s + held s) mod INPUT_BUF) with (in_e s mod INPUT_BUF).
  - apply list_lookup_total_insert_eq. rewrite (io_len _ Hok). unfold INPUT_BUF. dlia.
  - rewrite He. unfold u32, INPUT_BUF. dlia.
Qed.

Lemma seqZ_one x : seqZ x 1 = [x].
Proof. by rewrite seqZ_cons by lia. Qed.

Lemma edit_back s :
  input_ok s → in_e s ≠ in_w s →
  let s' := Input (in_buf s) (in_r s) (in_w s) (u32 (in_e s - 1)) in
  input_ok s' ∧ unread s' = unread s ∧ held s' = held s - 1 ∧ waiting s' = waiting s ∧
  typed s = typed s' ++ [in_at s (u32 (in_e s - 1))].
Proof.
  intros Hok Hne s'. destruct (input_indices s Hok) as [Ew Ee].
  destruct Hok as [Hl Hb (Hr & Hw & He) [Hwh Hh]].
  assert (Hlt : waiting s ≠ held s) by congruence.
  assert (H0 : 0 <= waiting s) by (unfold waiting, u32; apply Z.mod_pos_bound; lia).
  assert (Hh' : held s' = held s - 1).
  { unfold held in *. cbn [s' in_e in_r]. unfold u32 in *. clear - Hlt Hwh H0. dlia. }
  assert (Hw' : waiting s' = waiting s) by done. split_and!; try done.
  - split; [done|done| |rewrite Hh', Hw'; lia]. split; [done|]. split; [done|]. apply Z.mod_pos_bound. lia.
  - unfold typed. rewrite Hh', Hw'. replace (held s - waiting s) with (held s - 1 - waiting s + 1) by lia.
    rewrite seqZ_app, fmap_app by lia. f_equal. rewrite seqZ_one. cbn [fmap list_fmap]. f_equal.
    rewrite Ee. unfold in_at. f_equal. f_equal. unfold u32, INPUT_BUF. dlia.
Qed.

Lemma kill_line_spec fuel : ∀ s,
  input_ok s → NL ∉ typed s → held s - waiting s < Z.of_nat fuel →
  ∃ s', kill_line fuel s = Some (replicate (length (typed s)) BACKSPACE, s') ∧
    input_ok s' ∧ unread s' = unread s ∧ typed s' = [].
Proof.
  induction fuel as [|fuel IH]; intros s Hok Hnl Hf; [pose proof (io_order _ Hok); lia|]. cbn [kill_line].
  destruct (Z.eqb_spec (in_e s) (in_w s)) as [E|E]; cbn [negb andb].
  { exists s. assert (typed s = []) as -> by (unfold typed, held, waiting; by rewrite E, Z.sub_diag). done. }
  destruct (edit_back s Hok E) as (Hok' & Hu & Hh & Hw & Ht). rewrite Ht, not_elem_of_app, list_elem_of_singleton in Hnl.
  destruct Hnl as [Hn1 Hn2]. destruct (Z.eqb_spec (in_at s (u32 (in_e s - 1))) NL) as [En|_]; [congruence|]. cbn [negb].
  destruct (IH _ Hok' Hn1) as (s' & -> & Hs & Hu' & Hp); [lia|]. exists s'. cbn [mbind option_bind].
  rewrite Ht, length_app, Nat.add_comm. split_and!; [done|done|congruence|done].
Qed.

Lemma waiting_nonneg s : 0 <= waiting s.
Proof. unfold waiting, u32. apply Z.mod_pos_bound. lia. Qed.

Lemma unread_length s : Z.of_nat (length (unread s)) = waiting s.
Proof. unfold unread. rewrite length_fmap, length_seqZ. pose proof (waiting_nonneg s). lia. Qed.

Lemma typed_length s : input_ok s → Z.of_nat (length (typed s)) = held s - waiting s.
Proof. intros Hok. unfold typed. rewrite length_fmap, length_seqZ. pose proof (io_order _ Hok). lia. Qed.

(** A character stored, its line complete ([b]) or not. *)
Lemma store_char s c (b : bool) :
  input_ok s → held s < INPUT_BUF → is_byte c →
  let buf := <[Z.to_nat (in_e s mod INPUT_BUF) := c]> (in_buf s) in
  let e := u32 (in_e s + 1) in
  let s' := Input buf (in_r s) (if b then e else in_w s) e in
  input_ok s' ∧
  unread s' = (if b then unread s ++ typed s ++ [c] else unread s) ∧
  typed s' = (if b then [] else typed s ++ [c]).
Proof.
  intros Hok Hh Hc buf e s'. destruct (input_indices s Hok) as [Ew Ee].
  pose proof (io_order _ Hok) as [Hwh _]. pose proof (waiting_nonneg s) as H0. unfold INPUT_BUF in Hh.
  assert (Hh' : held s' = held s + 1).
  { unfold held in *. cbn [s' in_e in_r]. subst e. unfold u32 in *. clear - Hh. dlia. }
  assert (Hw' : waiting s' = if b then held s + 1 else waiting s) by (destruct b; [exact Hh'|done]).
  assert (Hold : ∀ i, 0 <= i < held s → in_at s' (in_r s + i) = in_at s (in_r s + i)).
  { intros i Hi. by apply in_at_store. }
  assert (Hnew : in_at s' (in_r s + held s) = c) by by apply in_at_new.
  assert (Hmap : ∀ a n, 0 <= a → 0 <= n → a + n <= held s →
    (λ i, in_at s' (in_r s + i)) <$> seqZ a n = (λ i, in_at s (in_r s + i)) <$> seqZ a n).
  { intros a n Ha Hn Han. apply list_fmap_ext. intros j i Hi. apply lookup_seqZ in Hi as [-> Hj]. apply Hold. lia. }
  split_and!.
  - destruct Hok as [Hl Hb (Hr & Hw & He) _]. split; cbn [s' in_buf in_r in_w in_e].
    + subst buf. by rewrite length_insert.
    + by apply Forall_insert.
    + split; [done|]. assert (is_u32 e) by (apply Z.mod_pos_bound; lia). by destruct b.
    + rewrite Hh', Hw'. unfold INPUT_BUF. destruct b; lia.
  - unfold unread, typed. change (in_r s') with (in_r s). rewrite Hw'. destruct b; [|apply Hmap; lia].
    replace (held s + 1) with (waiting s + (held s - waiting s + 1)) by lia.
    rewrite seqZ_app, fmap_app by lia. f_equal; [apply Hmap; lia|].
    rewrite seqZ_app, fmap_app by lia. f_equal; [apply Hmap; lia|]. rewrite seqZ_one. cbn [fmap list_fmap].
    replace (0 + waiting s + (held s - waiting s)) with (held s) by lia. by rewrite Hnew.
  - unfold typed. change (in_r s') with (in_r s). rewrite Hw', Hh'. destruct b; [by rewrite Z.sub_diag|].
    replace (held s + 1 - waiting s) with (held s - waiting s + 1) by lia.
    rewrite seqZ_app, fmap_app by lia. f_equal; [apply Hmap; lia|]. rewrite seqZ_one. cbn [fmap list_fmap].
    replace (waiting s + (held s - waiting s)) with (held s) by lia. by rewrite Hnew.
Qed.

(** A character taken. *)
Lemma take_char s :
  input_ok s → in_r s ≠ in_w s →
  let s' := Input (in_buf s) (u32 (in_r s + 1)) (in_w s) (in_e s) in
  input_ok s' ∧ unread s = in_at s (in_r s) :: unread s' ∧ typed s' = typed s.
Proof.
  intros Hok Hne s'. destruct (input_indices s Hok) as [Ew Ee]. pose proof (io_order _ Hok) as [Hwh Hh].
  destruct Hok as [Hl Hb (Hr & Hw & He) _]. pose proof (waiting_nonneg s) as H0. unfold INPUT_BUF in Hh.
  assert (Hpos : waiting s ≠ 0).
  { intros E. rewrite E, Z.add_0_r in Ew. unfold u32, is_u32 in *. rewrite Z.mod_small in Ew by lia. lia. }
  assert (Hw' : waiting s' = waiting s - 1).
  { unfold waiting in *. cbn [s' in_r in_w]. unfold u32 in *. clear - H0 Hpos. dlia. }
  assert (Hh' : held s' = held s - 1).
  { unfold held, waiting in *. cbn [s' in_r in_e]. unfold u32 in *. clear - H0 Hpos Hwh. dlia. }
  assert (Hat : ∀ i, in_at s' (in_r s' + i) = in_at s (in_r s + (1 + i))).
  { intros i. unfold in_at. cbn [s' in_buf in_r]. f_equal. f_equal. unfold u32, INPUT_BUF. dlia. }
  split_and!.
  - split; [done|done| |rewrite Hh', Hw'; unfold INPUT_BUF; lia]. split; [apply Z.mod_pos_bound; lia|done].
  - unfold unread. rewrite Hw'. replace (waiting s) with (1 + (waiting s - 1)) at 1 by lia.
    rewrite seqZ_app, fmap_app by lia. rewrite seqZ_one. cbn [fmap list_fmap app]. rewrite Z.add_0_r. f_equal.
    change (0 + 1) with 1.
    replace (seqZ 1 (waiting s - 1)) with (Z.add 1 <$> seqZ 0 (waiting s - 1)) by (rewrite fmap_add_seqZ; f_equal; lia).
    rewrite <-list_fmap_compose. apply list_fmap_ext. intros j i _. cbn. symmetry. apply Hat.
  - unfold typed. rewrite Hw', Hh'. replace (held s - 1 - (waiting s - 1)) with (held s - waiting s) by lia.
    replace (seqZ (waiting s) (held s - waiting s)) with (Z.add 1 <$> seqZ (waiting s - 1) (held s - waiting s))
      by (rewrite fmap_add_seqZ; f_equal; lia).
    rewrite <-list_fmap_compose. apply list_fmap_ext. intros j i _. cbn. apply Hat.
Qed.

(** ** The console as a queue of characters and a line editor *)

Record aconsole := AConsole { a_queue : list Z; a_line : list Z }.

(** The whole line being typed is killed at once, a character is taken off
    its end, and a line is complete at its end, at the end of file
    character, or when the console holds 128 characters. *)
Definition akey (c : Z) (a : aconsole) : bool * list Z * aconsole :=
  if c =? CTRL_P then (false, [], a)
  else if c =? CTRL_U then (false, replicate (length (a_line a)) BACKSPACE, AConsole (a_queue a) [])
  else if (c =? CTRL_H) || (c =? DEL) then
    (false, if decide (a_line a = []) then [] else [BACKSPACE],
     AConsole (a_queue a) (take (length (a_line a) - 1) (a_line a)))
  else if negb (c =? 0) && bool_decide (length (a_queue a) + length (a_line a) < 128)%nat then
    let c := if c =? CR then NL else c in
    let line := a_line a ++ [c] in
    if (c =? NL) || (c =? CTRL_D) || bool_decide (length (a_queue a) + length line = 128)%nat
    then (true, [c], AConsole (a_queue a ++ line) [])
    else (false, [c], AConsole (a_queue a) line)
  else (false, [], a).

(** A read takes characters off the queue up to the end of a line. *)
Fixpoint aread (q : list Z) (killed : bool) (target n : Z) (dst : list Z) : cread * list Z :=
  if negb (0 <? n) then (CReturned (target - n) dst, q)
  else match q with
  | [] => (if killed then CReturned (-1) dst else CAsleep n dst, [])
  | c :: q' =>
    if c =? CTRL_D then (CReturned (target - n) dst, if n <? target then q else q')
    else if c =? NL then (CReturned (target - (n - 1)) (dst ++ [c]), q')
    else aread q' killed target (n - 1) (dst ++ [c])
  end.

(** What happens to the console: a key, or the loop of a read that is
    entered or woken up. *)
Inductive event := Key (c : Z) | Read (killed : bool) (target n : Z) (dst : list Z).
Definition output := (bool * list Z + cread)%type.

Fixpoint console_run (l : list event) (s : input) : option (list output * input) :=
  match l with
  | [] => Some ([], s)
  | Key c :: l' =>
    '(w, s) ← consoleintr c s; '(out, s) ← console_run l' s; Some (inl w :: out, s)
  | Read killed target n dst :: l' =>
    '(r, s) ← consoleread_loop (1 + Z.to_nat n) killed target n dst s;
    '(out, s) ← console_run l' s; Some (inr r :: out, s)
  end.

Fixpoint aconsole_run (l : list event) (a : aconsole) : list output * aconsole :=
  match l with
  | [] => ([], a)
  | Key c :: l' =>
    let '(w, a) := akey c a in let '(out, a) := aconsole_run l' a in (inl w :: out, a)
  | Read killed target n dst :: l' =>
    let '(r, q) := aread (a_queue a) killed target n dst in
    let '(out, a) := aconsole_run l' (AConsole q (a_line a)) in (inr r :: out, a)
  end.

Definition event_ok (e : event) : Prop := match e with Key c => is_byte c | Read _ _ _ _ => True end.

(** The ring holds the queue and then the line. *)
Record refines (s : input) (a : aconsole) : Prop := {
  rf_ok : input_ok s;
  rf_queue : unread s = a_queue a;
  rf_line : typed s = a_line a;
  rf_nl : NL ∉ a_line a }.

Lemma unread_empty s : input_ok s → unread s = [] ↔ in_r s = in_w s.
Proof.
  intros Hok. pose proof (unread_length s) as Hl. split.
  - intros E. rewrite E in Hl. destruct (input_indices s Hok) as [Ew _]. rewrite <-Hl in Ew.
    destruct Hok as [_ _ (Hr & _ & _) _]. unfold u32, is_u32 in *. cbn in Ew. rewrite Z.add_0_r, Z.mod_small in Ew by lia. done.
  - intros E. apply nil_length_inv. unfold waiting in Hl. rewrite E, Z.sub_diag in Hl. change (u32 0) with 0 in Hl. lia.
Qed.

Lemma consoleread_refines fuel : ∀ s q l killed target n dst,
  refines s (AConsole q l) → (0 < fuel)%nat → n < Z.of_nat fuel →
  ∃ s', consoleread_loop fuel killed target n dst s = Some ((aread q killed target n dst).1, s') ∧
    refines s' (AConsole (aread q killed target n dst).2 l).
Proof.
  induction fuel as [|fuel IH]; intros s q l killed target n dst Hr H0 Hf; [lia|]. cbn [consoleread_loop].
  destruct (Z.ltb_spec 0 n) as [Hn|Hn]; cbn [negb].
  2:{ exists s. destruct q; cbn; (destruct (Z.ltb_spec 0 n); [lia|]); done. }
  destruct Hr as [Hok Hq Hl Hnl]. cbn [a_queue a_line] in *. pose proof (unread_empty s Hok) as He.
  destruct (Z.eqb_spec (in_r s) (in_w s)) as [E|E].
  { apply He in E. rewrite E in Hq. subst q. exists s. cbn [aread]. destruct (Z.ltb_spec 0 n); [|lia].
    destruct killed; (split; [done|by split]). }
  destruct (take_char s Hok E) as (Hok' & Hu & Ht). rewrite Hu in Hq. subst q. cbn [aread].
  destruct (Z.ltb_spec 0 n); [|lia]. cbn [negb].
  assert (Hr' : refines (Input (in_buf s) (u32 (in_r s + 1)) (in_w s) (in_e s))
    (AConsole (unread (Input (in_buf s) (u32 (in_r s + 1)) (in_w s) (in_e s))) l)).
  { split; cbn [a_queue a_line]; congruence. }
  destruct (Z.eqb_spec (in_at s (in_r s)) CTRL_D) as [Ed|Ed].
  { eexists. split; [reflexivity|]. cbn [snd]. destruct (n <? target); [by split|done]. }
  destruct (Z.eqb_spec (in_at s (in_r s)) NL) as [En|En]; [eexists; by split|]. apply IH; [done|lia|lia].
Qed.

Lemma ring_full s :
  input_ok s → held s < INPUT_BUF → (u32 (in_e s + 1) =? u32 (in_r s + INPUT_BUF)) = (held s =? 127).
Proof.
  intros Hok Hh. destruct (input_indices s Hok) as [_ ->]. apply eq_true_iff_eq. rewrite !Z.eqb_eq.
  pose proof (io_order _ Hok). pose proof (waiting_nonneg s). unfold u32, INPUT_BUF in *. generalize dependent (held s).
  intros h. dlia.
Qed.

Lemma consoleintr_refines s a c :
  refines s a → is_byte c →
  ∃ s', consoleintr c s = Some ((akey c a).1, s') ∧ refines s' (akey c a).2.
Proof.
  intros Hr Hc. pose proof Hr as [Hok Hq Hl Hnl]. unfold consoleintr, akey.
  pose proof (unread_length s) as Hul. pose proof (typed_length s Hok) as Htl. rewrite Hq in Hul. rewrite Hl in Htl.
  destruct (c =? CTRL_P); [by exists s|]. destruct (c =? CTRL_U).
  { destruct (kill_line_spec 129 s Hok) as (s' & -> & Hok' & Hu & Ht); [by rewrite Hl|pose proof (io_order _ Hok); unfold INPUT_BUF in *; lia|].
    exists s'. cbn [mbind option_bind fst snd]. rewrite Hl. split; [done|].
    split; cbn [a_queue a_line]; [done|congruence|done|apply not_elem_of_nil]. }
  destruct ((c =? CTRL_H) || (c =? DEL)).
  { destruct (Z.eqb_spec (in_e s) (in_w s)) as [E|E]; cbn [negb].
    - assert (El : a_line a = []).
      { rewrite <-Hl. unfold typed, held, waiting. by rewrite E, Z.sub_diag. }
      exists s. rewrite decide_True by done. split; [done|]. split; cbn [snd a_queue a_line]; [done|done|by rewrite Hl, El|rewrite El; apply not_elem_of_nil].
    - destruct (edit_back s Hok E) as (Hok' & Hu & _ & _ & Ht). rewrite Hl in Ht.
      rewrite decide_False by (intros E'; rewrite E' in Ht; by eapply app_cons_not_nil). eexists. split; [reflexivity|].
      assert (Et : take (length (a_line a) - 1) (a_line a) = typed (Input (in_buf s) (in_r s) (in_w s) (u32 (in_e s - 1)))).
      { rewrite Ht, length_app. cbn [length]. rewrite Nat.add_sub. by rewrite take_app_length. }
      split; cbn [snd a_queue a_line]; [done|congruence|done|]. rewrite Et. rewrite Ht in Hnl.
      apply not_elem_of_app in Hnl. tauto. }
  replace (bool_decide (length (a_queue a) + length (a_line a) < 128)%nat) with (u32 (in_e s - in_r s) <? INPUT_BUF).
  2:{ fold (held s). apply eq_true_iff_eq. rewrite Z.ltb_lt, bool_decide_eq_true. unfold INPUT_BUF. lia. }
  destruct (negb (c =? 0)); cbn [andb]; [|by exists s].
  destruct (Z.ltb_spec (u32 (in_e s - in_r s)) INPUT_BUF) as [Hh|Hh]; [|by exists s]. fold (held s) in Hh.
  set (c' := if c =? CR then NL else c). assert (Hc' : is_byte c') by (unfold c', is_byte, NL in *; case_match; lia).
  replace (u8 c') with c' by (unfold u8, is_byte in *; by rewrite Z.mod_small).
  rewrite (ring_full s Hok) by done. replace (bool_decide (length (a_queue a) + length (a_line a ++ [c']) = 128)%nat)
    with (held s =? 127) by (apply eq_true_iff_eq; rewrite Z.eqb_eq, bool_decide_eq_true, length_app; cbn; lia).
  destruct ((c' =? NL) || (c' =? CTRL_D) || (held s =? 127)) eqn:Eb.
  - destruct (store_char s c' true Hok Hh Hc') as (Hok' & Hu & Ht). eexists. split; [reflexivity|].
    split; cbn [snd a_queue a_line]; [done|congruence|done|apply not_elem_of_nil].
  - destruct (store_char s c' false Hok Hh Hc') as (Hok' & Hu & Ht). eexists. split; [reflexivity|].
    split; cbn [snd a_queue a_line]; [done|congruence|congruence|].
    rewrite not_elem_of_app, list_elem_of_singleton. split; [done|].
    apply orb_false_iff in Eb as [Eb _]. apply orb_false_iff in Eb as [Eb _]. lia.
Qed.

Lemma console_run_refines l : ∀ s a,
  refines s a → Forall event_ok l →
  ∃ s', console_run l s = Some ((aconsole_run l a).1, s') ∧ refines s' (aconsole_run l a).2.
Proof.
  induction l as [|[c|killed target n dst] l IH]; intros s a Hr Hl; [by exists s|..];
    apply Forall_cons in Hl as [He Hl]; cbn [console_run aconsole_run].
  - destruct (consoleintr_refines s a c Hr He) as (s1 & -> & Hr1). destruct (akey c a) as [w a1].
    cbn [fst snd mbind option_bind] in *. destruct (IH s1 a1 Hr1 Hl) as (s2 & -> & Hr2).
    destruct (aconsole_run l a1) as [out a2]. cbn in *. by exists s2.
  - destruct a as [q line]. cbn [a_queue a_line].
    destruct (consoleread_refines (1 + Z.to_nat n) s q line killed target n dst Hr ltac:(lia) ltac:(lia)) as (s1 & -> & Hr1).
    destruct (aread q killed target n dst) as [r q']. cbn [fst snd mbind option_bind] in *.
    destruct (IH s1 _ Hr1 Hl) as (s2 & -> & Hr2). destruct (aconsole_run l (AConsole q' line)) as [out a2].
    cbn in *. by exists s2.
Qed.

(** The console after boot, with its buffer in the zeroed part of the
    kernel. *)
Definition input0 : input := Input (replicate (Z.to_nat INPUT_BUF) 0) 0 0 0.

Lemma input0_refines : refines input0 (AConsole [] []).
Proof.
  split; try done; [|apply not_elem_of_nil]. split; [done| |repeat split; cbn; lia|vm_compute; split; discriminate].
  apply Forall_replicate. unfold is_byte. lia.
Qed.

(** C7: for every sequence of keys and reads, the ring buffer with its
    wrapping indices behaves as a queue of characters with a line editor in
    front of it: all loops end, the same characters are delivered and the
    same reads sleep, and the ring ends up holding the queue and the line.
    So no typed line is lost, altered or delivered before it is complete, and
    the ring is never overrun. *)
Theorem console_is_line_queue l :
  Forall event_ok l →
  ∃ s', console_run l input0 = Some ((aconsole_run l (AConsole [] [])).1, s') ∧
    refines s' (aconsole_run l (AConsole [] [])).2.
Proof. apply console_run_refines, input0_refines. Qed.

Lemma console_is_line_queue_witness :
  ∃ s', console_run [Key 108; Key 120; Key 8; Key 115; Key 13; Read false 10 10 []] input0 =
    Some ([inl (false, [108]); inl (false, [120]); inl (false, [BACKSPACE]); inl (false, [115]); inl (true, [10]);
      inr (CReturned 3 [108; 115; 10])], s').
Proof.
  destruct (console_is_line_queue [Key 108; Key 120; Key 8; Key 115; Key 13; Read false 10 10 []]) as (s' & E & _).
  - repeat constructor; unfold is_byte; lia.
  - exists s'. exact E.
Defined.
