(* ===== verification/Kbd.v ===== *)
(** * kbd.c: the keyboard

    [kbdgetc] turns the scan codes of a PC keyboard into characters, with
    the state of the modifier keys in the bits of [shift]; [kbdintr] feeds
    the console with them.  The controller is known by its two ports and is
    a parameter; [KbdQueue] states what they promise:
    the status tells whether a scan code is waiting, and a read of the data
    port takes it. *)

From S2P Require Import Prelude Layout Console.

Definition KBSTATP : Z := 0x64.
Definition KBS_DIB : Z := 0x01.
Definition KBDATAP : Z := 0x60.

Definition NO : Z := 0.
Definition SHIFT : Z := 1.
Definition CTL : Z := 2.
Definition ALT : Z := 4.
Definition CAPSLOCK : Z := 8.
Definition NUMLOCK : Z := 16.
Definition SCROLLLOCK : Z := 32.
Definition E0ESC : Z := 64.

Definition KEY_HOME : Z := 0xE0.
Definition KEY_END : Z := 0xE1.
Definition KEY_UP : Z := 0xE2.
Definition KEY_DN : Z := 0xE3.
Definition KEY_LF : Z := 0xE4.
Definition KEY_RT : Z := 0xE5.
Definition KEY_PGUP : Z := 0xE6.
Definition KEY_PGDN : Z := 0xE7.
Definition KEY_INS : Z := 0xE8.
Definition KEY_DEL : Z := 0xE9.

(** ** The tables *)

(** The codes of the characters of a string. *)
Definition chars (s : string) : list Z :=
  (λ c, Z.of_N (Ascii.N_of_ascii c)) <$> String.list_ascii_of_string s.

(** An array of 256 bytes from the initialisers by position and those with
    a designator; the rest is zero. *)
Definition table (l : list Z) (m : list (Z * Z)) : list Z :=
  foldr (λ '(i, v) t, <[Z.to_nat i := v]> t) (l ++ replicate (256 - length l) 0) m.

Definition shiftcode : list Z :=
  table [] [(0x1D, CTL); (0x2A, SHIFT); (0x36, SHIFT); (0x38, ALT); (0x9D, CTL); (0xB8, ALT)].

Definition togglecode : list Z :=
  table [] [(0x3A, CAPSLOCK); (0x45, NUMLOCK); (0x46, SCROLLLOCK)].

(** The arrow keys and their neighbours, the same in all three maps. *)
Definition keypad : list (Z * Z) :=
  [(0xC8, KEY_UP); (0xD0, KEY_DN); (0xC9, KEY_PGUP); (0xD1, KEY_PGDN); (0xCB, KEY_LF);
   (0xCD, KEY_RT); (0x97, KEY_HOME); (0xCF, KEY_END); (0xD2, KEY_INS); (0xD3, KEY_DEL)].

Definition normalmap : list Z := table
  ([NO; 0x1B] ++ chars "1234567890-=" ++ [8; 9] ++ chars "qwertyuiop[]" ++ [10; NO] ++
   chars "asdfghjkl;'`" ++ [NO] ++ chars "\zxcvbnm,./" ++ [NO] ++ chars "*" ++ [NO] ++ chars " " ++
   replicate 13 NO ++ chars "789-456+1230." ++ replicate 4 NO)
  ([(0x9C, 10); (0xB5, 47)] ++ keypad).

(** 34 is the double quote, 126 the tilde. *)
Definition shiftmap : list Z := table
  ([NO; 0x1B] ++ chars "!@#$%^&*()_+" ++ [8; 9] ++ chars "QWERTYUIOP{}" ++ [10; NO] ++
   chars "ASDFGHJKL:" ++ [34; 126] ++ [NO] ++ chars "|ZXCVBNM<>?" ++ [NO] ++ chars "*" ++ [NO] ++ chars " " ++
   replicate 13 NO ++ chars "789-456+1230." ++ replicate 4 NO)
  ([(0x9C, 10); (0xB5, 47)] ++ keypad).

(** [C(x)] for the characters of a string. *)
Definition ctl (s : string) : list Z := (λ c, c - 64) <$> chars s.

(** [C('/')] is negative; it is stored in a byte. *)
Definition ctlmap : list Z := table
  (replicate 16 NO ++ ctl "QWERTYUIOP" ++ [NO; NO; 13; NO] ++ ctl "ASDFGHJKL" ++ replicate 4 NO ++
   ctl "\ZXCVBNM" ++ [NO; NO; u8 (47 - 64); NO; NO])
  ([(0x9C, 13); (0xB5, u8 (47 - 64))] ++ keypad).

(** [charcode[i]] *)
Definition charcode (i : Z) : list Z :=
  if i =? 0 then normalmap else if i =? 1 then shiftmap else ctlmap.

(** ** The driver *)

Record kbd (D : Type) := Kbd {
  k_shift : Z;            (* shift *)
  k_input : input;        (* the console's input *)
  k_woken : bool;         (* wakeup(&input.r) was called *)
  k_dev : D }.
Arguments Kbd {D}.
Arguments k_shift {D}.
Arguments k_input {D}.
Arguments k_woken {D}.
Arguments k_dev {D}.

(** What [kbdgetc] does with a scan code: the new [shift] and its result. *)
Definition scancode (shift data : Z) : Z * Z :=
  if data =? 0xE0 then (Z.lor shift E0ESC, 0)
  else if negb (Z.land data 0x80 =? 0) then
    let data := if negb (Z.land shift E0ESC =? 0) then data else Z.land data 0x7F in
    (Z.ldiff shift (Z.lor (shiftcode !!! Z.to_nat data) E0ESC), 0)
  else
    let '(data, shift) :=
      if negb (Z.land shift E0ESC =? 0) then (Z.lor data 0x80, Z.ldiff shift E0ESC)
      else (data, shift) in
    let shift := Z.lor shift (shiftcode !!! Z.to_nat data) in
    let shift := Z.lxor shift (togglecode !!! Z.to_nat data) in
    let c := charcode (Z.land shift (Z.lor CTL SHIFT)) !!! Z.to_nat data in
    let c :=
      if negb (Z.land shift CAPSLOCK =? 0) then
        if (97 <=? c) && (c <=? 122) then u32 (c + (65 - 97))
        else if (65 <=? c) && (c <=? 90) then u32 (c + (97 - 65))
        else c
      else c in
    (shift, s32 c).

Section kbd_code.
Context {D : Type} `{!Ports D}.
Local Abbreviation K := (M (kbd D)).

Definition inb (port : Z) : K Z := λ s,
  let '(r, d) := p_inb port (k_dev s) in Ret r (Kbd (k_shift s) (k_input s) (k_woken s) d).

Definition kbdgetc : K Z :=
  st ← inb KBSTATP;
  if Z.land st KBS_DIB =? 0 then mret (-1)
  else
    data ← inb KBDATAP;
    shift ← gets k_shift;
    let '(shift, c) := scancode shift data in
    modify (λ s, Kbd shift (k_input s) (k_woken s) (k_dev s));;
    mret c.

(** The switch of [consoleintr]. *)
Definition console_char (c : Z) : K unit := λ s,
  match consoleintr c (k_input s) with
  | None => Diverge
  | Some (w, _, i) => Ret tt (Kbd (k_shift s) i (k_woken s || w) (k_dev s))
  end.

(** [consoleintr(kbdgetc)]: the loop has a round for every scan code that
    waits. *)
Fixpoint kbdintr (fuel : nat) : K unit :=
  match fuel with
  | O => diverge
  | S fuel' =>
    c ← kbdgetc;
    if negb (c >=? 0) then mret tt else console_char c;; kbdintr fuel'
  end.
End kbd_code.

(** ** What the controller promises *)

Class KbdQueue (D : Type) `{!Ports D} := {
  kb_rep : D → list Z → Prop;
  kb_bytes d l : kb_rep d l → Forall is_byte l;
  kb_status d l r d' : kb_rep d l → p_inb KBSTATP d = (r, d') →
    (Z.land r KBS_DIB = 0 ↔ l = []) ∧ kb_rep d' l;
  kb_data d x l r d' : kb_rep d (x :: l) → p_inb KBDATAP d = (r, d') → r = x ∧ kb_rep d' l }.

(** The characters a sequence of scan codes means, and the [shift] after
    it. *)
Fixpoint scan (shift : Z) (l : list Z) : list Z * Z :=
  match l with
  | [] => ([], shift)
  | x :: l' =>
    let '(shift, c) := scancode shift x in
    let '(cs, shift) := scan shift l' in (c :: cs, shift)
  end.

(** ** Scan codes *)

Definition bits7 (x : Z) : Prop := 0 <= x ∧ Z.shiftr x 7 = 0.

Lemma bits7_lor x y : bits7 x → bits7 y → bits7 (Z.lor x y).
Proof. intros [? Hx] [? Hy]. split; [by apply Z.lor_nonneg|]. by rewrite Z.shiftr_lor, Hx, Hy. Qed.
Lemma bits7_lxor x y : bits7 x → bits7 y → bits7 (Z.lxor x y).
Proof. intros [? Hx] [? Hy]. split; [by apply Z.lxor_nonneg|]. by rewrite Z.shiftr_lxor, Hx, Hy. Qed.
Lemma bits7_ldiff x y : bits7 x → bits7 (Z.ldiff x y).
Proof. intros [? Hx]. split; [apply Z.ldiff_nonneg; by left|]. by rewrite Z.shiftr_ldiff, Hx, Z.ldiff_0_l. Qed.

Create HintDb kbd.
#[local] Hint Resolve bits7_lor bits7_lxor bits7_ldiff : kbd.

Definition bits7b (x : Z) : bool := (0 <=? x) && (Z.shiftr x 7 =? 0).
Definition byteb (x : Z) : bool := (0 <=? x) && (x <? 256).

(** A property of all entries, and of the default, holds for a lookup. *)
Lemma table_entry (P : Z → Prop) (p : Z → bool) t n :
  (∀ x, p x = true → P x) → P inhabitant → forallb p t = true → P (t !!! n).
Proof.
  intros Hp H0 E. rewrite list_lookup_total_alt. destruct (t !! n) as [x|] eqn:Ex; [|done]. cbn.
  rewrite forallb_forall in E. by apply Hp, E, list_elem_of_In, list_elem_of_lookup_2 with n.
Qed.

Lemma codes_bits7 n : bits7 (shiftcode !!! n) ∧ bits7 (togglecode !!! n).
Proof.
  split; (apply (table_entry _ bits7b); [|done|vm_compute; reflexivity]);
    intros x [?%Z.leb_le ?%Z.eqb_eq]%andb_true_iff; done.
Qed.

Lemma charcode_byte i n : is_byte (charcode i !!! n).
Proof.
  unfold charcode. destruct (i =? 0); [|destruct (i =? 1)];
    (apply (table_entry _ byteb); [|done|vm_compute; reflexivity]);
    intros x [?%Z.leb_le ?%Z.ltb_lt]%andb_true_iff; done.
Qed.

(** A scan code keeps the state in seven bits and yields a byte. *)
Lemma scancode_range shift data :
  bits7 shift → bits7 (scancode shift data).1 ∧ is_byte (scancode shift data).2.
Proof.
  intros Hs. pose proof (codes_bits7 (Z.to_nat data)) as [H1 H2].
  assert (H0 : is_byte 0) by done. assert (HE : bits7 E0ESC) by done.
  unfold scancode. destruct (data =? 224); [cbn [fst snd]; by auto with kbd|].
  destruct (negb (Z.land data 128 =? 0)); [cbn [fst snd]; by auto with kbd|].
  set (p := if negb (Z.land shift E0ESC =? 0) then _ else _). destruct p as [k sh] eqn:Ep.
  assert (Hsh : bits7 sh) by (unfold p in Ep; destruct (negb _); simplify_eq; auto with kbd).
  pose proof (codes_bits7 (Z.to_nat k)) as [H3 H4]. cbn [fst snd]. split; [by auto with kbd|].
  set (c := charcode _ !!! _). assert (Hc : is_byte c) by apply charcode_byte. clearbody c.
  unfold is_byte in *. clear p Ep. destruct (negb _); [|rewrite s32_id; lia].
  destruct (Z.leb_spec 97 c), (Z.leb_spec c 122), (Z.leb_spec 65 c), (Z.leb_spec c 90); cbn [andb];
    unfold u32; rewrite ?Z.mod_small by lia; rewrite s32_id; lia.
Qed.

Lemma scan_app shift l l' :
  scan shift (l ++ l') =
    ((scan shift l).1 ++ (scan (scan shift l).2 l').1, (scan (scan shift l).2 l').2).
Proof.
  revert shift; induction l as [|x l IH]; intros shift; cbn [scan app fst snd]; [by destruct (scan shift l')|].
  destruct (scancode shift x) as [sh c]. rewrite IH. destruct (scan sh l) as [cs sh']. cbn [fst snd].
  by destruct (scan sh' l').
Qed.

(** ** The interrupt handler *)

(** Keys for the console as a line queue. *)
Definition akeys (cs : list Z) (a : aconsole) : aconsole := foldl (λ a c, (akey c a).2) a cs.
Fixpoint awakes (cs : list Z) (a : aconsole) : bool :=
  match cs with
  | [] => false
  | c :: cs' => (akey c a).1.1 || awakes cs' (akey c a).2
  end.

Lemma akeys_app cs cs' a : akeys (cs ++ cs') a = akeys cs' (akeys cs a).
Proof. apply foldl_app. Qed.
Lemma awakes_app cs cs' a : awakes (cs ++ cs') a = awakes cs a || awakes cs' (akeys cs a).
Proof.
  revert a; induction cs as [|c cs IH]; intros a; [done|]. cbn. by rewrite IH, orb_assoc.
Qed.

Section handler.
Context {D : Type} `{!Ports D, !KbdQueue D}.
Implicit Types s : kbd D.

Lemma kbdgetc_spec s l :
  kb_rep (k_dev s) l → bits7 (k_shift s) →
  wp kbdgetc (λ c s', k_input s' = k_input s ∧ k_woken s' = k_woken s ∧
    match l with
    | [] => c = -1 ∧ k_shift s' = k_shift s ∧ kb_rep (k_dev s') []
    | x :: l' => (k_shift s', c) = scancode (k_shift s) x ∧ kb_rep (k_dev s') l'
    end) s.
Proof.
  intros R Hs. unfold kbdgetc. apply wp_bind. unfold inb at 1, wp at 1.
  destruct (p_inb KBSTATP (k_dev s)) as [st d] eqn:E1. destruct (kb_status _ _ _ _ R E1) as [Hst R1].
  destruct (Z.eqb_spec (Z.land st KBS_DIB) 0) as [E0|E0].
  - apply Hst in E0 as ->. by apply wp_ret.
  - destruct l as [|x l]; [by destruct E0; apply Hst|]. apply wp_bind. unfold inb, wp at 1. cbn [k_dev].
    destruct (p_inb KBDATAP d) as [data d'] eqn:E2. destruct (kb_data _ _ _ _ _ R1 E2) as [-> R2].
    apply wp_bind, wp_gets. cbn [k_shift]. destruct (scancode (k_shift s) x) as [sh c].
    apply wp_bind, wp_modify. by apply wp_ret.
Qed.

Lemma kbdintr_spec l : ∀ fuel s a,
  kb_rep (k_dev s) l → (length l < fuel)%nat → bits7 (k_shift s) → refines (k_input s) a →
  wp (kbdintr fuel) (λ _ s', let cs := (scan (k_shift s) l).1 in
    kb_rep (k_dev s') [] ∧ k_shift s' = (scan (k_shift s) l).2 ∧ bits7 (k_shift s') ∧
    refines (k_input s') (akeys cs a) ∧ k_woken s' = k_woken s || awakes cs a) s.
Proof.
  induction l as [|x l IH]; intros [|fuel] s a R Hf Hs Ha; try (cbn in Hf; lia); cbn [kbdintr]; apply wp_bind;
    (eapply wp_mono; [by apply kbdgetc_spec|]); intros c s1 (Ei & Ew & H).
  - destruct H as (-> & Es & R1). change (-1 >=? 0) with false. apply wp_ret. cbn [scan fst snd akeys foldl awakes].
    rewrite Es, Ei, Ew, orb_false_r. done.
  - destruct H as [E R1]. pose proof (scancode_range (k_shift s) x Hs) as [Hs1 Hc]. rewrite <-E in Hs1, Hc.
    cbn [fst snd] in Hs1, Hc. rewrite Z.geb_leb. destruct (Z.leb_spec 0 c); [|unfold is_byte in Hc; lia].
    cbn [negb]. apply wp_bind. unfold console_char, wp at 1. rewrite <-Ei in Ha.
    destruct (consoleintr_refines _ _ c Ha Hc) as (i & -> & Ha'). destruct (akey c a) as [[w echo] a'] eqn:Ek.
    cbn [fst snd] in *. set (s2 := Kbd _ _ _ _). eapply wp_mono; [apply (IH fuel s2 a'); [done|cbn in Hf; lia|done|done]|].
    cbn [scan]. rewrite <-E. cbn [k_shift s2]. destruct (scan (k_shift s1) l) as [cs sh].
    intros [] s3 (R3 & E3 & H3 & Ha3 & W3). cbn [fst snd akeys foldl awakes] in *. rewrite Ek. split_and!; try done.
    rewrite W3. cbn [k_woken s2]. by rewrite Ew, orb_assoc.
Qed.

(** Interrupts, each with the state the controller has by then and the
    number of scan codes that wait. *)
Fixpoint kbd_feed (l : list (D * nat)) : M (kbd D) unit :=
  match l with
  | [] => mret tt
  | (d, n) :: l' =>
    modify (λ s, Kbd (k_shift s) (k_input s) (k_woken s) d);;
    kbdintr (S n);;
    kbd_feed l'
  end.

Lemma kbd_feed_spec ds pieces : Forall2 kb_rep ds pieces → ∀ s a,
  bits7 (k_shift s) → refines (k_input s) a →
  wp (kbd_feed (zip ds (length <$> pieces))) (λ _ s', let r := scan (k_shift s) (mjoin pieces) in
    k_shift s' = r.2 ∧ refines (k_input s') (akeys r.1 a) ∧ k_woken s' = k_woken s || awakes r.1 a) s.
Proof.
  induction 1 as [|d p ds pieces Hd _ IH]; intros s a Hs Ha; cbn [fmap list_fmap zip zip_with kbd_feed].
  - apply wp_ret. cbn. by rewrite orb_false_r.
  - apply wp_bind, wp_modify, wp_bind. set (s1 := Kbd _ _ _ _).
    eapply wp_mono; [apply (kbdintr_spec p _ s1 a); [done|lia|done|done]|].
    intros [] s2 (_ & Es & Hs2 & Ha2 & Hw). eapply wp_mono; [by apply (IH s2)|].
    intros [] s3 (Es3 & Ha3 & Hw3). cbn [mjoin list_join]. fold (mjoin pieces). rewrite scan_app.
    cbn [fst snd k_shift s1] in *. rewrite <-Es, akeys_app, awakes_app. split_and!; [done|done|].
    rewrite Hw3, Hw. cbn [k_woken s1]. by rewrite orb_assoc.
Qed.
End handler.

(** ** Typing *)

(** The scan code of the key that a map gives character [c]. *)
Definition key_of (m : list Z) (c : Z) : option Z :=
  (λ p : nat * Z, Z.of_nat p.1) <$> list_find (c =.) (take 58 m).

(** What the keyboard sends for a character: the key is pressed and
    released, with the left shift key down if that is needed. *)
Definition keystrokes (c : Z) : list Z :=
  match key_of normalmap c with
  | Some k => [k; k + 0x80]
  | None =>
    match key_of shiftmap c with
    | Some k => [0x2A; k; k + 0x80; 0xAA]
    | None => []
    end
  end.

Definition printable (c : Z) : Prop := 32 <= c < 127.

Lemma keystrokes_ok c :
  printable c ∨ c = NL →
  ∃ cs, scan 0 (keystrokes c) = (cs, 0) ∧ filter (λ x, x ≠ 0) cs = [c].
Proof.
  intros Hc. assert (E : forallb (λ c, let '(cs, sh) := scan 0 (keystrokes c) in
    (sh =? 0) && bool_decide (filter (λ x, x ≠ 0) cs = [c])) (NL :: seqZ 32 95) = true) by (vm_compute; reflexivity).
  rewrite forallb_forall in E. specialize (E c). destruct (scan 0 (keystrokes c)) as [cs sh].
  destruct (proj1 (andb_true_iff _ _) (E ltac:(apply list_elem_of_In, elem_of_cons; rewrite elem_of_seqZ;
    unfold printable in Hc; lia))) as [->%Z.eqb_eq ?%bool_decide_eq_true]. by exists cs.
Qed.

Lemma akeys_filter cs a : akeys cs a = akeys (filter (λ x, x ≠ 0) cs) a.
Proof.
  revert a; induction cs as [|c cs IH]; intros a; [done|]. rewrite filter_cons. cbn [akeys foldl].
  fold (akeys cs (akey c a).2). destruct (decide (c ≠ 0)) as [|Hc]; cbn [akeys foldl]; [apply IH|].
  apply dec_stable in Hc as ->. apply IH.
Qed.

Lemma awakes_filter cs a : awakes cs a = awakes (filter (λ x, x ≠ 0) cs) a.
Proof.
  revert a; induction cs as [|c cs IH]; intros a; [done|]. rewrite filter_cons. cbn [awakes].
  destruct (decide (c ≠ 0)) as [|Hc]; cbn [awakes]; [by rewrite IH|].
  apply dec_stable in Hc as ->. apply IH.
Qed.

Definition type_text (text : list Z) : list Z := mjoin (keystrokes <$> text).

Lemma type_text_ok text :
  Forall (λ c, printable c ∨ c = NL) text →
  ∃ cs, scan 0 (type_text text) = (cs, 0) ∧ filter (λ x, x ≠ 0) cs = text.
Proof.
  induction 1 as [|c text Hc _ (cs & E & F)]; [by exists []|].
  destruct (keystrokes_ok c Hc) as (cs1 & E1 & F1). exists (cs1 ++ cs).
  change (type_text (c :: text)) with (keystrokes c ++ type_text text). rewrite scan_app, E1. cbn [fst snd]. rewrite E. split; [done|]. by rewrite filter_app, F1, F.
Qed.

(** A printable character is neither a control character nor the end of a
    line. *)
Lemma akey_printable c q line :
  printable c → (length q + length line + 1 < 128)%nat →
  akey c (AConsole q line) = (false, [c], AConsole q (line ++ [c])).
Proof.
  unfold printable. intros Hc Hl. unfold akey. cbn [a_queue a_line].
  rewrite (proj2 (Z.eqb_neq c CTRL_P)), (proj2 (Z.eqb_neq c CTRL_U)), (proj2 (Z.eqb_neq c CTRL_H)),
    (proj2 (Z.eqb_neq c DEL)), (proj2 (Z.eqb_neq c 0)), (proj2 (Z.eqb_neq c CR))
    by (unfold CTRL_P, CTRL_U, CTRL_H, DEL, CR; lia).
  cbn [orb negb andb]. rewrite bool_decide_true by lia.
  rewrite (proj2 (Z.eqb_neq c NL)), (proj2 (Z.eqb_neq c CTRL_D)) by (unfold NL, CTRL_D; lia).
  cbn [orb]. rewrite bool_decide_false; [done|]. rewrite length_app. cbn [length]. lia.
Qed.

Lemma akeys_printable text q : ∀ line,
  Forall printable text → (length q + length line + length text < 128)%nat →
  akeys text (AConsole q line) = AConsole q (line ++ text) ∧ awakes text (AConsole q line) = false.
Proof.
  induction text as [|c text IH]; intros line Ht Hl; [by rewrite app_nil_r|].
  apply Forall_cons in Ht as [Hc Ht]. cbn [length] in Hl. cbn [akeys foldl awakes].
  fold (akeys text (akey c (AConsole q line)).2). rewrite akey_printable by (done || lia). cbn [fst snd orb].
  destruct (IH (line ++ [c])) as [-> ->]; [done|rewrite length_app; cbn; lia|]. by rewrite <-app_assoc.
Qed.

Lemma aread_line text : ∀ target n dst,
  Forall printable text → Z.of_nat (length text) < n →
  aread (text ++ [NL]) false target n dst =
    (CReturned (target - n + Z.of_nat (length text) + 1) (dst ++ text ++ [NL]), []).
Proof.
  induction text as [|c text IH]; intros target n dst Ht Hn; cbn [length app] in *; cbn [aread];
    (destruct (Z.ltb_spec 0 n); [|lia]); cbn [negb].
  - change (NL =? CTRL_D) with false. change (NL =? NL) with true. cbn iota. do 3 f_equal. lia.
  - apply Forall_cons in Ht as [Hc Ht]. unfold printable in Hc.
    rewrite (proj2 (Z.eqb_neq c CTRL_D)), (proj2 (Z.eqb_neq c NL)) by (unfold NL, CTRL_D; lia).
    rewrite (IH target (n - 1)) by (done || lia). rewrite <-app_assoc. cbn [app]. do 2 f_equal. lia.
Qed.


(** A controller that is just its queue. *)
#[global] Instance queue_ports : Ports (list Z) := {
  p_inb := λ port l,
    if port =? KBSTATP then (if decide (l = []) then 0 else KBS_DIB, l)
    else match l with [] => (0, []) | x :: l' => (x, l') end;
  p_outb := λ _ _ l, l }.

#[global] Program Instance queue_kbd : KbdQueue (list Z) := {
  kb_rep d l := d = l ∧ Forall is_byte l }.
Next Obligation. intros d l [_ H]. exact H. Qed.
Next Obligation.
  intros d l r d' [-> H] [= <- <-]. split; [|done]. destruct (decide (l = [])); [done|].
  split; [discriminate|done].
Qed.
Next Obligation. intros d x l r d' [-> H] [= <- <-]. by apply Forall_cons in H as [_ H]. Qed.


(** The Home key, which sends [0xE0] and [0x47], means nothing: its entry in
    the maps is at [0x97] instead of [0xC7]. *)
Lemma home_key_dead : scan 0 [0xE0; 0x47] = ([0; 0], 0).
Proof. vm_compute. reflexivity. Qed.
