(* ===== verification/Screen.v ===== *)
(** * console.c: the output of the console

    [cgaputc] writes to the memory of the display, cells of 16 bits from
    [crt] on, and moves the cursor through the registers of the controller;
    [consputc] also sends the character to the serial port (uartputc of
    uart.c).  The ports are a parameter; [Display] states what the driver
    relies on.  The display turns out to be a window on an endless sheet of
    paper, and the echo of the keyboard shows the line being typed. *)

From S2P Require Import Prelude Str Layout Console.

Definition CRTPORT : Z := 0x3d4.
Definition COM1 : Z := 0x3f8.

Record screen (D : Type) := Screen {
  crt : Z → Z;
  uart : bool;
  panicked : bool;
  v_dev : D }.
Arguments Screen {D}.
Arguments crt {D}.
Arguments uart {D}.
Arguments panicked {D}.
Arguments v_dev {D}.

(** [memmove(crt, crt+80, sizeof(crt[0])*23*80)] and
    [memset(crt+pos, 0, sizeof(crt[0])*(24*80 - pos))]. *)
Definition move_up (f : Z → Z) : Z → Z := λ i, if (0 <=? i) && (i <? 23 * 80) then f (i + 80) else f i.
Definition clear_from (pos : Z) (f : Z → Z) : Z → Z := λ i, if (pos <=? i) && (i <? 24 * 80) then 0 else f i.

Section screen_code.
Context {D : Type} `{!Ports D}.
Local Abbreviation K := (M (screen D)).

Definition inb (port : Z) : K Z := λ s,
  let '(r, d) := p_inb port (v_dev s) in Ret r (Screen (crt s) (uart s) (panicked s) d).
Definition outb (port v : Z) : K unit :=
  modify (λ s, Screen (crt s) (uart s) (panicked s) (p_outb port (u8 v) (v_dev s))).
Definition on_crt (f : (Z → Z) → Z → Z) : K unit :=
  modify (λ s, Screen (f (crt s)) (uart s) (panicked s) (v_dev s)).

(** The parts of [cgaputc]: read the position of the cursor, put the
    character there, scroll, set the position. *)
Definition get_pos : K Z :=
  outb CRTPORT 14;;
  h ← inb (CRTPORT + 1);
  outb CRTPORT 15;;
  l ← inb (CRTPORT + 1);
  mret (Z.lor (Z.shiftl h 8) l).

Definition put_char (c pos : Z) : K Z :=
  if c =? NL then mret (pos + (80 - pos mod 80))
  else if c =? BACKSPACE then mret (if pos >? 0 then pos - 1 else pos)
  else on_crt (λ f, upd f pos (Z.lor (Z.land c 0xff) 0x0700));; mret (pos + 1).

Definition scroll (pos : Z) : K Z :=
  if pos / 80 >=? 24 then
    on_crt move_up;;
    let pos := pos - 80 in
    on_crt (clear_from pos);;
    mret pos
  else mret pos.

Definition set_pos (pos : Z) : K unit :=
  outb CRTPORT 14;;
  outb (CRTPORT + 1) (Z.shiftr pos 8);;
  outb CRTPORT 15;;
  outb (CRTPORT + 1) pos.

Definition cgaputc (c : Z) : K unit :=
  pos ← get_pos;
  pos ← put_char c pos;
  if (pos <? 0) || (pos >? 25 * 80) then panic "pos under/overflow"
  else
    pos ← scroll pos;
    set_pos pos;;
    on_crt (λ f, upd f pos (Z.lor 32 0x0700)).

(** The wait of [uartputc], at most [n] rounds. *)
Fixpoint uart_wait (n : nat) : K unit :=
  match n with
  | O => mret tt
  | S n' =>
    r ← inb (COM1 + 5);
    if negb (Z.land r 0x20 =? 0) then mret tt else uart_wait n'
  end.

Definition uartputc (c : Z) : K unit :=
  u ← gets uart;
  if negb u then mret tt
  else uart_wait 128;; outb COM1 c.

Definition consputc (c : Z) : K unit :=
  p ← gets panicked;
  if p : bool then diverge
  else
    (if c =? BACKSPACE then uartputc 8;; uartputc 32;; uartputc 8 else uartputc c);;
    cgaputc c.

Fixpoint consputs (l : list Z) : K unit :=
  match l with
  | [] => mret tt
  | c :: l' => consputc c;; consputs l'
  end.

(** The loop of [consolewrite]. *)
Definition consolewrite (buf : list Z) : K Z :=
  consputs ((λ c, Z.land c 0xff) <$> buf);;
  mret (Z.of_nat (length buf)).
End screen_code.

(** ** The display controller *)

(** The index of the register that is selected, and the registers; the
    serial port is another device. *)
Class Display (D : Type) `{!Ports D} := {
  crt_rep : D → Z → (Z → Z) → Prop;
  crt_select d i r v : crt_rep d i r → crt_rep (p_outb CRTPORT v d) v r;
  crt_write d i r v : crt_rep d i r → crt_rep (p_outb (CRTPORT + 1) v d) i (upd r i v);
  crt_read d i r x d' : crt_rep d i r → p_inb (CRTPORT + 1) d = (x, d') → x = r i ∧ crt_rep d' i r;
  crt_serial_in d i r x d' : crt_rep d i r → p_inb (COM1 + 5) d = (x, d') → crt_rep d' i r;
  crt_serial_out d i r v : crt_rep d i r → crt_rep (p_outb COM1 v d) i r }.

(** ** The sheet of paper *)

(** Cells numbered from the start, 80 in a line; the cursor; and the first
    line that is on the screen, which has 24. *)
Record paper := Paper { cells : Z → Z; cursor : Z; top : Z }.

Definition cell (c : Z) : Z := Z.lor (Z.land c 0xff) 0x0700.

(** A character goes to the cursor and moves it, the end of a line moves it
    to the start of the next line, a backspace to the cell before, unless it
    is at the start of the screen.  The screen follows the cursor down, and
    the cell under the cursor is blank. *)
Definition put (c : Z) (p : paper) : paper :=
  let pos :=
    if c =? NL then 80 * (cursor p / 80 + 1)
    else if c =? BACKSPACE then if 80 * top p <? cursor p then cursor p - 1 else cursor p
    else cursor p + 1 in
  let f := if (c =? NL) || (c =? BACKSPACE) then cells p else upd (cells p) (cursor p) (cell c) in
  Paper (upd f pos (cell 32)) pos (Z.max (top p) (pos / 80 - 23)).

(** The cursor is on the screen, and nothing is written below it. *)
Record paper_ok (p : paper) : Prop := {
  po_top : 0 <= top p;
  po_cursor : 80 * top p <= cursor p < 80 * (top p + 24);
  po_fresh i : 80 * (top p + 24) <= i → cells p i = 0 }.

Lemma put_cursor c p :
  paper_ok p →
  80 * top p <= cursor (put c p) <= 80 * (top p + 24) ∧
  top (put c p) = Z.max (top p) (cursor (put c p) / 80 - 23).
Proof.
  intros [H0 Hc _]. unfold put. cbn [cursor top].
  destruct (c =? NL); [split; [dlia|done]|].
  destruct (c =? BACKSPACE); [destruct (Z.ltb_spec (80 * top p) (cursor p))|]; lia.
Qed.

Lemma put_ok c p : paper_ok p → paper_ok (put c p).
Proof.
  intros Hp. pose proof (put_cursor c p Hp) as [Hc Ht]. destruct Hp as [H0 Hc0 Hf].
  split; [lia|dlia|]. intros i Hi. assert (Hne : i ≠ cursor (put c p)) by dlia.
  unfold put in *. cbn [cells cursor] in *. unfold upd at 1. rewrite (proj2 (Z.eqb_neq i _)) by exact Hne.
  destruct ((c =? NL) || (c =? BACKSPACE)); [apply Hf; lia|].
  unfold upd. rewrite (proj2 (Z.eqb_neq i _)) by lia. apply Hf. lia.
Qed.

(** ** The screen shows the paper *)

Section display.
Context {D : Type} `{!Ports D, !Display D}.
Implicit Types s : screen D.

(** The cursor is in the registers 14 and 15. *)
Definition cursor_at (d : D) (pos : Z) : Prop :=
  ∃ i r, crt_rep d i r ∧ is_byte (r 14) ∧ is_byte (r 15) ∧ 256 * r 14 + r 15 = pos.

Record shows s (p : paper) : Prop := {
  sh_paper : paper_ok p;
  sh_cells i : 0 <= i < 24 * 80 → crt s i = cells p (80 * top p + i);
  sh_cursor : cursor_at (v_dev s) (cursor p - 80 * top p) }.

Lemma lor_byte h l : is_byte l → Z.lor (Z.shiftl h 8) l = 256 * h + l.
Proof.
  unfold is_byte. intros Hl.
  assert (E : Z.land (Z.shiftl h 8) l = 0).
  { apply Z.bits_inj_0. intros n. rewrite Z.land_spec. destruct (Z.lt_ge_cases n 0); [by rewrite Z.testbit_neg_r|].
    destruct (Z.lt_ge_cases n 8); [by rewrite Z.shiftl_spec_low|].
    replace l with (l mod 2 ^ 8) by (apply Z.mod_small; lia). rewrite Z.mod_pow2_bits_high by lia. apply andb_false_r. }
  rewrite <-Z.lxor_lor, <-Z.add_nocarry_lxor by exact E. rewrite Z.shiftl_mul_pow2 by lia. lia.
Qed.

Lemma screen_outb_rule {B} s port v (k : M (screen D) B) Q :
  wp k Q (Screen (crt s) (uart s) (panicked s) (p_outb port (u8 v) (v_dev s))) → wp (outb port v;; k) Q s.
Proof. intros H. by apply wp_bind, wp_modify. Qed.

Lemma get_pos_spec s pos :
  cursor_at (v_dev s) pos →
  wp get_pos (λ r s', r = pos ∧ ∃ d, cursor_at d pos ∧ s' = Screen (crt s) (uart s) (panicked s) d) s.
Proof.
  intros (i & r & R & Hh & Hl & Hp). apply screen_outb_rule, wp_bind. unfold inb at 1, wp at 1. cbn [v_dev].
  pose proof (crt_select _ _ _ (u8 14) R) as R1. destruct (p_inb _ (p_outb _ _ _)) as [h d1] eqn:E1.
  destruct (crt_read _ _ _ _ _ R1 E1) as [-> R2]. apply screen_outb_rule, wp_bind. unfold inb, wp at 1. cbn [v_dev].
  pose proof (crt_select _ _ _ (u8 15) R2) as R3. destruct (p_inb _ (p_outb _ _ d1)) as [l d2] eqn:E2.
  destruct (crt_read _ _ _ _ _ R3 E2) as [-> R4]. change (u8 14) with 14. change (u8 15) with 15.
  apply wp_ret. rewrite lor_byte, Hp by done. split; [done|]. exists d2. split; [by exists 15, r|done].
Qed.

Lemma set_pos_spec s old pos :
  cursor_at (v_dev s) old → 0 <= pos < 2 ^ 16 →
  wp (set_pos pos) (λ _ s', ∃ d, cursor_at d pos ∧ s' = Screen (crt s) (uart s) (panicked s) d) s.
Proof.
  intros (i & r & R & _) Hp. do 3 apply screen_outb_rule. apply wp_modify. eexists. split; [|reflexivity].
  cbn [crt uart panicked v_dev]. change (u8 14) with 14. change (u8 15) with 15.
  pose proof (crt_write _ _ _ (u8 pos) (crt_select _ _ _ 15 (crt_write _ _ _ (u8 (Z.shiftr pos 8)) (crt_select _ _ _ 14 R)))) as R1.
  eexists _, _. split; [exact R1|]. unfold upd. change (14 =? 15) with false. change (14 =? 14) with true.
  change (15 =? 15) with true. cbn iota. rewrite Z.shiftr_div_pow2 by lia. unfold u8, is_byte. dlia.
Qed.

(** The cells after the character is stored. *)
Definition stored (c : Z) (p : paper) : Z → Z :=
  if (c =? NL) || (c =? BACKSPACE) then cells p else upd (cells p) (cursor p) (cell c).

Lemma put_char_spec c s p :
  paper_ok p → (∀ i, 0 <= i < 24 * 80 → crt s i = cells p (80 * top p + i)) →
  wp (put_char c (cursor p - 80 * top p)) (λ pos s', pos = cursor (put c p) - 80 * top p ∧
    ∃ f, s' = Screen f (uart s) (panicked s) (v_dev s) ∧
      ∀ i, 0 <= i < 24 * 80 → f i = stored c p (80 * top p + i)) s.
Proof.
  intros [H0 Hc _] Hcells. unfold put_char, stored, put. cbn [cursor]. destruct (Z.eqb_spec c NL) as [|Hn].
  { apply wp_ret. split; [dlia|]. exists (crt s). by destruct s. }
  destruct (Z.eqb_spec c BACKSPACE) as [|Hb].
  { apply wp_ret. split; [|exists (crt s); by destruct s].
    rewrite Z.gtb_ltb. destruct (Z.ltb_spec 0 (cursor p - 80 * top p)), (Z.ltb_spec (80 * top p) (cursor p)); lia. }
  apply wp_bind, wp_modify, wp_ret. split; [lia|]. eexists. split; [reflexivity|].
  intros i Hi. cbn [orb]. unfold upd, cell. rewrite Hcells by done.
  destruct (Z.eqb_spec i (cursor p - 80 * top p)), (Z.eqb_spec (80 * top p + i) (cursor p)); lia || done.
Qed.

(** What is below the screen is still empty. *)
Lemma stored_fresh c p i : paper_ok p → 80 * (top p + 24) <= i → stored c p i = 0.
Proof.
  intros [_ Hc Hf] Hi. unfold stored, upd. destruct ((c =? NL) || (c =? BACKSPACE)); [by apply Hf|].
  rewrite (proj2 (Z.eqb_neq i _)) by lia. by apply Hf.
Qed.

Lemma scroll_spec c s p :
  paper_ok p → (∀ i, 0 <= i < 24 * 80 → crt s i = stored c p (80 * top p + i)) →
  wp (scroll (cursor (put c p) - 80 * top p)) (λ pos s', pos = cursor (put c p) - 80 * top (put c p) ∧
    ∃ f, s' = Screen f (uart s) (panicked s) (v_dev s) ∧
      ∀ i, 0 <= i < 24 * 80 → f i = stored c p (80 * top (put c p) + i)) s.
Proof.
  intros Hp Hcells. pose proof (put_cursor c p Hp) as [Hc Ht]. set (q := cursor (put c p)) in *.
  unfold scroll. rewrite Z.geb_leb. destruct (Z.leb_spec 24 ((q - 80 * top p) / 80)) as [Hs|Hs].
  - apply wp_bind, wp_modify, wp_bind, wp_modify, wp_ret. split; [dlia|]. eexists. split; [reflexivity|].
    intros i Hi. cbn [crt]. assert (Eq : q = 80 * (top p + 24)) by dlia.
    assert (Et : top (put c p) = top p + 1) by dlia. rewrite Et. unfold clear_from, move_up.
    destruct (Z.leb_spec (q - 80 * top p - 80) i); [destruct (Z.ltb_spec i (24 * 80)); [|lia]|]; cbn [andb].
    + symmetry. apply stored_fresh; [done|lia].
    + destruct (Z.leb_spec 0 i); [|lia]. destruct (Z.ltb_spec i (23 * 80)); [|lia]. cbn [andb].
      rewrite Hcells by lia. f_equal. lia.
  - apply wp_ret. assert (Et : top (put c p) = top p) by dlia. rewrite Et. split; [done|].
    exists (crt s). by destruct s.
Qed.

Lemma cgaputc_spec c s p :
  shows s p →
  wp (cgaputc c) (λ _ s', shows s' (put c p) ∧ uart s' = uart s ∧ panicked s' = panicked s) s.
Proof.
  intros [Hp Hcells Hcur]. pose proof (put_ok c p Hp) as Hp'. pose proof (put_cursor c p Hp) as [Hc' Ht'].
  unfold cgaputc. apply wp_bind. eapply wp_mono; [by apply get_pos_spec|].
  intros _ _ (-> & d & Hd & ->). apply wp_bind. eapply wp_mono; [by apply put_char_spec|].
  intros _ _ (-> & f & -> & Hf). cbn [uart panicked v_dev].
  rewrite (proj2 (Z.ltb_ge _ _)), Z.gtb_ltb, (proj2 (Z.ltb_ge _ _)) by lia. cbn [orb]. apply wp_bind.
  eapply wp_mono; [by apply scroll_spec|]. intros _ _ (-> & g & -> & Hg). cbn [uart panicked v_dev].
  apply wp_bind. eapply wp_mono; [eapply set_pos_spec; [exact Hd|destruct Hp' as [_ ? _]; lia]|].
  intros _ _ (d' & Hd' & ->). apply wp_modify. cbn [crt uart panicked v_dev]. split; [|done].
  split; [done| |exact Hd']. intros i Hi. change (cells (put c p)) with (upd (stored c p) (cursor (put c p)) (cell 32)).
  cbn [crt]. unfold upd at 1 2. rewrite Hg by done.
  destruct (Z.eqb_spec i (cursor (put c p) - 80 * top (put c p))), (Z.eqb_spec (80 * top (put c p) + i) (cursor (put c p)));
    lia || done.
Qed.

Lemma uartputc_spec c s pos :
  cursor_at (v_dev s) pos →
  wp (uartputc c) (λ _ s', ∃ d, cursor_at d pos ∧ s' = Screen (crt s) (uart s) (panicked s) d) s.
Proof.
  intros Hd. unfold uartputc. apply wp_bind, wp_gets. destruct (uart s) eqn:Eu; cbn [negb].
  2:{ apply wp_ret. exists (v_dev s). split; [done|]. destruct s. cbn in *. congruence. }
  assert (W : ∀ n s, cursor_at (v_dev s) pos →
    wp (uart_wait n) (λ _ s', ∃ d, cursor_at d pos ∧ s' = Screen (crt s) (uart s) (panicked s) d) s).
  { clear. induction n as [|n IH]; intros s Hd; cbn [uart_wait].
    - apply wp_ret. exists (v_dev s). split; [done|]. by destruct s.
    - apply wp_bind. unfold inb, wp at 1. destruct (p_inb (COM1 + 5) (v_dev s)) as [x d] eqn:E.
      destruct Hd as (i & r & R & Hr). pose proof (crt_serial_in _ _ _ _ _ R E) as R'.
      destruct (negb _); [apply wp_ret; exists d; split; [by exists i, r|done]|].
      set (s1 := Screen _ _ _ _). eapply wp_mono; [apply (IH s1); by exists i, r|]. done. }
  apply wp_bind. eapply wp_mono; [by apply W|]. intros _ _ (d & (i & r & R & Hr) & ->). apply wp_modify.
  eexists. split; [|by rewrite Eu]. exists i, r. split; [by apply crt_serial_out|done].
Qed.

Lemma consputc_spec c s p :
  shows s p → panicked s = false →
  wp (consputc c) (λ _ s', shows s' (put c p) ∧ panicked s' = false) s.
Proof.
  intros [Hp Hcells Hcur] Hpan. unfold consputc. apply wp_bind, wp_gets. rewrite Hpan. apply wp_bind.
  assert (W : wp (if c =? BACKSPACE then uartputc 8;; uartputc 32;; uartputc 8 else uartputc c)
    (λ _ s', ∃ d, cursor_at d (cursor p - 80 * top p) ∧ s' = Screen (crt s) (uart s) (panicked s) d) s).
  { destruct (c =? BACKSPACE); [|by apply uartputc_spec].
    apply wp_bind. eapply wp_mono; [by apply uartputc_spec|]. intros _ _ (d1 & H1 & ->).
    apply wp_bind. eapply wp_mono; [by apply uartputc_spec|]. intros _ _ (d2 & H2 & ->).
    eapply wp_mono; [by apply uartputc_spec|]. intros _ _ (d3 & H3 & ->). by exists d3. }
  eapply wp_mono; [exact W|]. intros _ _ (d & Hd & ->).
  eapply wp_mono; [apply (cgaputc_spec c _ p); by split|]. intros _ s' (Hs & _ & E). cbn [panicked] in E.
  split; [done|]. congruence.
Qed.

(** The paper after a sequence of characters. *)
Definition puts (l : list Z) (p : paper) : paper := foldl (λ p c, put c p) p l.

Lemma consputs_spec l : ∀ s p,
  shows s p → panicked s = false →
  wp (consputs l) (λ _ s', shows s' (puts l p) ∧ panicked s' = false) s.
Proof.
  induction l as [|c l IH]; intros s p Hs Hp; cbn [consputs].
  - by apply wp_ret.
  - apply wp_bind. eapply wp_mono; [by apply consputc_spec|]. intros _ s1 [Hs1 Hp1]. by apply (IH s1 (put c p)).
Qed.

End display.

(** ** Text on the paper *)

Definition plain (c : Z) : Prop := c ≠ NL ∧ c ≠ BACKSPACE.

Lemma put_plain c p :
  plain c → put c p = Paper (upd (upd (cells p) (cursor p) (cell c)) (cursor p + 1) (cell 32)) (cursor p + 1)
    (Z.max (top p) ((cursor p + 1) / 80 - 23)).
Proof. intros [H1 H2]. unfold put. by rewrite (proj2 (Z.eqb_neq c NL)), (proj2 (Z.eqb_neq c BACKSPACE)). Qed.

(** Writing without backspaces leaves what is before the cursor alone. *)
Lemma puts_before l : ∀ p i,
  Forall (λ c, c ≠ BACKSPACE) l → paper_ok p → i < cursor p →
  cells (puts l p) i = cells p i ∧ cursor p <= cursor (puts l p).
Proof.
  induction l as [|c l IH]; intros p i Hl Hp Hi; [done|]. apply Forall_cons in Hl as [Hc Hl].
  assert (H : cells (put c p) i = cells p i ∧ cursor p < cursor (put c p)).
  { unfold put. rewrite (proj2 (Z.eqb_neq c BACKSPACE)) by done. cbn [cells cursor]. unfold upd.
    destruct (c =? NL); cbn [orb]; [rewrite (proj2 (Z.eqb_neq i _)) by dlia; split; [done|dlia]|].
    rewrite !(proj2 (Z.eqb_neq i _)) by lia. split; [done|lia]. }
  destruct (IH (put c p) i) as [E1 E2]; [done|by apply put_ok|lia|]. cbn [puts foldl]. fold (puts l (put c p)).
  rewrite E1. split; [apply H|lia].
Qed.

Lemma puts_app l l' p : puts (l ++ l') p = puts l' (puts l p).
Proof. apply foldl_app. Qed.

Lemma puts_ok l p : paper_ok p → paper_ok (puts l p).
Proof. revert p; induction l as [|c l IH]; intros p Hp; [done|]. by apply IH, put_ok. Qed.

(** Plain characters go to successive cells. *)
Lemma puts_plain l : ∀ p,
  Forall plain l → paper_ok p →
  cursor (puts l p) = cursor p + Z.of_nat (length l) ∧
  top (puts l p) = Z.max (top p) ((cursor p + Z.of_nat (length l)) / 80 - 23) ∧
  ∀ k c, l !! k = Some c → cells (puts l p) (cursor p + Z.of_nat k) = cell c.
Proof.
  induction l as [|c l IH]; intros p Hl Hp.
  { cbn. destruct Hp. split_and!; [lia|dlia|done]. }
  apply Forall_cons in Hl as [Hc Hl]. pose proof (put_ok c p Hp) as Hp'.
  destruct (IH (put c p) Hl Hp') as (E1 & E2 & E3). cbn [puts foldl]. fold (puts l (put c p)).
  rewrite E1, E2. rewrite put_plain in * by done. cbn [cursor top cells length] in *. split_and!; [lia|dlia|].
  intros [|k] x Hx; cbn in Hx.
  - simplify_eq. rewrite Z.add_0_r.
    destruct (puts_before l (put x p) (cursor p)) as [E _];
      [eapply Forall_impl; [exact Hl|by intros ? []]|by rewrite put_plain|rewrite put_plain by done; cbn; lia|].
    rewrite put_plain in E by done. rewrite E. cbn [cells]. unfold upd.
    rewrite (proj2 (Z.eqb_neq (cursor p) _)) by lia. by rewrite Z.eqb_refl.
  - rewrite <-(E3 k x Hx). f_equal. lia.
Qed.

(** Lines that fit in a line of the screen, as text. *)
Definition line_ok (l : list Z) : Prop := Forall (λ c, is_byte c ∧ c ≠ NL) l ∧ (length l < 80)%nat.
Definition text (ls : list (list Z)) : list Z := mjoin ((λ l, l ++ [NL]) <$> ls).

Lemma line_plain l : line_ok l → Forall plain l.
Proof.
  intros [H _]. eapply Forall_impl; [exact H|]. intros c [Hb Hc]. split; [done|].
  unfold BACKSPACE, is_byte in *. lia.
Qed.

Lemma text_bytes ls : Forall line_ok ls → Forall is_byte (text ls).
Proof.
  induction 1 as [|l ls [Hl _] _ IH]; [constructor|]. change (text (l :: ls)) with ((l ++ [NL]) ++ text ls).
  rewrite !Forall_app. split_and!; [eapply Forall_impl; [exact Hl|by intros ? []]|by repeat constructor|done].
Qed.

Lemma text_forward ls : Forall line_ok ls → Forall (λ c, c ≠ BACKSPACE) (text ls).
Proof.
  intros H. eapply Forall_impl; [by apply text_bytes|]. intros c Hc. unfold BACKSPACE, is_byte in *. lia.
Qed.

Lemma puts_line l p r :
  line_ok l → paper_ok p → cursor p = 80 * r →
  cursor (puts (l ++ [NL]) p) = 80 * (r + 1) ∧ top (puts (l ++ [NL]) p) = Z.max (top p) (r + 1 - 23) ∧
  ∀ k c, l !! k = Some c → cells (puts (l ++ [NL]) p) (80 * r + Z.of_nat k) = cell c.
Proof.
  intros Hl Hp Hr. destruct (puts_plain l p (line_plain l Hl) Hp) as (E1 & E2 & E3). destruct Hl as [_ Hl].
  rewrite puts_app. cbn [puts foldl]. unfold put. change (NL =? NL) with true. cbn [cursor top cells orb].
  rewrite E1, E2, Hr in *. split_and!; [dlia|dlia|]. intros k c Hk. pose proof (lookup_lt_Some _ _ _ Hk).
  unfold upd. rewrite (proj2 (Z.eqb_neq _ _)) by dlia. by apply E3.
Qed.

Lemma puts_lines ls : ∀ p r,
  Forall line_ok ls → paper_ok p → cursor p = 80 * r →
  let q := puts (text ls) p in
  cursor q = 80 * (r + Z.of_nat (length ls)) ∧ top q = Z.max (top p) (r + Z.of_nat (length ls) - 23) ∧
  ∀ j l k c, ls !! j = Some l → l !! k = Some c → cells q (80 * (r + Z.of_nat j) + Z.of_nat k) = cell c.
Proof.
  induction ls as [|l ls IH]; intros p r Hls Hp Hr; cbn zeta.
  { cbn. destruct Hp. split_and!; [lia|lia|done]. }
  apply Forall_cons in Hls as [Hl Hls]. destruct (puts_line l p r Hl Hp Hr) as (E1 & E2 & E3).
  pose proof (puts_ok (l ++ [NL]) p Hp) as Hp'. destruct (IH _ (r + 1) Hls Hp' E1) as (F1 & F2 & F3).
  change (text (l :: ls)) with ((l ++ [NL]) ++ text ls). rewrite puts_app. cbn [length].
  rewrite F1, F2, E2. split_and!; [lia|lia|]. intros [|j] l' k c Hj Hk; cbn in Hj.
  - simplify_eq. rewrite Z.add_0_r. pose proof (lookup_lt_Some _ _ _ Hk). destruct Hl as [_ Hl].
    destruct (puts_before (text ls) (puts (l' ++ [NL]) p) (80 * r + Z.of_nat k)) as [-> _];
      [by apply text_forward|done|lia|]. by apply E3.
  - rewrite <-(F3 j l' k c Hj Hk). f_equal. lia.
Qed.

(** C19: The console shows the last lines.  Whatever lines are written to the
    console, starting at the beginning of a line of the screen, the call
    returns and the last 23 of them stand on the screen, one below the
    other, above the cursor.  Lines are shorter than the screen is wide. *)
Theorem screen_shows_last_lines {D} `{!Ports D, !Display D} (s : screen D) p r ls :
  let n := Z.of_nat (length ls) in
  let first := Z.max (top p) (r + n - 23) in
  shows s p → panicked s = false → cursor p = 80 * r → Forall line_ok ls →
  ∃ s', consolewrite (text ls) s = Ret (Z.of_nat (length (text ls))) s' ∧
    cursor_at (v_dev s') (80 * (r + n - first)) ∧
    ∀ j l k c, ls !! j = Some l → l !! k = Some c → n - 23 <= Z.of_nat j →
      0 <= r + Z.of_nat j - first < 24 ∧
      crt s' (80 * (r + Z.of_nat j - first) + Z.of_nat k) = cell c.
Proof.
  intros n first Hs Hpan Hr Hls.
  assert (E : (λ c, Z.land c 0xff) <$> text ls = text ls).
  { rewrite <-(list_fmap_id (text ls)) at 2. apply list_fmap_ext. intros i c Hc.
    pose proof (Forall_lookup_1 _ _ _ _ (text_bytes ls Hls) Hc) as Hb. change 0xff with (Z.ones 8).
    rewrite Z.land_ones by lia. unfold is_byte in Hb. unfold id. apply Z.mod_small. change (2 ^ 8) with 256. lia. }
  destruct (wp_elim _ _ _ (consputs_spec (text ls) s p Hs Hpan)) as ([] & s' & E' & Hs' & _).
  pose proof (sh_paper _ _ Hs) as Hp. destruct (puts_lines ls p r Hls Hp Hr) as (F1 & F2 & F3).
  destruct Hs' as [Hp' Hcells Hcur]. rewrite F1, F2 in Hcur. fold n first in Hcur, F1, F2. exists s'. split_and!.
  - unfold consolewrite. rewrite E. by rewrite (bind_ret _ _ _ _ _ E').
  - by replace (80 * (r + n - first)) with (80 * (r + n) - 80 * first) by lia.
  - intros j l k c Hj Hk Hn. pose proof (lookup_lt_Some _ _ _ Hj).
    pose proof (lookup_lt_Some _ _ _ Hk). pose proof (Forall_lookup_1 _ _ _ _ Hls Hj) as [_ Hl].
    destruct Hp as [Ht0 Hc _]. assert (Hrow : 0 <= r + Z.of_nat j - first < 24) by (unfold first, n in *; lia). split; [done|].
    rewrite Hcells by lia. rewrite F2, <-(F3 j l k c Hj Hk). f_equal. lia.
Qed.

(** ** The echo *)

(** [consoleintr] on a sequence of characters, with its echo. *)
Fixpoint type_keys {D} `{!Ports D} (cs : list Z) (i : input) : M (screen D) input :=
  match cs with
  | [] => mret i
  | c :: cs' =>
    match consoleintr c i with
    | None => diverge
    | Some (_, echo, i) => consputs echo;; type_keys cs' i
    end
  end.

(** The line stands before the cursor. *)
Definition line_shown (p : paper) (line : list Z) : Prop :=
  ∃ start, 80 * top p <= start ∧ cursor p = start + Z.of_nat (length line) ∧
    ∀ k c, line !! k = Some c → cells p (start + Z.of_nat k) = cell c.

Lemma line_shown_nil p : paper_ok p → line_shown p [].
Proof. intros [_ Hc _]. exists (cursor p). split_and!; [lia|cbn; lia|done]. Qed.

Lemma put_back p line c :
  paper_ok p → line_shown p (line ++ [c]) → line_shown (put BACKSPACE p) line.
Proof.
  intros [_ Hp _] (start & Hs & Hc & Hl). rewrite length_app in Hc. cbn [length] in Hc. unfold put.
  change (BACKSPACE =? NL) with false. change (BACKSPACE =? BACKSPACE) with true. cbn [orb].
  destruct (Z.ltb_spec (80 * top p) (cursor p)); [|lia].
  exists start. cbn [top cursor cells]. split_and!; [dlia|lia|]. intros k x Hk.
  pose proof (lookup_lt_Some _ _ _ Hk). unfold upd. rewrite (proj2 (Z.eqb_neq _ _)) by lia.
  apply Hl. by apply lookup_app_l_Some.
Qed.

Lemma puts_back line : ∀ p,
  paper_ok p → line_shown p line → line_shown (puts (replicate (length line) BACKSPACE) p) [].
Proof.
  induction line as [|c line IH] using rev_ind; intros p Hp Hl; [done|].
  rewrite length_app. cbn [length]. rewrite Nat.add_comm. cbn [Nat.add replicate puts foldl].
  apply (IH (put BACKSPACE p)); [by apply put_ok|by eapply put_back].
Qed.

Lemma put_more p line c :
  paper_ok p → line_shown p line → plain c → (length line < 128)%nat → line_shown (put c p) (line ++ [c]).
Proof.
  intros Hp (start & Hs & Hc & Hl) Hpl Hlen. rewrite put_plain by done. destruct Hp as [_ Hp _].
  exists start. cbn [top cursor cells]. rewrite length_app. cbn [length]. split_and!; [dlia|lia|].
  intros k x Hk. unfold upd. pose proof (lookup_lt_Some _ _ _ Hk) as Hlt. rewrite length_app in Hlt. cbn in Hlt.
  rewrite (proj2 (Z.eqb_neq _ (cursor p + 1))) by lia. apply lookup_app_Some in Hk as [Hk|[Hge Hk]].
  - pose proof (lookup_lt_Some _ _ _ Hk). rewrite (proj2 (Z.eqb_neq _ _)) by lia. by apply Hl.
  - apply list_lookup_singleton_Some in Hk as [? ->]. rewrite (proj2 (Z.eqb_eq _ _)) by lia. done.
Qed.

Lemma akey_shown c a p :
  is_byte c → paper_ok p → line_shown p (a_line a) → (length (a_queue a) + length (a_line a) ≤ 128)%nat →
  line_shown (puts (akey c a).1.2 p) (a_line (akey c a).2).
Proof.
  intros Hb Hp Hl Hlen. unfold akey. destruct (c =? CTRL_P); [done|].
  destruct (c =? CTRL_U); [cbn [fst snd a_line]; by apply puts_back|].
  destruct ((c =? CTRL_H) || (c =? DEL)); cbn [fst snd a_line].
  { destruct (decide (a_line a = [])) as [->|Hne]; [by apply line_shown_nil|].
    destruct (a_line a) as [|x line _] using rev_ind; [done|]. rewrite length_app. cbn [length].
    rewrite Nat.add_sub, take_app_length. cbn [puts foldl]. by eapply put_back. }
  destruct (negb (c =? 0) && bool_decide _) eqn:E; [|done]. apply andb_true_iff in E as [_ E%bool_decide_eq_true].
  set (c' := if c =? CR then NL else c). assert (Hc : is_byte c') by (unfold c', is_byte, NL in *; case_match; lia).
  destruct ((c' =? NL) || (c' =? CTRL_D) || _) eqn:E'; cbn [fst snd a_line puts foldl].
  - by apply line_shown_nil, put_ok.
  - apply orb_false_iff in E' as [E' _]. apply orb_false_iff in E' as [En%Z.eqb_neq _].
    apply put_more; [done|done| |lia]. split; [done|]. unfold is_byte, BACKSPACE in *. lia.
Qed.

Lemma refines_length i a : refines i a → (length (a_queue a) + length (a_line a) ≤ 128)%nat.
Proof.
  intros [Hok Hq Hl _]. pose proof (unread_length i) as H1. pose proof (typed_length i Hok) as H2.
  rewrite Hq in H1. rewrite Hl in H2. pose proof (io_order _ Hok). unfold INPUT_BUF in *. lia.
Qed.

Section echo.
Context {D : Type} `{!Ports D, !Display D}.

Lemma type_keys_spec cs : ∀ (s : screen D) p i a,
  Forall is_byte cs → shows s p → panicked s = false → refines i a → line_shown p (a_line a) →
  wp (type_keys cs i) (λ i' s', ∃ p' a', shows s' p' ∧ refines i' a' ∧ line_shown p' (a_line a')) s.
Proof.
  induction cs as [|c cs IH]; intros s p i a Hcs Hs Hp Hr Hl; cbn [type_keys].
  { apply wp_ret. by exists p, a. }
  apply Forall_cons in Hcs as [Hc Hcs]. destruct (consoleintr_refines i a c Hr Hc) as (i' & E & Hr').
  pose proof (akey_shown c a p Hc (sh_paper _ _ Hs) Hl (refines_length i a Hr)) as Hl'.
  destruct (akey c a) as [[w echo] a']. cbn [fst snd] in *. rewrite E. apply wp_bind.
  eapply wp_mono; [by apply consputs_spec|]. intros [] s1 [Hs1 Hp1]. by eapply IH.
Qed.

End echo.

(** A display that is just its registers. *)
#[global] Instance regs_ports : Ports (Z * (Z → Z)) := {
  p_inb := λ port d, (if port =? CRTPORT + 1 then d.2 d.1 else 0, d);
  p_outb := λ port v d,
    if port =? CRTPORT then (v, d.2) else if port =? CRTPORT + 1 then (d.1, upd d.2 d.1 v) else d }.

#[global] Program Instance regs_display : Display (Z * (Z → Z)) := {
  crt_rep d i r := d = (i, r) }.
Next Obligation. by intros d i r v ->. Qed.
Next Obligation. by intros d i r v ->. Qed.
Next Obligation. by intros d i r x d' -> [= <- <-]. Qed.
Next Obligation. by intros d i r x d' -> [= <- <-]. Qed.
Next Obligation. by intros d i r v ->. Qed.

Definition demo_screen : screen (Z * (Z → Z)) := Screen (λ _, 0) true false (0, λ _, 0).

Lemma demo_shows : shows demo_screen (Paper (λ _, 0) 0 0).
Proof.
  split; [split; cbn; lia || done|done|]. exists 0, (λ _, 0). split_and!; done.
Qed.

Lemma screen_shows_last_lines_witness :
  ∃ s', consolewrite (text [[104; 105]; [33]]) demo_screen = Ret 5 s' ∧
    crt s' 1 = cell 105 ∧ crt s' 80 = cell 33.
Proof.
  destruct (screen_shows_last_lines demo_screen (Paper (λ _, 0) 0 0) 0 [[104; 105]; [33]] demo_shows eq_refl eq_refl)
    as (s' & E & _ & H).
  - repeat constructor; unfold is_byte, NL; lia.
  - exists s'. split_and!; [exact E|..].
    + by apply (H 0%nat [104; 105] 1%nat 105).
    + by apply (H 1%nat [33] 0%nat 33).
Defined.

