(* ===== verification/Mp.v ===== *)
(** * mp.c: finding the processors

    The BIOS describes the machine in tables in memory.  [mpsearch] looks
    for the pointer to them, [mpconfig] checks the configuration table, and
    [mpinit] walks over its entries and records the processors.  The tables
    are read from a memory [m] that the routines do not change. *)

From S2P Require Import Prelude Str Layout Mmu Kalloc.

(** ** mp.h *)

Definition MP_SIZE : Z := 16.           (* sizeof(struct mp) *)
Definition MPCONF_SIZE : Z := 44.       (* sizeof(struct mpconf) *)
Definition MPPROC_SIZE : Z := 20.       (* sizeof(struct mpproc) *)
Definition MPIOAPIC_SIZE : Z := 8.      (* sizeof(struct mpioapic) *)
Definition MPPROC : Z := 0x00.
Definition MPBUS : Z := 0x01.
Definition MPIOAPIC : Z := 0x02.
Definition MPIOINTR : Z := 0x03.
Definition MPLINTR : Z := 0x04.
Definition NCPU : Z := 8.

Section tables.
Variable m : mem.

Definition load16 (a : Z) : Z := m a + 2 ^ 8 * m (a + 1).

(** The fields of [struct mp] and [struct mpconf] that are used. *)
Definition mp_physaddr (mp : Z) : Z := load_word m (mp + 4).
Definition mp_imcrp (mp : Z) : Z := m (mp + 12).
Definition conf_length (conf : Z) : Z := load16 (conf + 4).
Definition conf_version (conf : Z) : Z := m (conf + 6).
Definition conf_lapicaddr (conf : Z) : Z := load_word m (conf + 36).

(** ** The search *)

Fixpoint sum_loop (addr : Z) (n : nat) : Z :=
  match n with
  | O => 0
  | S n' => m addr + sum_loop (addr + 1) n'
  end.
Definition sum_bytes (addr len : Z) : Z := u8 (sum_loop addr (Z.to_nat len)).

Definition sig (s : list Z) (i : Z) : Z := s !!! Z.to_nat i.

(** [memcmp(p, "_MP_", 4) == 0 && sum(p, sizeof(struct mp)) == 0] *)
Definition is_mp (p : Z) : bool :=
  (memcmp (λ i, m (p + i)) (sig [95; 77; 80; 95]) 4 =? 0) && (sum_bytes p MP_SIZE =? 0).

(** [None] when the fuel does not suffice, [Some None] for a null
    pointer. *)
Fixpoint mpsearch1_loop (fuel : nat) (p e : Z) : option (option Z) :=
  match fuel with
  | O => None
  | S fuel' =>
    if negb (p <? e) then Some None
    else if is_mp p then Some (Some p)
    else mpsearch1_loop fuel' (u32 (p + MP_SIZE)) e
  end.

Definition mpsearch1 (a len : Z) : option (option Z) :=
  let addr := P2V a in
  mpsearch1_loop (2 + Z.to_nat (len / MP_SIZE)) addr (u32 (addr + len)).

Definition mpsearch : option (option Z) :=
  let bda := P2V 0x400 in
  let p := Z.shiftl (Z.lor (Z.shiftl (m (bda + 0x0F)) 8) (m (bda + 0x0E))) 4 in
  r ← (if negb (p =? 0) then mpsearch1 p 1024
       else
         let p := Z.lor (Z.shiftl (m (bda + 0x14)) 8) (m (bda + 0x13)) * 1024 in
         mpsearch1 (u32 (p - 1024)) 1024);
  match r with
  | Some mp => Some (Some mp)
  | None => mpsearch1 0xF0000 0x10000
  end.

(** The table and the structure that points to it. *)
Definition mpconfig : option (option (Z * Z)) :=
  r ← mpsearch;
  match r with
  | None => Some None
  | Some mp =>
    if mp_physaddr mp =? 0 then Some None
    else
      let conf := P2V (mp_physaddr mp) in
      if negb (memcmp (λ i, m (conf + i)) (sig [80; 67; 77; 80]) 4 =? 0) then Some None
      else if negb (conf_version conf =? 1) && negb (conf_version conf =? 4) then Some None
      else if negb (sum_bytes conf (conf_length conf) =? 0) then Some None
      else Some (Some (conf, mp))
  end.

(** ** mpinit *)

Section mpinit.
Context {D : Type} `{!Ports D}.

(** [cpus[i].apicid], [ncpu], [ioapicid], [lapic], [ismp], and the
    devices. *)
Record mps := Mps {
  apicids : list Z; ncpu : Z; ioapicid : Z; lapic : Z; ismp : bool; mp_dev : D }.

Definition set_cpu (id : Z) (s : mps) : mps :=
  if ncpu s <? NCPU then
    Mps (<[Z.to_nat (ncpu s) := id]> (apicids s)) (ncpu s + 1) (ioapicid s) (lapic s) (ismp s) (mp_dev s)
  else s.
Definition set_ioapic (id : Z) (s : mps) : mps :=
  Mps (apicids s) (ncpu s) id (lapic s) (ismp s) (mp_dev s).
Definition set_ismp (b : bool) (s : mps) : mps :=
  Mps (apicids s) (ncpu s) (ioapicid s) (lapic s) b (mp_dev s).
Definition set_lapic (a : Z) (s : mps) : mps :=
  Mps (apicids s) (ncpu s) (ioapicid s) a (ismp s) (mp_dev s).

(** The loop over the entries.  The [break] of the last case leaves the
    switch, not the loop. *)
Fixpoint mpinit_loop (fuel : nat) (p e : Z) : M mps unit :=
  match fuel with
  | O => diverge
  | S fuel' =>
    if negb (p <? e) then mret tt
    else if m p =? MPPROC then
      modify (set_cpu (m (p + 1)));;
      mpinit_loop fuel' (u32 (p + MPPROC_SIZE)) e
    else if m p =? MPIOAPIC then
      modify (set_ioapic (m (p + 1)));;
      mpinit_loop fuel' (u32 (p + MPIOAPIC_SIZE)) e
    else if (m p =? MPBUS) || (m p =? MPIOINTR) || (m p =? MPLINTR) then
      mpinit_loop fuel' (u32 (p + 8)) e
    else
      modify (set_ismp false);;
      mpinit_loop fuel' p e
  end.

Definition outb (port v : Z) : M mps unit :=
  modify (λ s, Mps (apicids s) (ncpu s) (ioapicid s) (lapic s) (ismp s) (p_outb port (u8 v) (mp_dev s))).
Definition inb (port : Z) : M mps Z := λ s,
  let '(r, d) := p_inb port (mp_dev s) in
  Ret r (Mps (apicids s) (ncpu s) (ioapicid s) (lapic s) (ismp s) d).

(** [fuel] for the loop over the entries. *)
Definition mpinit (fuel : nat) : M mps unit :=
  match mpconfig with
  | None => diverge
  | Some None => panic "Expect to run on an SMP"
  | Some (Some (conf, mp)) =>
    modify (set_ismp true);;
    modify (set_lapic (conf_lapicaddr conf));;
    mpinit_loop fuel (u32 (conf + MPCONF_SIZE)) (u32 (conf + conf_length conf));;
    b ← gets ismp;
    if negb b then panic "Didn't find a suitable machine"
    else if negb (mp_imcrp mp =? 0) then
      outb 0x22 0x70;;
      r ← inb 0x23;
      outb 0x23 (Z.lor r 1)
    else mret tt
  end.
End mpinit.
End tables.
Arguments mps : clear implicits.

(** ** The search finds the first structure *)

Section search.
Context (m : mem).

Lemma mpsearch1_loop_first addr len : ∀ fuel p,
  0 <= addr → addr + len + MP_SIZE < 2 ^ 32 → addr <= p → (p - addr) mod MP_SIZE = 0 →
  (∀ j, 0 <= j → addr + MP_SIZE * j < p → is_mp m (addr + MP_SIZE * j) = false) →
  p <= addr + len + MP_SIZE → addr + len - p <= MP_SIZE * (Z.of_nat fuel - 1) →
  (0 < fuel)%nat →
  ∃ r, mpsearch1_loop m fuel p (addr + len) = Some r ∧
    match r with
    | Some q => ∃ k, q = addr + MP_SIZE * k ∧ 0 <= k ∧ q < addr + len ∧ is_mp m q = true ∧
        ∀ j, 0 <= j < k → is_mp m (addr + MP_SIZE * j) = false
    | None => ∀ j, 0 <= j → addr + MP_SIZE * j < addr + len → is_mp m (addr + MP_SIZE * j) = false
    end.
Proof.
  change MP_SIZE with 16. induction fuel as [|fuel IH]; intros p Ha Hb Hp Hmod Hbefore Hpe Hf H0; [lia|].
  cbn [mpsearch1_loop]. change MP_SIZE with 16. destruct (Z.ltb_spec p (addr + len)) as [Hlt|Hge]; cbn [negb].
  2:{ eexists. split; [reflexivity|]. intros j Hj1 Hj2. apply Hbefore; lia. }
  destruct (is_mp m p) eqn:E.
  - eexists. split; [reflexivity|]. exists ((p - addr) / 16). split_and!; [dlia|dlia|done|done|].
    intros j Hj. apply Hbefore; dlia.
  - unfold u32. rewrite Z.mod_small by lia. apply IH; try lia; [dlia|].
    intros j Hj1 Hj2. destruct (decide (addr + 16 * j = p)) as [->|]; [done|]. apply Hbefore; dlia.
Qed.

(** [mpsearch1] returns the first structure in the area, or null when there
    is none. *)
Lemma mpsearch1_first a len :
  0 <= len → P2V a + len + MP_SIZE < 2 ^ 32 →
  ∃ r, mpsearch1 m a len = Some r ∧
    match r with
    | Some q => ∃ k, q = P2V a + MP_SIZE * k ∧ 0 <= k ∧ q < P2V a + len ∧ is_mp m q = true ∧
        ∀ j, 0 <= j < k → is_mp m (P2V a + MP_SIZE * j) = false
    | None => ∀ j, 0 <= j → P2V a + MP_SIZE * j < P2V a + len → is_mp m (P2V a + MP_SIZE * j) = false
    end.
Proof.
  intros Hl Hb. assert (Ha : 0 <= P2V a) by (unfold P2V, u32; apply Z.mod_pos_bound; lia).
  unfold mpsearch1. unfold u32 at 1. rewrite Z.mod_small by (change MP_SIZE with 16 in Hb; lia).
  apply mpsearch1_loop_first; change MP_SIZE with 16 in *; try lia; [|dlia].
  by rewrite Z.sub_diag.
Qed.
End search.

(** ** Entries *)

Inductive mpentry :=
| EProc (apicid : Z) (rest : list Z)
| EIoapic (apicno : Z) (rest : list Z)
| EOther (type : Z) (rest : list Z).

Definition entry_ok (e : mpentry) : Prop :=
  match e with
  | EProc _ rest => length rest = 18%nat
  | EIoapic _ rest => length rest = 6%nat
  | EOther type rest => type ∈ [MPBUS; MPIOINTR; MPLINTR] ∧ length rest = 7%nat
  end.

Definition mpentry_bytes (e : mpentry) : list Z :=
  match e with
  | EProc id rest => MPPROC :: id :: rest
  | EIoapic id rest => MPIOAPIC :: id :: rest
  | EOther type rest => type :: rest
  end.
Definition table_bytes (es : list mpentry) : list Z := mjoin (mpentry_bytes <$> es).

Definition procs (es : list mpentry) : list Z :=
  omap (λ e, match e with EProc id _ => Some id | _ => None end) es.
Definition ioapics (es : list mpentry) : list Z :=
  omap (λ e, match e with EIoapic id _ => Some id | _ => None end) es.

(** The memory holds the bytes at an address. *)
Definition mem_holds (m : mem) (a : Z) (l : list Z) : Prop :=
  ∀ i x, l !! i = Some x → m (a + Z.of_nat i) = x.

Lemma mem_holds_app m a l l' :
  mem_holds m a (l ++ l') → mem_holds m a l ∧ mem_holds m (a + Z.of_nat (length l)) l'.
Proof.
  intros H. split; intros i x Hi.
  - apply H. by apply lookup_app_l_Some.
  - rewrite <-(H (length l + i)%nat x); [f_equal; lia|]. by rewrite lookup_app_r, Nat.add_comm, Nat.add_sub by lia.
Qed.

Section entries.
Context {D : Type} `{!Ports D} (m : mem).
Implicit Types s : mps D.

Definition add_entry s (e : mpentry) : mps D :=
  match e with
  | EProc id _ => set_cpu id s
  | EIoapic id _ => set_ioapic id s
  | EOther _ _ => s
  end.

(** One round of the loop takes one entry. *)
Lemma mpinit_loop_entry fuel p e x l s :
  entry_ok x → mem_holds m p (mpentry_bytes x ++ l) → 0 <= p →
  p + Z.of_nat (length (mpentry_bytes x)) <= e < 2 ^ 32 →
  mpinit_loop m (S fuel) p e s =
    mpinit_loop m fuel (p + Z.of_nat (length (mpentry_bytes x))) e (add_entry s x).
Proof.
  intros Hx [Hm _]%mem_holds_app Hp He. cbn [mpinit_loop].
  assert (Hlen : (0 < length (mpentry_bytes x))%nat) by (destruct x; cbn; lia).
  destruct (Z.ltb_spec p e); [|lia]. cbn [negb].
  destruct x as [id rest|id rest|type rest]; cbn [entry_ok mpentry_bytes length] in *.
  - assert (E0 : m p = MPPROC) by (rewrite <-(Z.add_0_r p); by apply (Hm 0%nat)).
    rewrite E0, (Hm 1%nat id eq_refl : m (p + 1) = id), Hx. change (MPPROC =? MPPROC) with true. cbn iota.
    change MPPROC_SIZE with 20. unfold u32. rewrite Z.mod_small by lia. done.
  - assert (E0 : m p = MPIOAPIC) by (rewrite <-(Z.add_0_r p); by apply (Hm 0%nat)).
    rewrite E0, (Hm 1%nat id eq_refl : m (p + 1) = id), Hx. change (MPIOAPIC =? MPPROC) with false.
    change (MPIOAPIC =? MPIOAPIC) with true. cbn iota.
    change MPIOAPIC_SIZE with 8. unfold u32. rewrite Z.mod_small by lia. done.
  - destruct Hx as [Ht Hl]. assert (E0 : m p = type) by (rewrite <-(Z.add_0_r p); by apply (Hm 0%nat)).
    rewrite E0, Hl. assert (E : (type =? MPPROC) = false ∧ (type =? MPIOAPIC) = false ∧
      (type =? MPBUS) || (type =? MPIOINTR) || (type =? MPLINTR) = true).
    { repeat (apply elem_of_cons in Ht as [->|Ht]; [done|]). by apply elem_of_nil in Ht. }
    destruct E as (-> & -> & ->). unfold u32. rewrite Z.mod_small by lia. done.
Qed.

(** The loop over good entries, with whatever comes after them. *)
Lemma mpinit_loop_entries es : ∀ fuel p e l s,
  Forall entry_ok es → mem_holds m p (table_bytes es ++ l) → 0 <= p →
  p + Z.of_nat (length (table_bytes es)) <= e < 2 ^ 32 →
  mpinit_loop m (length es + fuel) p e s =
    mpinit_loop m fuel (p + Z.of_nat (length (table_bytes es))) e (foldl add_entry s es).
Proof.
  induction es as [|x es IH]; intros fuel p e l s Hes Hm Hp He; [cbn [length table_bytes]; by rewrite Z.add_0_r|].
  apply Forall_cons in Hes as [Hx Hes].
  change (table_bytes (x :: es)) with (mpentry_bytes x ++ table_bytes es) in *.
  rewrite <-app_assoc in Hm. rewrite length_app, Nat2Z.inj_add in *. cbn [length Nat.add].
  rewrite (mpinit_loop_entry _ _ _ x (table_bytes es ++ l)) by (done || lia).
  apply mem_holds_app in Hm as [_ Hm]. rewrite (IH fuel _ e l) by (done || lia). cbn [foldl]. f_equal. lia.
Qed.

(** The processors and the I/O APIC after the entries. *)
Lemma add_entries es : ∀ s ids,
  length (apicids s) = Z.to_nat NCPU → ncpu s = Z.of_nat (length ids) → (length ids ≤ Z.to_nat NCPU)%nat →
  take (length ids) (apicids s) = ids →
  let s' := foldl add_entry s es in
  let ids' := take (Z.to_nat NCPU) (ids ++ procs es) in
  ncpu s' = Z.of_nat (length ids') ∧ take (length ids') (apicids s') = ids' ∧
  ioapicid s' = default (ioapicid s) (last (ioapics es)) ∧
  lapic s' = lapic s ∧ ismp s' = ismp s ∧ mp_dev s' = mp_dev s.
Proof.
  change (Z.to_nat NCPU) with 8%nat. induction es as [|[id rest|id rest|type rest] es IH]; intros s ids H1 H2 H3 H4; cbn zeta.
  - cbn [foldl procs omap list_omap]. rewrite app_nil_r, take_ge by lia. done.
  - cbn [foldl add_entry]. unfold set_cpu. change NCPU with 8. destruct (Z.ltb_spec (ncpu s) 8) as [Hlt|Hge].
    + destruct (IH (Mps (<[Z.to_nat (ncpu s) := id]> (apicids s)) (ncpu s + 1) (ioapicid s) (lapic s) (ismp s) (mp_dev s))
        (ids ++ [id])) as (E1 & E2 & E3); cbn [apicids ncpu ioapicid lapic ismp mp_dev].
      * by rewrite length_insert.
      * rewrite length_app. cbn. lia.
      * rewrite length_app. cbn. lia.
      * rewrite length_app, H2, Nat2Z.id. cbn [length]. rewrite Nat.add_1_r, (take_S_r _ _ id)
          by (apply list_lookup_insert_eq; lia). by rewrite take_insert_ge, H4 by lia.
      * rewrite <-app_assoc in E1, E2. done.
    + destruct (IH s ids H1 H2 H3 H4) as (E1 & E2 & E3).
      assert (El : length ids = 8%nat) by lia.
      change (procs (EProc id rest :: es)) with (id :: procs es).
      rewrite !take_app_le, !(take_ge ids) in * by lia. done.
  - cbn [foldl add_entry]. destruct (IH (set_ioapic id s) ids H1 H2 H3 H4) as (E1 & E2 & E3 & E4).
    split_and!; [exact E1|exact E2| |apply E4..]. rewrite E3. change (ioapics (EIoapic id rest :: es)) with (id :: ioapics es).
    cbn [ioapicid set_ioapic]. by destruct (ioapics es) as [|y l] using rev_ind; [|rewrite app_comm_cons, !last_snoc].
  - cbn [foldl add_entry]. apply (IH s ids H1 H2 H3 H4).
Qed.

(** An entry of an unknown type holds up the loop for ever. *)
Lemma mpinit_loop_stuck fuel p e : ∀ s,
  p < e → m p ∉ [MPPROC; MPBUS; MPIOAPIC; MPIOINTR; MPLINTR] → mpinit_loop m fuel p e s = Diverge.
Proof.
  induction fuel as [|fuel IH]; intros s Hp Hm; [done|]. cbn [mpinit_loop].
  destruct (Z.ltb_spec p e); [|lia]. cbn [negb].
  assert (E : ∀ t, t ∈ [MPPROC; MPBUS; MPIOAPIC; MPIOINTR; MPLINTR] → (m p =? t) = false)
    by (intros t Ht; apply Z.eqb_neq; by intros <-).
  rewrite (E MPPROC), (E MPIOAPIC), (E MPBUS), (E MPIOINTR), (E MPLINTR) by (vm_compute; set_solver).
  cbn [orb]. unfold mbind, M_bind, modify. by apply IH.
Qed.

Lemma mpinit_loop_unknown es t : ∀ fuel p e s,
  Forall entry_ok es → mem_holds m p (table_bytes es ++ [t]) → 0 <= p →
  p + Z.of_nat (length (table_bytes es)) < e < 2 ^ 32 →
  t ∉ [MPPROC; MPBUS; MPIOAPIC; MPIOINTR; MPLINTR] → mpinit_loop m fuel p e s = Diverge.
Proof.
  induction es as [|x es IH]; intros fuel p e s Hes Hm Hp He Ht.
  { apply mpinit_loop_stuck; [cbn in He; lia|]. pose proof (Hm 0%nat t eq_refl) as E.
    rewrite Z.add_0_r in E. by rewrite E. }
  destruct fuel as [|fuel]; [done|]. apply Forall_cons in Hes as [Hx Hes].
  change (table_bytes (x :: es)) with (mpentry_bytes x ++ table_bytes es) in *.
  rewrite <-app_assoc in Hm. rewrite length_app, Nat2Z.inj_add in He.
  rewrite (mpinit_loop_entry _ _ _ x (table_bytes es ++ [t])) by (done || lia).
  apply mem_holds_app in Hm as [_ Hm]. apply IH; done || lia.
Qed.
End entries.

(** ** Properties *)

Section claims.
Context {D : Type} `{!Ports D} (m : mem) (conf mp : Z) (es : list mpentry).
Hypothesis Hconf : mpconfig m = Some (Some (conf, mp)).
Hypothesis Hes : Forall entry_ok es.


(** An unknown entry hangs the boot.  The switch over the types sets
    [ismp] to zero for an unknown type and breaks, which leaves only the
    switch: the pointer is not advanced, and [mpinit] neither returns nor
    reaches its panic, whatever the fuel. *)
Theorem mpinit_unknown_entry_hangs t fuel (s : mps D) :
  mem_holds m (conf + MPCONF_SIZE) (table_bytes es ++ [t]) → 0 <= conf →
  MPCONF_SIZE + Z.of_nat (length (table_bytes es)) < conf_length m conf →
  conf + conf_length m conf < 2 ^ 32 → t ∉ [MPPROC; MPBUS; MPIOAPIC; MPIOINTR; MPLINTR] →
  mpinit m fuel s = Diverge.
Proof.
  intros Hm H0 Hlen Hb Ht. unfold mpinit. rewrite Hconf. change MPCONF_SIZE with 44 in *.
  unfold mbind at 1 2, M_bind at 1 2, modify. set (s1 := set_lapic _ _).
  unfold u32. rewrite !Z.mod_small by lia. set (e := conf + conf_length m conf).
  assert (E : mpinit_loop m fuel (conf + 44) e s1 = Diverge); [|unfold mbind, M_bind; by rewrite E].
  apply (mpinit_loop_unknown m es t); [done|done|lia|unfold e; lia|done].
Qed.
End claims.

(** A machine with two processors: the pointer in the first KB of the EBDA,
    at [0x9FC00], the table at [0xF1000], with more bytes behind it. *)
Definition demo_entries : list mpentry :=
  [EProc 0 (replicate 18 0); EProc 2 (replicate 18 0); EOther MPBUS (replicate 7 0); EIoapic 5 (replicate 6 0)].
Definition demo_tables (extra : list Z) (len check : Z) : mem :=
  store_bytes (store_bytes (store_bytes (λ _, 0) (P2V 0x40E) [0xC0; 0x9F])
    (P2V 0x9FC00) ([95; 77; 80; 95] ++ [0; 0x10; 0x0F; 0] ++ [1; 4; u8 (- (95 + 77 + 80 + 95 + 0x10 + 0x0F + 5)); 0; 0; 0; 0; 0]))
    (P2V 0xF1000) ([80; 67; 77; 80] ++ [len; 0; 4; check] ++ replicate 28 0 ++ [0; 0; 0xE0; 0xFE] ++ replicate 4 0 ++
      table_bytes demo_entries ++ extra).

Lemma mem_holds_check m a l : (λ i, m (a + Z.of_nat i)) <$> seq 0 (length l) = l → mem_holds m a l.
Proof.
  intros E i x Hi. rewrite <-E in Hi. rewrite list_lookup_fmap in Hi.
  destruct (seq 0 (length l) !! i) as [j|] eqn:Ej; [|done].
  apply lookup_seq in Ej as [-> _]. cbn in Hi. congruence.
Qed.

#[local] Instance no_ports : Ports unit := { p_inb := λ _ d, (0, d); p_outb := λ _ _ d, d }.
Definition demo_mps : mps unit := Mps (replicate 8 0) 0 0 0 false tt.


Lemma mpinit_unknown_entry_hangs_witness : mpinit (demo_tables [7] 101 120) 1000 demo_mps = Diverge.
Proof.
  apply (mpinit_unknown_entry_hangs (demo_tables [7] 101 120) (P2V 0xF1000) (P2V 0x9FC00) demo_entries
    ltac:(vm_compute; reflexivity) ltac:(repeat constructor) 7).
  - apply mem_holds_check. vm_compute. reflexivity.
  - vm_compute. discriminate.
  - vm_compute. reflexivity.
  - vm_compute. reflexivity.
  - vm_compute. intros H. repeat (apply elem_of_cons in H as [H|H]; [discriminate H|]). by apply elem_of_nil in H.
Defined.
