(* ===== verification/Boot.v ===== *)
(** * bootmain.c: the boot loader

    It reads the kernel, an ELF file that starts at sector 1 of the disk,
    into physical memory and jumps to its entry.  The controller is the one
    of Ide.v: the loader keeps to the same promises as the kernel's driver,
    the class [AtaDisk]. *)

From S2P Require Import Prelude Str Layout Kalloc Exec Ide IdeSpec IdeDemo.

Record machine (D : Type) := Machine { b_mem : mem; b_dev : D }.
Arguments Machine {D}.
Arguments b_mem {D}.
Arguments b_dev {D}.

Definition SECTSIZE : Z := 512.

Section boot_code.
Context {D : Type} `{!AtaPorts D}.
Variable patience : D → nat.        (* status reads until the disk is ready *)
Local Abbreviation K := (M (machine D)).

Definition inb : K Z := λ s, let '(r, d) := ata_inb (b_dev s) in Ret r (Machine (b_mem s) d).
Definition outb (port v : Z) : K unit :=
  modify (λ s, Machine (b_mem s) (ata_outb port (u8 v) (b_dev s))).
Definition insl (dst : Z) : K unit := λ s,
  let '(l, d) := ata_insl (b_dev s) in Ret tt (Machine (store_bytes (b_mem s) dst l) d).

Fixpoint waitdisk_loop (fuel : nat) : K unit :=
  match fuel with
  | O => diverge
  | S fuel' =>
    r ← inb;
    if negb (Z.land r 0xC0 =? 0x40) then waitdisk_loop fuel' else mret tt
  end.

Definition waitdisk : K unit :=
  d ← gets b_dev;
  waitdisk_loop (S (patience d)).

Definition readsect (dst offset : Z) : K unit :=
  waitdisk;;
  outb 0x1F2 1;;
  outb 0x1F3 offset;;
  outb 0x1F4 (Z.shiftr offset 8);;
  outb 0x1F5 (Z.shiftr offset 16);;
  outb 0x1F6 (Z.lor (Z.shiftr offset 24) 0xE0);;
  outb 0x1F7 0x20;;
  waitdisk;;
  insl dst.

Fixpoint readseg_loop (fuel : nat) (pa epa offset : Z) : K unit :=
  match fuel with
  | O => diverge
  | S fuel' =>
    if negb (pa <? epa) then mret tt
    else
      readsect pa offset;;
      readseg_loop fuel' (u32 (pa + SECTSIZE)) epa (u32 (offset + 1))
  end.

Definition readseg (pa count offset : Z) : K unit :=
  let epa := u32 (pa + count) in
  let pa := u32 (pa - offset mod SECTSIZE) in
  let offset := u32 (offset / SECTSIZE + 1) in
  readseg_loop (3 + Z.to_nat (count / SECTSIZE)) pa epa offset.

(** The scratch space for the headers, and the fields that are used. *)
Definition ELF : Z := 0x10000.
Definition hdr_word (off : Z) : K Z := gets (λ s, load_word (b_mem s) (ELF + off)).
Definition PROGHDR_SIZE : Z := 32.

(** The loop over the program headers; they are read where they are, in
    memory. *)
Fixpoint boot_segments (n : nat) (ph : Z) : K unit :=
  match n with
  | O => mret tt
  | S n' =>
    off ← gets (λ s, load_word (b_mem s) (ph + 4));
    pa ← gets (λ s, load_word (b_mem s) (ph + 12));
    filesz ← gets (λ s, load_word (b_mem s) (ph + 16));
    readseg pa filesz off;;
    memsz ← gets (λ s, load_word (b_mem s) (ph + 20));
    filesz ← gets (λ s, load_word (b_mem s) (ph + 16));
    (if memsz >? filesz then
       modify (λ s, Machine (stosb (b_mem s) (u32 (pa + filesz)) 0 (Z.to_nat (memsz - filesz))) (b_dev s))
     else mret tt);;
    boot_segments n' (u32 (ph + PROGHDR_SIZE))
  end.

(** [None]: it returns; [Some entry]: it jumps to the kernel. *)
Definition bootmain : K (option Z) :=
  readseg ELF 4096 0;;
  magic ← hdr_word 0;
  if negb (magic =? ELF_MAGIC) then mret None
  else
    phoff ← hdr_word 28;
    phnum ← gets (λ s, b_mem s (ELF + 44) + 2 ^ 8 * b_mem s (ELF + 45));
    boot_segments (Z.to_nat phnum) (u32 (ELF + phoff));;
    entry ← hdr_word 24;
    mret (Some entry).
End boot_code.

(** ** What is read *)

(** Byte [i] of the kernel file. *)
Definition kbyte (disk : Z → Z → block) (i : Z) : Z := disk 0 (1 + i / 512) !!! Z.to_nat (i mod 512).

Lemma store_bytes_spec l : ∀ (m : mem) a x,
  store_bytes m a l x = if decide (a <= x < a + Z.of_nat (length l)) then l !!! Z.to_nat (x - a) else m x.
Proof.
  induction l as [|c l IH]; intros m a x; cbn [store_bytes length]; [by rewrite decide_False by lia|].
  rewrite IH. unfold upd. destruct (decide (a + 1 <= x < a + 1 + Z.of_nat (length l))).
  - rewrite decide_True by lia. replace (Z.to_nat (x - a)) with (S (Z.to_nat (x - (a + 1)))) by lia. done.
  - destruct (Z.eqb_spec x a) as [->|]; [|by rewrite decide_False by lia].
    rewrite decide_True by lia. by rewrite Z.sub_diag.
Qed.

Section loader.
Context {D : Type} `{!AtaPorts D} (patience : D → nat) `{!AtaDisk D patience}.
Implicit Types s : machine D.

(** The controller is idle, with these contents. *)
Definition idle (d : D) (disk : Z → Z → block) : Prop :=
  ∃ st, ata_rep d st ∧ at_phase st = Idle ∧ at_disk st = disk.

Lemma waitdisk_spec s st :
  ata_rep (b_dev s) st →
  wp (waitdisk patience) (λ _ s', ∃ d, s' = Machine (b_mem s) d ∧ ata_rep d (set_ready true st)) s.
Proof.
  intros R. unfold waitdisk. apply wp_bind, wp_gets.
  assert (W : ∀ fuel m d, (patience d < fuel)%nat → ata_rep d st →
    wp (waitdisk_loop fuel) (λ _ s', ∃ d, s' = Machine m d ∧ ata_rep d (set_ready true st)) (Machine m d)).
  { induction fuel as [|fuel IH]; intros m d Hf R1; [lia|]. cbn [waitdisk_loop].
    unfold inb, wp, mbind, M_bind. cbn [b_dev b_mem]. destruct (ata_inb d) as [r d2] eqn:E.
    destruct (ata_status d st r d2 R1 E) as [_ H]. change (Z.land r 0xC0 =? 0x40) with (ready_status r).
    destruct (ready_status r); cbn [negb]; [by exists d2|].
    destruct H as [R2 Hp]. apply IH; [lia|done]. }
  destruct s as [m d]. cbn [b_mem b_dev] in *. apply W; [lia|done].
Qed.

Lemma boot_outb_rule {B} s port v (k : M (machine D) B) Q :
  wp k Q (Machine (b_mem s) (ata_outb port (u8 v) (b_dev s))) → wp (outb port v;; k) Q s.
Proof. intros H. by apply wp_bind, wp_modify. Qed.

Lemma readsect_spec s disk dst n :
  idle (b_dev s) disk → 0 <= n < 2 ^ 24 →
  wp (readsect patience dst n) (λ _ s', b_mem s' = store_bytes (b_mem s) dst (disk 0 n) ∧
    wf_block (disk 0 n) ∧ idle (b_dev s') disk) s.
Proof.
  intros (st & R & Hid & <-) Hn. unfold readsect. apply wp_bind. eapply wp_mono; [by apply waitdisk_spec|].
  intros _ _ (d & -> & R1). do 5 (apply boot_outb_rule; cbn [b_mem b_dev]).
  assert (E24 : Z.shiftr n 24 = 0) by (rewrite Z.shiftr_div_pow2 by lia; apply Z.div_small; lia).
  rewrite E24. change (u8 (Z.lor 0 0xE0)) with 0xE0. change (u8 1) with 1.
  set (d1 := ata_outb 502 _ _). set (st1 := set_reg 502 0xE0 (set_reg 501 (u8 (Z.shiftr n 16))
      (set_reg 500 (u8 (Z.shiftr n 8)) (set_reg 499 (u8 n) (set_reg 498 1 (set_ready true st)))))).
  assert (R2 : ata_rep d1 st1) by (unfold d1, st1; repeat (apply ata_register; [|done|done|set_solver]); done).
  assert (E1 : at_lba st1 = n).
  { change (at_lba st1) with (u8 n + 2 ^ 8 * u8 (Z.shiftr n 8) + 2 ^ 16 * u8 (Z.shiftr n 16) + 2 ^ 24 * 0).
    rewrite !Z.shiftr_div_pow2 by lia. unfold u8. dlia. }
  apply boot_outb_rule. cbn [b_mem b_dev]. change (u8 32) with IDE_CMD_READ.
  pose proof (ata_read d1 st1 R2 Hid eq_refl eq_refl) as R3. change (at_drive st1) with 0 in R3. rewrite E1 in R3.
  apply wp_bind. eapply wp_mono; [by apply waitdisk_spec|]. intros _ _ (d2 & -> & R4).
  unfold insl, wp. cbn [b_mem b_dev]. destruct (ata_insl d2) as [l d3] eqn:E.
  destruct (ata_give _ _ _ _ _ _ R4 eq_refl eq_refl E) as (-> & Hw & R5). split_and!; [done|done|].
  eexists. split; [exact R5|done].
Qed.

(** [n] rounds of the loop of [readseg]. *)
Lemma readseg_loop_spec n : ∀ fuel s disk pa epa sec,
  idle (b_dev s) disk → 0 <= pa → epa <= pa + 512 * Z.of_nat n → (n ≠ 0%nat → pa + 512 * (Z.of_nat n - 1) < epa) →
  pa + 512 * Z.of_nat n < 2 ^ 32 → 1 <= sec → sec + Z.of_nat n < 2 ^ 24 → (n < fuel)%nat →
  wp (readseg_loop patience fuel pa epa sec) (λ _ s', idle (b_dev s') disk ∧
    ∀ x, b_mem s' x = if decide (pa <= x < pa + 512 * Z.of_nat n) then kbyte disk (512 * (sec - 1) + (x - pa))
      else b_mem s x) s.
Proof.
  induction n as [|n IH]; intros [|fuel] s disk pa epa sec Hd H0 He Hn Hpa H1 Hs Hf; try lia; cbn [readseg_loop].
  - rewrite (proj2 (Z.ltb_ge _ _)) by lia. apply wp_ret. split; [done|]. intros x. by rewrite decide_False by lia.
  - rewrite (proj2 (Z.ltb_lt _ _)) by lia. cbn [negb]. apply wp_bind.
    eapply wp_mono; [apply (readsect_spec s disk pa sec Hd); lia|]. intros _ s1 (Em & [Hl _] & Hd1).
    unfold u32. rewrite !Z.mod_small by (change SECTSIZE with 512; lia). change SECTSIZE with 512.
    eapply wp_mono; [apply (IH fuel s1 disk (pa + 512) epa (sec + 1)); done || lia|].
    intros _ s2 [Hd2 Hx]. split; [done|]. intros x. rewrite Hx, Em, store_bytes_spec, Hl.
    change (Z.of_nat (Z.to_nat BSIZE)) with 512.
    destruct (decide (pa + 512 <= x < pa + 512 + 512 * Z.of_nat n)).
    + rewrite decide_True by lia. f_equal. lia.
    + destruct (decide (pa <= x < pa + 512)); [|by rewrite decide_False by lia].
      rewrite decide_True by lia. unfold kbyte. f_equal; [|f_equal; dlia]. f_equal. dlia.
Qed.

Lemma readseg_spec s disk pa count off :
  idle (b_dev s) disk → 0 <= off → 0 <= count → off mod 512 <= pa →
  pa + count + 512 < 2 ^ 32 → off + count < 2 ^ 32 →
  wp (readseg patience pa count off) (λ _ s', idle (b_dev s') disk ∧
    (∀ x, pa <= x < pa + count → b_mem s' x = kbyte disk (off + (x - pa))) ∧
    (∀ x, ¬ (pa - off mod 512 <= x < pa + count + 512) → b_mem s' x = b_mem s x)) s.
Proof.
  intros Hd Ho Hc Hp Hb Ho'. unfold readseg. change SECTSIZE with 512. unfold u32.
  rewrite (Z.mod_small (pa + count)), (Z.mod_small (pa - _)), (Z.mod_small (off / 512 + 1)) by dlia.
  set (lo := pa - off mod 512). set (n := Z.to_nat ((pa + count - lo + 511) / 512)).
  eapply wp_mono; [apply (readseg_loop_spec n _ s disk lo (pa + count) (off / 512 + 1) Hd); unfold n, lo; dlia|].
  intros _ s' [Hd' Hx]. split; [done|]. split; intros x Hx'; rewrite Hx.
  - rewrite decide_True by (unfold n, lo; dlia). f_equal. unfold lo. dlia.
  - by rewrite decide_False by (unfold n, lo; dlia).
Qed.

(** ** Segments *)

Record seg := Seg { sg_off : Z; sg_pa : Z; sg_filesz : Z; sg_memsz : Z }.

(** The program header at [a]. *)
Definition seg_at (m : mem) (a : Z) : seg :=
  Seg (load_word m (a + 4)) (load_word m (a + 12)) (load_word m (a + 16)) (load_word m (a + 20)).

(** The bytes the loader writes for a segment: whole sectors. *)
Definition touched (g : seg) (x : Z) : Prop :=
  sg_pa g - sg_off g mod 512 <= x < sg_pa g + Z.max (sg_filesz g + 512) (sg_memsz g).
Definition in_seg (g : seg) (x : Z) : Prop := sg_pa g <= x < sg_pa g + Z.max (sg_filesz g) (sg_memsz g).

(** A segment that fits in memory and keeps off the scratch space. *)
Record seg_ok (g : seg) : Prop := {
  so_off : 0 <= sg_off g;
  so_size : 0 <= sg_filesz g;
  so_low : sg_off g mod 512 <= sg_pa g;
  so_high : sg_pa g + Z.max (sg_filesz g + 512) (sg_memsz g) < 2 ^ 32;
  so_file : sg_off g + sg_filesz g < 2 ^ 32;
  so_apart x : touched g x → ¬ (ELF <= x < ELF + 4096) }.

(** The file's bytes, and zeroes behind them. *)
Definition loaded (disk : Z → Z → block) (m : mem) (g : seg) : Prop :=
  ∀ x, in_seg g x →
    m x = if decide (x < sg_pa g + sg_filesz g) then kbyte disk (sg_off g + (x - sg_pa g)) else 0.

Lemma load_word_ext (m m' : mem) a : (∀ x, a <= x < a + 4 → m x = m' x) → load_word m a = load_word m' a.
Proof. intros H. unfold load_word. by rewrite !H by lia. Qed.

Lemma seg_at_ext (m m' : mem) a : (∀ x, a <= x < a + 32 → m x = m' x) → seg_at m a = seg_at m' a.
Proof.
  intros H. unfold seg_at. f_equal; apply load_word_ext; intros x Hx; apply H; lia.
Qed.

(** A round of the loop over the program headers. *)
Lemma boot_segment_spec {B} s disk ph g (k : M (machine D) B) Q :
  idle (b_dev s) disk → seg_at (b_mem s) ph = g → ELF <= ph → ph + 32 <= ELF + 4096 → seg_ok g →
  (∀ s', idle (b_dev s') disk → loaded disk (b_mem s') g →
    (∀ x, ¬ touched g x → b_mem s' x = b_mem s x) → wp k Q s') →
  wp (off ← gets (λ s, load_word (b_mem s) (ph + 4));
      pa ← gets (λ s, load_word (b_mem s) (ph + 12));
      filesz ← gets (λ s, load_word (b_mem s) (ph + 16));
      readseg patience pa filesz off;;
      memsz ← gets (λ s, load_word (b_mem s) (ph + 20));
      filesz ← gets (λ s, load_word (b_mem s) (ph + 16));
      (if memsz >? filesz then
         modify (λ s, Machine (stosb (b_mem s) (u32 (pa + filesz)) 0 (Z.to_nat (memsz - filesz))) (b_dev s))
       else mret tt);; k) Q s.
Proof.
  intros Hd <- Hph1 Hph2 [H1 H2 H3 H4 H5 H6] Hk. set (g := seg_at (b_mem s) ph) in *.
  assert (Hm : 0 <= sg_off g mod 512) by dlia.
  do 3 apply wp_bind, wp_gets. fold (sg_off g) (sg_pa g) (sg_filesz g). apply wp_bind.
  change (load_word (b_mem s) (ph + 4)) with (sg_off g). change (load_word (b_mem s) (ph + 12)) with (sg_pa g).
  change (load_word (b_mem s) (ph + 16)) with (sg_filesz g).
  eapply wp_mono; [apply (readseg_spec s disk); done || lia|]. intros _ s1 (Hd1 & Hin & Hout).
  assert (Eg : seg_at (b_mem s1) ph = g).
  { apply seg_at_ext. intros x Hx. apply Hout. intros Ht. apply (H6 x); [unfold touched; lia|lia]. }
  apply wp_bind, wp_gets, wp_bind, wp_gets.
  change (load_word (b_mem s1) (ph + 20)) with (sg_memsz (seg_at (b_mem s1) ph)).
  change (load_word (b_mem s1) (ph + 16)) with (sg_filesz (seg_at (b_mem s1) ph)). rewrite Eg. apply wp_bind.
  rewrite Z.gtb_ltb. destruct (Z.ltb_spec (sg_filesz g) (sg_memsz g)) as [Hz|Hz].
  - apply wp_modify. unfold u32. rewrite Z.mod_small by lia. apply Hk; cbn [b_mem b_dev]; [done|..].
    + intros x Hx. unfold in_seg in Hx. rewrite stosb_spec, Z2Nat.id by lia.
      destruct (decide (x < sg_pa g + sg_filesz g)); [rewrite decide_False by lia; apply Hin; lia|].
      by rewrite decide_True by lia.
    + intros x Hx. unfold touched in Hx. rewrite stosb_spec, Z2Nat.id, decide_False by lia. apply Hout. lia.
  - apply wp_ret, Hk; [done|..].
    + intros x Hx. unfold in_seg in Hx. rewrite decide_True by lia. apply Hin. lia.
    + intros x Hx. unfold touched in Hx. apply Hout. lia.
Qed.

(** No segment is overwritten by a later one. *)
Fixpoint apart (gs : list seg) : Prop :=
  match gs with
  | [] => True
  | g :: gs' => (∀ h x, h ∈ gs' → in_seg g x → ¬ touched h x) ∧ apart gs'
  end.

Lemma boot_segments_spec disk gs : ∀ s ph,
  idle (b_dev s) disk → (∀ k g, gs !! k = Some g → seg_at (b_mem s) (ph + 32 * Z.of_nat k) = g) →
  ELF <= ph → ph + 32 * Z.of_nat (length gs) <= ELF + 4096 → Forall seg_ok gs → apart gs →
  wp (boot_segments patience (length gs) ph) (λ _ s', idle (b_dev s') disk ∧ Forall (loaded disk (b_mem s')) gs ∧
    ∀ x, (∀ g, g ∈ gs → ¬ touched g x) → b_mem s' x = b_mem s x) s.
Proof.
  induction gs as [|g gs IH]; intros s ph Hd Hseg Hp1 Hp2 Hok Ha; cbn [length boot_segments].
  { apply wp_ret. by split_and!. }
  apply Forall_cons in Hok as [Hg Hgs]. destruct Ha as [Ha Hap]. cbn [length] in Hp2.
  eapply boot_segment_spec; [done|rewrite <-(Z.add_0_r ph); by apply (Hseg 0%nat)|done|lia|done|].
  intros s1 Hd1 Hl1 Hout1. change PROGHDR_SIZE with 32. unfold u32. rewrite Z.mod_small by (unfold ELF in *; lia).
  eapply wp_mono; [apply (IH s1 (ph + 32)); try done; try lia|].
  - intros k h Hk. rewrite <-(Hseg (S k) h Hk). pose proof (lookup_lt_Some _ _ _ Hk).
    replace (ph + 32 * Z.of_nat (S k)) with (ph + 32 + 32 * Z.of_nat k) by lia. apply seg_at_ext.
    intros x Hx. apply Hout1. intros Ht. apply (so_apart _ Hg x Ht). lia.
  - intros _ s2 (Hd2 & Hl2 & Hout2). split; [done|]. split.
    + apply Forall_cons. split; [|done]. intros x Hx. rewrite Hout2; [by apply Hl1|]. intros h Hh. by apply Ha.
    + intros x Hx. rewrite Hout2 by (intros h Hh; apply Hx; by right). apply Hout1, Hx. by left.
Qed.
End loader.

(** ** The kernel file *)

(** The disk holds an ELF file whose program headers, in its first page,
    describe the segments [gs]. *)
Record kernel_file (disk : Z → Z → block) (entry : Z) (gs : list seg) : Prop := {
  kf_magic : load_word (kbyte disk) 0 = ELF_MAGIC;
  kf_entry : load_word (kbyte disk) 24 = entry;
  kf_phnum : kbyte disk 44 + 2 ^ 8 * kbyte disk 45 = Z.of_nat (length gs);
  kf_phoff : 0 <= load_word (kbyte disk) 28 ∧ load_word (kbyte disk) 28 + 32 * Z.of_nat (length gs) <= 4096;
  kf_segs k g : gs !! k = Some g → seg_at (kbyte disk) (load_word (kbyte disk) 28 + 32 * Z.of_nat k) = g;
  kf_ok : Forall seg_ok gs;
  kf_apart : apart gs }.

Lemma load_word_shift (m m' : mem) b a :
  (∀ x, a <= x < a + 4 → m (b + x) = m' x) → load_word m (b + a) = load_word m' a.
Proof. intros H. unfold load_word. rewrite <-!Z.add_assoc, !H by lia. done. Qed.

Lemma seg_at_shift (m m' : mem) b a :
  (∀ x, a <= x < a + 32 → m (b + x) = m' x) → seg_at m (b + a) = seg_at m' a.
Proof.
  intros H. unfold seg_at. rewrite <-!Z.add_assoc. f_equal; apply load_word_shift; intros x Hx; apply H; lia.
Qed.

(** C17: The boot loader loads the kernel.  When the disk holds an ELF file
    whose program headers are in its first page and whose segments neither
    touch the scratch space nor are overwritten by later ones, [bootmain]
    jumps to the entry of the file with every segment in memory at its
    physical address: the bytes of the file, and zeroes up to its size in
    memory.  The whole sectors that are copied around a segment do no
    harm. *)
Theorem boot_loads_kernel {D} `{!AtaPorts D} (patience : D → nat) `{!AtaDisk D patience} (s : machine D) disk entry gs :
  idle patience (b_dev s) disk → kernel_file disk entry gs →
  ∃ s', bootmain patience s = Ret (Some entry) s' ∧ Forall (loaded disk (b_mem s')) gs.
Proof.
  intros Hd [H1 H2 H3 [H4 H5] H6 H7 H8]. set (phoff := load_word (kbyte disk) 28) in *.
  assert (W : wp (bootmain patience) (λ r s', r = Some entry ∧ Forall (loaded disk (b_mem s')) gs) s);
    [|apply wp_elim in W as (r & s' & E & -> & H); by exists s'].
  unfold bootmain. apply wp_bind. eapply wp_mono; [apply (readseg_spec patience s disk ELF 4096 0 Hd); done|].
  intros _ s1 (Hd1 & Hin & _).
  assert (Hm : ∀ x, 0 <= x < 4096 → b_mem s1 (ELF + x) = kbyte disk x).
  { intros x Hx. rewrite Hin by (unfold ELF in *; lia). f_equal. lia. }
  assert (Hw : ∀ m, (∀ x, 0 <= x < 4096 → m (ELF + x) = kbyte disk x) →
    ∀ a, 0 <= a → a + 4 <= 4096 → load_word m (ELF + a) = load_word (kbyte disk) a).
  { intros m Hm' a Ha1 Ha2. apply load_word_shift. intros x Hx. apply Hm'. lia. }
  unfold hdr_word. apply wp_bind, wp_gets. rewrite Hw, H1 by done. rewrite Z.eqb_refl. cbn [negb].
  apply wp_bind, wp_gets. rewrite Hw by done. fold phoff. apply wp_bind, wp_gets. rewrite !Hm, H3, Nat2Z.id by lia.
  apply wp_bind. unfold u32. rewrite Z.mod_small by (unfold ELF; lia).
  eapply wp_mono; [apply (boot_segments_spec patience disk gs s1 (ELF + phoff) Hd1); try done; try lia|].
  - intros k g Hk. rewrite <-(H6 k g Hk). pose proof (lookup_lt_Some _ _ _ Hk). rewrite <-Z.add_assoc.
    apply seg_at_shift. intros x Hx. apply Hm. lia.
  - intros _ s2 (Hd2 & Hl & Hout). apply wp_bind, wp_gets, wp_ret. split; [|done]. rewrite Hw, H2; [done| |done|done].
    intros x Hx. rewrite Hout; [by apply Hm|]. intros g Hg Ht. rewrite Forall_forall in H7.
    apply (so_apart _ (H7 g Hg) _ Ht). lia.
Qed.

(** A kernel of one segment: three bytes at offset 4096, ten in memory. *)
Definition demo_header : block :=
  splice 0 ([0x7F; 0x45; 0x4C; 0x46] ++ replicate 20 0 ++ [12; 0; 16; 0] ++ [52; 0; 0; 0] ++ replicate 12 0 ++ [1; 0])
    (splice 52 ([1; 0; 0; 0] ++ [0; 16; 0; 0] ++ replicate 4 0 ++ [0; 0; 16; 0] ++ [3; 0; 0; 0] ++ [10; 0; 0; 0]) zero_block).
Definition kernel_disk (x y : Z) : block :=
  if y =? 1 then demo_header else if y =? 9 then splice 0 [5; 6; 7] zero_block else zero_block.
Definition demo_seg : seg := Seg 4096 0x100000 3 10.

Lemma demo_kernel_file : kernel_file kernel_disk 0x10000C [demo_seg].
Proof.
  split; [vm_compute; reflexivity..| | | |].
  - split; vm_compute; discriminate.
  - intros [|k] g Hk; [|discriminate Hk]. injection Hk as <-. vm_compute. reflexivity.
  - apply Forall_singleton. split; [vm_compute; discriminate..|vm_compute; reflexivity|vm_compute; reflexivity|].
    intros x [Hx _] [_ Hx']. change (sg_pa demo_seg - sg_off demo_seg mod 512) with 0x100000 in Hx.
    unfold ELF in Hx'. lia.
  - split; [|done]. intros h x Hh. by apply elem_of_nil in Hh.
Qed.

Lemma kernel_disk_wf x y : wf_block (kernel_disk x y).
Proof.
  unfold kernel_disk. destruct (y =? 1); [|destruct (y =? 9); [|apply wf_zero_block]];
    (split; [vm_compute; reflexivity|]); repeat (apply Forall_splice); try apply wf_zero_block;
    repeat constructor; unfold is_byte; lia.
Qed.

Lemma boot_loads_kernel_witness :
  ∃ s', bootmain snd (Machine (λ _, 1) (Ata kernel_disk (λ _, 0) Idle false, 2%nat) : machine drive) =
      Ret (Some 0x10000C) s' ∧ b_mem s' 0x100002 = 7 ∧ b_mem s' 0x100003 = 0.
Proof.
  destruct (boot_loads_kernel snd (Machine (λ _, 1) (Ata kernel_disk (λ _, 0) Idle false, 2%nat) : machine drive)
    kernel_disk 0x10000C [demo_seg]) as (s' & E & H).
  - eexists. split; [split; [reflexivity|exact kernel_disk_wf]|split; reflexivity].
  - apply demo_kernel_file.
  - apply Forall_cons in H as [H _]. exists s'. split; [exact E|]. split.
    + rewrite (H 0x100002); [vm_compute; reflexivity|]. split; vm_compute; [discriminate|reflexivity].
    + rewrite (H 0x100003); [vm_compute; reflexivity|]. split; vm_compute; [discriminate|reflexivity].
Defined.
