(* ===== verification/Rtc.v ===== *)
(** * lapic.c: reading the date from the CMOS clock

    The clock shows the date in registers that are read one at a time, and it
    goes on while they are read.  [cmostime] reads them twice and starts again
    when the two dates differ.  The clock is a parameter; [Clock] and
    [ClockLaws] state what the driver relies on. *)

From S2P Require Import Prelude Layout.

(** ** date.h and lapic.c *)

Record rtcdate := Rtcdate {
  second : Z; minute : Z; hour : Z; day : Z; month : Z; year : Z }.

#[global] Instance rtcdate_eq_dec : EqDecision rtcdate.
Proof. solve_decision. Defined.

Definition CMOS_PORT : Z := 0x70.
Definition CMOS_RETURN : Z := 0x71.
Definition CMOS_STATA : Z := 0x0a.
Definition CMOS_STATB : Z := 0x0b.
Definition CMOS_UIP : Z := Z.shiftl 1 7.
Definition SECS : Z := 0x00.
Definition MINS : Z := 0x02.
Definition HOURS : Z := 0x04.
Definition DAY : Z := 0x07.
Definition MONTH : Z := 0x08.
Definition YEAR : Z := 0x09.

(** [CONV] *)
Definition conv (x : Z) : Z := u32 (u32 (Z.shiftr x 4 * 10) + Z.land x 0xf).
Definition conv_date (t : rtcdate) : rtcdate :=
  Rtcdate (conv (second t)) (conv (minute t)) (conv (hour t)) (conv (day t)) (conv (month t)) (conv (year t)).

Section cmos.
Context {D : Type} `{!Ports D}.

Definition inb (port : Z) : M D Z := λ d, let '(r, d) := p_inb port d in Ret r d.
Definition outb (port v : Z) : M D unit := modify (p_outb port (u8 v)).

Definition cmos_read (reg : Z) : M D Z :=
  outb CMOS_PORT reg;;
  inb CMOS_RETURN.

Definition fill_rtcdate : M D rtcdate :=
  s ← cmos_read SECS;
  m ← cmos_read MINS;
  h ← cmos_read HOURS;
  d ← cmos_read DAY;
  mo ← cmos_read MONTH;
  y ← cmos_read YEAR;
  mret (Rtcdate s m h d mo y).

(** The loop, in at most [fuel] rounds; [memcmp] compares the six words. *)
Fixpoint cmostime_loop (fuel : nat) : M D rtcdate :=
  match fuel with
  | O => diverge
  | S fuel' =>
    t1 ← fill_rtcdate;
    a ← cmos_read CMOS_STATA;
    if negb (Z.land a CMOS_UIP =? 0) then cmostime_loop fuel'
    else
      t2 ← fill_rtcdate;
      if bool_decide (t1 = t2) then mret t1 else cmostime_loop fuel'
  end.

Definition cmostime (fuel : nat) : M D rtcdate :=
  sb ← cmos_read CMOS_STATB;
  let bcd := Z.land sb (Z.shiftl 1 2) =? 0 in
  t1 ← cmostime_loop fuel;
  let t1 := if bcd then conv_date t1 else t1 in
  mret (Rtcdate (second t1) (minute t1) (hour t1) (day t1) (month t1) (u32 (year t1 + 2000))).
End cmos.

(** ** What the clock promises *)

(** At the [k]-th read the clock shows the second [ck_time k] and the status
    [ck_stata k]; [ck_date] is the calendar, with two digits for the year. *)
Class Clock (D : Type) := {
  ck_time : nat → nat;
  ck_stata : nat → Z;
  ck_statb : Z;
  ck_date : nat → rtcdate;
  ck_rep : D → Z → nat → Prop }.

Section registers.
Context {D : Type} `{!Clock D}.

(** A number of two digits in binary or in BCD, by bit 2 of status B. *)
Definition shown (v : Z) : Z :=
  if Z.land ck_statb (Z.shiftl 1 2) =? 0 then 16 * (v / 10) + v mod 10 else v.
Definition ck_reg (r : Z) (k : nat) : Z :=
  let t := ck_date (ck_time k) in
  if r =? SECS then shown (second t) else if r =? MINS then shown (minute t)
  else if r =? HOURS then shown (hour t) else if r =? DAY then shown (day t)
  else if r =? MONTH then shown (month t) else if r =? YEAR then shown (year t)
  else if r =? CMOS_STATA then ck_stata k else ck_statb.
Definition two_digits (v : Z) : Prop := 0 <= v < 100.
Definition busy (k : nat) : bool := negb (Z.land (ck_stata k) CMOS_UIP =? 0).
End registers.

(** A register is selected, then read; eight reads take less than a minute;
    the seconds run from 0 to 59. *)
Class ClockLaws (D : Type) `{!Ports D, !Clock D} := {
  ck_out d r k v : ck_rep d r k → ck_rep (p_outb CMOS_PORT v d) v k;
  ck_in d r k : ck_rep d r k → ∃ d', p_inb CMOS_RETURN d = (ck_reg r k, d') ∧ ck_rep d' r (S k);
  ck_mono j k : (j <= k)%nat → (ck_time j <= ck_time k)%nat;
  ck_slow k : (ck_time (k + 7) < ck_time k + 60)%nat;
  ck_second t : second (ck_date t) = Z.of_nat t mod 60;
  ck_digits t : Forall two_digits [second (ck_date t); minute (ck_date t); hour (ck_date t);
    day (ck_date t); month (ck_date t); year (ck_date t)] }.

(** ** The two readings *)

Section readings.
Context {D : Type} `{!Ports D, !Clock D, !ClockLaws D}.

Lemma conv_shown v : two_digits v → Z.land ck_statb (Z.shiftl 1 2) = 0 → conv (shown v) = v.
Proof.
  intros Hv Hb. unfold shown, conv, two_digits, u32 in *. rewrite Hb. cbn [Z.eqb].
  change 0xf with (Z.ones 4). rewrite Z.land_ones, Z.shiftr_div_pow2 by lia. change (2 ^ 4) with 16.
  pose proof (Z.mod_pos_bound v 10 ltac:(lia)). pose proof (Z.div_mod v 10 ltac:(lia)).
  rewrite <-(Z.div_unique (16 * (v / 10) + v mod 10) 16 (v / 10) (v mod 10)) by lia.
  rewrite <-(Z.mod_unique (16 * (v / 10) + v mod 10) 16 (v / 10) (v mod 10)) by lia.
  rewrite (Z.mod_small (_ * 10)), Z.mod_small by lia. lia.
Qed.

Lemma shown_inj v w : two_digits v → two_digits w → shown v = shown w → v = w.
Proof.
  intros Hv Hw E. unfold shown, two_digits in *. destruct (_ =? 0); [|done].
  pose proof (Z.mod_pos_bound v 10 ltac:(lia)). pose proof (Z.div_mod v 10 ltac:(lia)).
  pose proof (Z.mod_pos_bound w 10 ltac:(lia)). pose proof (Z.div_mod w 10 ltac:(lia)). lia.
Qed.

Lemma cmos_read_spec reg d r k (Q : Z → D → Prop) :
  0 <= reg < 2 ^ 8 → ck_rep d r k → (∀ d', ck_rep d' reg (S k) → Q (ck_reg reg k) d') → wp (cmos_read reg) Q d.
Proof.
  intros Hr Hd HQ. apply wp_bind, wp_modify. unfold u8. rewrite Z.mod_small by lia.
  destruct (ck_in _ _ _ (ck_out d r k reg Hd)) as (d' & E & Hd'). unfold wp, inb. rewrite E. by apply HQ.
Qed.

(** The six registers as read from the [k]-th read on. *)
Definition reading (k : nat) : rtcdate :=
  Rtcdate (ck_reg SECS k) (ck_reg MINS (S k)) (ck_reg HOURS (2 + k)) (ck_reg DAY (3 + k))
    (ck_reg MONTH (4 + k)) (ck_reg YEAR (5 + k)).

Lemma fill_rtcdate_spec d r k (Q : rtcdate → D → Prop) :
  ck_rep d r k → (∀ d' r', ck_rep d' r' (6 + k)%nat → Q (reading k) d') → wp fill_rtcdate Q d.
Proof.
  intros Hd HQ. unfold fill_rtcdate.
  do 6 (apply wp_bind; eapply cmos_read_spec; [by unfold SECS, MINS, HOURS, DAY, MONTH, YEAR|eassumption|]; clear d Hd; intros d Hd).
  apply wp_ret. by eapply HQ.
Qed.

(** What the clock shows while it stands. *)
Definition face (t : nat) : rtcdate :=
  let c := ck_date t in
  Rtcdate (shown (second c)) (shown (minute c)) (shown (hour c)) (shown (day c)) (shown (month c)) (shown (year c)).

Lemma reading_face k t : (∀ j, (k <= j < 6 + k)%nat → ck_time j = t) → reading k = face t.
Proof. intros H. unfold reading, ck_reg, face. cbn -[shown]. by rewrite !H by lia. Qed.

(** Two equal readings are not torn. *)
Lemma readings_agree k : reading k = reading (7 + k) → reading k = face (ck_time k).
Proof.
  intros E. apply reading_face. apply (f_equal second) in E. cbn [reading second] in E.
  unfold ck_reg in E. cbn -[shown] in E.
  apply shown_inj in E; [|by pose proof (ck_digits (ck_time k)) as H; apply Forall_cons in H as [? _]
    |by pose proof (ck_digits (ck_time (7 + k))) as H; apply Forall_cons in H as [? _]].
  rewrite !ck_second in E. pose proof (ck_slow k) as Hs. rewrite Nat.add_comm in Hs. cbn in Hs.
  pose proof (ck_mono k (7 + k) ltac:(lia)) as Hm. cbn in Hm.
  assert (ck_time (S (S (S (S (S (S (S k))))))) = ck_time k).
  { pose proof (Z.div_mod (Z.of_nat (ck_time k)) 60 ltac:(lia)).
    pose proof (Z.div_mod (Z.of_nat (ck_time (S (S (S (S (S (S (S k))))))))) 60 ltac:(lia)). lia. }
  intros j Hj. pose proof (ck_mono k j ltac:(lia)). pose proof (ck_mono j (7 + k) ltac:(lia)). cbn in *. lia.
Qed.

(** From the [q]-th read on the clock stands and is not busy for as long as
    two rounds of the loop take. *)
Definition stands (q : nat) : Prop := ∀ k, (q <= k < q + 26)%nat → ck_time k = ck_time q ∧ busy k = false.

Lemma cmostime_loop_spec q fuel : stands q → ∀ d r k,
  ck_rep d r k → (k <= q + 12)%nat → (q < k + fuel)%nat ∧ (0 < fuel)%nat →
  wp (cmostime_loop fuel) (λ t d', ∃ j, (k <= j)%nat ∧ t = face (ck_time j) ∧
    ∃ r' k', (j < k')%nat ∧ ck_rep d' r' k') d.
Proof.
  intros Hq. induction fuel as [|fuel IH]; intros d r k Hd Hk Hf; [lia|]. cbn [cmostime_loop].
  assert (Hnext : ∀ d' r' k', ck_rep d' r' k' → (k + 7 <= k' <= k + 13)%nat → (k < q)%nat →
    wp (cmostime_loop fuel) (λ t d', ∃ j, (k <= j)%nat ∧ t = face (ck_time j) ∧
      ∃ r' k', (j < k')%nat ∧ ck_rep d' r' k') d').
  { intros d' r' k' Hd' Hk' Hlt. eapply wp_mono; [apply (IH d' r' k'); [done|lia..]|].
    intros t d'' (j & Hj & Hr). exists j. split; [lia|done]. }
  apply wp_bind. eapply fill_rtcdate_spec; [exact Hd|]. clear d r Hd. intros d r Hd.
  apply wp_bind. eapply cmos_read_spec; [by unfold CMOS_STATA|exact Hd|]. clear d r Hd. intros d Hd.
  change (ck_reg CMOS_STATA (6 + k)) with (ck_stata (6 + k)). fold (busy (6 + k)).
  destruct (busy (6 + k)) eqn:Hb.
  { eapply Hnext; [exact Hd|lia|]. destruct (decide (k < q)%nat); [done|].
    destruct (Hq (6 + k)%nat) as [_ Hb']; [lia|congruence]. }
  apply wp_bind. eapply fill_rtcdate_spec; [exact Hd|]. clear d Hd. intros d r Hd.
  case_bool_decide as E.
  - apply wp_ret. exists k. split; [lia|]. split; [by apply readings_agree|]. exists r, (13 + k)%nat. split; [lia|exact Hd].
  - eapply Hnext; [exact Hd|lia|]. destruct (decide (k < q)%nat); [done|]. exfalso. apply E.
    rewrite !(reading_face _ (ck_time q)); [done|intros j Hj; apply Hq; lia..].
Qed.

End readings.

(** A clock in BCD that shows 12:59:59 for five reads and is busy just before
    the second ends, while the first reading is under way. *)
Record rtc_demo := RtcDemo { demo_sel : Z; demo_reads : nat }.

#[global] Instance demo_clock : Clock rtc_demo := {
  ck_time k := if (k <? 5)%nat then 59%nat else 60%nat;
  ck_stata k := if (3 <=? k)%nat && (k <? 5)%nat then 0xa6 else 0x26;
  ck_statb := 0x02;
  ck_date t := Rtcdate (Z.of_nat t mod 60) (if (t <? 60)%nat then 59 else 0) (if (t <? 60)%nat then 12 else 13) 31 12 26;
  ck_rep d r k := d = RtcDemo r k }.
#[global] Instance demo_rtc_ports : Ports rtc_demo := {
  p_inb port d := (ck_reg (D := rtc_demo) (demo_sel d) (demo_reads d), RtcDemo (demo_sel d) (S (demo_reads d)));
  p_outb port v d := RtcDemo v (demo_reads d) }.
#[global] Program Instance demo_clock_laws : ClockLaws rtc_demo.
Next Obligation. by intros d r k v ->. Qed.
Next Obligation. intros d r k ->. by eexists. Qed.
Next Obligation. intros j k H. unfold ck_time, demo_clock. destruct (Nat.ltb_spec j 5), (Nat.ltb_spec k 5); lia. Qed.
Next Obligation. intros k. unfold ck_time, demo_clock. destruct (Nat.ltb_spec (k + 7) 5), (Nat.ltb_spec k 5); lia. Qed.
Next Obligation. done. Qed.
Next Obligation.
  intros t. unfold ck_date, demo_clock. cbn [second minute hour day month year]. pose proof (Z.mod_pos_bound (Z.of_nat t) 60 ltac:(lia)).
  rewrite !Forall_cons, Forall_nil. unfold two_digits. destruct (t <? 60)%nat; repeat split; lia.
Qed.

