(* ===== verification/Ioapic.v ===== *)
(** * ioapic.c: which interrupts are delivered where

    The I/O APIC is two words in memory: the number of a register and a
    window on it.  [Mmio] has reads and writes of memory-mapped registers;
    [IoapicRegs] states what the driver relies on.  The redirection table
    turns out to implement a map from interrupts to processors. *)

From S2P Require Import Prelude Str Trap.

Class Mmio (D : Type) := {
  mm_read : Z → D → Z * D;
  mm_write : Z → Z → D → D }.

(** ** ioapic.c *)

Definition REG_ID : Z := 0x00.
Definition REG_VER : Z := 0x01.
Definition REG_TABLE : Z := 0x10.
Definition INT_DISABLED : Z := 0x00010000.

(** The words [reg] and [data] of [struct ioapic]. *)
Definition IO_REG : Z := 0.
Definition IO_DATA : Z := 16.

Section ioapic_code.
Context {D : Type} `{!Mmio D}.

Definition io_load (a : Z) : M D Z := λ d, let '(r, d) := mm_read a d in Ret r d.
Definition io_store (a v : Z) : M D unit := modify (mm_write a v).

Definition ioapicread (reg : Z) : M D Z :=
  io_store IO_REG reg;;
  io_load IO_DATA.

Definition ioapicwrite (reg data : Z) : M D unit :=
  io_store IO_REG reg;;
  io_store IO_DATA data.

Fixpoint ioapicinit_loop (n : nat) (i : Z) : M D unit :=
  match n with
  | O => mret tt
  | S n' =>
    ioapicwrite (REG_TABLE + 2 * i) (Z.lor INT_DISABLED (T_IRQ0 + i));;
    ioapicwrite (REG_TABLE + 2 * i + 1) 0;;
    ioapicinit_loop n' (i + 1)
  end.

(** Whether the message about [ioapicid] is printed. *)
Definition ioapicinit (ioapicid : Z) : M D bool :=
  ver ← ioapicread REG_VER;
  let maxintr := Z.land (Z.shiftr ver 16) 0xFF in
  w ← ioapicread REG_ID;
  let id := Z.shiftr w 24 in
  ioapicinit_loop (Z.to_nat (maxintr + 1)) 0;;
  mret (negb (id =? ioapicid)).

Definition ioapicenable (irq cpunum : Z) : M D unit :=
  ioapicwrite (REG_TABLE + 2 * irq) (T_IRQ0 + irq);;
  ioapicwrite (REG_TABLE + 2 * irq + 1) (u32 (Z.shiftl cpunum 24)).
End ioapic_code.

(** ** What the I/O APIC promises *)

Class IoapicRegs (D : Type) `{!Mmio D} := {
  io_sel : D → Z;
  io_regs : D → Z → Z;
  io_select d v : io_sel (mm_write IO_REG v d) = v;
  io_select_regs d v r : io_regs (mm_write IO_REG v d) r = io_regs d r;
  io_window d : (mm_read IO_DATA d).1 = io_regs d (io_sel d);
  io_read_regs d r : io_regs (mm_read IO_DATA d).2 r = io_regs d r;
  io_table d v r : REG_TABLE <= io_sel d →
    io_regs (mm_write IO_DATA v d) r = upd (io_regs d) (io_sel d) v r }.

(** How the I/O APIC reads an entry of its table: nothing when masked, and
    otherwise the vector and the processor. *)
Definition redirect (f : Z → Z) (i : Z) : option (Z * Z) :=
  let lo := f (REG_TABLE + 2 * i) in
  if Z.testbit lo 16 then None
  else Some (Z.land lo 0xff, Z.shiftr (f (REG_TABLE + 2 * i + 1)) 24).

(** The processor that the last [ioapicenable] for [i] named. *)
Fixpoint routed (es : list (Z * Z)) (i : Z) (r : option Z) : option Z :=
  match es with
  | [] => r
  | (irq, cpu) :: es' => routed es' i (if irq =? i then Some cpu else r)
  end.

Section routing.
Context {D : Type} `{!Mmio D, !IoapicRegs D}.

Fixpoint enable_all (es : list (Z * Z)) : M D unit :=
  match es with
  | [] => mret tt
  | (irq, cpu) :: es' => ioapicenable irq cpu;; enable_all es'
  end.

Lemma ioapicread_spec d r (Q : Z → D → Prop) :
  (∀ d', (∀ x, io_regs d' x = io_regs d x) → Q (io_regs d r) d') → wp (ioapicread r) Q d.
Proof.
  intros HQ. apply wp_bind, wp_modify. unfold wp, io_load.
  destruct (mm_read IO_DATA (mm_write IO_REG r d)) as [v d'] eqn:E.
  pose proof (io_window (mm_write IO_REG r d)) as Hv. rewrite E, io_select, io_select_regs in Hv. cbn in Hv. subst v.
  apply HQ. intros x. pose proof (io_read_regs (mm_write IO_REG r d) x) as Hx.
  by rewrite E, io_select_regs in Hx.
Qed.

Lemma ioapicwrite_spec d r v (Q : unit → D → Prop) :
  REG_TABLE <= r →
  (∀ d', (∀ x, io_regs d' x = upd (io_regs d) r v x) → Q tt d') → wp (ioapicwrite r v) Q d.
Proof.
  intros Hr HQ. apply wp_bind, wp_modify, wp_modify. apply HQ. intros x.
  rewrite io_table, io_select by (by rewrite io_select). unfold upd. case_match; [done|apply io_select_regs].
Qed.

(** The table after a pair of writes. *)
Definition set_entry (f : Z → Z) (i lo hi : Z) : Z → Z :=
  upd (upd f (REG_TABLE + 2 * i) lo) (REG_TABLE + 2 * i + 1) hi.

Lemma redirect_set f i lo hi j :
  redirect (set_entry f i lo hi) j =
    if decide (j = i) then (if Z.testbit lo 16 then None else Some (Z.land lo 0xff, Z.shiftr hi 24)) else redirect f j.
Proof.
  unfold redirect, set_entry. case_decide as E.
  - subst j. by rewrite upd_ne, upd_eq, upd_eq by lia.
  - by rewrite !upd_ne by lia.
Qed.

Lemma redirect_ext f g j : (∀ x, f x = g x) → redirect f j = redirect g j.
Proof. intros H. unfold redirect. by rewrite !H. Qed.

Lemma set_entry_two d d1 d2 i lo hi j :
  (∀ x, io_regs d1 x = upd (io_regs d) (REG_TABLE + 2 * i) lo x) →
  (∀ x, io_regs d2 x = upd (io_regs d1) (REG_TABLE + 2 * i + 1) hi x) →
  redirect (io_regs d2) j = redirect (set_entry (io_regs d) i lo hi) j.
Proof.
  intros H1 H2. apply redirect_ext. intros x. rewrite H2. unfold set_entry, upd at 1 2. case_match; [done|]. apply H1.
Qed.

Lemma masked_bit i : Z.testbit (Z.lor INT_DISABLED (T_IRQ0 + i)) 16 = true.
Proof. rewrite Z.lor_spec. by replace (Z.testbit INT_DISABLED 16) with true. Qed.

Lemma ioapicinit_loop_spec n : ∀ d i,
  0 <= i → i + Z.of_nat n <= 256 →
  wp (ioapicinit_loop n i) (λ _ d', ∀ j,
    redirect (io_regs d') j = if decide (i <= j < i + Z.of_nat n) then None else redirect (io_regs d) j) d.
Proof.
  induction n as [|n IH]; intros d i Hi Hn; cbn [ioapicinit_loop].
  { apply wp_ret. intros j. by rewrite decide_False by lia. }
  apply wp_bind, ioapicwrite_spec; [unfold REG_TABLE; lia|]. intros d1 H1.
  apply wp_bind, ioapicwrite_spec; [unfold REG_TABLE; lia|]. intros d2 H2.
  eapply wp_mono; [apply IH; lia|]. cbv beta. intros _ d3 H3 j. rewrite H3, (set_entry_two d d1 d2 i _ _ j H1 H2).
  rewrite redirect_set, masked_bit. destruct (decide (j = i)) as [->|Hj].
  - rewrite decide_False, decide_True by lia. done.
  - destruct (decide (i + 1 <= j < i + 1 + Z.of_nat n)); [by rewrite decide_True by lia|by rewrite decide_False by lia].
Qed.

Lemma enabled_entry i cpu :
  0 <= i < 224 → 0 <= cpu < 256 →
  Z.testbit (T_IRQ0 + i) 16 = false ∧ Z.land (T_IRQ0 + i) 0xff = T_IRQ0 + i ∧ Z.shiftr (u32 (Z.shiftl cpu 24)) 24 = cpu.
Proof.
  intros Hi Hc. unfold T_IRQ0, u32. change 0xff with (Z.ones 8). split_and!.
  - apply Z.bits_above_log2; [lia|]. apply (Z.le_lt_trans _ (Z.log2 255)); [apply Z.log2_le_mono; lia|done].
  - rewrite Z.land_ones, Z.mod_small by lia. done.
  - rewrite Z.shiftl_mul_pow2, Z.shiftr_div_pow2, Z.mod_small by lia. by rewrite Z.div_mul.
Qed.

Lemma routed_last es j : ∀ r, routed es j r = match routed es j None with Some c => Some c | None => r end.
Proof.
  induction es as [|[irq cpu] es IH]; intros r; cbn [routed]; [done|].
  destruct (irq =? j); [|apply IH]. rewrite (IH (Some cpu)). by destruct (routed es j None).
Qed.

Lemma enable_all_spec es : ∀ d,
  Forall (λ e, 0 <= e.1 < 224 ∧ 0 <= e.2 < 256) es →
  wp (enable_all es) (λ _ d', ∀ j, redirect (io_regs d') j =
    match routed es j None with Some cpu => Some (T_IRQ0 + j, cpu) | None => redirect (io_regs d) j end) d.
Proof.
  induction es as [|[irq cpu] es IH]; intros d Hes; cbn [enable_all routed]; [by apply wp_ret|].
  apply Forall_cons in Hes as [[Hi Hc] Hes]. cbn [fst snd] in Hi, Hc. destruct (enabled_entry irq cpu Hi Hc) as (B1 & B2 & B3).
  apply wp_bind, wp_bind, ioapicwrite_spec; [unfold REG_TABLE; lia|]. intros d1 H1.
  apply ioapicwrite_spec; [unfold REG_TABLE; lia|]. intros d2 H2.
  eapply wp_mono; [apply (IH d2 Hes)|]. cbv beta. intros _ d3 H3 j.
  rewrite H3, (set_entry_two d d1 d2 irq _ _ j H1 H2), redirect_set, B1, B2, B3, (routed_last es j (if irq =? j then _ else _)).
  destruct (routed es j None); [done|]. destruct (Z.eqb_spec irq j), (decide (j = irq)); try congruence.
Qed.

(** C22: The drivers get their interrupts and nobody gets others.  After
    [ioapicinit] and any sequence of calls of [ioapicenable], every
    interrupt that the I/O APIC has is delivered just when it was enabled,
    with the vector that [trap] expects for it, and to the processor that was
    named last; all the others are masked, whatever the table held before. *)
Theorem interrupts_routed d ioapicid es :
  Forall (λ e, 0 <= e.1 < 224 ∧ 0 <= e.2 < 256) es →
  let maxintr := Z.land (Z.shiftr (io_regs d REG_VER) 16) 0xFF in
  ∃ d' warned, (warned ← ioapicinit ioapicid; enable_all es;; mret warned) d = Ret warned d' ∧
    (warned = true ↔ Z.shiftr (io_regs d REG_ID) 24 ≠ ioapicid) ∧
    ∀ i, 0 <= i <= maxintr →
      redirect (io_regs d') i = (λ cpu, (T_IRQ0 + i, cpu)) <$> routed es i None.
Proof.
  intros Hes maxintr.
  assert (Hmax : 0 <= maxintr < 256).
  { unfold maxintr. change 0xFF with (Z.ones 8). rewrite Z.land_ones by lia. apply Z.mod_pos_bound. lia. }
  cut (wp (warned ← ioapicinit ioapicid; enable_all es;; mret warned) (λ warned d',
    (warned = true ↔ Z.shiftr (io_regs d REG_ID) 24 ≠ ioapicid) ∧ ∀ i, 0 <= i <= maxintr →
      redirect (io_regs d') i = (λ cpu, (T_IRQ0 + i, cpu)) <$> routed es i None) d).
  { intros (w & d' & E & H)%wp_elim. by exists d', w. }
  apply wp_bind, wp_bind, ioapicread_spec. intros d1 H1. apply wp_bind, ioapicread_spec. intros d2 H2.
  fold maxintr. apply wp_bind. eapply wp_mono; [apply ioapicinit_loop_spec; lia|]. cbv beta. intros [] d3 H3. apply wp_ret.
  apply wp_bind. eapply wp_mono; [apply (enable_all_spec es d3 Hes)|]. cbv beta. intros [] d4 H4. apply wp_ret. split.
  - rewrite H1. destruct (Z.eqb_spec (Z.shiftr (io_regs d REG_ID) 24) ioapicid); cbn [negb]; [naive_solver|done].
  - intros i Hi. rewrite H4, H3, decide_True by lia. by destruct (routed es i None).
Qed.
End routing.

(** Registers as a function. *)
#[global] Instance demo_mmio : Mmio (Z * (Z → Z)) := {
  mm_read a d := (d.2 d.1, d);
  mm_write a v d := if a =? IO_REG then (v, d.2) else (d.1, upd d.2 d.1 v) }.
#[global] Program Instance demo_ioapic : IoapicRegs (Z * (Z → Z)) := {
  io_sel d := d.1; io_regs d := d.2 }.
Solve All Obligations with done.

(** The interrupts of the keyboard, of the disk and of the serial line, as
    [consoleinit], [ideinit] and [uartinit] enable them on a machine with
    two processors. *)
Lemma interrupts_routed_witness :
  ∃ d' warned, (warned ← ioapicinit 0; enable_all [(IRQ_KBD, 0); (IRQ_COM1, 0); (IRQ_IDE, 1)];; mret warned)
      (0, λ r, if r =? REG_VER then 0x170011 else 0) = Ret warned d' ∧
    redirect d'.2 IRQ_KBD = Some (33, 0) ∧ redirect d'.2 IRQ_IDE = Some (46, 1) ∧ redirect d'.2 5 = None.
Proof.
  destruct (interrupts_routed (0, λ r, if r =? REG_VER then 0x170011 else 0) 0 [(IRQ_KBD, 0); (IRQ_COM1, 0); (IRQ_IDE, 1)])
    as (d' & w & E & _ & H).
  - repeat constructor; cbn; unfold IRQ_KBD, IRQ_COM1, IRQ_IDE; lia.
  - exists d', w. split; [exact E|]. split_and!.
    + apply (H IRQ_KBD). vm_compute. split; discriminate.
    + apply (H IRQ_IDE). vm_compute. split; discriminate.
    + apply (H 5). vm_compute. split; discriminate.
Defined.
