(* ===== verification/Lapic.v ===== *)
(** * lapic.c and main.c: the local APIC and the start of the other processors

    The registers of the local APIC are memory-mapped; [LapicRegs] states
    what the drivers rely on, with the values last written and the messages
    sent to other processors.  [startothers] starts the processors one after
    another and hands each of them a stack in the same words of memory;
    [ap_run] is what a processor that receives the messages does with
    entryother.S.  Each of them comes up on a stack of its own. *)

From S2P Require Import Prelude Str Layout Mmu Kalloc Trap Rtc Ioapic.

(** ** lapic.c *)

Definition ID : Z := 0x0020 / 4.
Definition VER : Z := 0x0030 / 4.
Definition TPR : Z := 0x0080 / 4.
Definition EOI : Z := 0x00B0 / 4.
Definition SVR : Z := 0x00F0 / 4.
Definition ENABLE : Z := 0x00000100.
Definition ESR : Z := 0x0280 / 4.
Definition ICRLO : Z := 0x0300 / 4.
Definition INIT : Z := 0x00000500.
Definition STARTUP : Z := 0x00000600.
Definition DELIVS : Z := 0x00001000.
Definition ASSERT : Z := 0x00004000.
Definition LEVEL : Z := 0x00008000.
Definition BCAST : Z := 0x00080000.
Definition ICRHI : Z := 0x0310 / 4.
Definition TIMER : Z := 0x0320 / 4.
Definition X1 : Z := 0x0000000B.
Definition PERIODIC : Z := 0x00020000.
Definition PCINT : Z := 0x0340 / 4.
Definition LINT0 : Z := 0x0350 / 4.
Definition LINT1 : Z := 0x0360 / 4.
Definition ERROR : Z := 0x0370 / 4.
Definition MASKED : Z := 0x00010000.
Definition TICR : Z := 0x0380 / 4.
Definition TDCR : Z := 0x03E0 / 4.
Definition IRQ_ERROR : Z := 19.

(** Memory with the free pages, the devices, and of each processor whether
    it has [started] and with which stack, entry point and page table it
    came up. *)
Record aps (D : Type) := Aps {
  a_km : kmem; a_dev : D; a_started : list bool; a_came : list (option (Z * Z * Z)) }.
Arguments Aps {D}.
Arguments a_km {D}.
Arguments a_dev {D}.
Arguments a_started {D}.
Arguments a_came {D}.

Section lapic_code.
Context {D : Type} `{!Ports D, !Mmio D}.
Local Abbreviation K := (M (aps D)).

Definition on_dev (f : D → D) : K unit :=
  modify (λ s, Aps (a_km s) (f (a_dev s)) (a_started s) (a_came s)).
Definition on_ram (f : mem → mem) : K unit :=
  modify (λ s, Aps (Kmem (f (k_mem (a_km s))) (use_lock (a_km s)) (freelist (a_km s))) (a_dev s) (a_started s) (a_came s)).

Definition lapic_load (index : Z) : K Z := λ s,
  let '(r, d) := mm_read index (a_dev s) in Ret r (Aps (a_km s) d (a_started s) (a_came s)).

Definition lapicw (index value : Z) : K unit :=
  on_dev (mm_write index value);;
  lapic_load ID;;
  mret tt.

(** The loop that waits for the delivery of a message. *)
Fixpoint wait_delivs (fuel : nat) : K unit :=
  match fuel with
  | O => diverge
  | S fuel' =>
    r ← lapic_load ICRLO;
    if negb (Z.land r DELIVS =? 0) then wait_delivs fuel' else mret tt
  end.

(** [lapic] is the address of the registers, [patience] the number of reads
    until a message is delivered. *)
Definition lapicinit (patience : D → nat) (lapic : Z) : K unit :=
  if lapic =? 0 then mret tt
  else
    lapicw SVR (Z.lor ENABLE (T_IRQ0 + IRQ_SPURIOUS));;
    lapicw TDCR X1;;
    lapicw TIMER (Z.lor PERIODIC (T_IRQ0 + IRQ_TIMER));;
    lapicw TICR 10000000;;
    lapicw LINT0 MASKED;;
    lapicw LINT1 MASKED;;
    v ← lapic_load VER;
    (if Z.land (Z.shiftr v 16) 0xFF >=? 4 then lapicw PCINT MASKED else mret tt);;
    lapicw ERROR (T_IRQ0 + IRQ_ERROR);;
    lapicw ESR 0;;
    lapicw ESR 0;;
    lapicw EOI 0;;
    lapicw ICRHI 0;;
    lapicw ICRLO (Z.lor (Z.lor BCAST INIT) LEVEL);;
    n ← gets (λ s, patience (a_dev s));
    wait_delivs (S n);;
    lapicw TPR 0.

Definition lapicid (lapic : Z) : K Z :=
  if lapic =? 0 then mret 0
  else r ← lapic_load ID; mret (Z.shiftr r 24).

Definition lapiceoi (lapic : Z) : K unit :=
  if negb (lapic =? 0) then lapicw EOI 0 else mret tt.

Definition WARM_RESET : Z := P2V (Z.lor (Z.shiftl 0x40 4) 0x67).
Definition store_ushort (a v : Z) : K unit :=
  on_ram (λ m, upd (upd m a (u8 v)) (a + 1) (u8 (Z.shiftr v 8))).

Definition lapicstartap (apicid addr : Z) : K unit :=
  on_dev (p_outb CMOS_PORT 0xF);;
  on_dev (p_outb (CMOS_PORT + 1) 0x0A);;
  store_ushort WARM_RESET 0;;
  store_ushort (WARM_RESET + 2) (Z.shiftr addr 4);;
  lapicw ICRHI (u32 (Z.shiftl apicid 24));;
  lapicw ICRLO (Z.lor (Z.lor INIT LEVEL) ASSERT);;
  lapicw ICRLO (Z.lor INIT LEVEL);;
  lapicw ICRHI (u32 (Z.shiftl apicid 24));;
  lapicw ICRLO (Z.lor STARTUP (Z.shiftr addr 12));;
  lapicw ICRHI (u32 (Z.shiftl apicid 24));;
  lapicw ICRLO (Z.lor STARTUP (Z.shiftr addr 12)).

(** ** main.c *)

(** The messages the device has sent, each with the high and the low word of
    the command. *)
Variable ipis : D → list (Z * Z).

(** What the messages do to the processor with the given identifier:
    [None] while it runs or is halted from the start, [Some None] when it
    waits after [INIT], [Some (Some page)] when it has started there.  Only
    the first [STARTUP] after an [INIT] counts. *)
Fixpoint sipi (id : Z) (st : option (option Z)) (l : list (Z * Z)) : option (option Z) :=
  match l with
  | [] => st
  | (hi, lo) :: l' =>
    sipi id
      (if negb (Z.shiftr hi 24 =? id) then st
       else if (Z.land lo 0x700 =? INIT) && negb (Z.land lo ASSERT =? 0) then Some None
       else if Z.land lo 0x700 =? STARTUP then
         match st with Some None => Some (Some (Z.land lo 0xff)) | _ => st end
       else st) l'
  end.

(** The image of entryother.S and where the linker has put it, the entry
    point [mpenter], the page table for the start, the identifiers of the
    processors and the one that runs this code. *)
Variables (image : list Z) (binary mpenter entrypgdir : Z) (apicids : list Z) (boot : nat).
(** How often the waiting loop looks before the other processor is up. *)
Variable delay : nat → nat.

Definition code : Z := P2V 0x7000.

(** Processor [i], which executes entryother.S if that is what it was
    started at: it takes page table, stack and entry point from the words
    before it, and sets [started] in [mpmain]. *)
Definition ap_run (i : nat) : K unit := λ s,
  match sipi (apicids !!! i) None (ipis (a_dev s)) with
  | Some (Some page) =>
    let start := P2V (Z.shiftl page 12) in
    let m := k_mem (a_km s) in
    if bool_decide ((λ k, m (start + Z.of_nat k)) <$> seq 0 (length image) = image) then
      Ret tt (Aps (a_km s) (a_dev s) (<[i := true]> (a_started s))
        (<[i := Some (load_word m (start - 4), load_word m (start - 8), load_word m (start - 12))]> (a_came s)))
    else Diverge
  | _ => Diverge
  end.

Fixpoint wait_started (n i : nat) : K unit :=
  b ← gets (λ s, a_started s !!! i);
  if b : bool then mret tt
  else
    match n with
    | S n' => wait_started n' i
    | O =>
      ap_run i;;
      b ← gets (λ s, a_started s !!! i);
      if b : bool then mret tt else diverge
    end.

Definition start_cpu (i : nat) : K unit :=
  if bool_decide (i = boot) then mret tt
  else
    stack ← lift a_km (λ k s, Aps k (a_dev s) (a_started s) (a_came s)) kalloc;
    on_ram (λ m, store_word m (code - 4) (u32 (stack + KSTACKSIZE)));;
    on_ram (λ m, store_word m (code - 8) mpenter);;
    on_ram (λ m, store_word m (code - 12) (V2P entrypgdir));;
    lapicstartap (apicids !!! i) (V2P code);;
    wait_started (delay i) i.

Fixpoint start_cpus (l : list nat) : K unit :=
  match l with
  | [] => mret tt
  | i :: l' => start_cpu i;; start_cpus l'
  end.

Definition startothers : K unit :=
  on_ram (λ m, memmove m code binary (Z.of_nat (length image)));;
  start_cpus (seq 0 (length apicids)).
End lapic_code.

(** ** What the local APIC promises *)

Class LapicRegs (D : Type) `{!Ports D, !Mmio D} (patience : D → nat) (ipis : D → list (Z * Z)) := {
  la_regs : D → Z → Z;
  la_version : Z;
  la_write d i v : la_regs (mm_write i v d) = upd (la_regs d) i v;
  la_send d i v : ipis (mm_write i v d) = if i =? ICRLO then ipis d ++ [(la_regs d ICRHI, v)] else ipis d;
  la_read d i : la_regs (mm_read i d).2 = la_regs d ∧ ipis (mm_read i d).2 = ipis d;
  la_ver d : (mm_read VER d).1 = la_version;
  la_delivs d : (Z.land (mm_read ICRLO d).1 DELIVS = 0 ↔ patience d = 0%nat) ∧
    patience (mm_read ICRLO d).2 = pred (patience d);
  la_port d p v : la_regs (p_outb p v d) = la_regs d ∧ ipis (p_outb p v d) = ipis d }.

(** ** Writes to registers *)

Section lapic_specs.
Context {D : Type} `{!Ports D, !Mmio D} (patience : D → nat) (ipis : D → list (Z * Z))
  `{!LapicRegs D patience ipis}.
Implicit Types (s : aps D).

Definition with_dev s (d : D) : aps D := Aps (a_km s) d (a_started s) (a_came s).

Lemma lapic_load_spec s i (Q : Z → aps D → Prop) :
  (∀ d', la_regs d' = la_regs (a_dev s) → ipis d' = ipis (a_dev s) →
    d' = (mm_read i (a_dev s)).2 → Q (mm_read i (a_dev s)).1 (with_dev s d')) →
  wp (lapic_load i) Q s.
Proof.
  intros HQ. unfold wp, lapic_load. destruct (la_read (a_dev s) i) as [H1 H2].
  destruct (mm_read i (a_dev s)) as [r d] eqn:E. by apply HQ.
Qed.

Lemma lapicw_spec s i v (Q : unit → aps D → Prop) :
  (∀ d', la_regs d' = upd (la_regs (a_dev s)) i v →
    ipis d' = (if i =? ICRLO then ipis (a_dev s) ++ [(la_regs (a_dev s) ICRHI, v)] else ipis (a_dev s)) →
    Q tt (with_dev s d')) →
  wp (lapicw i v) Q s.
Proof.
  intros HQ. apply wp_bind, wp_modify, wp_bind, lapic_load_spec. intros d' H1 H2 _. apply wp_ret.
  apply HQ; [by rewrite H1; apply la_write|by rewrite H2; apply la_send].
Qed.

Lemma wait_delivs_spec n : ∀ s,
  patience (a_dev s) = n →
  wp (wait_delivs (S n)) (λ _ s', ∃ d', s' = with_dev s d' ∧ la_regs d' = la_regs (a_dev s) ∧ ipis d' = ipis (a_dev s)) s.
Proof.
  induction n as [|n IH]; intros s Hn; cbn [wait_delivs]; apply wp_bind, lapic_load_spec; intros d' H1 H2 Hd;
    destruct (la_delivs (a_dev s)) as [[L1 L2] L3]; rewrite <-Hd in L3; rewrite Hn in *.
  - rewrite (L2 eq_refl). cbn. by exists d'.
  - destruct (Z.eqb_spec (Z.land (mm_read ICRLO (a_dev s)).1 DELIVS) 0) as [E|E]; [by specialize (L1 E)|].
    cbn [negb]. eapply wp_mono; [apply IH; exact L3|]. cbv beta.
    intros _ s' (d'' & -> & E1 & E2). exists d''. cbn [with_dev a_dev] in *. by rewrite E1, E2.
Qed.

(** A write in a sequence of writes, from registers [f] and messages [l]. *)
Lemma lapicw_step {B} s0 d f l i v (k : M (aps D) B) Q :
  la_regs d = f → ipis d = l →
  (∀ d', la_regs d' = upd f i v → ipis d' = (if i =? ICRLO then l ++ [(f ICRHI, v)] else l) → wp k Q (with_dev s0 d')) →
  wp (lapicw i v;; k) Q (with_dev s0 d).
Proof. intros <- <- HQ. apply wp_bind, lapicw_spec. intros d' H1 H2. by apply HQ. Qed.

(** The registers as [lapicinit] leaves them. *)
Definition programmed (f : Z → Z) : Prop :=
  f SVR = Z.lor ENABLE (T_IRQ0 + IRQ_SPURIOUS) ∧ f TDCR = X1 ∧ f TIMER = Z.lor PERIODIC (T_IRQ0 + IRQ_TIMER) ∧
  f TICR = 10000000 ∧ f LINT0 = MASKED ∧ f LINT1 = MASKED ∧ f ERROR = T_IRQ0 + IRQ_ERROR ∧ f TPR = 0.

Ltac lapic_write d H1 H2 :=
  eapply lapicw_step; [exact H1|exact H2|]; clear d H1 H2; intros d H1 H2.

(** [lapicinit] returns with the timer running and the local lines masked,
    and has sent one message to all processors. *)
Lemma lapicinit_spec s d0 lapic :
  lapic ≠ 0 →
  wp (lapicinit patience lapic) (λ _ s', ∃ d', s' = with_dev s d' ∧ programmed (la_regs d') ∧
    (4 <= Z.land (Z.shiftr (la_version (ipis := ipis) (patience := patience)) 16) 0xFF → la_regs d' PCINT = MASKED) ∧
    ipis d' = ipis d0 ++ [(0, Z.lor (Z.lor BCAST INIT) LEVEL)]) (with_dev s d0).
Proof.
  intros Hl. unfold lapicinit. rewrite (proj2 (Z.eqb_neq _ _) Hl).
  remember (la_regs d0) as f0 eqn:H1. remember (ipis d0) as l0 eqn:H2. symmetry in H1, H2.
  do 6 lapic_write d0 H1 H2.
  apply wp_bind, lapic_load_spec. cbn [with_dev a_dev]. intros d1 E1 E2 _. rewrite H1 in E1. rewrite H2 in E2. clear H1 H2.
  rewrite la_ver. change (with_dev (with_dev s d0) d1) with (with_dev s d1). clear d0.
  destruct (Z.geb_spec (Z.land (Z.shiftr (la_version (ipis := ipis) (patience := patience)) 16) 0xFF) 4) as [Hb|Hb];
    [lapic_write d1 E1 E2|apply wp_bind, wp_ret]; do 6 lapic_write d1 E1 E2;
    (apply wp_bind, wp_gets, wp_bind; eapply wp_mono; [apply wait_delivs_spec; reflexivity|]; cbv beta;
     intros _ s2 (d2 & -> & F1 & F2); cbn [with_dev a_dev] in F1, F2; rewrite E1 in F1; rewrite E2 in F2;
     apply lapicw_spec; cbn [with_dev a_dev]; intros d3 G1 G2; rewrite F1 in G1; rewrite F2 in G2;
     exists d3; rewrite G1, G2; split; [done|]; split; [repeat split|]; split; [|done]; first [done|intros; lia]).
Qed.
(** ** The messages that start a processor *)

Definition wake_msgs (id addr : Z) : list (Z * Z) :=
  let h := u32 (Z.shiftl id 24) in
  [(h, Z.lor (Z.lor INIT LEVEL) ASSERT); (h, Z.lor INIT LEVEL);
   (h, Z.lor STARTUP (Z.shiftr addr 12)); (h, Z.lor STARTUP (Z.shiftr addr 12))].

Definition put_ushort (m : mem) (a v : Z) : mem := upd (upd m a (u8 v)) (a + 1) (u8 (Z.shiftr v 8)).
Definition warm (m : mem) (addr : Z) : mem :=
  put_ushort (put_ushort m WARM_RESET 0) (WARM_RESET + 2) (Z.shiftr addr 4).

Lemma lapicstartap_spec s id addr (Q : unit → aps D → Prop) :
  (∀ d', ipis d' = ipis (a_dev s) ++ wake_msgs id addr →
    Q tt (Aps (Kmem (warm (k_mem (a_km s)) addr) (use_lock (a_km s)) (freelist (a_km s))) d' (a_started s) (a_came s))) →
  wp (lapicstartap id addr) Q s.
Proof.
  intros HQ. unfold lapicstartap. do 2 apply wp_bind, wp_modify. do 2 apply wp_bind, wp_modify. cbn [a_km a_dev a_started a_came k_mem use_lock freelist].
  set (d := p_outb _ _ _).
  match goal with |- wp _ _ (Aps ?k _ ?a ?c) => change (Aps k d a c) with (with_dev (Aps k (a_dev s) a c) d) end.
  assert (H2 : ipis d = ipis (a_dev s)).
  { unfold d. rewrite (proj2 (la_port _ _ _)). apply la_port. }
  assert (H1 : la_regs d = la_regs d) by done. revert H1. generalize (la_regs d) at 2. intros f H1. clearbody d.
  do 6 lapic_write d H1 H2. apply lapicw_spec. cbn [with_dev a_dev]. intros d' _ E2. apply HQ.
  change (ICRHI =? ICRLO) with false in *. change (ICRLO =? ICRLO) with true in *. cbv iota in *.
  rewrite E2, H2, H1, <-!app_assoc. reflexivity.
Qed.
End lapic_specs.

Lemma sipi_app id l1 l2 : ∀ st, sipi id st (l1 ++ l2) = sipi id (sipi id st l1) l2.
Proof. induction l1 as [|[hi lo] l1 IH]; intros st; cbn [app sipi]; [done|]. apply IH. Qed.

Lemma wake_hi id : 0 <= id < 256 → Z.shiftr (u32 (Z.shiftl id 24)) 24 = id.
Proof.
  intros Hi. unfold u32. rewrite Z.shiftl_mul_pow2, Z.shiftr_div_pow2, Z.mod_small by lia. by rewrite Z.div_mul.
Qed.

Lemma sipi_wake id : 0 <= id < 256 → sipi id None (wake_msgs id (V2P code)) = Some (Some 7).
Proof. intros Hi. unfold wake_msgs. cbn -[Z.shiftl u32]. rewrite wake_hi, Z.eqb_refl by done. reflexivity. Qed.

Lemma sipi_other id id' addr st :
  0 <= id < 256 → id ≠ id' → sipi id' st (wake_msgs id addr) = st.
Proof. intros Hi Hne. unfold wake_msgs. cbn -[Z.shiftl Z.shiftr u32]. by rewrite wake_hi, (proj2 (Z.eqb_neq _ _) Hne). Qed.

(** ** The words before the code *)

Definition start_mem (m : mem) (sp entry pgdir : Z) : mem :=
  warm (store_word (store_word (store_word m (code - 4) sp) (code - 8) entry) (code - 12) pgdir) (V2P code).

Lemma start_mem_high m sp entry pgdir a : code <= a → start_mem m sp entry pgdir a = m a.
Proof.
  intros Ha. unfold start_mem, warm, put_ushort, store_word. change code with 0x80007000 in *.
  change WARM_RESET with 0x80000467. by rewrite !upd_ne by lia.
Qed.

Lemma start_mem_bytes m sp entry pgdir :
  (∀ a, is_byte (m a)) → ∀ a, is_byte (start_mem m sp entry pgdir a).
Proof.
  intros Hb a. unfold start_mem, warm, put_ushort, store_word, upd, u8.
  repeat (case_match; [apply Z.mod_pos_bound; lia|]). apply Hb.
Qed.

Lemma load_warm m addr a : WARM_RESET + 4 <= a → load_word (warm m addr) a = load_word m a.
Proof. intros H. apply load_ext. intros i Hi. unfold warm, put_ushort. by rewrite !upd_ne by lia. Qed.

Lemma start_mem_words m sp entry pgdir :
  is_u32 sp → is_u32 entry → is_u32 pgdir →
  load_word (start_mem m sp entry pgdir) (code - 4) = sp ∧
  load_word (start_mem m sp entry pgdir) (code - 8) = entry ∧
  load_word (start_mem m sp entry pgdir) (code - 12) = pgdir.
Proof.
  intros H1 H2 H3. unfold start_mem. change WARM_RESET with 0x80000467 in *. change code with 0x80007000.
  rewrite !load_warm by (change WARM_RESET with 0x80000467; lia). split_and!.
  - rewrite !load_store_ne by lia. by apply load_store.
  - rewrite load_store_ne by lia. by apply load_store.
  - by apply load_store.
Qed.

Lemma free_list_low kend s l m :
  free_list kend s l → (∀ a, kend <= a → m a = k_mem s a) → (∀ a, is_byte (m a)) →
  free_list kend (Kmem m (use_lock s) (freelist s)) l.
Proof.
  intros [Hb Hc Hnd Hok] Hm Hbm. split; cbn [k_mem freelist]; try done.
  apply (chain_ext (k_mem s)); [done|]. intros x i Hx Hi. apply Hm.
  destruct (proj1 (Forall_forall _ _) Hok x Hx) as (_ & ? & _). lia.
Qed.

(** ** The processors come up *)

Section startup.
Context {D : Type} `{!Ports D, !Mmio D} (patience : D → nat) (ipis : D → list (Z * Z))
  `{!LapicRegs D patience ipis}.
Context (kend : Z) (image : list Z) (binary mpenter entrypgdir : Z) (apicids : list Z) (boot : nat) (delay : nat → nat).
Context (Hids : NoDup apicids) (Hid : Forall (λ id, 0 <= id < 256) apicids) (Hent : is_u32 mpenter)
  (Hlow : code + Z.of_nat (length image) <= kend).
Implicit Types (s : aps D).

(** The processors [todo] have not been started, the pages [l] are free and
    the image is in its place. *)
Record before (todo : list nat) (l : list Z) s : Prop := {
  be_free : free_list kend (a_km s) l;
  be_image k b : image !! k = Some b → k_mem (a_km s) (code + Z.of_nat k) = b;
  be_quiet i : i ∈ todo → sipi (apicids !!! i) None (ipis (a_dev s)) = None;
  be_down i : i ∈ todo → a_started s !! i = Some false;
  be_came i : i ∈ todo → (i < length (a_came s))%nat }.

(** Processor [i] comes up with the stack that ends at [sp]. *)
Definition came_up (sp : Z) (i : nat) s : aps D :=
  Aps (a_km s) (a_dev s) (<[i := true]> (a_started s)) (<[i := Some (sp, mpenter, V2P entrypgdir)]> (a_came s)).

Lemma ap_run_spec i s sp :
  sipi (apicids !!! i) None (ipis (a_dev s)) = Some (Some 7) →
  (∀ k b, image !! k = Some b → k_mem (a_km s) (code + Z.of_nat k) = b) →
  load_word (k_mem (a_km s)) (code - 4) = sp → load_word (k_mem (a_km s)) (code - 8) = mpenter →
  load_word (k_mem (a_km s)) (code - 12) = V2P entrypgdir →
  ap_run ipis image apicids i s = Ret tt (came_up sp i s).
Proof.
  intros Hs Him <- H2 H3. unfold ap_run. rewrite Hs. change (P2V (Z.shiftl 7 12)) with code.
  rewrite bool_decide_eq_true_2; [by rewrite H2, H3|].
  apply list_eq. intros k. rewrite list_lookup_fmap. destruct (image !! k) as [b|] eqn:Ek.
  - rewrite lookup_seq_lt by (by eapply lookup_lt_Some). cbn. f_equal. by apply Him.
  - rewrite lookup_seq_ge by (by apply lookup_ge_None). done.
Qed.

Lemma wait_started_spec n i s sp :
  a_started s !! i = Some false → ap_run ipis image apicids i s = Ret tt (came_up sp i s) →
  wait_started ipis image apicids n i s = Ret tt (came_up sp i s).
Proof.
  intros Hi Ha. pose proof (list_lookup_total_correct _ _ _ Hi) as Ht.
  induction n as [|n IH]; cbn [wait_started]; rewrite bind_gets, Ht; [|exact IH].
  rewrite (bind_ret _ _ _ _ _ Ha).
  assert (Ht' : a_started (came_up sp i s) !!! i = true).
  { cbn [came_up a_started]. apply list_lookup_total_insert_eq. by eapply lookup_lt_Some. }
  by rewrite bind_gets, Ht'.
Qed.

Lemma start_cpu_spec i todo p l s :
  i ≠ boot → NoDup (i :: todo) → (∀ j, j ∈ i :: todo → (j < length apicids)%nat) → before (i :: todo) (p :: l) s →
  wp (start_cpu ipis image mpenter entrypgdir apicids boot delay i) (λ _ s', before todo l s' ∧
    a_started s' = <[i := true]> (a_started s) ∧
    a_came s' = <[i := Some (p + KSTACKSIZE, mpenter, V2P entrypgdir)]> (a_came s)) s.
Proof.
  intros Hb [Hnin Hnd]%NoDup_cons Hlt [Hfree Him Hq Hdown Hcame]. unfold start_cpu. rewrite bool_decide_eq_false_2 by done.
  assert (Hp : page_ok kend p) by (pose proof (fl_ok _ _ _ Hfree) as F; by apply Forall_cons in F as [? _]).
  destruct (wp_elim _ _ _ (kalloc_spec kend _ _ Hfree)) as (r & km & Ek & Em & _ & -> & _ & Hfree').
  apply wp_bind. unfold wp at 1, lift. rewrite Ek.
  assert (Hsp : u32 (p + KSTACKSIZE) = p + KSTACKSIZE ∧ is_u32 (p + KSTACKSIZE)).
  { destruct Hp as (_ & _ & ? & ?). unfold is_u32, u32, KERNBASE, PHYSTOP, KSTACKSIZE in *.
    rewrite Z.mod_small by lia. lia. }
  destruct Hsp as [-> Hsp]. do 3 apply wp_bind, wp_modify. cbn [a_km a_dev a_started a_came k_mem use_lock freelist].
  apply wp_bind, (lapicstartap_spec patience ipis). cbn [a_km a_dev a_started a_came k_mem use_lock freelist]. intros d' Hd'.
  change (warm _ _) with (start_mem (k_mem km) (p + KSTACKSIZE) mpenter (V2P entrypgdir)). set (m := start_mem _ _ _ _).
  set (s1 := Aps _ d' _ _).
  assert (Hii : 0 <= apicids !!! i < 256).
  { destruct (lookup_lt_is_Some_2 apicids i) as [x Hx]; [apply Hlt; left|].
    rewrite (list_lookup_total_correct _ _ _ Hx). by apply (Forall_lookup_1 _ _ _ _ Hid Hx). }
  destruct (start_mem_words (k_mem km) (p + KSTACKSIZE) mpenter (V2P entrypgdir) Hsp Hent) as (W1 & W2 & W3).
  { unfold V2P, u32, is_u32. apply Z.mod_pos_bound. lia. }
  assert (Him' : ∀ k b, image !! k = Some b → m (code + Z.of_nat k) = b).
  { intros k b Hk. unfold m. rewrite start_mem_high by lia. rewrite Em. by apply Him. }
  assert (Hrun : ap_run ipis image apicids i s1 = Ret tt (came_up (p + KSTACKSIZE) i s1)).
  { apply ap_run_spec; [|done..]. cbn [s1 a_dev]. rewrite Hd', sipi_app, (Hq i) by left. by apply sipi_wake. }
  unfold wp. rewrite (wait_started_spec (delay i) i s1 (p + KSTACKSIZE)); [|by apply (Hdown i); left|done].
  split; [|split; reflexivity]. split; cbn [came_up s1 a_km a_dev a_started a_came k_mem].
  - apply (free_list_low kend km); [done| |].
    + intros a Ha. unfold m. apply start_mem_high. lia.
    + apply start_mem_bytes, (fl_bytes _ _ _ Hfree').
  - exact Him'.
  - intros j Hj. rewrite Hd', sipi_app, (Hq j) by (by right). apply sipi_other; [done|].
    intros E. assert (j ≠ i) by (intros ->; exact (Hnin Hj)). apply H. symmetry.
    destruct (lookup_lt_is_Some_2 apicids i) as [x Hx]; [apply Hlt; left|].
    destruct (lookup_lt_is_Some_2 apicids j) as [y Hy]; [apply Hlt; by right|].
    rewrite (list_lookup_total_correct _ _ _ Hx), (list_lookup_total_correct _ _ _ Hy) in E. subst y.
    exact (NoDup_lookup _ _ _ _ Hids Hx Hy).
  - intros j Hj. rewrite list_lookup_insert_ne by (intros ->; exact (Hnin Hj)). apply Hdown. right. exact Hj.
  - intros j Hj. rewrite length_insert. apply Hcame. right. exact Hj.
Qed.

Definition others (todo : list nat) : list nat := filter (.≠ boot) todo.

(** The [j]-th of the other processors has come up on the [j]-th page. *)
Definition own_stacks (todo : list nat) (l : list Z) s : Prop := ∀ j i p,
  others todo !! j = Some i → l !! j = Some p →
  a_started s !! i = Some true ∧ a_came s !! i = Some (Some (p + KSTACKSIZE, mpenter, V2P entrypgdir)).

Lemma start_cpus_spec todo : ∀ l s,
  NoDup todo → (∀ j, j ∈ todo → (j < length apicids)%nat) → (length (others todo) <= length l)%nat → before todo l s →
  wp (start_cpus ipis image mpenter entrypgdir apicids boot delay todo) (λ _ s',
    own_stacks todo l s' ∧ free_list kend (a_km s') (drop (length (others todo)) l) ∧
    ∀ k, k ∉ others todo → a_started s' !! k = a_started s !! k ∧ a_came s' !! k = a_came s !! k) s.
Proof.
  induction todo as [|i todo IH]; intros l s Hnd Hlt Hlen Hbe; cbn [start_cpus].
  { apply wp_ret. split; [intros j k p E; discriminate E|]. split; [exact (be_free _ _ _ Hbe)|]. intros k _. split; reflexivity. }
  pose proof Hnd as [Hnin Hnd']%NoDup_cons. apply wp_bind. unfold own_stacks, others in *. rewrite filter_cons in *.
  destruct (decide (i ≠ boot)) as [Hb|Hb].
  - cbn [length] in Hlen. destruct l as [|p l]; [cbn in Hlen; lia|]. cbn [length] in Hlen.
    eapply wp_mono; [apply (start_cpu_spec i todo p l s Hb Hnd Hlt Hbe)|]. intros _ s1 (Hbe1 & E1 & E2).
    eapply wp_mono; [apply (IH l s1 Hnd'); [intros j Hj; apply Hlt; right; exact Hj|lia|exact Hbe1]|].
    intros _ s2 (Hown & Hfree & Hrest). split; [|split; [exact Hfree|]].
    + intros [|j] k q Hk Hq; cbn in Hk, Hq; [|exact (Hown j k q Hk Hq)]. injection Hk as <-. injection Hq as <-.
      destruct (Hrest i) as [-> ->]; [rewrite list_elem_of_filter; intros [_ ?]; contradiction|]. rewrite E1, E2.
      split; apply list_lookup_insert_eq; [|apply (be_came _ _ _ Hbe); left].
      eapply lookup_lt_Some, (be_down _ _ _ Hbe). left.
    + intros k Hk. rewrite elem_of_cons in Hk. destruct (Hrest k) as [-> ->]; [tauto|]. rewrite E1, E2.
      split; apply list_lookup_insert_ne; intros ->; tauto.
  - unfold start_cpu. rewrite bool_decide_eq_true_2 by (destruct (decide (i = boot)); tauto). apply wp_ret.
    apply (IH l s Hnd'); [intros j Hj; apply Hlt; right; exact Hj|exact Hlen|].
    destruct Hbe as [B1 B2 B3 B4 B5]. split; [exact B1|exact B2|..]; intros j Hj; [apply B3|apply B4|apply B5]; right; exact Hj.
Qed.

(** C18: Every other processor gets a stack of its own.  When none has been
    started and there are pages enough, [startothers] returns: each of the
    processors of the table but the one that runs it has come up through
    entryother.S into [mpenter], with the page table for the start, on a page
    that no one else has and that has left the free list, although all of
    them find their stack in the same word.  This holds however long each
    of them takes. *)
Theorem startothers_own_stacks s l :
  (∀ k b, image !! k = Some b → k_mem (a_km s) (binary + Z.of_nat k) = b) →
  free_list kend (a_km s) l → (length (others (seq 0 (length apicids))) <= length l)%nat →
  length (a_came s) = length apicids → a_started s = replicate (length apicids) false →
  (∀ i, (i < length apicids)%nat → sipi (apicids !!! i) None (ipis (a_dev s)) = None) →
  ∃ s', startothers ipis image binary mpenter entrypgdir apicids boot delay s = Ret tt s' ∧
    own_stacks (seq 0 (length apicids)) l s' ∧
    free_list kend (a_km s') (drop (length (others (seq 0 (length apicids)))) l) ∧
    (a_started s' !! boot = a_started s !! boot ∧ a_came s' !! boot = a_came s !! boot).
Proof.
  intros Him Hfree Hlen Hc Hs Hq. apply wp_returns. unfold startothers. apply wp_bind, wp_modify.
  eapply wp_mono; [apply (start_cpus_spec _ l)|].
  - apply NoDup_seq.
  - intros j Hj%elem_of_seq. lia.
  - exact Hlen.
  - split; cbn [a_km a_dev a_started a_came k_mem].
    + apply (free_list_low kend (a_km s)); [exact Hfree|..]; intros a; rewrite memmove_copies by lia.
      * intros Ha. rewrite decide_False by lia. reflexivity.
      * destruct (decide _); apply (fl_bytes _ _ _ Hfree).
    + intros k b Hk. pose proof (lookup_lt_Some _ _ _ Hk). rewrite memmove_copies, decide_True by lia.
      replace (binary + (code + Z.of_nat k - code)) with (binary + Z.of_nat k) by lia. exact (Him k b Hk).
    + intros i Hi%elem_of_seq. apply Hq. lia.
    + intros i Hi%elem_of_seq. rewrite Hs. apply lookup_replicate_2. lia.
    + intros i Hi%elem_of_seq. lia.
  - intros [] s' (H1 & H2 & H3). split; [exact H1|]. split; [exact H2|]. apply H3.
    unfold others. rewrite list_elem_of_filter. intros [? _]. contradiction.
Qed.
End startup.

(** Registers as a function with the messages sent; delivery is immediate. *)
Record demo_lapic := DemoLapic { dl_regs : Z → Z; dl_ipis : list (Z * Z) }.
#[global] Instance demo_lapic_ports : Ports demo_lapic := { p_inb _ d := (0, d); p_outb _ _ d := d }.
#[global] Instance demo_lapic_mmio : Mmio demo_lapic := {
  mm_read i d := (0, d);
  mm_write i v d :=
    DemoLapic (upd (dl_regs d) i v) (if i =? ICRLO then dl_ipis d ++ [(dl_regs d ICRHI, v)] else dl_ipis d) }.
#[global] Program Instance demo_lapic_regs : LapicRegs demo_lapic (λ _, 0%nat) dl_ipis := {
  la_regs := dl_regs; la_version := 0 }.
Solve All Obligations with done.

(** Three processors, of which the second one runs [startothers]; the free
    pages are chained from [0x80400000] to [0x80401000]. *)
Definition demo_free : kmem :=
  Kmem (store_word (store_word (λ _, 0) 0x80400000 0x80401000) 0x80100000 0xfa) 0 0x80400000.
Definition demo_aps : aps demo_lapic :=
  Aps demo_free (DemoLapic (λ _, 0) []) (replicate 3 false) (replicate 3 None).

Lemma startothers_own_stacks_witness :
  ∃ s', startothers dl_ipis [0xfa] 0x80100000 0x80103000 0x80109000 [0; 1; 4] 1 (λ i, i) demo_aps = Ret tt s' ∧
    a_came s' !! 0%nat = Some (Some (0x80401000, 0x80103000, 0x109000)) ∧
    a_came s' !! 2%nat = Some (Some (0x80402000, 0x80103000, 0x109000)).
Proof.
  destruct (startothers_own_stacks (λ _, 0%nat) dl_ipis 0x80110000 [0xfa] 0x80100000 0x80103000 0x80109000 [0; 1; 4] 1
    (λ i, i)) with (s := demo_aps) (l := [0x80400000; 0x80401000]) as (s' & E & H & _).
  - repeat (constructor; [set_solver|]). constructor.
  - repeat (constructor; [lia|]). constructor.
  - unfold is_u32. lia.
  - vm_compute. discriminate.
  - intros [|k] b Hk; [injection Hk as <-; reflexivity|discriminate Hk].
  - split.
    + intros a. unfold demo_aps, demo_free, store_word, upd, u8. cbn [a_km k_mem].
      repeat (case_match; [apply Z.mod_pos_bound; lia|]). unfold is_byte. lia.
    + vm_compute. repeat split; discriminate.
    + repeat (constructor; [set_solver|]). constructor.
    + repeat (constructor; [vm_compute; repeat split; discriminate|]). constructor.
  - apply Nat.leb_le. vm_compute. reflexivity.
  - reflexivity.
  - reflexivity.
  - intros i Hi. reflexivity.
  - exists s'. split; [exact E|]. split.
    + exact (proj2 (H 0%nat 0%nat 0x80400000 eq_refl eq_refl)).
    + exact (proj2 (H 1%nat 2%nat 0x80401000 eq_refl eq_refl)).
Defined.
