(* ===== verification/Uart.v ===== *)
(** * uart.c: the serial port

    [uartinit] sets up the port and finds out whether there is one; on an
    interrupt [uartintr] hands the bytes that have come in to the console.
    [uartputc] is in Screen.v.  [SerialQueue] states what the receiver relies
    on. *)

From S2P Require Import Prelude Layout Trap Console Kbd Screen Ioapic.

(** ** uartinit *)

Section uart_init.
Context {D : Type} `{!Ports D, !Mmio D}.
Local Abbreviation K := (M (screen D)).

Definition set_uart : K unit := modify (λ s, Screen (crt s) true (panicked s) (v_dev s)).

Fixpoint uartputs (l : list Z) : K unit :=
  match l with
  | [] => mret tt
  | c :: l' => uartputc c;; uartputs l'
  end.

Definition uartinit : K unit :=
  Screen.outb (COM1 + 2) 0;;
  Screen.outb (COM1 + 3) 0x80;;
  Screen.outb (COM1 + 0) (115200 / 9600);;
  Screen.outb (COM1 + 1) 0;;
  Screen.outb (COM1 + 3) 0x03;;
  Screen.outb (COM1 + 4) 0;;
  Screen.outb (COM1 + 1) 0x01;;
  st ← Screen.inb (COM1 + 5);
  if st =? 0xFF then mret tt
  else
    set_uart;;
    Screen.inb (COM1 + 2);;
    Screen.inb (COM1 + 0);;
    lift v_dev (λ d s, Screen (crt s) (uart s) (panicked s) d) (ioapicenable IRQ_COM1 0);;
    uartputs [120; 118; 54; 46; 46; 46; 10].
End uart_init.

(** ** Reception *)

(** [uart], the input of the console, whether its readers were woken up, and
    the port. *)
Record ser (D : Type) := Ser { u_uart : bool; u_input : input; u_woken : bool; u_dev : D }.
Arguments Ser {D}.
Arguments u_uart {D}.
Arguments u_input {D}.
Arguments u_woken {D}.
Arguments u_dev {D}.

Section uart_code.
Context {D : Type} `{!Ports D}.
Local Abbreviation K := (M (ser D)).

Definition inb (port : Z) : K Z := λ s,
  let '(r, d) := p_inb port (u_dev s) in Ret r (Ser (u_uart s) (u_input s) (u_woken s) d).

Definition uartgetc : K Z :=
  b ← gets u_uart;
  if negb b then mret (-1)
  else
    st ← inb (COM1 + 5);
    if Z.land st 0x01 =? 0 then mret (-1) else inb (COM1 + 0).

(** The switch of [consoleintr]. *)
Definition serial_char (c : Z) : K unit := λ s,
  match consoleintr c (u_input s) with
  | None => Diverge
  | Some (w, _, i) => Ret tt (Ser (u_uart s) i (u_woken s || w) (u_dev s))
  end.

(** [consoleintr(uartgetc)] *)
Fixpoint uartintr (fuel : nat) : K unit :=
  match fuel with
  | O => diverge
  | S fuel' =>
    c ← uartgetc;
    if negb (c >=? 0) then mret tt else serial_char c;; uartintr fuel'
  end.
End uart_code.

(** ** What the port promises *)

Class SerialQueue (D : Type) `{!Ports D} := {
  su_rep : D → list Z → Prop;
  su_bytes d l : su_rep d l → Forall is_byte l;
  su_status d l r d' : su_rep d l → p_inb (COM1 + 5) d = (r, d') →
    (Z.land r 0x01 = 0 ↔ l = []) ∧ su_rep d' l;
  su_data d x l r d' : su_rep d (x :: l) → p_inb (COM1 + 0) d = (r, d') → r = x ∧ su_rep d' l }.

Section reception.
Context {D : Type} `{!Ports D, !SerialQueue D}.
Implicit Types s : ser D.

Lemma uartgetc_spec s l :
  su_rep (u_dev s) l → u_uart s = true →
  wp uartgetc (λ c s', u_input s' = u_input s ∧ u_woken s' = u_woken s ∧ u_uart s' = true ∧
    match l with
    | [] => c = -1 ∧ su_rep (u_dev s') []
    | x :: l' => c = x ∧ su_rep (u_dev s') l'
    end) s.
Proof.
  intros R Hu. unfold uartgetc. apply wp_bind, wp_gets. rewrite Hu. cbn [negb]. apply wp_bind. unfold inb at 1, wp at 1.
  destruct (p_inb (COM1 + 5) (u_dev s)) as [st d] eqn:E1. destruct (su_status _ _ _ _ R E1) as [Hst R1].
  destruct (Z.eqb_spec (Z.land st 0x01) 0) as [E0|E0].
  - apply Hst in E0 as ->. apply wp_ret. by rewrite Hu.
  - destruct l as [|x l]; [by destruct E0; apply Hst|]. unfold inb, wp. cbn [u_dev].
    destruct (p_inb (COM1 + 0) d) as [data d'] eqn:E2. destruct (su_data _ _ _ _ _ R1 E2) as [-> R2]. by rewrite Hu.
Qed.

(** The bytes that have come in are keys for the console, in their order,
    and none is left. *)
Lemma uartintr_spec l : ∀ fuel s a,
  su_rep (u_dev s) l → u_uart s = true → (length l < fuel)%nat → refines (u_input s) a →
  wp (uartintr fuel) (λ _ s', su_rep (u_dev s') [] ∧ refines (u_input s') (akeys l a) ∧
    u_woken s' = u_woken s || awakes l a) s.
Proof.
  induction l as [|x l IH]; intros [|fuel] s a R Hu Hf Ha; try (cbn in Hf; lia); cbn [uartintr]; apply wp_bind;
    (eapply wp_mono; [by apply uartgetc_spec|]); intros c s1 (Ei & Ew & Eu & H).
  - destruct H as [-> R1]. change (-1 >=? 0) with false. apply wp_ret. cbn [akeys foldl awakes].
    by rewrite Ei, Ew, orb_false_r.
  - destruct H as [-> R1]. pose proof (su_bytes _ _ R) as Hc. apply Forall_cons in Hc as [Hc _].
    rewrite Z.geb_leb. destruct (Z.leb_spec 0 x); [|unfold is_byte in Hc; lia].
    cbn [negb]. apply wp_bind. unfold serial_char, wp at 1. rewrite <-Ei in Ha.
    destruct (consoleintr_refines _ _ x Ha Hc) as (i & -> & Ha'). destruct (akey x a) as [[w echo] a'] eqn:Ek.
    cbn [fst snd] in *. set (s2 := Ser _ _ _ _). eapply wp_mono; [apply (IH fuel s2 a'); [done|done|cbn in Hf; lia|done]|].
    intros [] s3 (R3 & Ha3 & W3). cbn [akeys foldl awakes] in *. rewrite Ek. split_and!; try done.
    rewrite W3. cbn [u_woken s2]. by rewrite Ew, orb_assoc.
Qed.
End reception.

(** ** Detection *)

Section detection.
Context {D : Type} `{!Ports D, !Mmio D}.
Implicit Types s : screen D.

(** The port after the first writes. *)
Definition uart_setup (d : D) : D :=
  foldl (λ d '(p, v), p_outb (COM1 + p) v d) d [(2, 0); (3, 0x80); (0, 12); (1, 0); (3, 0x03); (4, 0); (1, 0x01)].

Definition same_but_dev s s' : Prop := crt s' = crt s ∧ uart s' = uart s ∧ panicked s' = panicked s.

Lemma inb_keeps port s : wp (Screen.inb port) (λ _, same_but_dev s) s.
Proof. unfold wp, Screen.inb. by destruct (p_inb port (v_dev s)). Qed.

Lemma same_trans s1 s2 s3 : same_but_dev s1 s2 → same_but_dev s2 s3 → same_but_dev s1 s3.
Proof. unfold same_but_dev. intuition congruence. Qed.

Lemma uart_wait_keeps n : ∀ s, wp (uart_wait n) (λ _, same_but_dev s) s.
Proof.
  induction n as [|n IH]; intros s; cbn [uart_wait]; [by apply wp_ret|].
  apply wp_bind. eapply wp_mono; [apply inb_keeps|]. intros r s1 H1. destruct (negb _); [by apply wp_ret|].
  eapply wp_mono; [apply IH|]. intros [] s2 H2. exact (same_trans _ _ _ H1 H2).
Qed.

Lemma uartputs_keeps l : ∀ s, wp (uartputs l) (λ _, same_but_dev s) s.
Proof.
  induction l as [|c l IH]; intros s; cbn [uartputs]; [by apply wp_ret|].
  apply wp_bind. unfold uartputc. apply wp_bind, wp_gets. destruct (negb (uart s)); [apply wp_ret, IH|].
  apply wp_bind. eapply wp_mono; [apply uart_wait_keeps|]. intros [] s1 H1. apply wp_modify.
  eapply wp_mono; [apply IH|]. intros [] s2 H2. exact (same_trans _ _ _ H1 H2).
Qed.

(** [uartinit] returns whatever the port does, and takes it for present
    unless its status reads [0xFF]. *)
Lemma uartinit_detects s :
  wp uartinit (λ _ s', crt s' = crt s ∧ panicked s' = panicked s ∧
    uart s' = if (p_inb (COM1 + 5) (uart_setup (v_dev s))).1 =? 0xFF then uart s else true) s.
Proof.
  unfold uartinit. do 7 apply wp_bind, wp_modify. cbn [crt uart panicked v_dev].
  change (u8 (115200 / 9600)) with 12. apply wp_bind. unfold wp at 1, Screen.inb at 1. cbn [v_dev crt uart panicked].
  change (p_outb _ _ _) with (uart_setup (v_dev s)). destruct (p_inb (COM1 + 5) (uart_setup (v_dev s))) as [st d]. cbn [fst].
  destruct (st =? 0xFF); [by apply wp_ret|]. apply wp_bind, wp_modify.
  do 2 (apply wp_bind; eapply wp_mono; [apply inb_keeps|]; intros _ ?s (?E & ?E & ?E)).
  cbn [crt uart panicked v_dev] in *.
  apply wp_bind. apply (wp_mono _ (λ _ s', crt s' = crt s ∧ uart s' = true ∧ panicked s' = panicked s)).
  { change (crt s1 = crt s ∧ uart s1 = true ∧ panicked s1 = panicked s). split_and!; congruence. }
  intros [] s2 (H1 & H2 & H3). eapply wp_mono; [apply uartputs_keeps|]. intros [] s3 (F1 & F2 & F3). split_and!; congruence.
Qed.
End detection.
