(* ===== verification/Gates.v ===== *)
(** * mmu.h, vm.c and trap.c: segments, gates and the way into the kernel

    [seginit], [tvinit], [idtinit] and the part of [switchuvm] that sets up
    the task state fill the tables through which the processor enters the
    kernel.  The descriptors are structs of bit fields, packed here into the
    64 bits that the processor reads; [interrupt], [ltr] and [io_denied] are
    what the processor does with them.  From user mode only the gate of the
    system calls can be called, every entry switches to the kernel stack of
    the process, and the ports are out of reach. *)

From S2P Require Import Prelude Layout Proc Trap.

(** ** mmu.h *)

Definition SEG_KCODE : Z := 1.
Definition SEG_KDATA : Z := 2.
Definition SEG_TSS : Z := 5.
Definition NSEGS : nat := 6.
Definition STA_X : Z := 0x8.
Definition STA_W : Z := 0x2.
Definition STA_R : Z := 0x2.
Definition STS_T32A : Z := 0x9.
Definition STS_IG32 : Z := 0xE.
Definition STS_TG32 : Z := 0xF.

(** Bit fields are laid out from the low end, each cut to its width. *)
Fixpoint pack (l : list (Z * Z)) : Z :=
  match l with
  | [] => 0
  | (k, v) :: l' => v mod 2 ^ k + 2 ^ k * pack l'
  end.

Record segdesc := Segdesc {
  lim_15_0 : Z; base_15_0 : Z; base_23_16 : Z; sd_type : Z; sd_s : Z; sd_dpl : Z; sd_p : Z;
  lim_19_16 : Z; sd_avl : Z; sd_rsv1 : Z; sd_db : Z; sd_g : Z; base_31_24 : Z }.

Definition segdesc_bits (d : segdesc) : Z := pack
  [(16, lim_15_0 d); (16, base_15_0 d); (8, base_23_16 d); (4, sd_type d); (1, sd_s d); (2, sd_dpl d);
   (1, sd_p d); (4, lim_19_16 d); (1, sd_avl d); (1, sd_rsv1 d); (1, sd_db d); (1, sd_g d); (8, base_31_24 d)].

Definition SEG (type base lim dpl : Z) : segdesc :=
  Segdesc (Z.land (Z.shiftr lim 12) 0xffff) (Z.land (u32 base) 0xffff) (Z.land (Z.shiftr (u32 base) 16) 0xff)
    type 1 dpl 1 (Z.shiftr (u32 lim) 28) 0 0 1 1 (Z.shiftr (u32 base) 24).
Definition SEG16 (type base lim dpl : Z) : segdesc :=
  Segdesc (Z.land lim 0xffff) (Z.land (u32 base) 0xffff) (Z.land (Z.shiftr (u32 base) 16) 0xff)
    type 1 dpl 1 (Z.shiftr (u32 lim) 16) 0 0 1 0 (Z.shiftr (u32 base) 24).

(** The fields of the task state that the kernel sets. *)
Record taskstate := Taskstate { ts_esp0 : Z; ts_ss0 : Z; ts_iomb : Z }.
Definition TASKSTATE_SIZE : Z := 104.

Record gatedesc := Gatedesc {
  off_15_0 : Z; gd_cs : Z; gd_args : Z; gd_rsv1 : Z; gd_type : Z; gd_s : Z; gd_dpl : Z; gd_p : Z;
  off_31_16 : Z }.

Definition gatedesc_bits (g : gatedesc) : Z := pack
  [(16, off_15_0 g); (16, gd_cs g); (5, gd_args g); (3, gd_rsv1 g); (4, gd_type g); (1, gd_s g);
   (2, gd_dpl g); (1, gd_p g); (16, off_31_16 g)].

Definition SETGATE (istrap : bool) (sel off d : Z) : gatedesc :=
  Gatedesc (Z.land (u32 off) 0xffff) sel 0 0 (if istrap then STS_TG32 else STS_IG32) 0 d 1
    (Z.shiftr (u32 off) 16).

(** ** The processor *)

(** The table of segments and the registers: the limits of the two tables,
    and base and limit of the task state. *)
Record segs := Segs {
  gdt : list segdesc; gdtr : Z; idtr : Z; tr : option (Z * Z); ts : taskstate }.

Definition slice (a k w : Z) : Z := Z.land (Z.shiftr w a) (Z.ones k).

Definition seg_base (w : Z) : Z := slice 16 16 w + 2 ^ 16 * slice 32 8 w + 2 ^ 24 * slice 56 8 w.
Definition seg_limit (w : Z) : Z :=
  let l := slice 0 16 w + 2 ^ 16 * slice 48 4 w in
  if slice 55 1 w =? 1 then 4096 * l + 4095 else l.

(** The descriptor that a selector picks, within the limit of the table. *)
Definition select (c : segs) (sel : Z) : option Z :=
  if 8 * (sel / 8) + 7 <=? gdtr c then segdesc_bits <$> gdt c !! Z.to_nat (sel / 8) else None.

(** Load the task register; [None] is a fault.  The descriptor becomes
    busy. *)
Definition ltr (sel : Z) (c : segs) : option segs :=
  w ← select c sel;
  if (slice 47 1 w =? 1) && (slice 44 1 w =? 0) && (slice 40 4 w =? STS_T32A) then
    Some (Segs (alter (λ d, Segdesc (lim_15_0 d) (base_15_0 d) (base_23_16 d) (Z.lor (sd_type d) 2) (sd_s d)
                 (sd_dpl d) (sd_p d) (lim_19_16 d) (sd_avl d) (sd_rsv1 d) (sd_db d) (sd_g d) (base_31_24 d))
               (Z.to_nat (sel / 8)) (gdt c))
            (gdtr c) (idtr c) (Some (seg_base w, seg_limit w)) (ts c))
  else None.

(** Where execution goes on after an interrupt: address, privilege level,
    the new stack if there is a change of level, and the interrupt flag. *)
Inductive entry := Fault | Enter (eip cpl : Z) (stack : option (Z * Z)) (fl_if : bool).

(** Vector [n] is raised at level [cpl], [soft] when by the instruction
    [int n]; the task state stands at [ts_at]. *)
Definition interrupt (ts_at : Z) (idt : list gatedesc) (c : segs) (soft : bool) (n cpl : Z) (fl_if : bool) : entry :=
  match idt !! Z.to_nat n with
  | Some g =>
    let w := gatedesc_bits g in
    let t := slice 40 4 w in
    let off := slice 0 16 w + 2 ^ 16 * slice 48 16 w in
    if negb (8 * n + 7 <=? idtr c) || negb (slice 44 1 w =? 0) || negb ((t =? STS_IG32) || (t =? STS_TG32))
       || (soft && (slice 45 2 w <? cpl)) || negb (slice 47 1 w =? 1) then Fault
    else
      match select c (slice 16 16 w) with
      | None => Fault
      | Some s =>
        let new := slice 45 2 s in
        if negb (slice 44 1 s =? 1) || negb (slice 42 2 s =? 2) || negb (slice 47 1 s =? 1)
           || (cpl <? new) || (seg_limit s <? off) then Fault
        else
          let eip := u32 (seg_base s + off) in
          let fl_if := fl_if && (t =? STS_TG32) in
          if new =? cpl then Enter eip new None fl_if
          else
            match tr c with
            | Some (base, lim) =>
              if (new =? 0) && (base =? ts_at) && (9 <=? lim)
              then Enter eip new (Some (ts_ss0 (ts c), ts_esp0 (ts c))) fl_if
              else Fault
            | None => Fault
            end
      end
  | None => Fault
  end.

(** The instructions for a port fault: the level is above [iopl], and the
    byte of the permission map for the port or the one behind it is beyond
    the limit. *)
Definition io_denied (c : segs) (cpl iopl port : Z) : bool :=
  (iopl <? cpl) &&
  match tr c with Some (_, lim) => lim <? ts_iomb (ts c) + port / 8 + 1 | None => true end.

(** ** vm.c and trap.c *)

Definition lgdt (size : Z) (c : segs) : segs := Segs (gdt c) (size - 1) (idtr c) (tr c) (ts c).
Definition lidt (size : Z) (c : segs) : segs := Segs (gdt c) (gdtr c) (size - 1) (tr c) (ts c).
Definition set_gdt (i : Z) (d : segdesc) (c : segs) : segs :=
  Segs (<[Z.to_nat i := d]> (gdt c)) (gdtr c) (idtr c) (tr c) (ts c).

Definition seginit (c : segs) : segs :=
  let c := set_gdt SEG_KCODE (SEG (Z.lor STA_X STA_R) 0 0xffffffff 0) c in
  let c := set_gdt SEG_KDATA (SEG STA_W 0 0xffffffff 0) c in
  let c := set_gdt SEG_UCODE (SEG (Z.lor STA_X STA_R) 0 0xffffffff DPL_USER) c in
  let c := set_gdt SEG_UDATA (SEG STA_W 0 0xffffffff DPL_USER) c in
  lgdt (8 * Z.of_nat NSEGS) c.

(** [tvinit] without the lock of [ticks], which Spinlock.v has. *)
Fixpoint tvinit_loop (vectors : Z → Z) (n : nat) (i : Z) (idt : list gatedesc) : list gatedesc :=
  match n with
  | O => idt
  | S n' => tvinit_loop vectors n' (i + 1) (<[Z.to_nat i := SETGATE false (Z.shiftl SEG_KCODE 3) (vectors i) 0]> idt)
  end.
Definition tvinit (vectors : Z → Z) (idt : list gatedesc) : list gatedesc :=
  <[Z.to_nat T_SYSCALL := SETGATE true (Z.shiftl SEG_KCODE 3) (vectors T_SYSCALL) DPL_USER]>
    (tvinit_loop vectors 256 0 idt).

Definition idtinit (c : segs) : segs := lidt (8 * 256) c.

(** The task state in [switchuvm]. *)
Definition switch_ts (ts_at kstack : Z) (c : segs) : option segs :=
  let d := SEG16 STS_T32A ts_at (TASKSTATE_SIZE - 1) 0 in
  let d := Segdesc (lim_15_0 d) (base_15_0 d) (base_23_16 d) (sd_type d) 0 (sd_dpl d) (sd_p d) (lim_19_16 d)
             (sd_avl d) (sd_rsv1 d) (sd_db d) (sd_g d) (base_31_24 d) in
  let c := set_gdt SEG_TSS d c in
  let c := Segs (gdt c) (gdtr c) (idtr c) (tr c)
             (Taskstate (u32 (kstack + KSTACKSIZE)) (Z.shiftl SEG_KDATA 3) 0xFFFF) in
  ltr (Z.shiftl SEG_TSS 3) c.

(** ** Fields *)

(** The field that starts at bit [a]. *)
Fixpoint field (a : Z) (l : list (Z * Z)) : option (Z * Z) :=
  match l with
  | [] => None
  | (k, v) :: l' =>
    if a =? 0 then (if 0 <=? k then Some (k, v) else None)
    else if (0 <=? k) && (k <=? a) then field (a - k) l' else None
  end.

Lemma slice_field l : ∀ a k v, field a l = Some (k, v) → slice a k (pack l) = v mod 2 ^ k.
Proof.
  induction l as [|[k' v'] l IH]; intros a k v E; [done|]. cbn [field pack] in *. unfold slice.
  destruct (Z.eqb_spec a 0) as [->|Ha].
  - destruct (Z.leb_spec 0 k'); [|done]. injection E as -> ->. rewrite Z.shiftr_0_r, Z.land_ones by done.
    by rewrite (Z.mul_comm (2 ^ k)), Z.mod_add, Z.mod_mod by (apply Z.pow_nonzero; lia).
  - destruct (Z.leb_spec 0 k'); [|done]. destruct (Z.leb_spec k' a); [|done]. cbn [andb] in E.
    rewrite <-(IH _ _ _ E). unfold slice. f_equal. rewrite !Z.shiftr_div_pow2 by lia.
    replace (2 ^ a) with (2 ^ k' * 2 ^ (a - k')) by (rewrite <-Z.pow_add_r by lia; f_equal; lia).
    assert (0 < 2 ^ k') by (apply Z.pow_pos_nonneg; lia).
    rewrite <-Z.div_div by (try apply Z.pow_pos_nonneg; lia). f_equal.
    rewrite (Z.mul_comm (2 ^ k')), Z.div_add by lia.
    rewrite Z.div_small by (apply Z.mod_pos_bound; lia). lia.
Qed.

(** Rewrites the slices that are fields. *)
Ltac fields :=
  repeat match goal with
  | |- context [slice ?a ?k (pack ?l)] =>
    erewrite (slice_field l a k) by reflexivity
  end.

(** Low, middle and high bits make up the number again. *)
Lemma join16 x : is_u32 x → Z.land (u32 x) 0xffff mod 2 ^ 16 + 2 ^ 16 * (Z.shiftr (u32 x) 16 mod 2 ^ 16) = x.
Proof.
  intros Hx. unfold is_u32, u32 in *. rewrite (Z.mod_small x) by lia. change 0xffff with (Z.ones 16).
  rewrite Z.land_ones, Z.shiftr_div_pow2, Z.mod_mod by lia. dlia.
Qed.

Lemma join8 x : is_u32 x →
  Z.land (u32 x) 0xffff mod 2 ^ 16 + 2 ^ 16 * (Z.land (Z.shiftr (u32 x) 16) 0xff mod 2 ^ 8) +
    2 ^ 24 * (Z.shiftr (u32 x) 24 mod 2 ^ 8) = x.
Proof.
  intros Hx. unfold is_u32, u32 in *. rewrite (Z.mod_small x) by lia. change 0xffff with (Z.ones 16).
  change 0xff with (Z.ones 8). rewrite !Z.land_ones, !Z.shiftr_div_pow2, !Z.mod_mod by lia. dlia.
Qed.

(** ** The tables *)

Lemma tvinit_loop_lookup vectors n : ∀ i idt k,
  0 <= i → (k < length idt)%nat →
  tvinit_loop vectors n i idt !! k =
    if decide (i <= Z.of_nat k < i + Z.of_nat n)
    then Some (SETGATE false (Z.shiftl SEG_KCODE 3) (vectors (Z.of_nat k)) 0) else idt !! k.
Proof.
  induction n as [|n IH]; intros i idt k Hi Hk; cbn [tvinit_loop].
  { rewrite decide_False by lia. done. }
  rewrite IH by (rewrite ?length_insert; lia). destruct (decide (Z.of_nat k = i)) as [E|E].
  - rewrite decide_False, decide_True by lia. replace (Z.to_nat i) with k by lia.
    rewrite list_lookup_insert_eq by done. by rewrite E.
  - rewrite list_lookup_insert_ne by lia. destruct (decide (i + 1 <= Z.of_nat k < i + 1 + Z.of_nat n)).
    + by rewrite decide_True by lia.
    + by rewrite decide_False by lia.
Qed.

Lemma tvinit_loop_length vectors n : ∀ i idt, length (tvinit_loop vectors n i idt) = length idt.
Proof. induction n as [|n IH]; intros i idt; cbn; [done|]. by rewrite IH, length_insert. Qed.

(** The gate of a vector: its handler, and for system calls a trap gate
    that users may call. *)
Lemma tvinit_lookup vectors idt n :
  length idt = 256%nat → 0 <= n < 256 →
  tvinit vectors idt !! Z.to_nat n =
    Some (SETGATE (n =? T_SYSCALL) (Z.shiftl SEG_KCODE 3) (vectors n) (if n =? T_SYSCALL then DPL_USER else 0)).
Proof.
  intros Hl Hn. unfold tvinit. destruct (Z.eqb_spec n T_SYSCALL) as [->|Hne].
  - rewrite list_lookup_insert_eq; [done|]. rewrite tvinit_loop_length, Hl. unfold T_SYSCALL. lia.
  - rewrite list_lookup_insert_ne by (unfold T_SYSCALL in *; lia).
    rewrite tvinit_loop_lookup, decide_True by lia. by rewrite Z2Nat.id by lia.
Qed.

(** What the kernel keeps true of a processor: the segments of the kernel
    and the users, and room for the task state. *)
Record segs_ok (c : segs) : Prop := {
  so_kcode : gdt c !! 1%nat = Some (SEG (Z.lor STA_X STA_R) 0 0xffffffff 0);
  so_len : length (gdt c) = NSEGS;
  so_gdtr : gdtr c = 8 * Z.of_nat NSEGS - 1 }.

Lemma seginit_ok c : length (gdt c) = NSEGS → segs_ok (seginit c).
Proof.
  intros Hl. destruct (gdt c) as [|d0 [|d1 [|d2 [|d3 [|d4 [|d5 [|]]]]]]] eqn:E; try done.
  unfold seginit, lgdt, set_gdt. cbn [gdt gdtr]. rewrite E. split; reflexivity.
Qed.

(** [ltr] never faults: [switchuvm] makes the descriptor available again. *)
Lemma switch_ts_ok ts_at kstack c :
  is_u32 ts_at → segs_ok c →
  ∃ c', switch_ts ts_at kstack c = Some c' ∧ segs_ok c' ∧ idtr c' = idtr c ∧
    tr c' = Some (ts_at, 103) ∧ ts c' = Taskstate (u32 (kstack + KSTACKSIZE)) 16 0xFFFF.
Proof.
  intros Hts [Hk Hl Hg]. unfold switch_ts, ltr, select, set_gdt. cbn [gdt gdtr idtr tr ts].
  change (Z.shiftl SEG_TSS 3) with 40. rewrite Hg. change (8 * (40 / 8) + 7 <=? _) with true.
  change (Z.to_nat (40 / 8)) with 5%nat. change (Z.to_nat SEG_TSS) with 5%nat.
  rewrite list_lookup_insert_eq by (rewrite Hl; unfold NSEGS; lia). cbn [fmap option_fmap option_map mbind option_bind].
  unfold segdesc_bits, SEG16. cbn [lim_15_0 base_15_0 base_23_16 sd_type sd_s sd_dpl sd_p lim_19_16 sd_avl sd_rsv1 sd_db sd_g base_31_24].
  unfold seg_base, seg_limit. fields. rewrite join8 by done.
  eexists. split; [reflexivity|]. split; [|done]. split; cbn [gdt gdtr].
  - rewrite list_lookup_alter_ne by done. by rewrite list_lookup_insert_ne.
  - by rewrite length_alter, length_insert.
  - done.
Qed.

Lemma interrupt_enters ts_at vectors idt c soft n cpl fl_if :
  segs_ok c → idtr c = 2047 → tr c = Some (ts_at, 103) → length idt = 256%nat →
  0 <= n < 256 → is_u32 (vectors n) → cpl = 0 ∨ cpl = DPL_USER →
  interrupt ts_at (tvinit vectors idt) c soft n cpl fl_if =
    if soft && (cpl =? DPL_USER) && negb (n =? T_SYSCALL) then Fault
    else Enter (vectors n) 0 (if cpl =? 0 then None else Some (ts_ss0 (ts c), ts_esp0 (ts c)))
           (fl_if && (n =? T_SYSCALL)).
Proof.
  intros [Hk Hl Hg] Hi Htr Hlen Hn Hv Hcpl. unfold interrupt. rewrite tvinit_lookup by done.
  rewrite Hi, (proj2 (Z.leb_le _ _)) by lia.
  unfold gatedesc_bits, SETGATE. cbn [off_15_0 gd_cs gd_args gd_rsv1 gd_type gd_s gd_dpl gd_p off_31_16].
  fields. rewrite join16 by done.
  assert (Es : select c (Z.shiftl SEG_KCODE 3 mod 2 ^ 16) = Some (segdesc_bits (SEG (Z.lor STA_X STA_R) 0 0xffffffff 0))).
  { unfold select. rewrite Hg. change (Z.shiftl SEG_KCODE 3 mod 2 ^ 16) with 8.
    change (8 * (8 / 8) + 7 <=? _) with true. change (Z.to_nat (8 / 8)) with 1%nat. by rewrite Hk. }
  rewrite Es, Htr. set (w := segdesc_bits _).
  change (slice 45 2 w) with 0. change (slice 44 1 w) with 1. change (slice 42 2 w) with 2.
  change (slice 47 1 w) with 1. change (seg_limit w) with 0xffffffff. change (seg_base w) with 0.
  unfold is_u32 in Hv. rewrite (proj2 (Z.ltb_ge 0xffffffff (vectors n))) by lia.
  unfold u32. rewrite Z.add_0_l, (Z.mod_small (vectors n)) by lia.
  assert (Ed : (if n =? T_SYSCALL then DPL_USER else 0) mod 2 ^ 2 = if n =? T_SYSCALL then DPL_USER else 0)
    by (by destruct (n =? T_SYSCALL)).
  assert (Et : (if n =? T_SYSCALL then STS_TG32 else STS_IG32) mod 2 ^ 4 = if n =? T_SYSCALL then STS_TG32 else STS_IG32)
    by (by destruct (n =? T_SYSCALL)).
  rewrite Ed, Et. rewrite (Z.eqb_refl ts_at).
  destruct Hcpl as [->| ->], soft, (n =? T_SYSCALL), fl_if; reflexivity.
Qed.

(** A processor set up by [seginit] and [idtinit] that has run through
    [switchuvm] for the processes with the given kernel stacks. *)
Fixpoint switches (ts_at : Z) (stacks : list Z) (c : segs) : option segs :=
  match stacks with
  | [] => Some c
  | k :: stacks' => c ← switch_ts ts_at k c; switches ts_at stacks' c
  end.

Lemma switches_ok ts_at stacks : ∀ c,
  is_u32 ts_at → segs_ok c →
  ∃ c', switches ts_at stacks c = Some c' ∧ segs_ok c' ∧ idtr c' = idtr c.
Proof.
  induction stacks as [|k stacks IH]; intros c Ht Hc; cbn [switches]; [by exists c|].
  destruct (switch_ts_ok ts_at k c Ht Hc) as (c1 & -> & Hc1 & Hi & _). cbn [mbind option_bind].
  destruct (IH c1 Ht Hc1) as (c2 & -> & Hc2 & Hi2). exists c2. by rewrite Hi2.
Qed.

Lemma switches_app ts_at l1 l2 : ∀ c,
  switches ts_at (l1 ++ l2) c = switches ts_at l1 c ≫= switches ts_at l2.
Proof. induction l1 as [|k l1 IH]; intros c; cbn; [done|]. destruct (switch_ts ts_at k c); cbn; [apply IH|done]. Qed.

(** C15: The way from user mode into the kernel is guarded.  After [seginit],
    [tvinit], [idtinit] and any number of switches between processes, none
    of which faults in [ltr], for a user process with the kernel stack
    [kstack]: a device interrupt or an exception with vector [n] enters at
    [vectors n] in kernel mode, on the top of that stack; its interrupts are
    off unless it is the one of system calls.  The instruction [int n]
    enters the same way for [T_SYSCALL] and faults for every other vector.
    The instructions for ports fault.  In kernel mode an interrupt stays on
    the stack in use. *)
Theorem user_entry_guarded ts_at vectors idt c stacks kstack :
  is_u32 ts_at → length idt = 256%nat → length (gdt c) = NSEGS →
  (∀ n, 0 <= n < 256 → is_u32 (vectors n)) →
  ∃ c', switches ts_at (stacks ++ [kstack]) (idtinit (seginit c)) = Some c' ∧
    let top := Some (Z.shiftl SEG_KDATA 3, u32 (kstack + KSTACKSIZE)) in
    (∀ n fl_if, 0 <= n < 256 →
      interrupt ts_at (tvinit vectors idt) c' false n DPL_USER fl_if =
        Enter (vectors n) 0 top (fl_if && (n =? T_SYSCALL)) ∧
      interrupt ts_at (tvinit vectors idt) c' true n DPL_USER fl_if =
        (if n =? T_SYSCALL then Enter (vectors n) 0 top fl_if else Fault) ∧
      interrupt ts_at (tvinit vectors idt) c' false n 0 fl_if =
        Enter (vectors n) 0 None (fl_if && (n =? T_SYSCALL))) ∧
    (∀ port, 0 <= port → io_denied c' DPL_USER 0 port = true).
Proof.
  intros Ht Hi Hg Hv. pose proof (seginit_ok c Hg) as Hc0.
  assert (Hc : segs_ok (idtinit (seginit c))) by (destruct Hc0; by split).
  destruct (switches_ok ts_at stacks _ Ht Hc) as (c1 & E1 & Hc1 & Hi1).
  destruct (switch_ts_ok ts_at kstack c1 Ht Hc1) as (c2 & E2 & Hc2 & Hi2 & Htr & Hts).
  exists c2. rewrite switches_app, E1. cbn [mbind option_bind switches]. rewrite E2. split; [done|].
  assert (idtr c2 = 2047) by (rewrite Hi2, Hi1; done). split.
  - intros n fl_if Hn. rewrite !interrupt_enters by (auto || by left || by right). rewrite Hts. cbn [ts_ss0 ts_esp0].
    split_and!; [done| |done]. destruct (n =? T_SYSCALL); [|done]. cbn. by rewrite andb_true_r.
  - intros port Hp. unfold io_denied. rewrite Htr, Hts. cbn [ts_iomb]. change (0 <? DPL_USER) with true. cbn [andb].
    apply Z.ltb_lt. pose proof (Z.div_pos port 8 Hp ltac:(lia)). lia.
Qed.

(** After two switches, the instructions [int 64] and [int 14]. *)
Lemma user_entry_guarded_witness :
  let no_seg := Segdesc 0 0 0 0 0 0 0 0 0 0 0 0 0 in
  let idt := replicate 256 (Gatedesc 0 0 0 0 0 0 0 0 0) in
  let vectors n := 0x80105000 + 16 * n in
  ∃ c', switches 0x80112000 [0x8dfff000; 0x8df72000]
      (idtinit (seginit (Segs (replicate 6 no_seg) 0 0 None (Taskstate 0 0 0)))) = Some c' ∧
    interrupt 0x80112000 (tvinit vectors idt) c' true 64 DPL_USER true =
      Enter 0x80105400 0 (Some (16, 0x8df73000)) true ∧
    interrupt 0x80112000 (tvinit vectors idt) c' true 14 DPL_USER true = Fault ∧
    interrupt 0x80112000 (tvinit vectors idt) c' false 14 DPL_USER true =
      Enter 0x801050e0 0 (Some (16, 0x8df73000)) false.
Proof.
  cbv zeta.
  destruct (user_entry_guarded 0x80112000 (λ n, 0x80105000 + 16 * n) (replicate 256 (Gatedesc 0 0 0 0 0 0 0 0 0))
    (Segs (replicate 6 (Segdesc 0 0 0 0 0 0 0 0 0 0 0 0 0)) 0 0 None (Taskstate 0 0 0)) [0x8dfff000] 0x8df72000)
    as (c' & E & H & _); [unfold is_u32; lia|reflexivity|reflexivity|intros n Hn; unfold is_u32; lia|].
  exists c'. split; [exact E|]. split; [|split].
  - exact (proj1 (proj2 (H 64 true ltac:(lia)))).
  - exact (proj1 (proj2 (H 14 true ltac:(lia)))).
  - exact (proj1 (H 14 true ltac:(lia))).
Defined.
