(* ===== verification/Sh.v ===== *)
(** * sh.c: the command parser of the shell

    The parser reads a line in a buffer of nonzero bytes; a pointer into it
    is an index, and reading at the end gives the terminating zero.  The
    tree holds the strings as the source does, by their start and end.
    [panic] ends the parsing process.  Allocation of the nodes is assumed to
    succeed, as the source does. *)

From S2P Require Import Prelude Layout Sysfile.

Definition MAXARGS : nat := 10.

(** A string: where it starts and where it ends. *)
Definition word : Type := nat * nat.

(** A command, with strings of type [W]. *)
Inductive tree (W : Type) :=
  | EXEC (argv : list W)
  | REDIR (c : tree W) (file : W) (mode fd : Z)
  | PIPE (left right : tree W)
  | LIST (left right : tree W)
  | BACK (c : tree W).
Arguments EXEC {W}.
Arguments REDIR {W}.
Arguments PIPE {W}.
Arguments LIST {W}.
Arguments BACK {W}.

Definition cmd : Type := tree word.

(** The outcome of a parsing routine: a value and the new position, a
    syntax error, or no fuel. *)
Inductive parsed (A : Type) := Parsed (a : A) (i : nat) | Syntax (msg : string) | NoFuel.
Arguments Parsed {A}.
Arguments Syntax {A}.
Arguments NoFuel {A}.

Definition parser (A : Type) : Type := nat → parsed A.

#[global] Instance parser_ret : MRet parser := λ A a i, Parsed a i.
#[global] Instance parser_bind : MBind parser := λ A B k m i,
  match m i with
  | Parsed a i' => k a i'
  | Syntax msg => Syntax msg
  | NoFuel => NoFuel
  end.

Definition syntax {A} (msg : string) : parser A := λ _, Syntax msg.
Definition nofuel {A} : parser A := λ _, NoFuel.

(** The arrays [whitespace] (space, tab, return, newline, vertical tab) and
    [symbols] (less, bar, greater, ampersand, semicolon, parentheses). *)
Definition whitespace : list Z := [32; 9; 13; 10; 11].
Definition symbols : list Z := [60; 124; 62; 38; 59; 40; 41].

Definition LESS : Z := 60.
Definition GREATER : Z := 62.
Definition APPEND : Z := 43.
Definition BAR : Z := 124.
Definition AMP : Z := 38.
Definition SEMI : Z := 59.
Definition LPAREN : Z := 40.
Definition RPAREN : Z := 41.
Definition WORD : Z := 97.

(** [strchr(l, c)] finds [c]. *)
Definition among (l : list Z) (c : Z) : bool := bool_decide (c ∈ l).

Section sh.
Variable buf : list Z.

Definition es : nat := length buf.
Definition char_at (i : nat) : Z := default 0 (buf !! i).

(** [while(s < es && p( *s)) s++], with [n] characters left. *)
Fixpoint skip_loop (p : Z → bool) (n i : nat) : nat :=
  match n with
  | O => i
  | S n' => if p (char_at i) then skip_loop p n' (S i) else i
  end.
Definition skip (p : Z → bool) (i : nat) : nat := skip_loop p (es - i) i.

(** [gettoken]: the kind of the token and its string. *)
Definition gettoken : parser (Z * word) := λ i,
  let s := skip (among whitespace) i in
  let q := s in
  let c := char_at s in
  let '(ret, s) :=
    if c =? 0 then (c, s)
    else if among [BAR; LPAREN; RPAREN; SEMI; AMP; LESS] c then (c, S s)
    else if c =? GREATER then
      if char_at (S s) =? GREATER then (APPEND, S (S s)) else (c, S s)
    else (WORD, skip (λ c, negb (among whitespace c) && negb (among symbols c)) s) in
  Parsed (ret, (q, s)) (skip (among whitespace) s).

Definition peek (toks : list Z) : parser bool := λ i,
  let s := skip (among whitespace) i in
  let c := char_at s in
  Parsed (negb (c =? 0) && among toks c) s.

(** A redirection that [parseredirs] puts around a command. *)
Record redir := Redirection { r_file : word; r_mode : Z; r_fd : Z }.
Definition redircmd (c : cmd) (r : redir) : cmd := REDIR c (r_file r) (r_mode r) (r_fd r).

(** The redirections that [parseredirs] reads, after those in [rs]. *)
Fixpoint parseredirs (fuel : nat) (rs : list redir) : parser (list redir) :=
  match fuel with
  | O => nofuel
  | S fuel' =>
    b ← peek [LESS; GREATER];
    if negb b then mret rs
    else
      '(tok, _) ← gettoken;
      '(kind, w) ← gettoken;
      if negb (kind =? WORD) then syntax "missing file for redirection"
      else if tok =? LESS then parseredirs fuel' (rs ++ [Redirection w O_RDONLY 0])
      else if tok =? GREATER then parseredirs fuel' (rs ++ [Redirection w (Z.lor O_WRONLY O_CREATE) 1])
      else if tok =? APPEND then parseredirs fuel' (rs ++ [Redirection w (Z.lor O_WRONLY O_CREATE) 1])
      else parseredirs fuel' rs
  end.

(** The loop of [parseexec]; the nodes of the redirections are put around
    the node that the arguments are still added to. *)
Fixpoint parse_args (fuel : nat) (argv : list word) (rs : list redir) : parser cmd :=
  match fuel with
  | O => nofuel
  | S fuel' =>
    b ← peek [BAR; RPAREN; AMP; SEMI];
    if b : bool then mret (foldl redircmd (EXEC argv) rs)
    else
      '(tok, w) ← gettoken;
      if tok =? 0 then mret (foldl redircmd (EXEC argv) rs)
      else if negb (tok =? WORD) then syntax "syntax"
      else
        let argv := argv ++ [w] in
        if (MAXARGS <=? length argv)%nat then syntax "too many args"
        else rs ← parseredirs (1 + es) rs; parse_args fuel' argv rs
  end.

(** The loop of [parseline] over ampersands. *)
Fixpoint parse_backs (fuel : nat) (c : cmd) : parser cmd :=
  match fuel with
  | O => nofuel
  | S fuel' =>
    b ← peek [AMP];
    if b : bool then gettoken;; parse_backs fuel' (BACK c) else mret c
  end.

Fixpoint parseline (fuel : nat) : parser cmd :=
  match fuel with
  | O => nofuel
  | S fuel' =>
    c ← parsepipe fuel';
    c ← parse_backs (1 + es) c;
    b ← peek [SEMI];
    if b : bool then gettoken;; r ← parseline fuel'; mret (LIST c r) else mret c
  end
with parsepipe (fuel : nat) : parser cmd :=
  match fuel with
  | O => nofuel
  | S fuel' =>
    c ← parseexec fuel';
    b ← peek [BAR];
    if b : bool then gettoken;; r ← parsepipe fuel'; mret (PIPE c r) else mret c
  end
with parseexec (fuel : nat) : parser cmd :=
  match fuel with
  | O => nofuel
  | S fuel' =>
    b ← peek [LPAREN];
    if b : bool then parseblock fuel'
    else rs ← parseredirs (1 + es) []; parse_args (1 + MAXARGS) [] rs
  end
with parseblock (fuel : nat) : parser cmd :=
  match fuel with
  | O => nofuel
  | S fuel' =>
    b ← peek [LPAREN];
    if negb b then syntax "parseblock"
    else
      gettoken;;
      c ← parseline fuel';
      b ← peek [RPAREN];
      if negb b then syntax "syntax - missing )"
      else gettoken;; rs ← parseredirs (1 + es) []; mret (foldl redircmd c rs)
  end.

(** The positions where [nulterminate] stores zeros. *)
Fixpoint nul_positions (c : cmd) : list nat :=
  match c with
  | EXEC argv => snd <$> argv
  | REDIR c w _ _ => nul_positions c ++ [w.2]
  | PIPE l r | LIST l r => nul_positions l ++ nul_positions r
  | BACK c => nul_positions c
  end.

(** [nulterminate], on the buffer with its terminating zero. *)
Definition nulterminate (c : cmd) : list Z :=
  foldl (λ l j, <[j := 0]> l) (buf ++ [0]) (nul_positions c).

Definition leftovers (c : cmd) : parser (cmd * list Z) := λ i,
  if negb (i =? es)%nat then Syntax "syntax" else Parsed (c, nulterminate c) i.

(** [parsecmd] on the line in [buf]: the tree, and the buffer with its
    strings terminated. *)
Definition parsecmd : parsed (cmd * list Z) :=
  (c ← parseline (4 * es + 4); _ ← peek []; leftovers c) 0%nat.
End sh.
