(* ===== verification/ShSpec.v ===== *)
(** * The parser of the shell always answers, and its strings are right

    Every routine is shown to end, with a syntax error or with a tree whose
    strings are words of the line; every loop and every recursive call
    consumes a character.  [nulterminate] then cuts the strings out of the
    line without damaging one another. *)

From S2P Require Import Prelude Layout Sh.

(** A character of a word. *)
Definition plain (c : Z) : bool := negb (among whitespace c) && negb (among symbols c).

(** A word of the line: not empty, made of plain characters and as long as
    they go. *)
Definition word_ok (buf : list Z) (w : word) : Prop :=
  (w.1 < w.2 ≤ es buf)%nat ∧
  (∀ j, (w.1 ≤ j < w.2)%nat → plain (char_at buf j) = true) ∧
  (w.2 = es buf ∨ plain (char_at buf w.2) = false).

(** Every string of a tree is a word of the line, every array of arguments
    has room for its terminating null pointer, and redirections are of the
    standard input or output. *)
Fixpoint cmd_ok (buf : list Z) (c : cmd) : Prop :=
  match c with
  | EXEC argv => Forall (word_ok buf) argv ∧ (length argv < MAXARGS)%nat
  | REDIR c w _ fd => cmd_ok buf c ∧ word_ok buf w ∧ (fd = 0 ∨ fd = 1)
  | PIPE l r | LIST l r => cmd_ok buf l ∧ cmd_ok buf r
  | BACK c => cmd_ok buf c
  end.

(** The strings of a tree. *)
Fixpoint cmd_words (c : cmd) : list word :=
  match c with
  | EXEC argv => argv
  | REDIR c w _ _ => cmd_words c ++ [w]
  | PIPE l r | LIST l r => cmd_words l ++ cmd_words r
  | BACK c => cmd_words c
  end.

(** The string that starts at [w.1] in the buffer [b] is the word of the
    line, terminated. *)
Definition reads_word (buf b : list Z) (w : word) : Prop :=
  (∀ j, (w.1 ≤ j < w.2)%nat → b !! j = buf !! j) ∧ b !! w.2 = Some 0.

(** A routine answers: it does not run out of fuel, and its result
    satisfies [Q]. *)
Definition answers {A} (Q : A → nat → Prop) (r : parsed A) : Prop :=
  match r with
  | Parsed a i => Q a i
  | Syntax _ => True
  | NoFuel => False
  end.

Lemma answers_bind {A B} (Q : A → nat → Prop) (R : B → nat → Prop) (m : parser A) (k : A → parser B) i :
  answers Q (m i) → (∀ a j, Q a j → answers R (k a j)) → answers R ((m ≫= k) i).
Proof. unfold mbind, parser_bind. destruct (m i); naive_solver. Qed.

Lemma answers_mono {A} (Q R : A → nat → Prop) r :
  answers Q r → (∀ a i, Q a i → R a i) → answers R r.
Proof. destruct r; naive_solver. Qed.

Section spec.
Context (buf : list Z) (Hbuf : Forall (λ c, c ≠ 0) buf).
Notation es := (es buf).
Notation char_at := (char_at buf).

Lemma char_nonzero i : (i < es)%nat → char_at i ≠ 0.
Proof.
  intros Hi. unfold Sh.char_at. destruct (lookup_lt_is_Some_2 buf i Hi) as [c Hc].
  rewrite Hc. exact (Forall_lookup_1 _ _ _ _ Hbuf Hc).
Qed.

Lemma char_end i : char_at i ≠ 0 → (i < es)%nat.
Proof.
  unfold Sh.char_at. destruct (buf !! i) eqn:E; [|done].
  intros _. by eapply lookup_lt_Some.
Qed.

Lemma skip_loop_spec p n i :
  let k := skip_loop buf p n i in
  (i ≤ k ≤ i + n)%nat ∧ (∀ j, (i ≤ j < k)%nat → p (char_at j) = true) ∧
  (k = i + n ∨ p (char_at k) = false)%nat.
Proof.
  revert i. induction n as [|n IH]; intros i; simpl; [split_and!; try lia; left; lia|].
  destruct (p (char_at i)) eqn:E; [|split_and!; try lia; by right].
  destruct (IH (S i)) as (H1 & H2 & H3). split_and!; [lia..| |].
  - intros j Hj. destruct (decide (j = i)) as [->|]; [done|]. apply H2. lia.
  - destruct H3; [left; lia|by right].
Qed.

Lemma skip_spec p i : (i ≤ es)%nat →
  (i ≤ skip buf p i ≤ es)%nat ∧
  (∀ j, (i ≤ j < skip buf p i)%nat → p (char_at j) = true) ∧
  (skip buf p i = es ∨ p (char_at (skip buf p i)) = false).
Proof.
  intros Hi. destruct (skip_loop_spec p (es - i) i) as (H1 & H2 & H3).
  fold (skip buf p i) in *. split_and!; [lia..|done|]. destruct H3; [left; lia|by right].
Qed.

(** What a token is: the position moves unless the line is over, and the
    string of a word is one. *)
Definition token_post (i : nat) (t : Z * word) (i' : nat) : Prop :=
  (i ≤ i' ≤ es)%nat ∧ (i < es → i < i')%nat ∧ (t.1 = WORD → word_ok buf t.2).

Lemma plain_not_white c : among whitespace c = false → c ≠ 0 →
  among [BAR; LPAREN; RPAREN; SEMI; AMP; LESS] c = false → c ≠ GREATER → plain c = true.
Proof.
  unfold plain, among. rewrite !bool_decide_eq_false. intros Hw _ Hs Hg.
  rewrite !bool_decide_eq_false_2; [done| |done].
  unfold symbols, BAR, LPAREN, RPAREN, SEMI, AMP, LESS, GREATER in *. set_solver.
Qed.

(** The word that starts at [s]. *)
Lemma word_at s : (s < es)%nat → plain (char_at s) = true → word_ok buf (s, skip buf plain s).
Proof.
  intros Hs Hp. destruct (skip_spec plain s) as (H1 & H2 & H3); [lia|].
  split_and!; simpl; [|lia|done|done].
  destruct (decide (skip buf plain s = s)) as [E|]; [|lia].
  rewrite E in H3. destruct H3; [lia|congruence].
Qed.

Lemma gettoken_answers i : (i ≤ es)%nat → answers (token_post i) (gettoken buf i).
Proof.
  intros Hi. unfold gettoken.
  destruct (skip_spec (among whitespace) i Hi) as (H1 & _ & H3).
  set (s := skip buf (among whitespace) i) in *.
  fold plain.
  match goal with |- context [let '(_, _) := ?e in _] => set (t := e) end.
  assert (Ht : (s ≤ t.2 ≤ es)%nat ∧ (s < es → s < t.2)%nat ∧ (t.1 = WORD → word_ok buf (s, t.2))).
  { subst t. destruct (Z.eqb_spec (char_at s) 0) as [E|E].
    { simpl. rewrite E. split_and!; [lia..| |done].
      intros Hs. by apply char_nonzero in Hs. }
    pose proof (char_end _ E) as Hs.
    destruct (among [_; _; _; _; _; _] _) eqn:Hsym.
    { simpl. split_and!; [lia..|]. intros Ew. rewrite Ew in Hsym. by vm_compute in Hsym. }
    destruct (Z.eqb_spec (char_at s) GREATER) as [Eg|Eg].
    { destruct (Z.eqb_spec (char_at (S s)) GREATER) as [E2|E2]; simpl.
      - assert (S s < es)%nat by (apply char_end; by rewrite E2). split_and!; [lia..|done].
      - rewrite Eg. split_and!; [lia..|done]. }
    assert (Hp : plain (char_at s) = true) by (apply plain_not_white; [destruct H3; [lia|done]|done..]).
    pose proof (word_at s Hs Hp) as Hw. destruct (Hw) as [Hlt _]; simpl in *. split_and!; [lia..|done]. }
  destruct t as [ret s']; simpl in *. destruct Ht as (Ha & Hb & Hc).
  destruct (skip_spec (among whitespace) s') as (H4 & _ & _); [lia|].
  unfold token_post. simpl. split_and!; [lia..|done].
Qed.

Lemma peek_answers toks i : (i ≤ es)%nat →
  answers (λ b i', (i ≤ i' ≤ es)%nat ∧ (b = true → (i' < es)%nat)) (peek buf toks i).
Proof.
  intros Hi. destruct (skip_spec (among whitespace) i Hi) as (H1 & _ & _).
  simpl. split; [done|]. intros [Hc _]%andb_prop. apply char_end.
  by destruct (Z.eqb_spec (char_at (skip buf (among whitespace) i)) 0).
Qed.

(** The results that the routines for commands and redirections give. *)
Definition tree_post (i : nat) (c : cmd) (i' : nat) : Prop := (i ≤ i' ≤ es)%nat ∧ cmd_ok buf c.
Definition redir_ok (r : redir) : Prop := word_ok buf (r_file r) ∧ (r_fd r = 0 ∨ r_fd r = 1).
Definition redirs_post (i : nat) (rs : list redir) (i' : nat) : Prop :=
  (i ≤ i' ≤ es)%nat ∧ Forall redir_ok rs.

Lemma redirs_ok c rs :
  cmd_ok buf c → Forall redir_ok rs → cmd_ok buf (foldl redircmd c rs).
Proof. intros Hc Hrs. revert c Hc. induction Hrs as [|r rs [? ?]]; intros c Hc; simpl; [done|]. by apply IHHrs. Qed.

(** A call of a routine that answers, then the rest. *)
Ltac first_call L :=
  eapply answers_bind; [apply L; first [lia | done | by constructor]|].

Lemma parseredirs_answers fuel rs i : (i ≤ es)%nat → (es - i < fuel)%nat →
  Forall redir_ok rs → answers (redirs_post i) (parseredirs buf fuel rs i).
Proof.
  revert rs i. induction fuel as [|fuel IH]; intros rs i Hi Hf Hrs; [lia|]. simpl.
  first_call peek_answers. intros b j [Hj Hb]. destruct b; simpl; [|done].
  specialize (Hb eq_refl). first_call gettoken_answers. intros [tok w0] k (Hk & Hk' & _).
  first_call gettoken_answers. intros [kind w] l (Hl & _ & Hw).
  destruct (Z.eqb_spec kind WORD) as [->|]; simpl; [|done]. specialize (Hw eq_refl).
  assert (Hnext : ∀ rs', Forall redir_ok rs' →
    answers (redirs_post i) (parseredirs buf fuel rs' l)).
  { intros rs' Hrs'. eapply answers_mono; [apply IH; [lia..|done]|].
    intros a m [Hm Ha]. split; [lia|done]. }
  repeat case_match; apply Hnext; try done; apply Forall_app; (split; [done|]);
    apply Forall_singleton; split; cbn; by auto.
Qed.

Lemma parse_args_answers fuel argv rs i : (i ≤ es)%nat →
  (MAXARGS < fuel + length argv)%nat → (length argv < MAXARGS)%nat → Forall (word_ok buf) argv →
  Forall redir_ok rs → answers (tree_post i) (parse_args buf fuel argv rs i).
Proof.
  revert argv rs i. induction fuel as [|fuel IH]; intros argv rs i Hi Hf Hn Hargv Hrs; [lia|].
  cbn [parse_args]. assert (Hdone : cmd_ok buf (foldl redircmd (EXEC argv) rs)) by by apply redirs_ok.
  first_call peek_answers. intros b j [Hj _]. destruct b; [by split|].
  first_call gettoken_answers. intros [tok w] k (Hk & _ & Hw).
  destruct (Z.eqb_spec tok 0); [split; [lia|done]|].
  destruct (Z.eqb_spec tok WORD) as [->|]; cbn [negb]; [|done]. specialize (Hw eq_refl).
  destruct (Nat.leb_spec MAXARGS (length (argv ++ [w]))) as [|Hlt]; [done|].
  rewrite length_app in Hlt. simpl in Hlt.
  first_call parseredirs_answers. intros rs' l [Hl Hrs'].
  eapply answers_mono; [apply IH|]; try done; rewrite ?length_app; simpl; try lia.
  - apply Forall_app. by split; [|constructor].
  - intros c m [Hm Hc]. split; [lia|done].
Qed.

Lemma parse_backs_answers fuel c i : (i ≤ es)%nat → (es - i < fuel)%nat →
  cmd_ok buf c → answers (tree_post i) (parse_backs buf fuel c i).
Proof.
  revert c i. induction fuel as [|fuel IH]; intros c i Hi Hf Hc; [lia|]. simpl.
  first_call peek_answers. intros b j [Hj Hb]. destruct b; simpl; [|done].
  specialize (Hb eq_refl). first_call gettoken_answers. intros t k (Hk & Hk' & _).
  eapply answers_mono; [apply IH; [lia..|done]|]. intros c' l [Hl ?]. split; [lia|done].
Qed.

(** The four routines that call one another: each answers when four times
    the number of characters left, and a little more, is its fuel. *)
Lemma parse_answers fuel :
  (∀ i, (i ≤ es)%nat → (4 * (es - i) + 4 ≤ fuel)%nat → answers (tree_post i) (parseline buf fuel i)) ∧
  (∀ i, (i ≤ es)%nat → (4 * (es - i) + 3 ≤ fuel)%nat → answers (tree_post i) (parsepipe buf fuel i)) ∧
  (∀ i, (i ≤ es)%nat → (4 * (es - i) + 2 ≤ fuel)%nat → answers (tree_post i) (parseexec buf fuel i)) ∧
  (∀ i, (i ≤ es)%nat → (4 * (es - i) + 1 ≤ fuel)%nat → answers (tree_post i) (parseblock buf fuel i)).
Proof.
  induction fuel as [|fuel (IHl & IHp & IHe & IHb)]; [split_and!; lia|].
  split_and!; intros i Hi Hf; cbn [parseline parsepipe parseexec parseblock].
  - first_call IHp. intros c j [Hj Hc]. first_call parse_backs_answers. intros c' k [Hk Hc'].
    first_call peek_answers. intros b l [Hl Hb]. destruct b; [|by split; [lia|]].
    specialize (Hb eq_refl). first_call gettoken_answers. intros t m (Hm & Hm' & _).
    first_call IHl. intros r n [Hn Hr]. split; [lia|done].
  - first_call IHe. intros c j [Hj Hc]. first_call peek_answers. intros b l [Hl Hb].
    destruct b; [|by split; [lia|]].
    specialize (Hb eq_refl). first_call gettoken_answers. intros t m (Hm & Hm' & _).
    first_call IHp. intros r n [Hn Hr]. split; [lia|done].
  - first_call peek_answers. intros b j [Hj Hb]. destruct b.
    + eapply answers_mono; [apply IHb; lia|]. intros c k [Hk Hc]. split; [lia|done].
    + first_call parseredirs_answers. intros rs k [Hk Hrs].
      eapply answers_mono; [apply parse_args_answers; unfold MAXARGS; simpl; first [lia|done|by constructor]|].
      intros c l [Hl Hc]. split; [lia|done].
  - first_call peek_answers. intros b j [Hj Hb]. destruct b; cbn [negb]; [|done].
    specialize (Hb eq_refl). first_call gettoken_answers. intros t m (Hm & Hm' & _).
    first_call IHl. intros c k [Hk Hc]. first_call peek_answers. intros b l [Hl _].
    destruct b; cbn [negb]; [|done]. first_call gettoken_answers. intros t' n (Hn & _).
    first_call parseredirs_answers. intros rs o [Ho Hrs]. split; [lia|by apply redirs_ok].
Qed.

(** ** nulterminate *)

Lemma nul_positions_words c : nul_positions c = snd <$> cmd_words c.
Proof. induction c; simpl; rewrite ?fmap_app; by f_equal. Qed.

Lemma cmd_words_ok c : cmd_ok buf c → Forall (word_ok buf) (cmd_words c).
Proof.
  induction c; simpl; [by intros []| |..|by auto].
  { intros (? & ? & _). apply Forall_app; by auto. }
  all: intros []; apply Forall_app; by auto.
Qed.

Lemma zeros_lookup (ps : list nat) (l : list Z) j : (j < length l)%nat →
  foldl (λ l j, <[j := 0]> l) l ps !! j = if decide (j ∈ ps) then Some 0 else l !! j.
Proof.
  revert l. induction ps as [|p ps IH]; intros l Hj; simpl; [done|].
  rewrite IH by by rewrite length_insert.
  destruct (decide (j = p)) as [->|Hne].
  - rewrite list_lookup_insert_eq by done. rewrite (decide_True (P := p ∈ p :: ps)) by set_solver.
    by destruct (decide _).
  - rewrite list_lookup_insert_ne by done.
    destruct (decide (j ∈ ps)), (decide (j ∈ p :: ps)); set_solver.
Qed.

(** No word is cut by the end of another: the ends are not plain. *)
Lemma nulterminate_words c : cmd_ok buf c →
  Forall (reads_word buf (nulterminate buf c)) (cmd_words c).
Proof.
  intros Hc%cmd_words_ok. apply Forall_forall. intros w Hw.
  pose proof (proj1 (Forall_forall _ _) Hc w Hw) as (Hlt & Hplain & _).
  unfold nulterminate. rewrite nul_positions_words. split.
  - intros j Hj. rewrite zeros_lookup by (rewrite length_app; simpl; unfold Sh.es in *; lia).
    rewrite decide_False, lookup_app_l; [done|unfold Sh.es in *; lia|].
    intros (w' & -> & Hw')%list_elem_of_fmap.
    pose proof (proj1 (Forall_forall _ _) Hc w' Hw') as (_ & _ & [|Hend]); [lia|].
    by rewrite Hplain in Hend.
  - rewrite zeros_lookup by (rewrite length_app; simpl; unfold Sh.es in *; lia).
    rewrite decide_True; [done|]. apply list_elem_of_fmap. by exists w.
Qed.
End spec.

Lemma parsecmd_ok buf :
  Forall (λ c, c ≠ 0) buf →
  answers (λ '(c, b) i, i = es buf ∧ cmd_ok buf c ∧ Forall (reads_word buf b) (cmd_words c))
    (parsecmd buf).
Proof.
  intros Hbuf. unfold parsecmd.
  eapply answers_bind; [apply (parse_answers buf Hbuf); lia|]. intros c i [Hi Hc].
  eapply answers_bind; [apply peek_answers; lia|]. intros b j [Hj _].
  unfold leftovers. destruct (Nat.eqb_spec j (es buf)) as [->|]; cbn [negb]; [|done].
  split_and!; [done..|]. by apply nulterminate_words.
Qed.

(** C30: the shell parses every line: on any line of nonzero characters
    [parsecmd] ends, with a syntax error or with a command, and the fuel of
    the model is enough for its loops and its recursion.  The command has
    used the whole line, every array of arguments has room for its null
    pointer, every string is a maximal word of the line, and after
    [nulterminate] the buffer holds each of them, terminated. *)
Theorem parsecmd_answers buf :
  Forall (λ c, c ≠ 0) buf →
  answers (λ '(c, b) i, i = es buf ∧ cmd_ok buf c ∧ Forall (reads_word buf b) (cmd_words c))
    (parsecmd buf).
Proof. apply parsecmd_ok. Qed.
