(* ===== verification/ShPrint.v ===== *)
(** * The parser of the shell reads back every command

    A command with strings is printed with parentheses around the parts of
    a redirection, a pipe, a list or a background command; the parser gives
    the command back.  The text is a list of tokens, so that the position
    of the parser is always at the first character of a token. *)

From S2P Require Import Prelude Layout Sysfile Sh ShSpec.

(** ** Printing *)

Inductive token := Sym (c : Z) | Word (w : list Z).

(** A word is printed with a space after it. *)
Definition text (t : token) : list Z :=
  match t with Sym c => [c] | Word w => w ++ [32] end.
Definition texts (ts : list token) : list Z := concat (text <$> ts).

Definition paren (ts : list token) : list token := Sym LPAREN :: ts ++ [Sym RPAREN].

Fixpoint print (c : tree (list Z)) : list token :=
  match c with
  | EXEC argv => Word <$> argv
  | REDIR c w _ fd => paren (print c) ++ [Sym (if fd =? 0 then LESS else GREATER); Word w]
  | PIPE l r => paren (print l) ++ Sym BAR :: paren (print r)
  | LIST l r => paren (print l) ++ Sym SEMI :: paren (print r)
  | BACK c => paren (print c) ++ [Sym AMP]
  end.

(** The commands that the shell has: strings are words, an array of
    arguments holds fewer than [MAXARGS] of them, and a redirection is of
    the input or of the output. *)
Definition word_text (w : list Z) : Prop := w ≠ [] ∧ Forall (λ c, plain c = true ∧ c ≠ 0) w.

Fixpoint printable (c : tree (list Z)) : Prop :=
  match c with
  | EXEC argv => Forall word_text argv ∧ (length argv < MAXARGS)%nat
  | REDIR c w mode fd => printable c ∧ word_text w ∧
      (mode = O_RDONLY ∧ fd = 0 ∨ mode = Z.lor O_WRONLY O_CREATE ∧ fd = 1)
  | PIPE l r | LIST l r => printable l ∧ printable r
  | BACK c => printable c
  end.

(** A tree with its strings read from the line. *)
Definition slice_word (buf : list Z) (w : word) : list Z := take (w.2 - w.1) (drop w.1 buf).

Fixpoint resolve (buf : list Z) (c : cmd) : tree (list Z) :=
  match c with
  | EXEC argv => EXEC (slice_word buf <$> argv)
  | REDIR c w mode fd => REDIR (resolve buf c) (slice_word buf w) mode fd
  | PIPE l r => PIPE (resolve buf l) (resolve buf r)
  | LIST l r => LIST (resolve buf l) (resolve buf r)
  | BACK c => BACK (resolve buf c)
  end.

(** ** Reading tokens *)

Definition tok_ok (t : token) : Prop :=
  match t with Sym c => c ∈ symbols | Word w => word_text w end.

Section reads.
Variable buf : list Z.

(** The parser is at the tokens [ts]. *)
Definition here (i : nat) (ts : list token) : Prop :=
  (i ≤ es buf)%nat ∧ drop i buf = texts ts ∧ Forall tok_ok ts.

(** The kind of the first token. *)
Definition first_sym (ts : list token) : option Z :=
  match ts with Sym c :: _ => Some c | _ => None end.

Lemma char_at_drop i c s : drop i buf = c :: s → char_at buf i = c.
Proof. intros H. unfold char_at. by rewrite <- (Nat.add_0_r i), <- lookup_drop, H. Qed.

Lemma char_at_nil i : drop i buf = [] → char_at buf i = 0.
Proof. intros H. unfold char_at. by rewrite <- (Nat.add_0_r i), <- lookup_drop, H. Qed.

(** Skipping the characters [w] of a kind, and no more. *)
Lemma skip_run p i w s : (i ≤ es buf)%nat → drop i buf = w ++ s → Forall (λ c, p c = true) w →
  (match s with [] => True | c :: _ => p c = false end) →
  skip buf p i = (i + length w)%nat.
Proof.
  intros Hi Hd Hw Hs. unfold skip, es in *.
  assert (Hn : (length buf - i = length w + length s)%nat)
    by (rewrite <- length_drop, Hd; apply length_app).
  rewrite Hn. clear Hn Hi. revert i Hd. induction Hw as [|c w Hc Hw IH]; intros i Hd; simpl in *.
  - destruct s as [|c s]; simpl; [lia|]. by rewrite (char_at_drop _ _ _ Hd), Hs, Nat.add_0_r.
  - rewrite (char_at_drop _ _ _ Hd), Hc. rewrite IH; [lia|].
    rewrite <- Nat.add_1_r, <- drop_drop, Hd. done.
Qed.

Lemma texts_cons t ts : texts (t :: ts) = text t ++ texts ts.
Proof. done. Qed.

(** The tokens start with no white space. *)
Lemma texts_head ts : Forall tok_ok ts →
  match texts ts with [] => True | c :: _ => among whitespace c = false end.
Proof.
  intros [|t ts' Ht _]; [done|]. rewrite texts_cons. destruct t as [c|w]; simpl in *.
  - unfold symbols in Ht. by repeat (apply elem_of_cons in Ht as [->|Ht]); [..|apply elem_of_nil in Ht].
  - destruct w as [|c w]; [by destruct Ht|]. destruct Ht as [_ [[Hc _] _]%Forall_cons]. simpl.
    unfold plain in Hc. apply andb_prop in Hc as [Hc _]. by destruct (among whitespace c).
Qed.

Lemma skip_white i ts : here i ts → skip buf (among whitespace) i = i.
Proof.
  intros (Hi & Hd & Hts). rewrite (skip_run _ i [] (texts ts)); [simpl; lia|done|done|done|].
  by apply texts_head.
Qed.

Lemma here_step i t ts : here i (t :: ts) → here (i + length (text t)) ts.
Proof.
  intros (Hi & Hd & [_ Hts]%Forall_cons). rewrite texts_cons in Hd. split_and!; [|..|done].
  - unfold es in *. assert (Hl := f_equal length Hd). rewrite length_drop, length_app in Hl.
    destruct (decide (length (text t) = 0)%nat) as [E|]; lia.
  - by rewrite <- drop_drop, Hd, drop_app_length.
Qed.

Lemma symbol_cases c : c ∈ symbols →
  c = LESS ∨ c = BAR ∨ c = GREATER ∨ c = AMP ∨ c = SEMI ∨ c = LPAREN ∨ c = RPAREN.
Proof. unfold symbols, LESS, BAR, GREATER, AMP, SEMI, LPAREN, RPAREN. set_solver. Qed.

Lemma among_false_plain toks c : forallb (among symbols) toks = true → plain c = true → among toks c = false.
Proof.
  intros Ht [_ Hc]%andb_prop. apply bool_decide_eq_false. intros Hin.
  rewrite forallb_forall in Ht. apply list_elem_of_In, Ht in Hin. by rewrite Hin in Hc.
Qed.

(** The first character of the tokens. *)
Lemma first_char i ts : here i ts →
  match ts with
  | [] => char_at buf i = 0
  | Sym c :: _ => char_at buf i = c ∧ c ∈ symbols
  | Word w :: _ => plain (char_at buf i) = true ∧ char_at buf i ≠ 0
  end.
Proof.
  intros (Hi & Hd & Hts). destruct ts as [|[c|w] ts]; [by apply char_at_nil|..];
    apply Forall_cons in Hts as [Ht _]; rewrite texts_cons in Hd; simpl in *.
  - split; [by eapply char_at_drop|done].
  - destruct w as [|c w]; [by destruct Ht|]. destruct Ht as [_ [Hc _]%Forall_cons].
    by rewrite (char_at_drop _ _ _ Hd).
Qed.

Lemma peek_run toks i ts : here i ts → forallb (among symbols) toks = true →
  peek buf toks i = Parsed (from_option (among toks) false (first_sym ts)) i.
Proof.
  intros Hh Ht. unfold peek. rewrite (skip_white _ _ Hh). f_equal.
  pose proof (first_char _ _ Hh) as Hc. destruct ts as [|[c|w] ts]; simpl.
  - by rewrite Hc.
  - destruct Hc as [-> Hc]. by apply symbol_cases in Hc; destruct_or! Hc; subst.
  - destruct Hc as [Hc _]. rewrite (among_false_plain _ _ Ht Hc). by rewrite andb_false_r.
Qed.

Lemma gettoken_nil i : here i [] → ∃ w, gettoken buf i = Parsed (0, w) i.
Proof.
  intros Hh. unfold gettoken. rewrite (skip_white _ _ Hh), (first_char _ _ Hh). simpl.
  rewrite (skip_white _ _ Hh). by eexists.
Qed.

Lemma gettoken_sym i c ts : here i (Sym c :: ts) → (c = GREATER → first_sym ts ≠ Some GREATER) →
  ∃ w, gettoken buf i = Parsed (c, w) (S i) ∧ here (S i) ts.
Proof.
  intros Hh Hg. pose proof (here_step _ _ _ Hh) as Hn. simpl in Hn. rewrite Nat.add_1_r in Hn.
  unfold gettoken. rewrite (skip_white _ _ Hh). destruct (first_char _ _ Hh) as [-> Hc].
  assert (Hnext : c = GREATER → char_at buf (S i) =? GREATER = false).
  { intros E. specialize (Hg E). apply Z.eqb_neq. intros Eg. pose proof (first_char _ _ Hn) as Hf.
    rewrite Eg in Hf. destruct ts as [|[]]; [done| |by destruct Hf as [Hf _]].
    by destruct Hf as [<- _]. }
  apply symbol_cases in Hc. clear Hh Hg. destruct_or! Hc; subst c; simpl;
    rewrite ?Hnext by done; simpl; rewrite (skip_white _ _ Hn); by eexists.
Qed.

Lemma gettoken_word i w ts : here i (Word w :: ts) →
  ∃ q j, gettoken buf i = Parsed (WORD, q) j ∧ here j ts ∧ (i < j)%nat ∧ slice_word buf q = w.
Proof.
  intros Hh. pose proof (here_step _ _ _ Hh) as Hn. destruct (first_char _ _ Hh) as [Hp Hz].
  unfold gettoken. rewrite (skip_white _ _ Hh).
  destruct Hh as (Hi & Hd & [[Hne Hw] Hts]%Forall_cons). rewrite texts_cons in Hd. simpl in Hd, Hn.
  rewrite (proj2 (Z.eqb_neq _ _) Hz).
  rewrite (among_false_plain [BAR; LPAREN; RPAREN; SEMI; AMP; LESS] _ eq_refl Hp).
  assert (Hg : char_at buf i =? GREATER = false).
  { apply Z.eqb_neq. intros E. by rewrite E in Hp. }
  rewrite Hg. fold plain. rewrite <- app_assoc in Hd.
  rewrite (skip_run plain i w ([32] ++ texts ts)); [|done..|by eapply Forall_impl; [exact Hw|intros ? []]|done].
  rewrite length_app in Hn. simpl in Hn.
  rewrite (skip_run (among whitespace) (i + length w) [32] (texts ts));
    [|destruct Hn; lia| |by constructor|by apply texts_head].
  - eexists _, _. split_and!; [done| |simpl; lia|].
    + simpl. replace (i + length w + 1)%nat with (i + (length w + 1))%nat by lia. done.
    + unfold slice_word. simpl. replace (i + length w - i)%nat with (length w) by lia.
      by rewrite Hd, take_app_length.
  - by rewrite <- drop_drop, Hd, drop_app_length.
Qed.

(** ** Reading commands *)

Lemma bind_parsed {A B} (m : parser A) (k : A → parser B) i a j :
  m i = Parsed a j → (m ≫= k) i = k a j.
Proof. unfold mbind, parser_bind. by intros ->. Qed.

Lemma here_lt i t ts : here i (t :: ts) → (i < es buf)%nat.
Proof.
  intros (Hi & Hd & [Ht _]%Forall_cons). unfold es in *.
  assert (Hl := f_equal length Hd). rewrite length_drop, texts_cons, length_app in Hl.
  destruct t; simpl in *; [lia|]. rewrite length_app in Hl. simpl in Hl. lia.
Qed.

(** The tokens do not start with one of [toks]. *)
Definition not_at (toks : list Z) (ts : list token) : Prop :=
  from_option (among toks) false (first_sym ts) = false.

(** What may follow a line: the end, or the parenthesis that closes it. *)
Definition closes (ts : list token) : Prop :=
  match ts with [] => True | t :: _ => t = Sym RPAREN end.

Lemma closes_not_at toks ts : closes ts → among toks RPAREN = false → not_at toks ts.
Proof. destruct ts as [|t ts]; [done|]. intros ->. done. Qed.

(** The next routine is known, and then the rest. *)
Ltac next H := etrans; [eapply bind_parsed; exact H|]; cbv beta iota.

(** [peek] at the tokens of [H]; the test of a known symbol is decided. *)
Ltac decide_among :=
  match goal with
  | |- context [among ?l ?c] =>
      let b := eval vm_compute in (among l c) in
      lazymatch b with true => idtac | false => idtac end; change (among l c) with b
  end.
Ltac at_tokens H :=
  etrans; [eapply bind_parsed; apply (peek_run _ _ _ H); reflexivity|];
  cbn [first_sym from_option]; try decide_among; cbn [negb]; cbv beta iota.

Lemma redirs_none fuel rs i ts : here i ts → not_at [LESS; GREATER] ts →
  parseredirs buf (S fuel) rs i = Parsed rs i.
Proof. intros Hh Hn. cbn [parseredirs]. at_tokens Hh. by rewrite Hn. Qed.

Lemma redirs_one fuel c w i ts : (es buf - i < S fuel)%nat →
  here i (Sym c :: Word w :: ts) → c = LESS ∨ c = GREATER → not_at [LESS; GREATER] ts →
  ∃ q j, parseredirs buf (S fuel) [] i =
      Parsed [if c =? LESS then Redirection q O_RDONLY 0
              else Redirection q (Z.lor O_WRONLY O_CREATE) 1] j ∧
    here j ts ∧ (i < j)%nat ∧ slice_word buf q = w.
Proof.
  intros Hf Hh Hc Hn.
  destruct (gettoken_sym _ _ _ Hh) as (? & Hg & Hh1); [done|].
  destruct (gettoken_word _ _ _ Hh1) as (q & j & Hg' & Hh2 & Hj & Hq).
  pose proof (here_lt _ _ _ Hh). pose proof (here_lt _ _ _ Hh1). destruct fuel as [|fuel]; [lia|].
  exists q, j. split; [|split_and!; [done|lia|done]]. cbn [parseredirs].
  destruct Hc as [-> | ->]; at_tokens Hh; next Hg; next Hg';
    rewrite Z.eqb_refl; exact (redirs_none _ _ _ _ Hh2 Hn).
Qed.

Lemma args_run ws fuel argv i rest :
  (MAXARGS < fuel + length argv)%nat → (length argv + length ws < MAXARGS)%nat →
  closes rest → here i ((Word <$> ws) ++ rest) →
  ∃ qs j, parse_args buf fuel argv [] i = Parsed (EXEC (argv ++ qs)) j ∧
    here j rest ∧ (i ≤ j)%nat ∧ slice_word buf <$> qs = ws.
Proof.
  revert fuel argv i. induction ws as [|w ws IH]; intros fuel argv i Hf Hn Hr Hh;
    (destruct fuel as [|fuel]; [simpl in *; lia|]); cbn [parse_args fmap list_fmap app] in *.
  - exists [], i. rewrite app_nil_r. split_and!; [|done..]. at_tokens Hh.
    destruct rest as [|t rest]; [|by rewrite Hr]. simpl.
    destruct (gettoken_nil _ Hh) as [w Hw]. by next Hw.
  - destruct (gettoken_word _ _ _ Hh) as (q & j & Hg & Hh' & Hj & Hq). simpl in Hn.
    destruct (IH fuel (argv ++ [q]) j) as (qs & k & Hp & Hk & Hjk & Hqs);
      [rewrite length_app; simpl; lia..|done|done|].
    assert (Hs : parseredirs buf (1 + es buf) [] j = Parsed [] j).
    { apply (redirs_none _ _ _ _ Hh'). destruct ws; [by apply closes_not_at|done]. }
    exists (q :: qs), k. split_and!; [|done|lia|by rewrite fmap_cons, Hq, Hqs].
    at_tokens Hh. next Hg. change (WORD =? 0) with false. rewrite Z.eqb_refl. cbn [negb].
    rewrite (proj2 (Nat.leb_gt MAXARGS (length (argv ++ [q])))) by (rewrite length_app; simpl; lia).
    next Hs. by rewrite Hp, <- app_assoc.
Qed.

(** A routine reads the command [t] and stops at [rest]. *)
Definition reads (m : parser cmd) (i : nat) (t : tree (list Z)) (rest : list token) : Prop :=
  ∃ c j, m i = Parsed c j ∧ here j rest ∧ (i ≤ j)%nat ∧ resolve buf c = t.

(** [parseline] reads [t] wherever a line may end. *)
Definition line_reads (t : tree (list Z)) : Prop := ∀ fuel i rest,
  (4 * (es buf - i) + 4 ≤ fuel)%nat → closes rest → here i (print t ++ rest) →
  reads (parseline buf fuel) i t rest.

(** A line in parentheses, up to its redirections. *)
Lemma block_reads t fuel i rest : line_reads t → (4 * (es buf - i) + 2 ≤ fuel)%nat →
  here i (paren (print t) ++ rest) →
  ∃ c j, parseexec buf fuel i = (rs ← parseredirs buf (1 + es buf) []; mret (foldl redircmd c rs)) j ∧
    here j rest ∧ (i < j)%nat ∧ resolve buf c = t.
Proof.
  intros IH Hf Hh. destruct fuel as [|[|fuel]]; [lia..|]. unfold paren in Hh.
  cbn [app] in Hh. rewrite <- app_assoc in Hh.
  pose proof (here_lt _ _ _ Hh). destruct (gettoken_sym _ _ _ Hh) as (w & Hg & Hh1); [done|].
  destruct (IH fuel (S i) (Sym RPAREN :: rest)) as (c & j & Hc & Hh2 & Hj & Ht); [lia|done|done|].
  destruct (gettoken_sym _ _ _ Hh2) as (w' & Hg' & Hh3); [done|].
  exists c, (S j). split_and!; [|done|lia|done].
  cbn [parseexec parseblock]. do 2 at_tokens Hh. next Hg. next Hc. at_tokens Hh2. by next Hg'.
Qed.

Lemma exec_block_reads t fuel i rest : line_reads t → (4 * (es buf - i) + 2 ≤ fuel)%nat →
  not_at [LESS; GREATER] rest → here i (paren (print t) ++ rest) →
  ∃ c j, parseexec buf fuel i = Parsed c j ∧ here j rest ∧ (i < j)%nat ∧ resolve buf c = t.
Proof.
  intros IH Hf Hn Hh. destruct (block_reads _ _ _ _ IH Hf Hh) as (c & j & -> & Hj & Hij & Ht).
  exists c, j. split_and!; [|done..]. by next (redirs_none (es buf) [] _ _ Hj Hn).
Qed.

(** A block that nothing but the end of the pipe follows. *)
Lemma pipe_block_reads t fuel i rest : line_reads t → (4 * (es buf - i) + 3 ≤ fuel)%nat →
  not_at [LESS; GREATER] rest → not_at [BAR] rest → here i (paren (print t) ++ rest) →
  ∃ c j, parsepipe buf fuel i = Parsed c j ∧ here j rest ∧ (i < j)%nat ∧ resolve buf c = t.
Proof.
  intros IH Hf Hn Hb Hh. destruct fuel as [|fuel]; [lia|].
  destruct (exec_block_reads t fuel i rest) as (c & j & Hc & Hj & Hij & Ht); [done|lia|done..|].
  exists c, j. split_and!; [|done..]. cbn [parsepipe]. next Hc. at_tokens Hj. by rewrite Hb.
Qed.

Lemma backs_none fuel c i ts : here i ts → not_at [AMP] ts →
  parse_backs buf (S fuel) c i = Parsed c i.
Proof. intros Hh Hn. cbn [parse_backs]. at_tokens Hh. by rewrite Hn. Qed.

(** What [parseline] reads when it is one pipe. *)
Lemma line_of_pipe t fuel i rest : closes rest →
  reads (parsepipe buf fuel) i t rest → reads (parseline buf (S fuel)) i t rest.
Proof.
  intros Hr (c & j & Hc & Hj & Hij & Ht). exists c, j. split_and!; [|done..].
  cbn [parseline]. next Hc. next (backs_none (es buf) c _ _ Hj (closes_not_at [AMP] _ Hr eq_refl)).
  at_tokens Hj. by rewrite (closes_not_at [SEMI] _ Hr eq_refl).
Qed.

(** What [parsepipe] reads when it is one command. *)
Lemma pipe_of_exec t fuel i rest : closes rest →
  reads (parseexec buf fuel) i t rest → reads (parsepipe buf (S fuel)) i t rest.
Proof.
  intros Hr (c & j & Hc & Hj & Hij & Ht). exists c, j. split_and!; [|done..].
  cbn [parsepipe]. next Hc. at_tokens Hj. by rewrite (closes_not_at [BAR] _ Hr eq_refl).
Qed.

Lemma exec_reads argv : printable (EXEC argv) → line_reads (EXEC argv).
Proof.
  intros [_ Hn] fuel i rest Hf Hr Hh. destruct fuel as [|[|[|fuel]]]; [lia..|].
  apply line_of_pipe, pipe_of_exec; [done..|].
  destruct (args_run argv (1 + MAXARGS) [] i rest) as (qs & j & Ha & Hj & Hij & Hq);
    [cbn [length]; lia|done|done|done|].
  assert (Hfirst : ∀ toks, among toks RPAREN = false → not_at toks (print (EXEC argv) ++ rest)).
  { intros toks Ht. destruct argv; [by apply closes_not_at|done]. }
  exists (EXEC qs), j. split_and!; [|done|done|by rewrite <- Hq].
  cbn [parseexec]. at_tokens Hh. rewrite (Hfirst [LPAREN] eq_refl).
  next (redirs_none (es buf) [] _ _ Hh (Hfirst [LESS; GREATER] eq_refl)). done.
Qed.

Lemma redir_reads t w mode fd : line_reads t → printable (REDIR t w mode fd) →
  line_reads (REDIR t w mode fd).
Proof.
  intros IH (_ & _ & Hm) fuel i rest Hf Hr Hh. destruct fuel as [|[|fuel]]; [lia..|].
  apply line_of_pipe, pipe_of_exec; [done..|]. simpl in Hh. rewrite <- app_assoc in Hh.
  destruct (block_reads t fuel i _ IH ltac:(lia) Hh) as (c & j & Hc & Hj & Hij & Ht).
  destruct (redirs_one (es buf) _ _ _ _ ltac:(lia) Hj) as (q & k & Hp & Hk & Hjk & Hq);
    [by destruct (fd =? 0); [left|right]|by apply closes_not_at|].
  eexists _, k. split_and!; [|done|lia|].
  - rewrite Hc. by next Hp.
  - destruct Hm as [[-> ->]|[-> ->]]; simpl; by rewrite Ht, Hq.
Qed.

Lemma pipe_reads l r : line_reads l → line_reads r → line_reads (PIPE l r).
Proof.
  intros IHl IHr fuel i rest Hf Hr Hh. destruct fuel as [|[|fuel]]; [lia..|].
  apply line_of_pipe; [done|]. simpl in Hh. rewrite <- app_assoc in Hh.
  destruct (exec_block_reads l fuel i (Sym BAR :: paren (print r) ++ rest))
    as (c & j & Hc & Hj & Hij & Ht); [done|lia|done|done|].
  destruct (gettoken_sym _ _ _ Hj) as (w & Hg & Hs); [done|]. pose proof (here_lt _ _ _ Hj).
  destruct (pipe_block_reads r fuel (S j) rest) as (c' & k & Hc' & Hk & Hjk & Ht');
    [done|lia|by apply closes_not_at..|done|].
  exists (PIPE c c'), k. split_and!; [|done|lia|simpl; by rewrite Ht, Ht'].
  cbn [parsepipe]. next Hc. at_tokens Hj. next Hg. by next Hc'.
Qed.

Lemma list_reads l r : line_reads l → line_reads r → line_reads (LIST l r).
Proof.
  intros IHl IHr fuel i rest Hf Hr Hh. destruct fuel as [|[|fuel]]; [lia..|].
  simpl in Hh. rewrite <- app_assoc in Hh.
  destruct (pipe_block_reads l (S fuel) i (Sym SEMI :: paren (print r) ++ rest))
    as (c & j & Hc & Hj & Hij & Ht); [done|lia|done..|].
  destruct (gettoken_sym _ _ _ Hj) as (w & Hg & Hs); [done|]. pose proof (here_lt _ _ _ Hj).
  destruct (line_of_pipe r fuel (S j) rest Hr) as (c' & k & Hc' & Hk & Hjk & Ht').
  { destruct (pipe_block_reads r fuel (S j) rest) as (c' & k & Hc' & Hk & Hjk & Ht');
      [done|lia|by apply closes_not_at..|done|]. exists c', k. split_and!; [done|done|lia|done]. }
  exists (LIST c c'), k. split_and!; [|done|lia|simpl; by rewrite Ht, Ht'].
  cbn [parseline]. next Hc. next (backs_none (es buf) c _ _ Hj eq_refl). at_tokens Hj. next Hg.
  by next Hc'.
Qed.

Lemma back_reads t : line_reads t → line_reads (BACK t).
Proof.
  intros IH fuel i rest Hf Hr Hh. destruct fuel as [|fuel]; [lia|].
  simpl in Hh. rewrite <- app_assoc in Hh.
  destruct (pipe_block_reads t fuel i (Sym AMP :: rest))
    as (c & j & Hc & Hj & Hij & Ht); [done|lia|done..|].
  destruct (gettoken_sym _ _ _ Hj) as (w & Hg & Hs); [done|].
  assert (Hb : parse_backs buf (1 + es buf) c j = Parsed (BACK c) (S j)).
  { destruct (es buf) as [|n] eqn:En; [apply here_lt in Hj; lia|]. cbn [parse_backs plus].
    at_tokens Hj. next Hg. exact (backs_none n (BACK c) _ _ Hs (closes_not_at [AMP] _ Hr eq_refl)). }
  exists (BACK c), (S j). split_and!; [|done|lia|simpl; by rewrite Ht].
  cbn [parseline]. next Hc. next Hb. at_tokens Hs. by rewrite (closes_not_at [SEMI] _ Hr eq_refl).
Qed.

Lemma all_lines_read t : printable t → line_reads t.
Proof.
  induction t; intros Ht.
  - by apply exec_reads.
  - apply redir_reads; [apply IHt, Ht|done].
  - destruct Ht. apply pipe_reads; auto.
  - destruct Ht. apply list_reads; auto.
  - apply back_reads; auto.
Qed.
End reads.

Lemma print_tok_ok t : printable t → Forall tok_ok (print t).
Proof.
  assert (Hsym : ∀ c, among symbols c = true → tok_ok (Sym c)) by (intros c; apply bool_decide_eq_true).
  assert (Hp : ∀ ts, Forall tok_ok ts → Forall tok_ok (paren ts)).
  { intros ts Hts. constructor; [by apply Hsym|]. apply Forall_app. split; [done|].
    constructor; [by apply Hsym|done]. }
  induction t; cbn [print printable]; intros Ht; [by apply Forall_fmap, Ht|..];
    destruct_and? Ht; apply Forall_app; (split; [by auto|]).
  - constructor; [apply Hsym; by destruct (_ =? _)|by constructor].
  - constructor; [by apply Hsym|by auto].
  - constructor; [by apply Hsym|by auto].
  - constructor; [by apply Hsym|done].
Qed.

(** C29: the parser of the shell reads back every command: a command whose
    strings are words, with fewer than [MAXARGS] arguments each and with
    redirections of the input or the output, is printed with parentheses
    around its parts and parsed to the same command. *)
Theorem parse_print t :
  printable t →
  ∃ c b, parsecmd (texts (print t)) = Parsed (c, b) (es (texts (print t))) ∧
    resolve (texts (print t)) c = t.
Proof.
  intros Ht. set (buf := texts (print t)).
  destruct (all_lines_read buf t Ht (4 * es buf + 4)%nat 0%nat []) as (c & j & Hc & Hj & _ & Hr);
    [lia|done|rewrite app_nil_r; split_and!; [lia|done|by apply print_tok_ok]|].
  assert (Hend : j = es buf).
  { destruct Hj as (Hj & Hd & _). apply (f_equal length) in Hd. rewrite length_drop in Hd.
    unfold es in *. simpl in Hd. lia. }
  exists c, (nulterminate buf c). split; [|done]. unfold parsecmd.
  etrans; [apply bind_parsed, Hc|]. etrans; [apply bind_parsed, (peek_run _ [] _ _ Hj eq_refl)|].
  unfold leftovers. by rewrite Hend, Nat.eqb_refl.
Qed.

(** The command [(grep x < in) | (sort &)]. *)
Definition demo_command : tree (list Z) :=
  PIPE (REDIR (EXEC [[103; 114; 101; 112]; [120]]) [105; 110] O_RDONLY 0)
    (BACK (EXEC [[115; 111; 114; 116]])).

Lemma parse_print_witness :
  printable demo_command ∧
  ∃ c b, parsecmd (texts (print demo_command)) = Parsed (c, b) (es (texts (print demo_command))) ∧
    resolve (texts (print demo_command)) c = demo_command.
Proof.
  assert (H : printable demo_command).
  { repeat first [split | constructor]; try done; try (left; split; done); unfold MAXARGS; simpl; lia. }
  split; [exact H|exact (parse_print demo_command H)].
Defined.

(** The line [a|b >c]. *)
Lemma parsecmd_answers_witness :
  let buf := [97; 124; 98; 32; 62; 99] in
  Forall (λ c, c ≠ 0) buf ∧
  answers (λ '(c, b) i, i = es buf ∧ cmd_ok buf c ∧ Forall (reads_word buf b) (cmd_words c))
    (parsecmd buf) ∧
  parsecmd buf = Parsed
    (PIPE (EXEC [(0, 1)%nat]) (REDIR (EXEC [(2, 3)%nat]) (5, 6)%nat (Z.lor O_WRONLY O_CREATE) 1),
     [97; 0; 98; 0; 62; 99; 0]) 6%nat.
Proof.
  intros buf. assert (H : Forall (λ c, c ≠ 0) buf) by (repeat constructor; done).
  split_and!; [exact H|exact (parsecmd_answers buf H)|vm_compute; reflexivity].
Defined.
