(* ===== verification/Ulib.v ===== *)
(** * ulib.c: the string routines of user programs

    The same names as in string.c, but not the same code: [strcpy], [strcmp]
    and [strlen] have no bound, so they take fuel, [memset] always stores
    bytes, and [memmove] always copies upwards.  Pointers that are only read
    are functions of the offset, as in Str.v. *)

From S2P Require Import Prelude Str.

Fixpoint strcpy (fuel : nat) (m : mem) (s t : Z) : option mem :=
  match fuel with
  | O => None
  | S fuel' =>
    let c := m t in
    let m' := upd m s c in
    if negb (c =? 0) then strcpy fuel' m' (s + 1) (t + 1) else Some m'
  end.

Fixpoint strcmp_loop (fuel : nat) (p q : Z → Z) (i : Z) : option Z :=
  match fuel with
  | O => None
  | S fuel' =>
    if negb (p i =? 0) && (p i =? q i) then strcmp_loop fuel' p q (i + 1) else Some (u8 (p i) - u8 (q i))
  end.
Definition strcmp (fuel : nat) (p q : Z → Z) : option Z := strcmp_loop fuel p q 0.

Definition ulib_memset (m : mem) (dst c n : Z) : mem := stosb m dst c (Z.to_nat n).

Definition ulib_memmove (m : mem) (vdst vsrc n : Z) : mem := copy_up m vdst vsrc (Z.to_nat n).

(** ** Zero-terminated strings *)

(** [p] points to the string [s]. *)
Definition is_string (p : Z → Z) (s : list Z) : Prop :=
  Forall (λ c, 0 < c < 256) s ∧ (∀ k c, s !! k = Some c → p (Z.of_nat k) = c) ∧ p (Z.of_nat (length s)) = 0.

Lemma strcpy_loop_spec l : ∀ fuel m s t,
  is_string (λ i, m (t + i)) l → (length l < fuel)%nat →
  s + Z.of_nat (length l) < t ∨ t + Z.of_nat (length l) < s →
  ∃ m', strcpy fuel m s t = Some m' ∧ is_string (λ i, m' (s + i)) l ∧
    ∀ x, ¬ (s <= x <= s + Z.of_nat (length l)) → m' x = m x.
Proof.
  induction l as [|c l IH]; intros [|fuel] m s t (Hf & Hs & Hz) Hfu Hap; cbn [length] in *; try lia; cbn [strcpy].
  - rewrite Z.add_0_r in Hz. rewrite Hz. cbn [Z.eqb negb]. eexists. split; [reflexivity|]. split.
    + split; [constructor|]. split; [intros k c Hk; discriminate Hk|]. rewrite Z.add_0_r. apply upd_eq.
    + intros x Hx. apply upd_ne. lia.
  - apply Forall_cons in Hf as [Hc Hf]. pose proof (Hs 0%nat c eq_refl) as H0. rewrite Z.add_0_r in H0. rewrite H0.
    rewrite (proj2 (Z.eqb_neq c 0)) by lia. cbn [negb].
    destruct (IH fuel (upd m s c) (s + 1) (t + 1)) as (m' & E & (_ & Hs' & Hz') & Hout); [|lia|lia|].
    + split; [exact Hf|]. split.
      * intros k c' Hk. pose proof (lookup_lt_Some _ _ _ Hk). rewrite upd_ne by lia.
        rewrite <-(Hs (S k) c' Hk). f_equal. lia.
      * rewrite upd_ne by lia. rewrite <-Hz. f_equal. lia.
    + exists m'. split; [exact E|]. split; [|intros x Hx; rewrite Hout by lia; apply upd_ne; lia].
      split; [by constructor|]. split.
      * intros [|k] c' Hk; [injection Hk as <-; rewrite Z.add_0_r, Hout by lia; apply upd_eq|].
        rewrite <-(Hs' k c' Hk). f_equal. lia.
      * cbn [length]. rewrite <-Hz'. f_equal. lia.
Qed.

(** [strcmp] orders strings like their bytes: zero just for equal strings,
    and otherwise the difference at the first place where they differ, with
    the end of a string before every byte. *)
Fixpoint compare (s t : list Z) : Z :=
  match s, t with
  | [], [] => 0
  | [], d :: _ => - d
  | c :: _, [] => c
  | c :: s', d :: t' => if c =? d then compare s' t' else c - d
  end.

Lemma is_string_tail p c s : is_string p (c :: s) → is_string (λ i, p (i + 1)) s.
Proof.
  intros (Hf & Hs & Hz). apply Forall_cons in Hf as [_ Hf]. split; [exact Hf|]. split.
  - intros k d Hk. rewrite <-(Hs (S k) d Hk). f_equal. lia.
  - rewrite <-Hz. cbn [length]. f_equal. lia.
Qed.

Lemma is_string_head p s : is_string p s → p 0 = match s with [] => 0 | c :: _ => c end.
Proof. intros (_ & Hs & Hz). destruct s as [|c s]; [exact Hz|exact (Hs 0%nat c eq_refl)]. Qed.

Lemma strcmp_loop_shift fuel : ∀ p q i,
  strcmp_loop fuel p q (i + 1) = strcmp_loop fuel (λ j, p (j + 1)) (λ j, q (j + 1)) i.
Proof.
  induction fuel as [|fuel IH]; intros p q i; cbn [strcmp_loop]; [reflexivity|].
  destruct (negb _ && _); [apply IH|reflexivity].
Qed.

Lemma strcmp_compare s : ∀ t p q fuel,
  is_string p s → is_string q t → (length s < fuel)%nat → strcmp fuel p q = Some (compare s t).
Proof.
  unfold strcmp. induction s as [|c s IH]; intros t p q [|fuel] Hp Hq Hf; cbn [length] in Hf; try lia;
    cbn [strcmp_loop]; rewrite (is_string_head p _ Hp), (is_string_head q _ Hq).
  - cbn [Z.eqb negb andb compare]. destruct t as [|d t]; [reflexivity|]. destruct Hq as (Hq & _).
    apply Forall_cons in Hq as [Hd _]. unfold u8. rewrite (Z.mod_small d) by lia. reflexivity.
  - pose proof Hp as (Hc & _). apply Forall_cons in Hc as [Hc _]. rewrite (proj2 (Z.eqb_neq c 0)) by lia. cbn [negb andb].
    destruct t as [|d t].
    + rewrite (proj2 (Z.eqb_neq c 0)) by lia. unfold u8. rewrite (Z.mod_small c) by lia. cbn [compare]. f_equal.
      change (0 mod 2 ^ 8) with 0. lia.
    + cbn [compare]. destruct (Z.eqb_spec c d) as [->|Hne].
      * rewrite (strcmp_loop_shift fuel p q 0). apply IH; [by eapply is_string_tail|by eapply is_string_tail|lia].
      * pose proof Hq as (Hd & _). apply Forall_cons in Hd as [Hd _]. unfold u8.
        rewrite (Z.mod_small c), (Z.mod_small d) by lia. reflexivity.
Qed.

(** ** memmove *)

(** The byte that ends up at offset [k]: with the destination a little
    above the source, the bytes in between are repeated. *)
Definition smeared (dst src k : Z) : Z := if src <? dst then k mod (dst - src) else k.

Lemma mod_succ k n : 0 < n → 0 <= k → (k + 1) mod n = if k mod n =? n - 1 then 0 else k mod n + 1.
Proof.
  intros Hn Hk. pose proof (Z.mod_pos_bound k n Hn). pose proof (Z.div_mod k n ltac:(lia)).
  destruct (Z.eqb_spec (k mod n) (n - 1)).
  - symmetry. apply (Z.mod_unique _ _ (k / n + 1)); lia.
  - symmetry. apply (Z.mod_unique _ _ (k / n)); lia.
Qed.

Lemma copy_up_smears n : ∀ m d s x,
  copy_up m d s n x = if decide (d <= x < d + Z.of_nat n) then m (s + smeared d s (x - d)) else m x.
Proof.
  induction n as [|n IH]; intros m d s x; cbn [copy_up]; [by rewrite decide_False by lia|]. rewrite IH.
  assert (E : (s + 1 <? d + 1) = (s <? d)) by (destruct (Z.ltb_spec s d), (Z.ltb_spec (s + 1) (d + 1)); lia).
  unfold smeared. rewrite E. replace (d + 1 - (s + 1)) with (d - s) by lia.
  destruct (decide (x = d)) as [->|Hx].
  { rewrite decide_False, decide_True, upd_eq, Z.sub_diag by lia. f_equal. destruct (s <? d); [rewrite Z.mod_0_l|]; lia. }
  destruct (decide (d + 1 <= x < d + 1 + Z.of_nat n)); [rewrite decide_True by lia|rewrite decide_False by lia; by apply upd_ne].
  destruct (Z.ltb_spec s d) as [Hlt|Hge].
  - replace (x - d) with (x - (d + 1) + 1) by lia. rewrite mod_succ by lia.
    pose proof (Z.mod_pos_bound (x - (d + 1)) (d - s) ltac:(lia)). destruct (Z.eqb_spec ((x - (d + 1)) mod (d - s)) (d - s - 1)) as [Em|Em].
    + rewrite Em. replace (s + 1 + (d - s - 1)) with d by lia. rewrite upd_eq. f_equal. lia.
    + rewrite upd_ne by lia. f_equal. lia.
  - rewrite upd_ne by lia. f_equal. lia.
Qed.

(** C37: What [memmove] of ulib.c does, byte for byte: it agrees with the one
    of string.c unless the destination starts inside the source, above its
    first byte; then it repeats the bytes before the destination instead of
    moving the source. *)
Theorem ulib_memmove_exact m dst src n :
  0 <= n →
  (∀ x, ulib_memmove m dst src n x =
    if decide (dst <= x < dst + n) then m (src + smeared dst src (x - dst)) else m x) ∧
  (¬ (src < dst < src + n) → ∀ x, ulib_memmove m dst src n x = memmove m dst src n x) ∧
  (src < dst < src + n → ∀ x, dst <= x < dst + n →
    ulib_memmove m dst src n x = ulib_memmove m dst src n (src + (x - dst)) ∧
    memmove m dst src n x = m (src + (x - dst))).
Proof.
  intros Hn. unfold ulib_memmove.
  assert (H : ∀ x, copy_up m dst src (Z.to_nat n) x =
    if decide (dst <= x < dst + n) then m (src + smeared dst src (x - dst)) else m x).
  { intros x. rewrite copy_up_smears, Z2Nat.id by done. reflexivity. }
  split; [exact H|]. split.
  - intros Hno x. rewrite H, memmove_copies by done. destruct (decide _); [|reflexivity]. f_equal. unfold smeared.
    destruct (Z.ltb_spec src dst); [|lia]. rewrite Z.mod_small by lia. lia.
  - intros Ho x Hx. rewrite (memmove_copies m dst src n x), decide_True by lia. split; [|reflexivity].
    rewrite !H, decide_True by lia. unfold smeared. rewrite (proj2 (Z.ltb_lt src dst)) by lia.
    destruct (decide (dst <= src + (x - dst) < dst + n)).
    + f_equal. replace (src + (x - dst) - dst) with (x - dst + -1 * (dst - src)) by lia. by rewrite Z.mod_add by lia.
    + rewrite Z.mod_small by lia. reflexivity.
Qed.

(** Three bytes moved up by one. *)
Lemma ulib_memmove_exact_witness :
  let m x := x - 100 in
  ulib_memmove m 101 100 3 103 = 0 ∧ memmove m 101 100 3 103 = 2.
Proof.
  cbv zeta. destruct (ulib_memmove_exact (λ x, x - 100) 101 100 3 ltac:(lia)) as (H1 & _ & H2). split.
  - rewrite H1. reflexivity.
  - exact (proj2 (H2 ltac:(lia) 103 ltac:(lia))).
Defined.
