(* ===== verification/Utils.v ===== *)
(** * User programs: wc.c, cat.c, echo.c, ls.c, gets and strchr of ulib.c

    Strings are lists of bytes without the terminating zero.  What a program
    reads is the list of the results of its [read] calls, [None] for an
    error; what it prints is the list of the bytes. *)

From S2P Require Import Prelude Layout Printf.

(** ** The programs *)

(** The loop of [strchr]; only whether it finds [c] matters here. *)
Fixpoint strchr (s : list Z) (c : Z) : bool :=
  match s with
  | [] => false
  | a :: s' => if a =? c then true else strchr s' c
  end.

(** Space, carriage return, tab, newline, vertical tab. *)
Definition BLANKS : list Z := [32; 13; 9; 10; 11].

Record wcs := Wcs { wc_l : Z; wc_w : Z; wc_c : Z; wc_inword : bool }.

(** A round of the inner loop of [wc]. *)
Definition wc_char (s : wcs) (x : Z) : wcs :=
  let c := s32 (wc_c s + 1) in
  let l := if x =? 10 then s32 (wc_l s + 1) else wc_l s in
  if strchr BLANKS x then Wcs l (wc_w s) c false
  else if negb (wc_inword s) then Wcs l (s32 (wc_w s + 1)) c true
  else Wcs l (wc_w s) c (wc_inword s).

(** The outer loop over the results of [read], [None] for an error; [None]
    when the error ends it.  The end of the list is the end of the file. *)
Fixpoint wc_loop (reads : list (option (list Z))) (s : wcs) : option wcs :=
  match reads with
  | [] => Some s
  | None :: _ => None
  | Some buf :: reads' => if bool_decide (buf = []) then Some s else wc_loop reads' (foldl wc_char s buf)
  end.

(** The two formats of [wc]. *)
Definition WC_ERROR : list Z := [119; 99; 58; 32; 114; 101; 97; 100; 32; 101; 114; 114; 111; 114; 10].
Definition WC_FORMAT : list Z := [37; 100; 32; 37; 100; 32; 37; 100; 32; 37; 115; 10].

(** What [wc] prints, and whether it returns rather than exits. *)
Definition wc (strings : Z → list Z) (name : Z) (reads : list (option (list Z))) : option (list Z * bool) :=
  match wc_loop reads (Wcs 0 0 0 false) with
  | None => out ← printf strings WC_ERROR []; Some (out, false)
  | Some s => out ← printf strings WC_FORMAT [wc_l s; wc_w s; wc_c s; name]; Some (out, true)
  end.

(** [gets] with room for [max - i] more bytes: the bytes stored and the
    input that is left; each [read] takes one byte of [input]. *)
Fixpoint gets_loop (room : nat) (input : list Z) : list Z * list Z :=
  match room, input with
  | S room', c :: input' =>
    if (c =? 10) || (c =? 13) then ([c], input')
    else let r := gets_loop room' input' in (c :: fst r, snd r)
  | _, _ => ([], input)
  end.
Definition gets (max : Z) (input : list Z) : list Z * list Z := gets_loop (Z.to_nat (max - 1)) input.

(** The string that a buffer holds: what stands before the first zero. *)
Fixpoint cstring (buf : list Z) : list Z :=
  match buf with
  | [] => []
  | c :: buf' => if c =? 0 then [] else c :: cstring buf'
  end.

(** The scan of [fmtname] back from the end of [path] to the last slash:
    [rest] is what follows the place it has reached. *)
Fixpoint after_slash (before rest : list Z) : list Z :=
  match before with
  | [] => rest
  | c :: before' => if c =? 47 then rest else after_slash before' (c :: rest)
  end.

Definition fmtname (path : list Z) : list Z :=
  let p := after_slash (reverse path) [] in
  if bool_decide (DIRSIZ <= Z.of_nat (length p)) then p
  else p ++ replicate (Z.to_nat (DIRSIZ - Z.of_nat (length p))) 32.

(** ** cat.c, echo.c and ls.c *)

(** A string constant, character by character. *)
Definition str (s : string) : list Z := (λ c, Z.of_N (Ascii.N_of_ascii c)) <$> String.list_ascii_of_string s.

Section programs.
(** [write(1, buf, n)]: the bytes that come out, and whether it returns
    [n]. *)
Variable write1 : list Z → list Z * bool.
(** [open(name, 0)] with the results of the reads that follow. *)
Variable files : list Z → option (list (option (list Z))).

(** The bytes [cat] puts out, and whether it returns rather than exits. *)
Fixpoint cat (reads : list (option (list Z))) : list Z * bool :=
  match reads with
  | [] => ([], true)
  | None :: _ => (str "cat: read error" ++ [10], false)
  | Some buf :: reads' =>
    if bool_decide (buf = []) then ([], true)
    else
      let w := write1 buf in
      if negb (snd w) then (fst w ++ str "cat: write error" ++ [10], false)
      else let r := cat reads' in (fst w ++ fst r, snd r)
  end.

(** [main] of cat.c on the arguments behind the name of the program, and on
    the standard input when there are none. *)
Fixpoint cat_files (args : list (list Z)) : list Z :=
  match args with
  | [] => []
  | name :: args' =>
    match files name with
    | None => str "cat: cannot open " ++ name ++ [10]
    | Some reads => let r := cat reads in if snd r then fst r ++ cat_files args' else fst r
    end
  end.
Definition cat_main (input : list (option (list Z))) (args : list (list Z)) : list Z :=
  if bool_decide (args = []) then fst (cat input) else cat_files args.

(** [main] of echo.c; [%s%s] with the argument and a blank or newline. *)
Fixpoint echo (args : list (list Z)) : option (list Z) :=
  match args with
  | [] => Some []
  | a :: args' =>
    o ← printf (λ p, if p =? 1 then a else if p =? 2 then [32] else [10]) (str "%s%s")
          [1; if bool_decide (args' = []) then 3 else 2];
    app o <$> echo args'
  end.

(** Type, inode number and size, as [stat] finds them for a path. *)
Variable stats : list Z → option (Z * Z * Z).

(** The line of [ls] for a path. *)
Definition ls_line (path : list Z) (st : Z * Z * Z) : option (list Z) :=
  let '(type, ino, size) := st in
  printf (λ _, fmtname path) (str "%s %d %d %d" ++ [10]) [1; type; ino; size].

(** The loop over the entries of the directory [path], each a number and 14
    bytes of name. *)
Fixpoint ls_entries (path : list Z) (entries : list (Z * list Z)) : option (list Z) :=
  match entries with
  | [] => Some []
  | (inum, name) :: entries' =>
    if inum =? 0 then ls_entries path entries'
    else
      let buf := path ++ [47] ++ cstring name in
      o ← match stats buf with
          | None => printf (λ _, buf) (str "ls: cannot stat %s" ++ [10]) [1]
          | Some st => ls_line buf st
          end;
      app o <$> ls_entries path entries'
  end.

(** [ls]: [st] is what [open] and [fstat] find, with the entries of a
    directory. *)
Definition ls (path : list Z) (st : option (option (Z * Z * Z))) (entries : list (Z * list Z)) : option (list Z) :=
  match st with
  | None => printf (λ _, path) (str "ls: cannot open %s" ++ [10]) [1]
  | Some None => printf (λ _, path) (str "ls: cannot stat %s" ++ [10]) [1]
  | Some (Some (type, ino, size)) =>
    if type =? T_FILE then ls_line path (type, ino, size)
    else if type =? T_DIR then
      if Z.of_nat (length path) + 1 + DIRSIZ + 1 >? 512 then printf (λ _, path) (str "ls: path too long" ++ [10]) []
      else ls_entries path entries
    else Some []
  end.
End programs.

(** ** What [wc] counts *)

(** The words of a text: the longest runs of bytes that are not blank;
    [w] is the word that the text continues. *)
Fixpoint words (w s : list Z) : list (list Z) :=
  match s with
  | [] => if bool_decide (w = []) then [] else [w]
  | x :: s' =>
    if bool_decide (x ∈ BLANKS) then (if bool_decide (w = []) then words [] s' else w :: words [] s')
    else words (w ++ [x]) s'
  end.

Definition newlines (s : list Z) : Z := Z.of_nat (length (filter (.= 10) s)).

Lemma strchr_elem s c : strchr s c = bool_decide (c ∈ s).
Proof.
  induction s as [|a s IH]; cbn [strchr]; [symmetry; apply bool_decide_eq_false; set_solver|].
  destruct (Z.eqb_spec a c) as [->|Hn]; [symmetry; apply bool_decide_eq_true; set_solver|].
  rewrite IH. apply bool_decide_ext. set_solver.
Qed.

(** The number of words that start in [s], when [inword] tells whether [s]
    continues a word. *)
Definition starts (inword : bool) (s : list Z) : Z :=
  Z.of_nat (length (words (if inword then [0] else []) s)) - Z.b2z inword.

Lemma words_length w s : w ≠ [] → length (words w s) = length (words [0] s).
Proof.
  assert (G : ∀ v w, v ≠ [] → w ≠ [] → length (words w s) = length (words v s)); [|by intros; apply G].
  clear w. induction s as [|x s IH]; intros v w Hv Hw; cbn [words].
  - by rewrite !bool_decide_eq_false_2.
  - destruct (bool_decide (x ∈ BLANKS)); [by rewrite !bool_decide_eq_false_2|].
    apply IH; by destruct v, w.
Qed.

Lemma starts_cons inword x s :
  starts inword (x :: s) =
    if bool_decide (x ∈ BLANKS) then starts false s
    else starts true s + Z.b2z (negb inword).
Proof.
  unfold starts. cbn [words]. destruct (bool_decide (x ∈ BLANKS)).
  - destruct inword; cbn [length bool_decide Z.b2z]; [|done].
    rewrite bool_decide_eq_false_2 by done. cbn [length]. lia.
  - rewrite words_length by (by destruct inword). destruct inword; cbn [Z.b2z negb]; lia.
Qed.

(** The counters agree with the counts as long as they fit. *)
Definition counted (s s' : wcs) (text : list Z) : Prop :=
  wc_l s' = wc_l s + newlines text ∧ wc_w s' = wc_w s + starts (wc_inword s) text ∧
  wc_c s' = wc_c s + Z.of_nat (length text).

Lemma wc_chars text : ∀ s,
  0 <= wc_l s <= wc_c s → 0 <= wc_w s <= wc_c s → wc_c s + Z.of_nat (length text) < 2 ^ 31 →
  counted s (foldl wc_char s text) text ∧
  0 <= wc_l (foldl wc_char s text) <= wc_c (foldl wc_char s text) ∧
  0 <= wc_w (foldl wc_char s text) <= wc_c (foldl wc_char s text).
Proof.
  induction text as [|x text IH]; intros s Hl Hw Hc; cbn [foldl length] in *.
  { unfold counted, newlines, starts. cbn. destruct (wc_inword s); cbn; lia. }
  assert (Hn : newlines (x :: text) = Z.b2z (x =? 10) + newlines text).
  { unfold newlines. rewrite filter_cons. case_decide; destruct (Z.eqb_spec x 10); cbn [Z.b2z length]; lia. }
  destruct (IH (wc_char s x)) as ((E1 & E2 & E3) & I1 & I2);
    [..|split; [unfold counted; rewrite E1, E2, E3, Hn, starts_cons|done]];
    unfold wc_char; rewrite !strchr_elem, !s32_id by lia;
    destruct (Z.eqb_spec x 10), (bool_decide (x ∈ BLANKS)), (wc_inword s);
    cbn [wc_l wc_w wc_c wc_inword negb Z.b2z length]; try lia.
Qed.

Lemma wc_loop_reads bufs rest : ∀ s, Forall (.≠ []) bufs →
  wc_loop ((Some <$> bufs) ++ rest) s = wc_loop rest (foldl wc_char s (concat bufs)).
Proof.
  induction bufs as [|buf bufs IH]; intros s Hf; [done|]. apply Forall_cons in Hf as [Hb Hf].
  cbn [fmap list_fmap app wc_loop concat]. by rewrite bool_decide_eq_false_2, foldl_app, IH.
Qed.

(** [wc] counts what it reads: however the bytes of a file are cut into
    the results of [read], it returns after printing three decimal numbers,
    which read back as the number of newlines, of words (longest runs of
    bytes that are not blank) and of bytes, and then the name; this holds
    for every file of less than [2^31] bytes.  When a [read] fails before the
    end it prints only the error message and exits. *)
Theorem wc_counts strings name bufs :
  let text := concat bufs in
  Forall (.≠ []) bufs → Z.of_nat (length text) < 2 ^ 31 →
  (∃ l w c, wc strings name (Some <$> bufs) =
      Some (l ++ [32] ++ w ++ [32] ++ c ++ [32] ++ string_arg strings name ++ [10], true) ∧
    atoi l = newlines text ∧ atoi w = Z.of_nat (length (words [] text)) ∧
    atoi c = Z.of_nat (length text)) ∧
  wc strings name ((Some <$> bufs) ++ [None]) = Some (WC_ERROR, false).
Proof.
  intros text Hb Hlen. split; unfold wc; [rewrite <-(app_nil_r (Some <$> bufs))|]; rewrite wc_loop_reads by done; [|done].
  fold text. destruct (wc_chars text (Wcs 0 0 0 false)) as ((E1 & E2 & E3) & I1 & I2); [cbn; lia..|].
  set (s := foldl _ _ text) in *. cbn [wc_l wc_w wc_c wc_inword] in E1, E2, E3. unfold starts in E2. cbn [Z.b2z] in E2.
  cbn [wc_loop].
  destruct (atoi_printint (wc_l s)) as (l & Pl & Al); [lia|].
  destruct (atoi_printint (wc_w s)) as (w & Pw & Aw); [lia|].
  destruct (atoi_printint (wc_c s)) as (c & Pc & Ac); [lia|].
  exists l, w, c. split; [|lia].
  unfold printf, WC_FORMAT. cbn -[printint s32 string_arg]. rewrite !s32_id by lia.
  rewrite Pl, Pw, Pc. cbn -[string_arg]. by rewrite <-?app_assoc.
Qed.

Lemma wc_counts_witness :
  (∃ l w c, wc (λ _, [102]) 1 (Some <$> [[97; 98; 32]; [99]; [100; 10; 10; 101]]) =
      Some (l ++ [32] ++ w ++ [32] ++ c ++ [32] ++ [102] ++ [10], true) ∧
    atoi l = 2 ∧ atoi w = 3 ∧ atoi c = 8) ∧
  wc (λ _, [102]) 1 ((Some <$> [[97; 98; 32]; [99]; [100; 10; 10; 101]]) ++ [None]) = Some (WC_ERROR, false).
Proof.
  apply (wc_counts (λ _, [102]) 1 [[97; 98; 32]; [99]; [100; 10; 10; 101]]); [repeat constructor; done|reflexivity].
Defined.

(** ** [gets] and [fmtname] *)

(** [gets] stores a prefix of the input that fits in [buf] with its zero and
    leaves the rest; no line end is inside it, and it stops short only at a
    line end or at the end of the input. *)
Lemma gets_line max input :
  1 <= max →
  let r := gets max input in
  let eol c := c = 10 ∨ c = 13 in
  input = fst r ++ snd r ∧ Z.of_nat (length (fst r)) < max ∧
  (∀ l c k, fst r = l ++ c :: k → eol c → k = []) ∧
  (Z.of_nat (length (fst r)) = max - 1 ∨ snd r = [] ∨ ∃ l c, fst r = l ++ [c] ∧ eol c).
Proof.
  intros Hm r eol. subst r. unfold gets. remember (Z.to_nat (max - 1)) as room eqn:Er.
  assert (Hr : max = Z.of_nat room + 1) by lia. clear Er. revert max Hm Hr input.
  induction room as [|room IH]; intros max Hm Hr input; cbn [gets_loop].
  { repeat split; [cbn; lia| |left; cbn; lia]. intros l c k E. by destruct l. }
  destruct input as [|x input]; cbn [gets_loop].
  { repeat split; [cbn; lia| |by right; left]. intros l c k E. by destruct l. }
  destruct (Z.eqb_spec x 10) as [Hx|Hx], (Z.eqb_spec x 13) as [Hy|Hy]; cbn [orb fst snd].
  4: { destruct (IH (max - 1) ltac:(lia) ltac:(lia) input) as (E & L & P & D).
       repeat split; [by cbn; rewrite <-E|cbn; lia| |].
       - intros l c k Ek Hc. destruct l as [|? l]; injection Ek; intros; subst; [by destruct Hc|by eapply P].
       - destruct D as [D|[D|(l & c & D & Hc)]]; [left; cbn; lia|by right; left|].
         right; right. exists (x :: l), c. by rewrite D. }
  all: repeat split; [cbn; lia| |right; right; exists [], x; split; [done|unfold eol; lia]];
    intros [|? [|]] c k E; by simplify_eq/=.
Qed.

(** A line that fits is read whole. *)
Lemma gets_whole max body rest :
  Forall (λ c, c ≠ 10 ∧ c ≠ 13) body → Z.of_nat (length body) + 1 < max →
  gets max (body ++ [10] ++ rest) = (body ++ [10], rest).
Proof.
  intros Hb Hm. unfold gets. assert (H : (length body < Z.to_nat (max - 1))%nat) by lia. revert H.
  generalize (Z.to_nat (max - 1)). clear Hm max. induction Hb as [|c body [H1 H2] Hb IH]; intros [|room] Hl; cbn in Hl; [lia|done|lia|].
  cbn [app gets_loop]. rewrite (proj2 (Z.eqb_neq _ _) H1), (proj2 (Z.eqb_neq _ _) H2). cbn [orb].
  cbn [app] in IH. by rewrite IH by lia.
Qed.

(** A longer one is cut. *)
Lemma gets_cut max body rest :
  Forall (λ c, c ≠ 10 ∧ c ≠ 13) body → Z.of_nat (length body) + 1 = max →
  gets max (body ++ rest) = (body, rest).
Proof.
  intros Hb Hm. unfold gets. replace (Z.to_nat (max - 1)) with (length body) by lia. clear Hm max.
  induction Hb as [|c body [H1 H2] Hb IH]; [done|].
  cbn [app length gets_loop]. rewrite (proj2 (Z.eqb_neq _ _) H1), (proj2 (Z.eqb_neq _ _) H2). cbn [orb]. by rewrite IH.
Qed.

Lemma cstring_id s : Forall (.≠ 0) s → cstring s = s.
Proof. induction 1 as [|c s Hc Hs IH]; [done|]. cbn. by rewrite (proj2 (Z.eqb_neq _ _) Hc), IH. Qed.

(** [fmtname] gives the part after the last slash, padded with blanks to
    the width of a directory entry's name. *)
Lemma fmtname_last dir name :
  47 ∉ name → (dir = [] ∨ ∃ d, dir = d ++ [47]) →
  fmtname (dir ++ name) = name ++ replicate (Z.to_nat (DIRSIZ - Z.of_nat (length name))) 32.
Proof.
  intros Hn Hd. unfold fmtname.
  assert (E : ∀ rest, after_slash (reverse name ++ reverse dir) rest = name ++ rest).
  { induction name as [|c name IH] using rev_ind; intros rest.
    - destruct Hd as [->|[d ->]]; [done|]. by rewrite reverse_snoc.
    - rewrite reverse_snoc. cbn [app after_slash]. destruct (Z.eqb_spec c 47) as [->|]; [set_solver|].
      rewrite IH by set_solver. by rewrite <-app_assoc. }
  rewrite reverse_app, E, app_nil_r. case_bool_decide as Hl; [|done].
  replace (Z.to_nat _) with O by lia. by rewrite app_nil_r.
Qed.

(** ** [cat], [echo] and [ls] *)

Section program_specs.
Variable write1 : list Z → list Z * bool.

Lemma cat_copies bufs :
  Forall (.≠ []) bufs → (∀ buf, write1 buf = (buf, true)) → cat write1 (Some <$> bufs) = (concat bufs, true).
Proof.
  intros Hb Hw. induction Hb as [|buf bufs Hb Hbs IH]; [reflexivity|].
  rewrite fmap_cons. cbn [cat concat]. rewrite bool_decide_eq_false_2, Hw by done. cbn [fst snd negb]. by rewrite IH.
Qed.

(** [cat] puts out the files one after another, however they are read. *)
Lemma cat_files_concat files contents :
  (∀ buf, write1 buf = (buf, true)) →
  Forall (λ '(name, bufs), files name = Some (Some <$> bufs) ∧ Forall (.≠ []) bufs) contents →
  cat_files write1 files contents.*1 = concat (@concat Z <$> contents.*2).
Proof.
  intros Hw Hc. induction Hc as [|[name bufs] contents [Hf Hb] Hc IH]; [reflexivity|].
  rewrite !fmap_cons. cbn [fst snd cat_files concat]. rewrite Hf, cat_copies by done. cbn [fst snd]. by rewrite IH.
Qed.
End program_specs.

(** [echo] puts out its arguments with single blanks between them and a
    newline at the end. *)
Fixpoint joined (args : list (list Z)) : list Z :=
  match args with
  | [] => []
  | [a] => a ++ [10]
  | a :: args' => a ++ [32] ++ joined args'
  end.

Lemma echo_joins args : echo args = Some (joined args).
Proof.
  induction args as [|a args IH]; [reflexivity|]. cbn [echo]. rewrite IH.
  change (str "%s%s") with [37; 115; 37; 115]. unfold printf, string_arg.
  destruct args as [|b args]; cbn -[joined]; [by rewrite app_nil_r|].
  change (joined (a :: b :: args)) with (a ++ [32] ++ joined (b :: args)). by rewrite <-app_assoc.
Qed.

(** A line of [ls]: the last element of the path, padded, and the three
    numbers. *)
Lemma ls_line_shows path type ino size :
  0 <= type < 2 ^ 31 → 0 <= ino < 2 ^ 31 → 0 <= size < 2 ^ 31 →
  ∃ a b c, ls_line path (type, ino, size) = Some (fmtname path ++ [32] ++ a ++ [32] ++ b ++ [32] ++ c ++ [10]) ∧
    atoi a = type ∧ atoi b = ino ∧ atoi c = size.
Proof.
  intros Ht Hi Hs. destruct (atoi_printint type Ht) as (a & Pa & Aa). destruct (atoi_printint ino Hi) as (b & Pb & Ab).
  destruct (atoi_printint size Hs) as (c & Pc & Ac). exists a, b, c. split; [|done].
  unfold ls_line, printf. change (str "%s %d %d %d" ++ [10]) with [37; 115; 32; 37; 100; 32; 37; 100; 32; 37; 100; 10].
  cbn -[printint s32 fmtname]. rewrite !s32_id by lia. rewrite Pa, Pb, Pc. cbn -[fmtname].
  by rewrite <-?app_assoc.
Qed.

(** [ls] of a directory puts out one line for each entry in use, in order. *)
Lemma ls_lists stats path entries lines :
  Z.of_nat (length path) <= 496 →
  Forall2 (λ e line, ∃ st, stats (path ++ [47] ++ cstring e.2) = Some st ∧
    ls_line (path ++ [47] ++ cstring e.2) st = Some line) (filter (λ e, e.1 ≠ 0) entries) lines →
  ∀ ino size, ls stats path (Some (Some (T_DIR, ino, size))) entries = Some (concat lines).
Proof.
  intros Hp Hl ino size. unfold ls. change (T_DIR =? T_FILE) with false. change (T_DIR =? T_DIR) with true. cbn iota.
  rewrite Z.gtb_ltb, (proj2 (Z.ltb_ge _ _)) by (unfold DIRSIZ; lia). revert lines Hl.
  induction entries as [|[inum name] entries IH]; intros lines Hl; cbn [ls_entries].
  { inversion Hl. reflexivity. }
  rewrite filter_cons in Hl. cbn [fst] in Hl. destruct (Z.eqb_spec inum 0) as [->|Hne].
  - rewrite decide_False in Hl by lia. by apply IH.
  - rewrite decide_True in Hl by done. inversion Hl as [|? line ? lines' (st & E1 & E2) Hl']; subst. cbn [snd] in E1, E2.
    rewrite E1, E2. cbn [mbind option_bind]. rewrite (IH _ Hl'). reflexivity.
Qed.
