(* ===== verification/ShRun.v ===== *)
(** * sh.c: running commands

    [runcmd] and [main] as programs that make system calls: a tree with a
    node for each call and a branch for each result.  [run] executes such a
    program and the processes it forks on their descriptor tables, with the
    scan for a free descriptor of sysfile.c; it collects the programs that
    are executed, each with its descriptors.  The result is compared with
    what a command means: redirections replace a descriptor, a pipeline
    connects two, and nothing else is left open. *)

From S2P Require Import Prelude Layout Sysfile Sh ShSpec ShPrint Utils.

(** ** Programs *)

Inductive prog :=
| Exit
| Close (fd : Z) (k : prog)
| Dup (fd : Z) (k : prog)
| Open (file : list Z) (mode : Z) (k : Z → prog)
| Pipe (k : option (Z * Z) → prog)
| Fork (k : Z → prog)
| Wait (k : prog)
| Exec (argv : list (list Z)) (k : prog)
| Chdir (dir : list Z) (k : Z → prog)
| Print (fd : Z) (s : list Z) (k : prog).

Definition bytes (s : string) : list Z :=
  (λ c, Z.of_N (Ascii.N_of_ascii c)) <$> String.list_ascii_of_string s.
Definition NEWL : list Z := [10].

Definition panic (s : string) : prog := Print 2 (bytes s ++ NEWL) Exit.

Definition fork1 (k : Z → prog) : prog :=
  Fork (λ pid, if pid =? -1 then panic "fork" else k pid).

Fixpoint runcmd (cmd : tree (list Z)) : prog :=
  match cmd with
  | EXEC argv =>
    match argv with
    | [] => Exit
    | a :: _ => Exec argv (Print 2 (bytes "exec " ++ a ++ bytes " failed" ++ NEWL) Exit)
    end
  | REDIR c file mode fd =>
    Close fd (Open file mode (λ r,
      if r <? 0 then Print 2 (bytes "open " ++ file ++ bytes " failed" ++ NEWL) Exit else runcmd c))
  | LIST l r =>
    fork1 (λ pid, if pid =? 0 then runcmd l else Wait (runcmd r))
  | PIPE l r =>
    Pipe (λ p,
      match p with
      | None => panic "pipe"
      | Some (p0, p1) =>
        fork1 (λ pid,
          if pid =? 0 then Close 1 (Dup p1 (Close p0 (Close p1 (runcmd l))))
          else
            fork1 (λ pid,
              if pid =? 0 then Close 0 (Dup p0 (Close p0 (Close p1 (runcmd r))))
              else Close p0 (Close p1 (Wait (Wait Exit)))))
      end)
  | BACK c =>
    fork1 (λ pid, if pid =? 0 then runcmd c else Exit)
  end.

(** The loop that opens the console until descriptors 0 to 2 are open. *)
Fixpoint open_console (fuel : nat) (k : prog) : prog :=
  match fuel with
  | O => Exit
  | S fuel' =>
    Open (bytes "console") O_RDWR (λ fd,
      if fd <? 0 then k else if fd >=? 3 then Close fd k else open_console fuel' k)
  end.

(** The child that runs a line. *)
Definition run_line (buf : list Z) : prog :=
  match parsecmd buf with
  | Parsed (c, _) _ => runcmd (resolve buf c)
  | Syntax msg => panic msg
  | NoFuel => Exit
  end.

(** [getcmd] without its prompt: the line in [buf], [None] for [-1], and
    the input that is left. *)
Definition getcmd (nbuf : Z) (input : list Z) : option (list Z) * list Z :=
  let r := gets nbuf input in
  let buf := cstring (fst r) in
  (if bool_decide (buf = []) then None else Some buf, snd r).

(** The loop of [main], for at most [fuel] lines. *)
Fixpoint sh_loop (fuel : nat) (input : list Z) : prog :=
  match fuel with
  | O => Exit
  | S fuel' =>
    Print 2 (bytes "$ ")
    match getcmd 100 input with
    | (None, _) => Exit
    | (Some buf, input) =>
      if bool_decide (take 3 buf = bytes "cd ") then
        let dir := drop 3 (take (length buf - 1) buf) in
        Chdir dir (λ r,
          if r <? 0 then Print 2 (bytes "cannot cd " ++ dir ++ NEWL) (sh_loop fuel' input)
          else sh_loop fuel' input)
      else fork1 (λ pid, if pid =? 0 then run_line buf else Wait (sh_loop fuel' input))
    end
  end.

(** Every line takes a byte of the input. *)
Definition sh_main (input : list Z) : prog :=
  open_console 4 (sh_loop (S (length input)) input).

(** ** Execution *)

Inductive obj := OFile (name : list Z) (mode : Z) | OPipeR (id : nat) | OPipeW (id : nat) | OOther (n : nat).
Definition fds : Type := list (option obj).

(** A program that is executed, with its descriptors. *)
Definition job : Type := list (list Z) * fds.

Section run.
Variable openable : list Z → Z → bool.      (* open finds the file *)
Variable runnable : list (list Z) → bool.   (* exec succeeds *)

(** A process and, at each fork, its child first; there are enough
    processes, and pipes are numbered from [n] on. *)
Fixpoint run (p : prog) (t : fds) (n : nat) : list job * nat :=
  match p with
  | Exit => ([], n)
  | Close fd k => run k (<[Z.to_nat fd := None]> t) n
  | Dup fd k =>
    match t !! Z.to_nat fd, free_fd t 0 with
    | Some (Some o), Some i => run k (<[i := Some o]> t) n
    | _, _ => run k t n
    end
  | Open file mode k =>
    match free_fd t 0 with
    | Some i =>
      if openable file mode then run (k (Z.of_nat i)) (<[i := Some (OFile file mode)]> t) n
      else run (k (-1)) t n
    | None => run (k (-1)) t n
    end
  | Pipe k =>
    match free_fd t 0 with
    | None => run (k None) t n
    | Some i =>
      let t1 := <[i := Some (OPipeR n)]> t in
      match free_fd t1 0 with
      | None => run (k None) t n
      | Some j => run (k (Some (Z.of_nat i, Z.of_nat j))) (<[j := Some (OPipeW n)]> t1) (S n)
      end
    end
  | Fork k =>
    let '(l1, n1) := run (k 0) t n in
    let '(l2, n2) := run (k 1) t n1 in (l1 ++ l2, n2)
  | Wait k => run k t n
  | Exec argv k => if runnable argv then ([(argv, t)], n) else run k t n
  | Chdir _ k => run (k 0) t n
  | Print _ _ k => run k t n
  end.

(** ** What a command means *)

(** Three descriptors in a table of [NOFILE]. *)
Record io := Io { io_in : obj; io_out : obj; io_err : obj }.
Definition tab (s : io) : fds :=
  Some (io_in s) :: Some (io_out s) :: Some (io_err s) :: replicate (NOFILE - 3) None.

Fixpoint meaning (c : tree (list Z)) (s : io) (n : nat) : list job * nat :=
  match c with
  | EXEC argv => (if bool_decide (argv ≠ []) && runnable argv then [(argv, tab s)] else [], n)
  | REDIR c file mode fd =>
    if openable file mode then
      meaning c (if fd =? 0 then Io (OFile file mode) (io_out s) (io_err s)
                 else Io (io_in s) (OFile file mode) (io_err s)) n
    else ([], n)
  | LIST l r =>
    let '(l1, n1) := meaning l s n in
    let '(l2, n2) := meaning r s n1 in (l1 ++ l2, n2)
  | PIPE l r =>
    let '(l1, n1) := meaning l (Io (io_in s) (OPipeW n) (io_err s)) (S n) in
    let '(l2, n2) := meaning r (Io (OPipeR n) (io_out s) (io_err s)) n1 in (l1 ++ l2, n2)
  | BACK c => meaning c s n
  end.

(** Redirections are of the standard input or output. *)
Fixpoint std_redirs (c : tree (list Z)) : Prop :=
  match c with
  | EXEC _ => True
  | REDIR c _ _ fd => (fd = 0 ∨ fd = 1) ∧ std_redirs c
  | LIST l r | PIPE l r => std_redirs l ∧ std_redirs r
  | BACK c => std_redirs c
  end.

Lemma run_fork1 k t n :
  run (fork1 k) t n = let '(l1, n1) := run (k 0) t n in let '(l2, n2) := run (k 1) t n1 in (l1 ++ l2, n2).
Proof. done. Qed.

(** The descriptors while a pipeline is set up. *)
Definition with_pipe (s : io) (m : nat) : fds := <[4%nat := Some (OPipeW m)]> (<[3%nat := Some (OPipeR m)]> (tab s)).

Lemma run_pipe k s n : run (Pipe k) (tab s) n = run (k (Some (3, 4))) (with_pipe s n) (S n).
Proof. done. Qed.
Lemma run_left p s m n :
  run (Close 1 (Dup 4 (Close 3 (Close 4 p)))) (with_pipe s m) n = run p (tab (Io (io_in s) (OPipeW m) (io_err s))) n.
Proof. done. Qed.
Lemma run_right p s m n :
  run (Close 0 (Dup 3 (Close 3 (Close 4 p)))) (with_pipe s m) n = run p (tab (Io (OPipeR m) (io_out s) (io_err s))) n.
Proof. done. Qed.

Lemma runcmd_meaning c : ∀ s n, std_redirs c → run (runcmd c) (tab s) n = meaning c s n.
Proof.
  induction c as [argv|c IH file mode fd|l IHl r IHr|l IHl r IHr|c IH]; intros s n Hc; cbn [std_redirs] in Hc;
    cbn [runcmd meaning].
  - destruct argv as [|a argv]; [done|]. cbn [run].
    rewrite bool_decide_true by done. cbn [andb]. by destruct (runnable _).
  - destruct Hc as [[-> | ->] Hc]; cbn [run].
    + change (free_fd (<[Z.to_nat 0 := None]> (tab s)) 0) with (Some 0%nat). cbn iota.
      destruct (openable file mode); [|done]. apply (IH (Io (OFile file mode) (io_out s) (io_err s)) n Hc).
    + change (free_fd (<[Z.to_nat 1 := None]> (tab s)) 0) with (Some 1%nat). cbn iota.
      destruct (openable file mode); [|done]. apply (IH (Io (io_in s) (OFile file mode) (io_err s)) n Hc).
  - destruct Hc as [Hl Hr]. rewrite run_pipe, run_fork1. change (0 =? 0) with true. change (1 =? 0) with false.
    cbn iota. rewrite run_left, IHl by done. destruct (meaning l _ _) as [l1 n1].
    rewrite run_fork1. change (0 =? 0) with true. change (1 =? 0) with false. cbn iota.
    rewrite run_right, IHr by done. destruct (meaning r _ _) as [l2 n2]. cbn [run]. by rewrite app_nil_r.
  - destruct Hc as [Hl Hr]. rewrite run_fork1. change (0 =? 0) with true. change (1 =? 0) with false.
    cbn iota. rewrite IHl by done. destruct (meaning l _ _) as [l1 n1]. cbn [run]. by rewrite IHr.
  - rewrite run_fork1. change (0 =? 0) with true. change (1 =? 0) with false. cbn iota. rewrite IH by done.
    destruct (meaning c _ _) as [l1 n1]. cbn [run]. by rewrite app_nil_r.
Qed.

Lemma resolve_std buf c : cmd_ok buf c → std_redirs (resolve buf c).
Proof. induction c; cbn [cmd_ok resolve std_redirs]; naive_solver. Qed.

(** What the lines given to the shell mean: those that start with "cd " run
    nothing, nor do lines with a syntax error. *)
Fixpoint lines_meaning (lines : list (list Z)) (s : io) (n : nat) : list job * nat :=
  match lines with
  | [] => ([], n)
  | buf :: lines =>
    if bool_decide (take 3 buf = bytes "cd ") then lines_meaning lines s n
    else
      let '(l1, n1) :=
        match parsecmd buf with
        | Parsed (c, _) _ => meaning (resolve buf c) s n
        | _ => ([], n)
        end in
      let '(l2, n2) := lines_meaning lines s n1 in (l1 ++ l2, n2)
  end.

(** A line that fits into the buffer of the shell. *)
Definition cmdline (l : list Z) : Prop :=
  ∃ body, l = body ++ NEWL ∧ Forall (λ c, c ≠ 0 ∧ c ≠ 10 ∧ c ≠ 13) body ∧ (length body <= 98)%nat.

Lemma cmdline_nonzero l : cmdline l → Forall (.≠ 0) l.
Proof.
  intros (body & -> & Hb & _). apply Forall_app. split; [|by repeat constructor].
  eapply Forall_impl; [exact Hb|]. naive_solver.
Qed.

Lemma getcmd_line l rest : cmdline l → getcmd 100 (l ++ rest) = (Some l, rest).
Proof.
  intros Hl. pose proof (cstring_id l (cmdline_nonzero l Hl)) as Hc. destruct Hl as (body & -> & Hb & Hlen).
  unfold getcmd, NEWL in *. rewrite <-app_assoc, gets_whole; [|eapply Forall_impl; [exact Hb|naive_solver]|lia].
  cbn [fst snd]. rewrite Hc, bool_decide_eq_false_2; [done|]. by destruct body.
Qed.

(** Of a longer line the first 99 characters are a command, and the rest is
    another. *)
Lemma getcmd_long body rest :
  Forall (λ c, c ≠ 0 ∧ c ≠ 10 ∧ c ≠ 13) body → length body = 99%nat →
  getcmd 100 (body ++ rest) = (Some body, rest).
Proof.
  intros Hb Hl. unfold getcmd. rewrite gets_cut; [|eapply Forall_impl; [exact Hb|naive_solver]|lia].
  cbn [fst snd]. rewrite cstring_id by (eapply Forall_impl; [exact Hb|naive_solver]).
  rewrite bool_decide_eq_false_2; [done|]. by destruct body.
Qed.

Lemma sh_loop_meaning lines : ∀ fuel s n,
  Forall cmdline lines → (length lines < fuel)%nat →
  run (sh_loop fuel (mjoin lines)) (tab s) n = lines_meaning lines s n.
Proof.
  induction lines as [|buf lines IH]; intros [|fuel] s n Hl Hf; cbn in Hf; [lia|done|lia|]. apply Forall_cons in Hl as [Hb Hl].
  cbn [sh_loop lines_meaning run mjoin list_join]. rewrite getcmd_line by done.
  destruct (bool_decide (take 3 buf = _)); [cbn [run]; change (0 <? 0) with false; apply IH; [done|lia]|].
  rewrite run_fork1. change (0 =? 0) with true. change (1 =? 0) with false. cbn iota.
  assert (E : run (run_line buf) (tab s) n =
    match parsecmd buf with Parsed (c, _) _ => meaning (resolve buf c) s n | _ => ([], n) end).
  { unfold run_line. pose proof (parsecmd_ok buf (cmdline_nonzero _ Hb)) as H.
    destruct (parsecmd buf) as [[c b] i|msg|]; [|done|done]. apply runcmd_meaning, resolve_std, H. }
  rewrite E. destruct (match parsecmd buf with Parsed _ _ => _ | _ => _ end) as [l1 n1]. cbn [run].
  rewrite IH by (done || lia). done.
Qed.

Lemma cmdlines_length lines : Forall cmdline lines → (length lines <= length (mjoin lines))%nat.
Proof.
  induction 1 as [|l lines (body & -> & _) Hl IH]; [done|].
  change (mjoin ((body ++ NEWL) :: lines)) with ((body ++ NEWL) ++ mjoin lines).
  rewrite !length_app. unfold NEWL. cbn [length]. lia.
Qed.

(** The table the shell is started with: some of the first three
    descriptors may be closed. *)
Definition start_tab (a b c : option obj) : fds := a :: b :: c :: replicate (NOFILE - 3) None.
Definition console (a : option obj) : obj := default (OFile (bytes "console") O_RDWR) a.

Lemma open_console_round fuel k t n i :
  openable (bytes "console") O_RDWR = true → free_fd t 0 = Some i →
  run (open_console (S fuel) k) t n =
    let t' := <[i := Some (OFile (bytes "console") O_RDWR)]> t in
    if (3 <=? i)%nat then run k (<[i := None]> t') n else run (open_console fuel k) t' n.
Proof.
  intros Ho Hi. cbn [open_console run]. rewrite Hi, Ho. rewrite (proj2 (Z.ltb_ge _ _)), Z.geb_leb by lia.
  destruct (Nat.leb_spec 3 i), (Z.leb_spec 3 (Z.of_nat i)); try lia; [|done]. cbn [run]. by rewrite Nat2Z.id.
Qed.

Lemma sh_start a b c k n :
  openable (bytes "console") O_RDWR = true →
  run (open_console 4 k) (start_tab a b c) n = run k (tab (Io (console a) (console b) (console c))) n.
Proof.
  intros Ho. destruct a, b, c; repeat (erewrite open_console_round; [|exact Ho|reflexivity]; cbv zeta;
    match goal with |- context [(3 <=? ?i)%nat] => let v := eval vm_compute in (3 <=? i)%nat in
      change (3 <=? i)%nat with v; cbn iota end); done.
Qed.

End run.

(** [cd x], then [ls|wc >f], then [ls;]. *)
Definition demo_lines : list (list Z) :=
  (λ s, bytes s ++ NEWL) <$> ["cd x"; "ls|wc >f"; "ls;"]%string.

