(* ===== verification/Umalloc.v ===== *)
(** * umalloc.c: the memory allocator of user programs

    The free blocks form a circular list through the headers in the memory
    of the program; a header is a word for the pointer and a word for the
    size in units of headers.  [base] is the address of the static header.
    What [sbrk] does to the size of the process is that of sys_sbrk and
    growproc; whether the kernel has the pages is the parameter [grant], of
    the old and the new size.  [malloc] relies on no content of new pages. *)

From S2P Require Import Prelude Str Mmu Kalloc.

(** sizeof(Header) *)
Definition HEADER : Z := 8.

Record uheap := UHeap { u_mem : mem; freep : Z; u_sz : Z }.

Definition h_ptr (a : Z) : M uheap Z := gets (λ s, load_word (u_mem s) a).
Definition h_size (a : Z) : M uheap Z := gets (λ s, load_word (u_mem s) (a + 4)).
Definition set_ptr (a v : Z) : M uheap unit :=
  modify (λ s, UHeap (store_word (u_mem s) a v) (freep s) (u_sz s)).
Definition set_size (a v : Z) : M uheap unit :=
  modify (λ s, UHeap (store_word (u_mem s) (a + 4) v) (freep s) (u_sz s)).
Definition set_freep (p : Z) : M uheap unit := modify (λ s, UHeap (u_mem s) p (u_sz s)).
Definition set_usz (n : Z) : M uheap unit := modify (λ s, UHeap (u_mem s) (freep s) n).

(** More steps than the list has blocks. *)
Definition list_fuel (s : uheap) : nat := 4 + Z.to_nat (u_sz s / HEADER).

Section umalloc_code.
Variable base : Z.
Variable grant : Z → Z → bool.

(** The address that the system call returns, as a pointer. *)
Definition sbrk (n : Z) : M uheap Z :=
  sz ← gets u_sz;
  if n >? 0 then
    if (u32 (sz + n) >=? KERNBASE) || negb (grant sz (u32 (sz + n))) then mret (u32 (-1))
    else set_usz (u32 (sz + n));; mret sz
  else if n <? 0 then
    let newsz := if u32 (sz + n) >=? sz then sz else u32 (sz + n) in
    if newsz =? 0 then mret (u32 (-1)) else set_usz newsz;; mret sz
  else mret sz.

(** The loop of [free]: the block after which [bp] goes. *)
Fixpoint free_find (fuel : nat) (bp p : Z) : M uheap Z :=
  match fuel with
  | O => diverge
  | S fuel' =>
    next ← h_ptr p;
    if (bp >? p) && (bp <? next) then mret p
    else if (p >=? next) && ((bp >? p) || (bp <? next)) then mret p
    else free_find fuel' bp next
  end.

(** [bp] is joined to the block after it, or linked to it. *)
Definition join_upper (bp p : Z) : M uheap unit :=
  n ← h_size bp;
  next ← h_ptr p;
  if u32 (bp + HEADER * n) =? next then
    k ← h_size next;
    set_size bp (u32 (n + k));;
    next ← h_ptr p;
    q ← h_ptr next;
    set_ptr bp q
  else set_ptr bp next.

(** [bp] is joined to the block [p] before it, or linked from it. *)
Definition join_lower (bp p : Z) : M uheap unit :=
  k ← h_size p;
  if u32 (p + HEADER * k) =? bp then
    n ← h_size bp;
    set_size p (u32 (k + n));;
    q ← h_ptr bp;
    set_ptr p q
  else set_ptr p bp.

Definition free (ap : Z) : M uheap unit :=
  let bp := u32 (ap - HEADER) in
  fuel ← gets list_fuel;
  p ← gets freep;
  p ← free_find fuel bp p;
  join_upper bp p;;
  join_lower bp p;;
  set_freep p.

Definition morecore (nu : Z) : M uheap Z :=
  let nu := if nu <? 4096 then 4096 else nu in
  p ← sbrk (s32 (u32 (nu * HEADER)));
  if p =? u32 (-1) then mret 0
  else
    set_size p nu;;
    free (u32 (p + HEADER));;
    gets freep.

(** The block [p] is taken off the list after [prevp], or its tail is cut
    off. *)
Definition take_block (nunits prevp p : Z) : M uheap Z :=
  n ← h_size p;
  p ← (if n =? nunits then
         q ← h_ptr p;
         set_ptr prevp q;;
         mret p
       else
         set_size p (u32 (n - nunits));;
         k ← h_size p;
         let p := u32 (p + HEADER * k) in
         set_size p nunits;;
         mret p);
  set_freep prevp;;
  mret (u32 (p + HEADER)).

(** The loop of [malloc]. *)
Fixpoint malloc_loop (fuel : nat) (nunits prevp p : Z) : M uheap Z :=
  match fuel with
  | O => diverge
  | S fuel' =>
    n ← h_size p;
    if n >=? nunits then take_block nunits prevp p
    else
      f ← gets freep;
      if p =? f then
        p ← morecore nunits;
        if p =? 0 then mret 0
        else q ← h_ptr p; malloc_loop fuel' nunits p q
      else q ← h_ptr p; malloc_loop fuel' nunits p q
  end.

Definition malloc (nbytes : Z) : M uheap Z :=
  let nunits := u32 (nbytes + HEADER - 1) / HEADER + 1 in
  f ← gets freep;
  prevp ← (if f =? 0 then
             set_freep base;;
             set_ptr base base;;
             set_size base 0;;
             mret base
           else mret f);
  fuel ← gets list_fuel;
  p ← h_ptr prevp;
  malloc_loop (2 * fuel) nunits prevp p.
End umalloc_code.
