(* ===== verification/UmallocSpec.v ===== *)
(** * The allocator of user programs: blocks do not overlap

    The invariant describes the circular list as the sorted list of its
    blocks from [base] on.  [free] puts a block back where it belongs and
    joins it to its neighbours; [malloc] ends, and gives memory that no
    live block uses; neither changes the contents of a live block. *)

From S2P Require Import Prelude Str Mmu Kalloc VmSpec Umalloc.

(** A block: its address and its size in units. *)
Notation hblock := (Z * Z)%type.

(** The units that a block covers; the static header covers one. *)
Definition extent (b : hblock) : Z := Z.max 1 b.2.
Definition before (x y : hblock) : Prop := x.1 + HEADER * extent x <= y.1.
Definition apart (x y : hblock) : Prop := before x y ∨ before y x.

(** The list in memory from [a] to [e]. *)
Fixpoint links (m : mem) (a : Z) (l : list hblock) (e : Z) : Prop :=
  match l with
  | [] => a = e
  | b :: l' => a = b.1 ∧ load_word m (b.1 + 4) = b.2 ∧ links m (load_word m b.1) l' e
  end.

(** The two words of a header. *)
Definition same_header (m m' : mem) (a : Z) : Prop :=
  load_word m' a = load_word m a ∧ load_word m' (a + 4) = load_word m (a + 4).

Ltac hlia := unfold apart, before, extent, HEADER in *; simpl in *; lia.

Lemma links_app m a l1 l2 e : links m a (l1 ++ l2) e ↔ ∃ c, links m a l1 c ∧ links m c l2 e.
Proof.
  revert a. induction l1 as [|b l1 IH]; intros a; simpl; [naive_solver|].
  rewrite IH. naive_solver.
Qed.

Lemma links_frame m m' a l e :
  (∀ b, b ∈ l → same_header m m' b.1) → links m a l e → links m' a l e.
Proof.
  revert a. induction l as [|b l IH]; intros a Hl; simpl; [done|]. intros (-> & Hs & Hr).
  destruct (Hl b) as [Hp Hs']; [set_solver|]. rewrite Hs', Hp. split_and!; [done..|].
  apply IH; [set_solver|done].
Qed.

(** The position after [i] in a circular list of [n]. *)
Definition nxt (n i : nat) : nat := if (S i =? n)%nat then 0%nat else S i.

(** The steps from [i] to [k] in a circular list of [n]. *)
Definition dist (n i k : nat) : nat := (if i <=? k then k - i else n + k - i)%nat.

Lemma dist_nxt n i k : (i < n)%nat → (k < n)%nat → i ≠ k → dist n (nxt n i) k = (dist n i k - 1)%nat ∧ (dist n i k > 0)%nat.
Proof.
  intros Hi Hk Hne. unfold dist, nxt. destruct (Nat.eqb_spec (S i) n);
    repeat (case_match; rewrite ?Nat.leb_le, ?Nat.leb_gt in *); lia.
Qed.

Lemma dist_lt n i k : (i < n)%nat → (k < n)%nat → (dist n i k < n)%nat.
Proof. intros. unfold dist. case_match; rewrite ?Nat.leb_le, ?Nat.leb_gt in *; lia. Qed.

Lemma dist_self n i : dist n i i = 0%nat.
Proof. unfold dist. rewrite Nat.leb_refl. lia. Qed.

(** The position after [i] is a whole round away from [i]. *)
Lemma dist_round n i : (i < n)%nat → dist n (nxt n i) i = (n - 1)%nat.
Proof.
  intros Hi. unfold dist, nxt. destruct (Nat.eqb_spec (S i) n);
    case_match; rewrite ?Nat.leb_le, ?Nat.leb_gt in *; lia.
Qed.

(** What the memory has for the block at position [i]. *)
Lemma links_at m a l e i x : links m a l e → l !! i = Some x →
  load_word m (x.1 + 4) = x.2 ∧
  load_word m x.1 = match l !! S i with Some y => y.1 | None => e end.
Proof.
  revert a i. induction l as [|b l IH]; intros a i Hl Hi; [done|].
  destruct Hl as (_ & Hs & Hr). destruct i as [|i]; simpl in *; [|by eapply IH].
  simplify_eq. split; [done|]. destruct l as [|c l]; [done|]. by destruct Hr as [-> _].
Qed.

Lemma ring_at m base F i x :
  links m base F base → F !! 0%nat = Some (base, 0) → F !! i = Some x →
  ∃ y, F !! nxt (length F) i = Some y ∧ load_word m x.1 = y.1.
Proof.
  intros Hl H0 Hi. destruct (links_at _ _ _ _ _ _ Hl Hi) as [_ Hp].
  pose proof (lookup_lt_Some _ _ _ Hi) as Hlt. unfold nxt.
  destruct (Nat.eqb_spec (S i) (length F)) as [E|E].
  - rewrite (lookup_ge_None_2 F (S i)) in Hp by lia. by exists (base, 0).
  - destruct (lookup_lt_is_Some_2 F (S i)) as [y Hy]; [lia|]. rewrite Hy in Hp. eauto.
Qed.

Lemma sorted_lookup (l : list hblock) i j x y :
  StronglySorted before l → l !! i = Some x → l !! j = Some y → (i < j)%nat → before x y.
Proof.
  intros Hs. revert i j. induction Hs as [|b l Hs IH Hb]; intros i j Hi Hj Hlt; [done|].
  destruct j as [|j]; [lia|]. simpl in Hj. destruct i as [|i]; simpl in Hi; [|eapply IH; eauto; lia].
  simplify_eq. by eapply Forall_lookup_1.
Qed.

(** A block apart from the blocks of a sorted list splits it. *)
Lemma sorted_split (l : list hblock) b :
  StronglySorted before l → (∀ x, x ∈ l → apart x b) →
  ∃ l1 l2, l = l1 ++ l2 ∧ (∀ x, x ∈ l1 → before x b) ∧ (∀ x, x ∈ l2 → before b x).
Proof.
  intros Hs. induction Hs as [|x l Hs IH Hx]; intros Hap.
  - exists [], []. split_and!; [done|set_solver..].
  - destruct (Hap x) as [Hb|Hb]; [set_solver| |].
    + destruct IH as (l1 & l2 & -> & H1 & H2); [set_solver|].
      exists (x :: l1), l2. split_and!; [done| |done]. intros y [->|Hy]%elem_of_cons; auto.
    + exists [], (x :: l). split_and!; [done|set_solver|]. intros y [->|Hy]%elem_of_cons; [done|].
      rewrite Forall_forall in Hx. specialize (Hx _ Hy). hlia.
Qed.

Section spec.
Context (base lo : Z).

Definition in_heap (sz : Z) (b : hblock) : Prop :=
  1 <= b.2 ∧ lo <= b.1 ∧ b.1 + HEADER * b.2 <= sz.

(** The free blocks are [F], in the order of their addresses and [base]
    first; the blocks in use are [live], from their addresses to their
    sizes. *)
Record layout (live : gmap Z Z) (F : list hblock) (sz : Z) : Prop := {
  ly_base : F !! 0%nat = Some (base, 0);
  ly_sorted : StronglySorted before F;
  ly_free b : b ∈ F → b = (base, 0) ∨ in_heap sz b;
  ly_live a n : live !! a = Some n → in_heap sz (a, n);
  ly_between a n b : live !! a = Some n → b ∈ F → apart b (a, n);
  ly_apart a n a' n' : live !! a = Some n → live !! a' = Some n' → a ≠ a' → apart (a, n) (a', n');
  ly_size : 0 < base ∧ base + HEADER <= lo ∧ lo <= sz < KERNBASE }.

Record heap_ok (live : gmap Z Z) (F : list hblock) (s : uheap) : Prop := {
  hk_layout : layout live F (u_sz s);
  hk_links : links (u_mem s) base F base;
  hk_freep : ∃ i n, F !! i = Some (freep s, n);
  hk_live a n : live !! a = Some n → load_word (u_mem s) (a + 4) = n }.

(** *** Layouts *)

(** Blocks are replaced by blocks that cover the same memory. *)
Lemma layout_mid live pre old new post sz :
  layout live (pre ++ old ++ post) sz → Forall (in_heap sz) old → Forall (in_heap sz) new →
  StronglySorted before new →
  (∀ y z, y ∈ new → (∀ x, x ∈ old → before z x) → before z y) →
  (∀ y z, y ∈ new → (∀ x, x ∈ old → before x z) → before y z) →
  (∀ y z, y ∈ new → 1 <= z.2 → (∀ x, x ∈ old → apart x z) → apart y z) →
  old ≠ [] → layout live (pre ++ new ++ post) sz.
Proof.
  intros [H0 Hs Hf Hl Hb Ha Hsz] Hold Hnew Hns Hlow Hup Hap Hne.
  destruct pre as [|b0 pre].
  { destruct old as [|x old]; [done|]. simpl in H0. simplify_eq.
    apply Forall_cons in Hold as [[? _] _]. simpl in *; lia. }
  apply StronglySorted_app in Hs as (Hs1 & Hs2 & Hs3).
  apply StronglySorted_app in Hs3 as (Hs4 & Hs5 & Hs6).
  split; [done| | |done| |done..].
  - apply StronglySorted_app. split_and!; [|done|apply StronglySorted_app; split_and!; [|done..]].
    + intros x y Hx [Hy|Hy]%elem_of_app; [|apply Hs1; set_solver].
      apply Hlow; [done|]. intros z Hz. apply Hs1; set_solver.
    + intros y z Hy Hz. apply Hup; [done|]. intros x Hx. by apply Hs4.
  - intros b [Hin|[Hin|Hin]%elem_of_app]%elem_of_app; [apply Hf; set_solver| |apply Hf; set_solver].
    right. by apply (proj1 (Forall_forall _ _) Hnew).
  - intros a n b Hlv [Hin|[Hin|Hin]%elem_of_app]%elem_of_app; [eapply Hb; [done|set_solver]| |eapply Hb; [done|set_solver]].
    apply Hap; [done|by destruct (Hl _ _ Hlv)|]. intros x Hx. eapply Hb; [done|set_solver].
Qed.

Lemma layout_merge live pre a n k post sz : 1 <= n → 1 <= k →
  layout live (pre ++ (a, n) :: (a + HEADER * n, k) :: post) sz →
  layout live (pre ++ (a, n + k) :: post) sz.
Proof.
  intros Hn Hk H. pose proof (λ b, ly_free _ _ _ H b) as Hf.
  assert (Ha : in_heap sz (a, n)).
  { destruct (Hf (a, n)) as [[=]|]; [set_solver|lia|done]. }
  assert (Hb : in_heap sz (a + HEADER * n, k)).
  { destruct (Hf (a + HEADER * n, k)) as [[=]|]; [set_solver|lia|done]. }
  apply (layout_mid live pre [(a, n); (a + HEADER * n, k)] [(a, n + k)]); try done.
  - by apply Forall_cons; split; [|apply Forall_singleton].
  - apply Forall_singleton. unfold in_heap in *. hlia.
  - repeat constructor.
  - intros y z ->%list_elem_of_singleton Hz. specialize (Hz (a, n) ltac:(set_solver)). hlia.
  - intros y z ->%list_elem_of_singleton Hz. specialize (Hz (a + HEADER * n, k) ltac:(set_solver)). hlia.
  - intros y z ->%list_elem_of_singleton H1 Hz. pose proof (Hz (a, n) ltac:(set_solver)).
    specialize (Hz (a + HEADER * n, k) ltac:(set_solver)). hlia.
Qed.

Lemma layout_cut live pre a n k post sz : 1 <= k < n →
  layout live (pre ++ (a, n) :: post) sz →
  layout live (pre ++ (a, n - k) :: (a + HEADER * (n - k), k) :: post) sz.
Proof.
  intros Hk H. assert (Ha : in_heap sz (a, n)).
  { destruct (ly_free _ _ _ H (a, n)) as [[=]|]; [set_solver|lia|done]. }
  apply (layout_mid live pre [(a, n)] [(a, n - k); (a + HEADER * (n - k), k)]); try done.
  - by apply Forall_singleton.
  - apply Forall_cons; split; [|apply Forall_singleton]; unfold in_heap in *; hlia.
  - repeat constructor. hlia.
  - intros y z Hy Hz. specialize (Hz (a, n) ltac:(set_solver)).
    apply elem_of_cons in Hy as [->| ->%list_elem_of_singleton]; hlia.
  - intros y z Hy Hz. specialize (Hz (a, n) ltac:(set_solver)).
    apply elem_of_cons in Hy as [->| ->%list_elem_of_singleton]; hlia.
  - intros y z Hy H1 Hz. specialize (Hz (a, n) ltac:(set_solver)).
    apply elem_of_cons in Hy as [->| ->%list_elem_of_singleton]; hlia.
Qed.

Lemma layout_insert live pre post bp n sz :
  layout live (pre ++ post) sz → pre ≠ [] → live !! bp = Some n →
  (∀ y, y ∈ pre → before y (bp, n)) → (∀ y, y ∈ post → before (bp, n) y) →
  layout (delete bp live) (pre ++ (bp, n) :: post) sz.
Proof.
  intros [H0 Hs Hf Hl Hb Ha Hsz] Hne Hbp Hpre Hpost.
  apply StronglySorted_app in Hs as (Hs1 & Hs2 & Hs3).
  split; [by destruct pre| | | | | |done].
  - apply StronglySorted_app. split_and!; [|done|].
    + intros x y Hx [->|Hy]%elem_of_cons; auto.
    + constructor; [done|]. by apply Forall_forall.
  - intros b [Hin|[->|Hin]%elem_of_cons]%elem_of_app; [apply Hf; set_solver| |apply Hf; set_solver].
    right. by apply Hl.
  - intros a k [_ Hk]%lookup_delete_Some. by apply Hl.
  - intros a k b [Hne' Hk]%lookup_delete_Some [Hin|[->|Hin]%elem_of_cons]%elem_of_app;
      [eapply Hb; [done|set_solver]|by eapply Ha|eapply Hb; [done|set_solver]].
  - intros a k a' k' [_ Hk]%lookup_delete_Some [_ Hk']%lookup_delete_Some. by apply Ha.
Qed.

Lemma layout_take live pre a n post sz :
  layout live (pre ++ (a, n) :: post) sz → 1 <= n →
  live !! a = None ∧ layout (<[a := n]> live) (pre ++ post) sz.
Proof.
  intros [H0 Hs Hf Hl Hb Ha Hsz] Hn.
  assert (Hin : in_heap sz (a, n)).
  { destruct (Hf (a, n)) as [[=]|]; [set_solver|lia|done]. }
  assert (Hfr : ∀ b, b ∈ pre ++ post → apart b (a, n)).
  { apply StronglySorted_app in Hs as (Hs1 & _ & Hs3%StronglySorted_cons).
    destruct Hs3 as [Hs3 _]. rewrite Forall_forall in Hs3.
    intros b [Hb'|Hb']%elem_of_app; [left; apply Hs1; set_solver|right; by apply Hs3]. }
  split.
  { destruct (live !! a) as [k|] eqn:E; [|done].
    destruct (Hl _ _ E) as [? _]. pose proof (Hb _ _ (a, n) E ltac:(set_solver)). hlia. }
  split; [|eapply StronglySorted_app_2| | | | |done].
  - destruct pre; [simpl in H0; simplify_eq; lia|done].
  - intros x y Hx Hy. apply StronglySorted_app in Hs as (Hs1 & _ & _). apply Hs1; set_solver.
  - by apply StronglySorted_app_1_l in Hs.
  - apply StronglySorted_app_1_r in Hs. by inversion Hs.
  - intros b Hb'. apply Hf. set_solver.
  - intros a' k [[<- <-]|[_ Hk]]%lookup_insert_Some; [done|by apply Hl].
  - intros a' k b [[<- <-]|[_ Hk]]%lookup_insert_Some Hb'; [by apply Hfr|].
    eapply Hb; [done|set_solver].
  - assert (Hnew : ∀ a' k, live !! a' = Some k → apart (a, n) (a', k)).
    { intros a' k Hk. eapply Hb; [done|set_solver]. }
    intros a1 n1 a2 n2 [[<- <-]|[? H1]]%lookup_insert_Some [[<- <-]|[? H2]]%lookup_insert_Some Hne;
      [done|by apply Hnew|destruct (Hnew _ _ H1); [by right|by left]|by eapply Ha].
Qed.

(** *** Memory *)

(** The memory changes in one header only. *)
Definition only_header (x : Z) (m m' : mem) : Prop := ∀ a, ¬ x <= a < x + HEADER → m' a = m a.

Lemma only_header_ptr x m m' w : only_header x m m' → only_header x m (store_word m' x w).
Proof. intros H a Ha. unfold HEADER in *. rewrite store_outside by lia. apply H. unfold HEADER. lia. Qed.

Lemma only_header_size x m m' w : only_header x m m' → only_header x m (store_word m' (x + 4) w).
Proof. intros H a Ha. unfold HEADER in *. rewrite store_outside by lia. apply H. unfold HEADER. lia. Qed.

Lemma only_header_load x m m' a : only_header x m m' → a + 4 <= x ∨ x + HEADER <= a →
  load_word m' a = load_word m a.
Proof. intros H Ha. apply load_ext. intros i Hi. apply H. lia. Qed.

Lemma only_header_same x m m' y : only_header x m m' → y + HEADER <= x ∨ x + HEADER <= y →
  same_header m m' y.
Proof.
  intros H Hy. unfold HEADER in *.
  split; apply (only_header_load x); first [done | unfold HEADER; lia].
Qed.

Lemma before_header x y : before x y → x.1 + HEADER <= y.1.
Proof. hlia. Qed.

(** ** free *)

Lemma free_find_spec fuel F s b j i q k :
  links (u_mem s) base F base → F !! 0%nat = Some (base, 0) → StronglySorted before F →
  (∀ i x, F !! i = Some x → (i ≤ j)%nat → before x b) →
  (∀ i x, F !! i = Some x → (j < i)%nat → before b x) →
  (j < length F)%nat → F !! i = Some (q, k) → (dist (length F) i j < fuel)%nat →
  wp (free_find fuel b.1 q) (λ p s', s' = s ∧ ∃ n, F !! j = Some (p, n)) s.
Proof.
  intros Hl H0 Hs Hpre Hpost Hj. revert i q k.
  induction fuel as [|fuel IH]; intros i q k Hi Hf; [lia|].
  destruct (ring_at _ _ _ _ _ Hl H0 Hi) as (y & Hy & Hq). simpl in Hq.
  pose proof (lookup_lt_Some _ _ _ Hi) as Hlt. pose proof (Hpre _ _ H0) as Hb0.
  cbn [free_find]. apply wp_bind, wp_gets. rewrite Hq.
  assert (Hnext : (nxt (length F) i = S i ∧ before (q, k) y ∨ nxt (length F) i = 0%nat ∧ S i = length F ∧ y = (base, 0))).
  { unfold nxt in *. destruct (Nat.eqb_spec (S i) (length F)) as [E|E].
    - right. split_and!; [done..|congruence].
    - left. split; [done|]. eapply sorted_lookup; eauto. }
  assert (Hmin : base <= q).
  { destruct i; [simplify_eq; lia|]. pose proof (sorted_lookup _ _ _ _ _ Hs H0 Hi). hlia. }
  assert (Hb : base < b.1) by hlia.
  destruct (decide (i = j)) as [->|Hne].
  - assert (Hqb : q < b.1) by (pose proof (Hpre _ _ Hi (le_n j)); hlia).
    destruct Hnext as [[En Hqy]|(En & Hlast & ->)].
    + rewrite En in Hy. assert (b.1 < y.1) by (pose proof (Hpost _ _ Hy (Nat.lt_succ_diag_r j)); hlia).
      replace ((b.1 >? q) && (b.1 <? y.1)) with true by lia. split; [done|eauto].
    + simpl. replace ((b.1 >? q) && (b.1 <? base)) with false by lia.
      replace ((q >=? base) && ((b.1 >? q) || (b.1 <? base))) with true by lia. split; [done|eauto].
  - destruct (dist_nxt (length F) i j) as [Hd Hd']; [lia..|].
    assert (Hgo : ((b.1 >? q) && (b.1 <? y.1) = false) ∧ ((q >=? y.1) && ((b.1 >? q) || (b.1 <? y.1)) = false)).
    { destruct (decide (i < j)%nat) as [Hij|Hij].
      - destruct Hnext as [[En Hqy]|(_ & ? & _)]; [|lia]. rewrite En in Hy.
        pose proof (Hpre _ _ Hy Hij). split; hlia.
      - pose proof (Hpost _ _ Hi ltac:(lia)). destruct Hnext as [[En Hqy]|(_ & _ & ->)]; split; hlia. }
    destruct Hgo as [-> ->]. destruct y as [y ky]. eapply IH; [exact Hy|lia].
Qed.

(** The headers of the other blocks. *)
Lemma layout_headers live pre x post sz b :
  layout live (pre ++ x :: post) sz → b ∈ pre ++ post → b.1 + HEADER <= x.1 ∨ x.1 + HEADER <= b.1.
Proof.
  intros [_ Hs _ _ _ _ _] Hb. apply StronglySorted_app in Hs as (H1 & _ & [H2 _]%StronglySorted_cons).
  rewrite Forall_forall in H2.
  apply elem_of_app in Hb as [Hb|Hb]; [left; apply before_header, H1; set_solver|].
  right. by apply before_header, H2.
Qed.

Lemma links_keep live pre x post sz m m' a l e :
  layout live (pre ++ x :: post) sz → only_header x.1 m m' → (∀ b, b ∈ l → b ∈ pre ++ post) →
  links m a l e → links m' a l e.
Proof.
  intros H Hm Hl. apply links_frame. intros b Hb. eapply only_header_same; [done|].
  eapply layout_headers; [done|]. by apply Hl.
Qed.

(** A free block: its address and its end are no more than the size of the
    program. *)
Lemma layout_range live F sz b : layout live F sz → b ∈ F →
  0 < base <= b.1 ∧ 0 <= b.2 ∧ b.1 + HEADER * b.2 <= sz ∧ sz < 2 ^ 31.
Proof.
  intros H Hb. pose proof (ly_size _ _ _ H) as Hsz. change KERNBASE with (2 ^ 31) in Hsz.
  destruct (ly_free _ _ _ H b Hb) as [->|(? & ? & ?)]; hlia.
Qed.

(** The list when [bp] has a header that nothing points to. *)
Definition opened (m : mem) (pre : list hblock) (p k bp n : Z) (post : list hblock) : Prop :=
  links m base pre p ∧ load_word m (p + 4) = k ∧ load_word m (bp + 4) = n ∧
  links m (load_word m bp) post base.

Lemma links_u32 live F sz m a l : layout live F sz → (∀ b, b ∈ l → b ∈ F) → links m a l base → is_u32 a.
Proof.
  intros H Hl Hm. unfold is_u32. pose proof (ly_size _ _ _ H) as Hsz. destruct l as [|b l].
  - destruct (layout_range _ _ _ (base, 0) H); [by eapply list_elem_of_lookup_2, ly_base|].
    simpl in *. subst a. lia.
  - destruct Hm as [-> _]. destruct (layout_range _ _ _ b H); [apply Hl; set_solver|].
    unfold HEADER in *. lia.
Qed.

(** The header of [bp] is written: the rest of the list is as before. *)
Lemma open_link live pre p k bp n0 post sz m m' n a l :
  layout live (pre ++ (p, k) :: (bp, n0) :: post) sz →
  links m base pre p → load_word m (p + 4) = k → only_header bp m m' →
  load_word m' (bp + 4) = n → load_word m' bp = a → links m a l base → (∀ b, b ∈ l → b ∈ post) →
  opened m' pre p k bp n l.
Proof.
  intros HL Hpre Hk Hm Hn Ha Hl Hin.
  assert (HL' : layout live ((pre ++ [(p, k)]) ++ (bp, n0) :: post) sz) by by rewrite <- app_assoc_middle.
  pose proof (layout_headers _ _ _ _ _ (p, k) HL' ltac:(set_solver)) as Hp. cbn [fst snd] in Hp.
  split_and!; [|by rewrite (only_header_load bp m m') by first [done | unfold HEADER in *; lia]|done|rewrite Ha].
  - eapply links_keep; [exact HL'|done|set_solver|done].
  - eapply links_keep; [exact HL'|done| |done]. intros b Hb. apply Hin in Hb. set_solver.
Qed.

(** Both words of a header are written. *)
Lemma header_written m x n q : is_u32 n → is_u32 q →
  let m' := store_word (store_word m (x + 4) n) x q in
  only_header x m m' ∧ load_word m' (x + 4) = n ∧ load_word m' x = q.
Proof.
  intros Hn Hq. split_and!.
  - by apply only_header_ptr, only_header_size.
  - rewrite load_store_ne by lia. by apply load_store.
  - by apply load_store.
Qed.

Lemma join_upper_spec live pre p k bp n post s :
  layout live (pre ++ (p, k) :: (bp, n) :: post) (u_sz s) → 1 <= n →
  links (u_mem s) base (pre ++ (p, k) :: post) base → load_word (u_mem s) (bp + 4) = n →
  wp (join_upper bp p) (λ _ s', ∃ m' n' post',
    s' = UHeap m' (freep s) (u_sz s) ∧ only_header bp (u_mem s) m' ∧
    opened m' pre p k bp n' post' ∧ layout live (pre ++ (p, k) :: (bp, n') :: post') (u_sz s) ∧
    n <= n' ∧ (length post' ≤ length post)%nat) s.
Proof.
  destruct s as [m f sz]. cbn [u_mem u_sz freep]. intros HL Hn Hl Hsize.
  apply links_app in Hl as (c & Hpre & -> & Hk & Hpost). cbn [fst snd] in *.
  assert (Hpu : is_u32 (load_word m p)) by (eapply links_u32; [exact HL|set_solver|done]).
  assert (HL' : layout live ((pre ++ [(p, k)]) ++ (bp, n) :: post) sz) by by rewrite <- app_assoc_middle.
  destruct (layout_range _ _ _ (bp, n) HL) as (Hb1 & Hb2 & Hb3 & Hb4); [set_solver|].
  pose proof (layout_headers _ _ _ _ _ (p, k) HL' ltac:(set_solver)) as Hp. cbn [fst snd] in *.
  unfold join_upper. apply wp_bind, wp_gets, wp_bind, wp_gets. cbn [u_mem]. rewrite Hsize.
  assert (Hu : u32 (bp + HEADER * n) = bp + HEADER * n) by (apply Z.mod_small; hlia). rewrite Hu.
  destruct (Z.eqb_spec (bp + HEADER * n) (load_word m p)) as [E|E].
  - destruct post as [|[x k2] post]; [simpl in Hpost; hlia|].
    destruct Hpost as (Ex & Hk2 & Hpost). cbn [fst snd] in *.
    destruct (layout_range _ _ _ (x, k2) HL) as (Hx1 & Hx2 & Hx3 & _); [set_solver|]. cbn [fst snd] in *.
    assert (Hk2' : 1 <= k2) by (destruct (ly_free _ _ _ HL (x, k2)) as [[=]|[? _]]; [set_solver|hlia|done]).
    apply wp_bind, wp_gets, wp_bind, wp_modify, wp_bind, wp_gets, wp_bind, wp_gets, wp_modify.
    cbn [u_mem u_sz freep]. rewrite (load_store_ne m p (bp + 4)) by hlia. rewrite Ex, Hk2.
    rewrite (load_store_ne m x (bp + 4)) by hlia.
    replace (u32 (n + k2)) with (n + k2) by (symmetry; apply Z.mod_small; hlia).
    assert (Hq : is_u32 (load_word m x)) by (eapply (links_u32 _ _ _ m _ post HL); [set_solver|done]).
    destruct (header_written m bp (n + k2) (load_word m x)) as (Hm & Hn' & Hq'); [unfold is_u32; hlia|done|].
    eexists _, (n + k2), post. split_and!; [done|exact Hm| | |lia|simpl; lia].
    + eapply open_link; [exact HL|done|done|exact Hm|done|exact Hq'|exact Hpost|set_solver].
    + rewrite app_assoc_middle. apply layout_merge; [lia..|].
      replace (bp + HEADER * n) with x by lia. by rewrite <- app_assoc_middle.
  - apply wp_modify. cbn [u_mem u_sz freep].
    assert (Hm : only_header bp m (store_word m bp (load_word m p))) by by apply only_header_ptr.
    eexists _, n, post. split_and!; [done|exact Hm| |done|lia|done].
    eapply open_link; [exact HL|done|done|exact Hm| |by apply load_store|exact Hpost|done].
    by rewrite load_store_ne by lia.
Qed.

Lemma join_lower_spec live pre p k bp n post s :
  layout live (pre ++ (p, k) :: (bp, n) :: post) (u_sz s) → 1 <= n →
  opened (u_mem s) pre p k bp n post →
  wp (join_lower bp p) (λ _ s', ∃ m' k' post',
    s' = UHeap m' (freep s) (u_sz s) ∧ only_header p (u_mem s) m' ∧
    links m' base (pre ++ (p, k') :: post') base ∧ layout live (pre ++ (p, k') :: post') (u_sz s) ∧
    (∃ b, b ∈ pre ++ (p, k') :: post' ∧ n <= b.2) ∧ (length post' ≤ S (length post))%nat) s.
Proof.
  destruct s as [m f sz]. cbn [u_mem u_sz freep]. intros HL Hn (Hpre & Hk & Hsz & Hpost).
  destruct (layout_range _ _ _ (p, k) HL) as (Hp1 & Hp2 & Hp3 & Hp4); [set_solver|].
  destruct (layout_range _ _ _ (bp, n) HL) as (Hb1 & Hb2 & Hb3 & _); [set_solver|].
  assert (Hpb : before (p, k) (bp, n)).
  { apply ly_sorted in HL. apply StronglySorted_app_1_r, StronglySorted_cons in HL as [HL _].
    by apply Forall_cons in HL as [? _]. }
  assert (Hbu : is_u32 bp) by (unfold is_u32; hlia).
  assert (Hkeep : ∀ m' a l e, only_header p m m' → links m a l e →
    (∀ b, b ∈ l → b ∈ pre ++ (bp, n) :: post) → links m' a l e).
  { intros m' a l e Hm Hl Hin. eapply links_keep; [exact HL|exact Hm|exact Hin|exact Hl]. }
  unfold join_lower. apply wp_bind, wp_gets. cbn [u_mem]. rewrite Hk. cbn [fst snd] in *.
  replace (u32 (p + HEADER * k)) with (p + HEADER * k) by (symmetry; apply Z.mod_small; hlia).
  destruct (Z.eqb_spec (p + HEADER * k) bp) as [E|E].
  - assert (Hk1 : 1 <= k) by hlia.
    apply wp_bind, wp_gets, wp_bind, wp_modify, wp_bind, wp_gets, wp_modify. cbn [u_mem u_sz freep].
    rewrite Hsz, (load_store_ne m bp (p + 4)) by hlia.
    replace (u32 (k + n)) with (k + n) by (symmetry; apply Z.mod_small; hlia).
    assert (Hq : is_u32 (load_word m bp)) by (eapply (links_u32 _ _ _ m _ post HL); [set_solver|done]).
    destruct (header_written m p (k + n) (load_word m bp)) as (Hm & Hn' & Hq'); [unfold is_u32; hlia|done|].
    eexists _, (k + n), post. split_and!; [done|exact Hm| | | |lia].
    + apply links_app. exists p. split; [eapply Hkeep; [exact Hm|done|set_solver]|].
      split_and!; [done|exact Hn'|]. cbn [fst]. rewrite Hq'. eapply Hkeep; [exact Hm|done|set_solver].
    + apply layout_merge; [lia..|]. by rewrite E.
    + exists (p, k + n). split; [set_solver|simpl; lia].
  - apply wp_modify. cbn [u_mem u_sz freep].
    assert (Hm : only_header p m (store_word m p bp)) by by apply only_header_ptr.
    eexists _, k, ((bp, n) :: post). split_and!; [done|exact Hm| |done| |simpl; lia].
    + apply links_app. exists p. split; [eapply Hkeep; [exact Hm|done|set_solver]|].
      split_and!; [done|by cbn [fst]; rewrite load_store_ne by lia|]. cbn [fst]. rewrite load_store by done.
      eapply Hkeep; [exact Hm| |set_solver]. by split_and!.
    + exists (bp, n). split; [set_solver|simpl; lia].
Qed.

(** The memory of the blocks in use does not change. *)
Definition contents_kept (live : gmap Z Z) (m m' : mem) : Prop :=
  ∀ a n x, live !! a = Some n → a <= x < a + HEADER * n → m' x = m x.

Lemma contents_trans live m1 m2 m3 :
  contents_kept live m1 m2 → contents_kept live m2 m3 → contents_kept live m1 m3.
Proof. intros H1 H2 a n x Hl Hx. by rewrite (H2 a n x), (H1 a n x). Qed.

Lemma header_kept live F sz b m m' :
  layout live F sz → b ∈ F → only_header b.1 m m' → contents_kept live m m'.
Proof.
  intros H Hb Hm a n x Hl Hx. apply Hm. destruct (ly_live _ _ _ H _ _ Hl) as [? _].
  pose proof (ly_between _ _ _ H _ _ _ Hl Hb). hlia.
Qed.

Lemma live_size live sz F m m' a n : layout live F sz → contents_kept live m m' →
  live !! a = Some n → load_word m' (a + 4) = load_word m (a + 4).
Proof.
  intros H Hm Hl. apply load_ext. intros i Hi. apply (Hm a n); [done|].
  destruct (ly_live _ _ _ H _ _ Hl) as [? _]. hlia.
Qed.

(** The list is no longer than the fuel of the loops. *)
Lemma layout_length live F sz : layout live F sz → (length F + 4 ≤ 4 + Z.to_nat (sz / HEADER))%nat.
Proof.
  intros H. pose proof (ly_size _ _ _ H) as Hsz.
  enough (HEADER * Z.of_nat (length F) <= sz) by (unfold HEADER in *; dlia).
  assert (Hb : Forall (λ b, 0 <= b.1 ∧ b.1 + HEADER * extent b <= sz) F).
  { apply Forall_forall. intros b Hb. destruct (ly_free _ _ _ H b Hb) as [->|(? & ? & ?)]; hlia. }
  apply ly_sorted in H. revert Hb.
  enough (∀ c, c <= sz → Forall (λ b, c <= b.1 ∧ b.1 + HEADER * extent b <= sz) F →
    c + HEADER * Z.of_nat (length F) <= sz) as Hc
    by (intros Hb; specialize (Hc 0 ltac:(hlia) Hb); lia).
  induction H as [|b l Hs IH Hb]; intros c Hc Hl; [simpl; lia|].
  apply Forall_cons in Hl as [[Hcb Hbs] Hl].
  rewrite length_cons, Nat2Z.inj_succ.
  assert (Hl' : Forall (λ x, c + HEADER <= x.1 ∧ x.1 + HEADER * extent x <= sz) l).
  { rewrite !Forall_forall in *. intros x Hx. specialize (Hb _ Hx). specialize (Hl _ Hx). hlia. }
  specialize (IH (c + HEADER) ltac:(hlia) Hl'). lia.
Qed.

(** The block that [free] finds. *)
Lemma free_place live F s bp n : heap_ok live F s → live !! bp = Some n →
  ∃ pre p k post, F = pre ++ (p, k) :: post ∧
    layout (delete bp live) (pre ++ (p, k) :: (bp, n) :: post) (u_sz s) ∧
    wp (free_find (list_fuel s) bp (freep s)) (λ q s', q = p ∧ s' = s) s.
Proof.
  intros [HL Hl (i & kf & Hf) Hlv] Hbp.
  destruct (sorted_split F (bp, n)) as (pre0 & post & -> & Hpre & Hpost);
    [by eapply ly_sorted|intros x Hx; by eapply ly_between|].
  pose proof (ly_base _ _ _ HL) as H0. destruct (ly_live _ _ _ HL _ _ Hbp) as (? & ? & ?).
  destruct (exists_last (l := pre0)) as (pre & [p k] & ->).
  { intros ->. specialize (Hpost _ (list_elem_of_lookup_2 _ _ _ H0)).
    pose proof (ly_size _ _ _ HL). hlia. }
  exists pre, p, k, post. rewrite (app_assoc_middle pre post), (app_assoc_middle pre ((bp, n) :: post)). split_and!; [done| |].
  { apply layout_insert; [done|by destruct pre|done..]. }
  assert (Hlen : length (pre ++ [(p, k)]) = S (length pre)) by (rewrite length_app; simpl; lia).
  eapply wp_mono.
  { eapply (free_find_spec _ _ _ (bp, n) (length pre)); [exact Hl|exact H0|by eapply ly_sorted| | | |exact Hf|].
    - intros j x Hj Hle. rewrite lookup_app_l in Hj by lia. apply Hpre. by eapply list_elem_of_lookup_2.
    - intros j x Hj Hle. rewrite lookup_app_r in Hj by lia. apply Hpost. by eapply list_elem_of_lookup_2.
    - rewrite length_app. lia.
    - pose proof (layout_length _ _ _ HL). unfold list_fuel.
      pose proof (dist_lt (length ((pre ++ [(p, k)]) ++ post)) i (length pre)) as Hd.
      specialize (Hd (lookup_lt_Some _ _ _ Hf)). rewrite length_app in Hd at 1. lia. }
  intros q s' [-> (k' & Hq)]. split; [|done].
  rewrite lookup_app_l, lookup_app_r, Nat.sub_diag in Hq by lia. by simplify_eq/=.
Qed.

Lemma free_spec live F s bp n : heap_ok live F s → live !! bp = Some n →
  wp (free (bp + HEADER)) (λ _ s', u_sz s' = u_sz s ∧ contents_kept (delete bp live) (u_mem s) (u_mem s') ∧
    ∃ F', heap_ok (delete bp live) F' s' ∧ (length F' ≤ S (length F))%nat ∧ ∃ b, b ∈ F' ∧ n <= b.2) s.
Proof.
  intros Hok Hbp. destruct (free_place _ _ _ _ _ Hok Hbp) as (pre & p & k & post & -> & HL & Hfind).
  destruct Hok as [HL0 Hl _ Hlv]. destruct (ly_live _ _ _ HL0 _ _ Hbp) as (Hn & Hb1 & Hb2).
  pose proof (ly_size _ _ _ HL0) as Hsz. change KERNBASE with (2 ^ 31) in Hsz. cbn [fst snd] in *.
  unfold free. replace (u32 (bp + HEADER - HEADER)) with bp
    by (unfold u32; rewrite Z.mod_small; hlia).
  apply wp_bind, wp_gets, wp_bind, wp_gets, wp_bind. eapply wp_mono; [exact Hfind|]. intros ? ? [-> ->].
  apply wp_bind. eapply wp_mono; [by apply (join_upper_spec _ _ _ _ _ _ _ _ HL Hn Hl), Hlv|].
  intros _ s1 (m1 & n1 & post1 & -> & Hm1 & Hop & HL1 & Hn1 & Hlen1).
  apply wp_bind. eapply wp_mono; [eapply join_lower_spec; [exact HL1|lia|exact Hop]|].
  cbn [u_mem u_sz freep]. intros _ s2 (m2 & k2 & post2 & -> & Hm2 & Hl2 & HL2 & (b & Hb & Hnb) & Hlen2).
  apply wp_modify. cbn [u_mem u_sz freep].
  assert (Hkept : contents_kept (delete bp live) (u_mem s) m2).
  { eapply contents_trans; [eapply (header_kept _ _ _ (bp, n) _ _ HL); [set_solver|exact Hm1]|].
    eapply (header_kept _ _ _ (p, k) _ _ HL); [set_solver|exact Hm2]. }
  split_and!; [done|exact Hkept|]. eexists. split_and!; [split; cbn [u_mem u_sz freep]| |].
  - exact HL2.
  - exact Hl2.
  - exists (length pre), k2. by apply list_lookup_middle.
  - intros a j Ha. rewrite (live_size _ _ _ _ _ _ _ HL2 Hkept Ha). apply lookup_delete_Some in Ha as [_ Ha]. by apply Hlv.
  - rewrite !length_app. simpl. lia.
  - exists b. split; [done|lia].
Qed.
End spec.
