(* ===== verification/UmallocSound.v ===== *)
(** * malloc gives memory that no block in use has

    [malloc] walks the circular list once, asks the kernel for memory when
    no block is large enough, and then finds one; the bound on its steps is
    the length of the list. *)

From S2P Require Import Prelude Str Mmu Kalloc VmSpec Umalloc UmallocSpec.

Section sound.
Context (base lo : Z).
Context (grant : Z → Z → bool).
Notation layout := (layout base lo).
Notation heap_ok := (heap_ok base lo).

(** ** morecore *)

(** New memory at the end, taken as a block in use. *)
Lemma heap_grow live F m f sz n : heap_ok live F (UHeap m f sz) → 1 <= n → sz + HEADER * n < KERNBASE →
  live !! sz = None ∧ contents_kept live m (store_word m (sz + 4) n) ∧
  heap_ok (<[sz := n]> live) F (UHeap (store_word m (sz + 4) n) f (sz + HEADER * n)).
Proof.
  intros [HL Hl Hf Hlv] Hn Hlim. cbn [u_mem u_sz freep] in *.
  pose proof (ly_size _ _ _ _ _ HL) as Hsz. change KERNBASE with (2 ^ 31) in *.
  assert (Hm : only_header sz m (store_word m (sz + 4) n)) by by apply only_header_size.
  assert (Hkept : contents_kept live m (store_word m (sz + 4) n)).
  { intros a k x Ha Hx. apply Hm. destruct (ly_live _ _ _ _ _ HL _ _ Ha) as (? & ? & ?). hlia. }
  assert (Hnone : live !! sz = None).
  { destruct (live !! sz) as [k|] eqn:E; [|done]. destruct (ly_live _ _ _ _ _ HL _ _ E) as (? & ? & ?). hlia. }
  assert (Hfree : ∀ b, b ∈ F → b.1 + HEADER <= sz ∧ b.1 + HEADER * b.2 <= sz).
  { intros b Hb. destruct (ly_free _ _ _ _ _ HL b Hb) as [->|(? & ? & ?)]; hlia. }
  split_and!; [done..|]. split; cbn [u_mem u_sz freep]; [split|..].
  - by apply HL.
  - by apply HL.
  - intros b Hb. destruct (ly_free _ _ _ _ _ HL b Hb) as [->|(? & ? & ?)]; [by left|right].
    unfold in_heap. hlia.
  - intros a k [[<- <-]|[_ Ha]]%lookup_insert_Some; [unfold in_heap; hlia|].
    destruct (ly_live _ _ _ _ _ HL _ _ Ha) as (? & ? & ?). unfold in_heap. hlia.
  - intros a k b [[<- <-]|[_ Ha]]%lookup_insert_Some Hb; [|by eapply ly_between].
    destruct (Hfree b Hb). left. hlia.
  - assert (Hnew : ∀ a k, live !! a = Some k → apart (sz, n) (a, k)).
    { intros a k Ha. destruct (ly_live _ _ _ _ _ HL _ _ Ha) as (? & ? & ?). right. hlia. }
    intros a1 n1 a2 n2 [[<- <-]|[? H1]]%lookup_insert_Some [[<- <-]|[? H2]]%lookup_insert_Some Hne;
      [done|by apply Hnew|destruct (Hnew _ _ H1); [by right|by left]|by eapply ly_apart].
  - change KERNBASE with (2 ^ 31). hlia.
  - eapply links_frame; [|exact Hl]. intros b Hb. eapply only_header_same; [exact Hm|].
    left. by apply Hfree.
  - done.
  - intros a k [[<- <-]|[_ Ha]]%lookup_insert_Some; [apply load_store; unfold is_u32; hlia|].
    rewrite (live_size _ _ _ _ _ _ _ _ _ HL Hkept Ha). by apply Hlv.
Qed.

(** The kernel does not give the memory for [nu] more units. *)
Definition refused (sz nu : Z) : Prop :=
  let new := sz + HEADER * Z.max nu 4096 in KERNBASE <= new ∨ grant sz new = false.

Lemma morecore_spec live F s nu : heap_ok live F s → 1 <= nu → HEADER * nu < 2 ^ 31 →
  wp (morecore grant nu) (λ r s', contents_kept live (u_mem s) (u_mem s') ∧
    (r = 0 ∧ s' = s ∧ refused (u_sz s) nu ∨
     r = freep s' ∧ ∃ F' i b, heap_ok live F' s' ∧ (length F' ≤ S (length F))%nat ∧
       F' !! i = Some b ∧ nu <= b.2)) s.
Proof.
  intros Hok Hn1 Hn2. destruct s as [m f sz]. unfold morecore.
  replace (if nu <? 4096 then 4096 else nu) with (Z.max nu 4096) by (destruct (Z.ltb_spec nu 4096); lia).
  unfold refused. set (n := Z.max nu 4096).
  assert (Hn : nu <= n ∧ 1 <= n ∧ HEADER * n < 2 ^ 31) by (subst n; unfold HEADER in *; lia).
  clearbody n. pose proof (ly_size _ _ _ _ _ (hk_layout _ _ _ _ _ Hok)) as Hsz.
  change KERNBASE with (2 ^ 31) in Hsz. cbn [u_mem u_sz freep] in *.
  replace (s32 (u32 (n * HEADER))) with (HEADER * n).
  2: { unfold u32. rewrite Z.mod_small, s32_id by hlia. lia. }
  apply wp_bind. unfold sbrk. apply wp_bind, wp_gets. cbn [u_sz].
  replace (HEADER * n >? 0) with true by hlia.
  replace (u32 (sz + HEADER * n)) with (sz + HEADER * n) by (unfold u32; rewrite Z.mod_small; hlia).
  destruct (Z.geb_spec (sz + HEADER * n) KERNBASE) as [|Hlim]; simpl orb.
  { apply wp_ret. split; [done|]. left. split_and!; [done..|]. left. lia. }
  destruct (grant sz (sz + HEADER * n)) eqn:Eg; simpl negb.
  2: { apply wp_ret. split; [done|]. left. split_and!; [done..|]. by right. }
  apply wp_bind, wp_modify, wp_ret. cbn [u_mem u_sz freep].
  replace (sz =? u32 (-1)) with false by (symmetry; apply Z.eqb_neq; change (u32 (-1)) with (2 ^ 32 - 1); lia).
  apply wp_bind, wp_modify, wp_bind. cbn [u_mem u_sz freep].
  replace (u32 (sz + HEADER)) with (sz + HEADER) by (unfold u32; rewrite Z.mod_small; hlia).
  destruct (heap_grow _ _ _ _ _ n Hok) as (Hnone & Hkept & Hok2); [lia|hlia|].
  eapply wp_mono; [eapply free_spec; [exact Hok2|apply lookup_insert_eq]|].
  intros _ s' (_ & Hkept' & F' & Hok' & Hlen & b & Hb & Hbn). apply wp_gets.
  rewrite delete_insert_id in * by done. cbn [u_mem] in *.
  split; [by eapply contents_trans|]. right. split; [done|].
  apply list_elem_of_lookup in Hb as [i Hi]. exists F', i, b. split_and!; [done..|lia].
Qed.

(** ** malloc *)

(** What a block taken off the list is. *)
Definition taken (live : gmap Z Z) (m : mem) (nunits : Z) (r : Z) (s' : uheap) : Prop :=
  contents_kept live m (u_mem s') ∧
  ∃ a F', r = a + HEADER ∧ live !! a = None ∧ heap_ok (<[a := nunits]> live) F' s'.

Lemma take_whole live pre x kx p n post m f sz :
  heap_ok live (pre ++ (x, kx) :: (p, n) :: post) (UHeap m f sz) → 1 <= n →
  let m' := store_word m x (load_word m p) in
  contents_kept live m m' ∧ live !! p = None ∧
  heap_ok (<[p := n]> live) (pre ++ (x, kx) :: post) (UHeap m' x sz).
Proof.
  intros [HL Hl _ Hlv] Hn m'. cbn [u_mem u_sz freep] in *.
  apply links_app in Hl as (c & Hpre & -> & Hk & _ & Hn' & Hpost). cbn [fst snd] in *.
  assert (Hq : is_u32 (load_word m p)) by (eapply links_u32; [exact HL| |exact Hpost]; set_solver).
  assert (Hm : only_header x m m') by by apply only_header_ptr.
  assert (Hkept : contents_kept live m m') by (eapply (header_kept _ _ _ _ _ (x, kx)); [exact HL|set_solver|done]).
  pose proof HL as HL2. rewrite (app_assoc_middle pre) in HL2. apply layout_take in HL2 as [Hnone HL2]; [|done].
  rewrite <- app_assoc_middle in HL2.
  split_and!; [done..|]. split; cbn [u_mem u_sz freep].
  - exact HL2.
  - apply links_app. exists x. split; [eapply links_keep; [exact HL|exact Hm|set_solver|done]|].
    split_and!; [done|by cbn [fst]; unfold m'; rewrite load_store_ne by lia|].
    cbn [fst]. rewrite (load_store m x _ Hq : load_word m' x = _).
    eapply links_keep; [exact HL|exact Hm|set_solver|done].
  - exists (length pre), kx. by apply list_lookup_middle.
  - intros a k [[<- <-]|[_ Ha]]%lookup_insert_Some.
    + pose proof (layout_headers _ _ _ _ _ _ _ (p, n) HL ltac:(set_solver)) as Hp. cbn [fst] in Hp.
      unfold m'. by rewrite load_store_ne by hlia.
    + rewrite (live_size _ _ _ _ _ _ _ _ _ HL Hkept Ha). by apply Hlv.
Qed.

Lemma take_tail live pre p n k post m f sz x kx :
  heap_ok live (pre ++ (p, n) :: post) (UHeap m f sz) → 1 <= k < n → (x, kx) ∈ pre →
  let a := p + HEADER * (n - k) in
  let m' := store_word (store_word m (p + 4) (n - k)) (a + 4) k in
  contents_kept live m m' ∧ live !! a = None ∧
  heap_ok (<[a := k]> live) (pre ++ (p, n - k) :: post) (UHeap m' x sz).
Proof.
  intros [HL Hl _ Hlv] Hk Hx a m'. cbn [u_mem u_sz freep] in *.
  destruct (layout_range _ _ _ _ _ (p, n) HL) as (Hp1 & Hp2 & Hp3 & Hp4); [set_solver|]. cbn [fst snd] in *.
  apply links_app in Hl as (c & Hpre & -> & Hn & Hpost). cbn [fst snd] in *.
  set (m1 := store_word m (p + 4) (n - k)) in *.
  assert (Hm1 : only_header p m m1) by by apply only_header_size.
  assert (Hm2 : only_header a m1 m') by by apply only_header_size.
  pose proof (layout_cut _ _ _ _ _ _ _ _ _ Hk HL) as HL2. fold a in HL2.
  rewrite (app_assoc_middle pre) in HL2.
  assert (Hpa : p + HEADER <= a) by (subst a; hlia).
  assert (Hkept : contents_kept live m m').
  { eapply contents_trans; [eapply (header_kept _ _ _ _ _ (p, n)); [exact HL|set_solver|exact Hm1]|].
    eapply (header_kept _ _ _ _ _ (a, k)); [exact HL2|set_solver|exact Hm2]. }
  assert (Hkeep : ∀ b l e, (∀ y, y ∈ l → y ∈ pre ++ post) → links m b l e → links m' b l e).
  { intros b l e Hin Hb. eapply links_keep; [exact HL2|exact Hm2|intros y Hy%Hin; set_solver|].
    eapply links_keep; [exact HL|exact Hm1|exact Hin|done]. }
  assert (Hother : same_header m1 m' p) by (eapply only_header_same; [exact Hm2|by left]).
  apply layout_take in HL2 as [Hnone HL3]; [|lia]. rewrite <- app_assoc_middle in HL3.
  split_and!; [done..|]. split; cbn [u_mem u_sz freep].
  - exact HL3.
  - apply links_app. exists p. split; [apply Hkeep; [set_solver|done]|]. destruct Hother as [Hq Hs].
    split_and!; [done| |]; cbn [fst snd].
    + rewrite Hs. apply load_store. unfold is_u32. hlia.
    + rewrite Hq. unfold m1 at 1. rewrite load_store_ne by lia. apply Hkeep; [set_solver|done].
  - apply list_elem_of_lookup in Hx as [i Hi]. exists i, kx. by apply lookup_app_l_Some.
  - intros b j [[<- <-]|[_ Hb]]%lookup_insert_Some; [apply load_store; unfold is_u32; hlia|].
    rewrite (live_size _ _ _ _ _ _ _ _ _ HL Hkept Hb). by apply Hlv.
Qed.

Lemma take_block_spec live pre x kx p n post s k :
  heap_ok live (pre ++ (x, kx) :: (p, n) :: post) s → 1 <= k <= n →
  wp (take_block k x p) (taken live (u_mem s) k) s.
Proof.
  destruct s as [m f sz]. intros Hok Hk. pose proof (hk_layout _ _ _ _ _ Hok) as HL.
  destruct (layout_range _ _ _ _ _ (p, n) HL) as (Hp1 & Hp2 & Hp3 & Hp4); [set_solver|].
  assert (Hn : load_word m (p + 4) = n).
  { apply hk_links in Hok. apply links_app in Hok as (c & _ & _ & _ & _ & Hn & _). done. }
  cbn [u_mem u_sz freep fst snd] in *.
  unfold take_block. apply wp_bind, wp_gets, wp_bind. cbn [u_mem]. rewrite Hn.
  destruct (Z.eqb_spec n k) as [->|Hne].
  - apply wp_bind, wp_gets, wp_bind, wp_modify, wp_ret, wp_bind, wp_modify, wp_ret. cbn [u_mem u_sz freep].
    destruct (take_whole _ _ _ _ _ _ _ _ _ _ Hok) as (Hkept & Hnone & Hok'); [lia|].
    split; [exact Hkept|]. exists p, (pre ++ (x, kx) :: post). split_and!; [apply Z.mod_small; hlia|done..].
  - rewrite (app_assoc_middle pre) in Hok.
    destruct (take_tail _ _ _ _ k _ _ _ _ x kx Hok) as (Hkept & Hnone & Hok'); [lia|set_solver|].
    apply wp_bind, wp_modify, wp_bind, wp_gets. cbn [u_mem u_sz freep].
    replace (u32 (n - k)) with (n - k) by (symmetry; apply Z.mod_small; hlia).
    rewrite load_store by (unfold is_u32; hlia).
    replace (u32 (p + HEADER * (n - k))) with (p + HEADER * (n - k)) by (symmetry; apply Z.mod_small; hlia).
    apply wp_bind, wp_modify, wp_ret, wp_bind, wp_modify, wp_ret. cbn [u_mem u_sz freep].
    split; [exact Hkept|]. eexists (p + HEADER * (n - k)), _. split_and!; [apply Z.mod_small; hlia|exact Hnone|exact Hok'].
Qed.

(** The next block is large enough. *)
Lemma take_next live F s k i x kx p n :
  heap_ok live F s → F !! i = Some (x, kx) → F !! nxt (length F) i = Some (p, n) → 1 <= k <= n →
  wp (take_block k x p) (taken live (u_mem s) k) s.
Proof.
  intros Hok Hi Hn Hk. pose proof (ly_base _ _ _ _ _ (hk_layout _ _ _ _ _ Hok)) as H0.
  unfold nxt in Hn. destruct (S i =? length F)%nat; [rewrite H0 in Hn; simplify_eq; lia|].
  apply take_drop_middle in Hi as HF. rewrite <- HF, (drop_S _ _ _ Hn) in Hok.
  by eapply take_block_spec.
Qed.

Lemma free_inj live F s i j a n k :
  heap_ok live F s → F !! i = Some (a, n) → F !! j = Some (a, k) → i = j.
Proof.
  intros Hok Hi Hj. pose proof (ly_sorted _ _ _ _ _ (hk_layout _ _ _ _ _ Hok)) as Hs.
  destruct (Nat.lt_trichotomy i j) as [H|[H|H]]; [|done|];
    [pose proof (sorted_lookup _ _ _ _ _ Hs Hi Hj H)|pose proof (sorted_lookup _ _ _ _ _ Hs Hj Hi H)]; hlia.
Qed.

(** The loop when the block at [g] is large enough and comes before the
    end of the round. *)
Lemma fit_loop fuel live F s k i x kx p n f kf g b :
  heap_ok live F s → 1 <= k → F !! i = Some (x, kx) → F !! nxt (length F) i = Some (p, n) →
  F !! f = Some (freep s, kf) → F !! g = Some b → k <= b.2 →
  (dist (length F) (nxt (length F) i) g ≤ dist (length F) (nxt (length F) i) f)%nat →
  (dist (length F) (nxt (length F) i) g < fuel)%nat →
  wp (malloc_loop grant fuel k x p) (taken live (u_mem s) k) s.
Proof.
  intros Hok Hk Hi Hp Hf Hg Hb. revert i x kx p n Hi Hp.
  induction fuel as [|fuel IH]; intros i x kx p n Hi Hp Hd Hfuel; [lia|].
  set (j := nxt (length F) i) in *.
  pose proof (lookup_lt_Some _ _ _ Hp) as Hj. pose proof (lookup_lt_Some _ _ _ Hf) as Hf'.
  pose proof (lookup_lt_Some _ _ _ Hg) as Hg'.
  destruct (links_at _ _ _ _ _ _ (hk_links _ _ _ _ _ Hok) Hp) as [Hsize _]. cbn [fst snd] in Hsize.
  destruct (ring_at _ _ _ _ _ (hk_links _ _ _ _ _ Hok) (ly_base _ _ _ _ _ (hk_layout _ _ _ _ _ Hok)) Hp)
    as ([q kq] & Hq & Hpq). cbn [fst snd] in Hpq.
  cbn [malloc_loop]. apply wp_bind, wp_gets. rewrite Hsize.
  destruct (Z.geb_spec n k) as [Hfit|Hsmall]; [eapply take_next; [done..|lia]|].
  assert (Hne : j ≠ g) by (intros E; rewrite E in Hp; rewrite Hp in Hg; simplify_eq; simpl in *; lia).
  destruct (dist_nxt _ _ _ Hj Hg' Hne) as [Hd1 Hd2].
  assert (Hnf : j ≠ f) by (intros E; rewrite E, dist_self in Hd; rewrite E in Hd2; lia).
  destruct (dist_nxt _ _ _ Hj Hf' Hnf) as [Hd3 Hd4].
  apply wp_bind, wp_gets.
  destruct (Z.eqb_spec p (freep s)) as [E|_]; [subst p; by destruct Hnf; eapply free_inj|].
  apply wp_bind, wp_gets. rewrite Hpq. eapply IH; [exact Hp|exact Hq|lia..].
Qed.

(** What [malloc] returns: null, or the memory after the header of a new
    block. *)
Definition malloc_post (live : gmap Z Z) (m : mem) (nunits : Z) (r : Z) (s' : uheap) : Prop :=
  r = 0 ∧ contents_kept live m (u_mem s') ∧ (∃ F', heap_ok live F' s') ∧ refused (u_sz s') nunits ∨
  taken live m nunits r s'.

(** After the round a block is there, or the kernel has no memory. *)
Lemma more_loop fuel live F s k : heap_ok live F s → 1 <= k → HEADER * k < 2 ^ 31 →
  (length F + 1 < fuel)%nat →
  wp (p ← morecore grant k;
      if p =? 0 then mret 0 else q ← h_ptr p; malloc_loop grant fuel k p q)
    (malloc_post live (u_mem s) k) s.
Proof.
  intros Hok Hk1 Hk2 Hfuel. apply wp_bind. eapply wp_mono; [by eapply morecore_spec|].
  intros r s' [Hkept [(-> & -> & Href)|[-> (F' & g & b & Hok' & Hlen & Hg & Hb)]]].
  { apply wp_ret. left. eauto. }
  destruct (hk_freep _ _ _ _ _ Hok') as (f & kf & Hf). pose proof (hk_layout _ _ _ _ _ Hok') as HL.
  destruct (layout_range _ _ _ _ _ _ HL (list_elem_of_lookup_2 _ _ _ Hf)) as [[? ?] _].
  destruct (ring_at _ _ _ _ _ (hk_links _ _ _ _ _ Hok') (ly_base _ _ _ _ _ HL) Hf) as ([q kq] & Hq & Hpq).
  cbn [fst snd] in *. destruct (Z.eqb_spec (freep s') 0); [lia|].
  apply wp_bind, wp_gets. rewrite Hpq.
  pose proof (lookup_lt_Some _ _ _ Hq) as Hq'. pose proof (lookup_lt_Some _ _ _ Hg) as Hg'.
  pose proof (dist_lt _ _ _ Hq' Hg'). pose proof (lookup_lt_Some _ _ _ Hf) as Hf'.
  eapply wp_mono; [eapply (fit_loop _ _ _ _ _ f _ _ _ _ f _ g); try done; rewrite ?dist_round; lia|].
  intros r s2 [Hkept2 Ht]. right. split; [by eapply contents_trans|done].
Qed.

Lemma search_loop fuel live F s k i x kx p n f kf :
  heap_ok live F s → 1 <= k → HEADER * k < 2 ^ 31 →
  F !! i = Some (x, kx) → F !! nxt (length F) i = Some (p, n) → F !! f = Some (freep s, kf) →
  (dist (length F) (nxt (length F) i) f + length F + 2 < fuel)%nat →
  wp (malloc_loop grant fuel k x p) (malloc_post live (u_mem s) k) s.
Proof.
  intros Hok Hk1 Hk2 Hi Hp Hf. revert i x kx p n Hi Hp.
  induction fuel as [|fuel IH]; intros i x kx p n Hi Hp Hfuel; [lia|].
  set (j := nxt (length F) i) in *.
  pose proof (lookup_lt_Some _ _ _ Hp) as Hj. pose proof (lookup_lt_Some _ _ _ Hf) as Hf'.
  destruct (links_at _ _ _ _ _ _ (hk_links _ _ _ _ _ Hok) Hp) as [Hsize _]. cbn [fst snd] in Hsize.
  destruct (ring_at _ _ _ _ _ (hk_links _ _ _ _ _ Hok) (ly_base _ _ _ _ _ (hk_layout _ _ _ _ _ Hok)) Hp)
    as ([q kq] & Hq & Hpq). cbn [fst snd] in Hpq.
  cbn [malloc_loop]. apply wp_bind, wp_gets. rewrite Hsize.
  destruct (Z.geb_spec n k) as [Hfit|Hsmall].
  { eapply wp_mono; [eapply take_next; [done..|lia]|]. intros r s' Ht. by right. }
  apply wp_bind, wp_gets. destruct (Z.eqb_spec p (freep s)) as [E|E]; [eapply more_loop; [done..|lia]|].
  assert (Hnf : j ≠ f) by (intros ->; rewrite Hp in Hf; simplify_eq).
  destruct (dist_nxt _ _ _ Hj Hf' Hnf) as [Hd1 Hd2].
  apply wp_bind, wp_gets. rewrite Hpq. eapply IH; [exact Hp|exact Hq|lia].
Qed.

(** ** The heap of a program *)

(** Before the first call there is no list. *)
Definition heap_inv (live : gmap Z Z) (s : uheap) : Prop :=
  freep s = 0 ∧ live = ∅ ∧ 0 < base ∧ base + HEADER <= lo ∧ lo <= u_sz s < KERNBASE ∨
  ∃ F, heap_ok live F s.

(** The size of a block for [nbytes] bytes, in units. *)
Definition units (nbytes : Z) : Z := u32 (nbytes + HEADER - 1) / HEADER + 1.

(** The largest request that is not mistaken for a negative one. *)
Definition max_request : Z := 2 ^ 31 - 3 * HEADER.

Lemma units_room nbytes : 0 <= nbytes <= max_request →
  1 <= units nbytes ∧ HEADER * units nbytes < 2 ^ 31 ∧ nbytes <= HEADER * (units nbytes - 1).
Proof.
  unfold max_request, units, HEADER, u32. intros H. rewrite Z.mod_small by lia. dlia.
Qed.

Lemma heap_start m sz : 0 < base → base + HEADER <= lo → lo <= sz < KERNBASE →
  heap_ok ∅ [(base, 0)] (UHeap (store_word (store_word m base base) (base + 4) 0) base sz).
Proof.
  intros Hb Hlo Hsz. change KERNBASE with (2 ^ 31) in *. split; cbn [u_mem u_sz freep]; [split| | |].
  - done.
  - repeat constructor.
  - intros b ->%list_elem_of_singleton. by left.
  - intros a n Ha. by rewrite lookup_empty in Ha.
  - intros a n b Ha. by rewrite lookup_empty in Ha.
  - intros a n a' n' Ha. by rewrite lookup_empty in Ha.
  - change KERNBASE with (2 ^ 31). lia.
  - split_and!; [done|by apply load_store|]. cbn [fst]. rewrite load_store_ne by lia.
    apply load_store. unfold is_u32. hlia.
  - by exists 0%nat, 0.
  - intros a n Ha. by rewrite lookup_empty in Ha.
Qed.

Lemma malloc_started live F s nbytes : heap_ok live F s → 0 <= nbytes <= max_request →
  wp (fuel ← gets list_fuel; p ← h_ptr (freep s); malloc_loop grant (2 * fuel) (units nbytes) (freep s) p)
    (malloc_post live (u_mem s) (units nbytes)) s.
Proof.
  intros Hok Hn. destruct (units_room _ Hn) as (Hk1 & Hk2 & _).
  destruct (hk_freep _ _ _ _ _ Hok) as (f & kf & Hf). pose proof (hk_layout _ _ _ _ _ Hok) as HL.
  destruct (ring_at _ _ _ _ _ (hk_links _ _ _ _ _ Hok) (ly_base _ _ _ _ _ HL) Hf) as ([q kq] & Hq & Hpq).
  apply wp_bind, wp_gets, wp_bind, wp_gets. cbn [fst] in Hpq. rewrite Hpq.
  pose proof (layout_length _ _ _ _ _ HL). pose proof (lookup_lt_Some _ _ _ Hf).
  eapply (search_loop _ _ _ _ _ f); try done. rewrite dist_round by done. unfold list_fuel. lia.
Qed.

Lemma malloc_spec live s nbytes : heap_inv live s → 0 <= nbytes <= max_request →
  wp (malloc base grant nbytes) (malloc_post live (u_mem s) (units nbytes)) s.
Proof.
  intros Hinv Hn. destruct s as [m f sz]. unfold malloc. fold (units nbytes). apply wp_bind, wp_gets, wp_bind. cbn [freep u_sz] in *.
  destruct Hinv as [(Hf & -> & Hb & Hl & Hsz)|[F Hok]].
  - cbn [freep u_sz] in *. subst f. simpl Z.eqb. cbv iota.
    apply wp_bind, wp_modify, wp_bind, wp_modify, wp_bind, wp_modify, wp_ret. cbn [u_mem u_sz freep].
    eapply wp_mono; [apply (malloc_started _ _ _ _ (heap_start m sz Hb Hl Hsz) Hn)|].
    assert (Hnone : ∀ m', contents_kept ∅ m m') by (intros m' a n x Ha; by rewrite lookup_empty in Ha).
    intros r s' [(-> & _ & Hok & Href)|[_ Ht]]; [left|right]; by split_and!.
  - destruct (hk_freep _ _ _ _ _ Hok) as (i & k & Hi).
    destruct (layout_range _ _ _ _ _ _ (hk_layout _ _ _ _ _ Hok) (list_elem_of_lookup_2 _ _ _ Hi)) as [[? ?] _].
    cbn [freep fst] in *. destruct (Z.eqb_spec f 0); [lia|]. apply wp_ret.
    by apply (malloc_started _ _ _ _ Hok).
Qed.

(** A program with its heap: the blocks in use, the bytes that it has
    written in them, and the memory. *)
Record uprog := UProg { u_live : gmap Z Z; u_written : gmap Z Z; u_heap : uheap }.

(** It allocates and frees blocks, and writes behind their headers. *)
Inductive uprog_step : uprog → uprog → Prop :=
  | uprog_malloc live w s nbytes r s' :
      0 <= nbytes <= max_request → malloc base grant nbytes s = Ret r s' →
      uprog_step (UProg live w s)
        (UProg (if r =? 0 then live else <[r - HEADER := units nbytes]> live) w s')
  | uprog_free live w s a n s' :
      live !! a = Some n → free (a + HEADER) s = Ret tt s' →
      uprog_step (UProg live w s)
        (UProg (delete a live) (filter (λ xv, ¬ a <= xv.1 < a + HEADER * n) w) s')
  | uprog_write live w s a n x v :
      live !! a = Some n → a + HEADER <= x < a + HEADER * n →
      uprog_step (UProg live w s)
        (UProg live (<[x := v]> w) (UHeap (upd (u_mem s) x v) (freep s) (u_sz s))).

Definition written_ok (live w : gmap Z Z) (m : mem) : Prop :=
  ∀ x v, w !! x = Some v → m x = v ∧ ∃ a n, live !! a = Some n ∧ a + HEADER <= x < a + HEADER * n.

Definition uprog_ok (p : uprog) : Prop :=
  heap_inv (u_live p) (u_heap p) ∧ written_ok (u_live p) (u_written p) (u_mem (u_heap p)).

Lemma written_kept live live' w m m' : written_ok live w m → contents_kept live m m' →
  live ⊆ live' → written_ok live' w m'.
Proof.
  intros Hw Hm Hl x v Hx. destruct (Hw _ _ Hx) as [Hv (a & n & Ha & Hr)]. split.
  - rewrite (Hm a n x); [done..|hlia].
  - exists a, n. split; [by eapply lookup_weaken|done].
Qed.

Lemma written_freed live w m m' a n F sz : layout live F sz → live !! a = Some n →
  written_ok live w m → contents_kept (delete a live) m m' →
  written_ok (delete a live) (filter (λ xv, ¬ a <= xv.1 < a + HEADER * n) w) m'.
Proof.
  intros HL Ha Hw Hm x v [Hx Hout]%map_lookup_filter_Some. cbn [fst] in Hout.
  destruct (Hw _ _ Hx) as [Hv (a' & n' & Ha' & Hr)].
  assert (Hd : delete a live !! a' = Some n').
  { apply lookup_delete_Some. split; [|done]. intros <-. simplify_eq. hlia. }
  split; [|eauto]. rewrite (Hm a' n' x); [done..|hlia].
Qed.

(** A byte behind the header of a block in use belongs to no header. *)
Lemma heap_write live F m f sz a n x v :
  heap_ok live F (UHeap m f sz) → live !! a = Some n → a + HEADER <= x < a + HEADER * n →
  heap_ok live F (UHeap (upd m x v) f sz).
Proof.
  intros [HL Hl Hf Hlv] Ha Hx. cbn [u_mem u_sz freep] in *.
  assert (Hload : ∀ y, y + 4 <= x ∨ x < y → load_word (upd m x v) y = load_word m y).
  { intros y Hy. apply load_ext. intros i Hi. rewrite upd_ne; [done|lia]. }
  split; cbn [u_mem u_sz freep]; [done| |done|].
  - eapply links_frame; [|exact Hl]. intros b Hb. pose proof (ly_between _ _ _ _ _ HL _ _ _ Ha Hb).
    split; apply Hload; hlia.
  - intros a' n' Ha'. rewrite Hload; [by apply Hlv|]. destruct (decide (a = a')) as [<-|Hne]; [hlia|].
    pose proof (ly_apart _ _ _ _ _ HL _ _ _ _ Ha Ha' Hne).
    destruct (ly_live _ _ _ _ _ HL _ _ Ha') as (? & _). hlia.
Qed.

Lemma uprog_step_ok p p' : uprog_step p p' → uprog_ok p → uprog_ok p'.
Proof.
  intros [live w s nb r s' Hn Hr|live w s a n s' Ha Hr|live w s a n x v Ha Hx] [Hinv Hw];
    cbn [u_live u_written u_heap] in *.
  - pose proof (malloc_spec _ _ _ Hinv Hn) as Hm. unfold wp in Hm. rewrite Hr in Hm.
    destruct Hm as [(-> & Hk & (F & Hok) & _)|(Hk & a & F & -> & Hnone & Hok)].
    + split; [right; by exists F|by eapply written_kept].
    + assert (Ha : a + HEADER - HEADER = a) by lia.
      destruct (ly_live _ _ _ _ _ (hk_layout _ _ _ _ _ Hok) a _ (lookup_insert_eq _ _ _)) as (_ & Hlow & _).
      pose proof (ly_size _ _ _ _ _ (hk_layout _ _ _ _ _ Hok)).
      destruct (Z.eqb_spec (a + HEADER) 0); [hlia|]. rewrite Ha.
      split; [right; by exists F|]. eapply written_kept; [done..|by apply insert_subseteq].
  - destruct Hinv as [(_ & -> & _)|[F Hok]]; [by rewrite lookup_empty in Ha|].
    pose proof (free_spec _ _ _ _ _ _ _ Hok Ha) as Hm. unfold wp in Hm. rewrite Hr in Hm.
    destruct Hm as (_ & Hk & F' & Hok' & _). split; [right; by exists F'|].
    eapply written_freed; [exact (hk_layout _ _ _ _ _ Hok)|done..].
  - destruct Hinv as [(_ & -> & _)|[F Hok]]; [by rewrite lookup_empty in Ha|]. destruct s as [m f sz].
    split; cbn [u_live u_written u_heap u_mem]; [right; exists F; by eapply heap_write|].
    intros y v' [[<- <-]|[Hne Hy]]%lookup_insert_Some; [rewrite upd_eq; eauto 6|].
    destruct (Hw _ _ Hy) as [Hv Hin]. rewrite upd_ne by done. done.
Qed.

Lemma uprog_reachable s p : heap_inv ∅ s → rtc uprog_step (UProg ∅ ∅ s) p → uprog_ok p.
Proof.
  intros Hs Hr. assert (H0 : uprog_ok (UProg ∅ ∅ s)) by by split.
  revert H0. induction Hr as [|p1 p2 p3 H1 _ IH]; [done|]. intros H. by apply IH, (uprog_step_ok p1).
Qed.

(** What the invariant says of the blocks in use. *)
Lemma heap_blocks live s a n : heap_inv live s → live !! a = Some n →
  lo <= a ∧ a + HEADER * n <= u_sz s ∧
  (∀ a' n', live !! a' = Some n' → a ≠ a' → a + HEADER * n <= a' ∨ a' + HEADER * n' <= a).
Proof.
  intros [(_ & -> & _)|[F Hok]] Ha; [by rewrite lookup_empty in Ha|].
  pose proof (hk_layout _ _ _ _ _ Hok) as HL. destruct (ly_live _ _ _ _ _ HL _ _ Ha) as (H1 & H2 & H3).
  split_and!; [done..|]. intros a' n' Ha' Hne. destruct (ly_live _ _ _ _ _ HL _ _ Ha') as (H1' & _).
  pose proof (ly_apart _ _ _ _ _ HL _ _ _ _ Ha Ha' Hne). hlia.
Qed.

Lemma malloc_returns live s nbytes : heap_inv live s → 0 <= nbytes <= max_request →
  ∃ r s', malloc base grant nbytes s = Ret r s' ∧
    (r = 0 ∧ refused (u_sz s') (units nbytes) ∨
     r ≠ 0 ∧ lo <= r ∧ r + nbytes <= u_sz s' ∧
     (∀ a n, live !! a = Some n → r + nbytes <= a ∨ a + HEADER * n <= r)).
Proof.
  intros Hinv Hn. destruct (wp_elim _ _ _ (malloc_spec _ _ _ Hinv Hn)) as (r & s' & Hr & Hpost).
  exists r, s'. split; [done|].
  destruct Hpost as [(-> & _ & _ & Href)|(_ & b & F & -> & Hnone & Hok)]; [by left|right].
  destruct (units_room _ Hn) as (Hk & _ & Hroom).
  pose proof (ly_size _ _ _ _ _ (hk_layout _ _ _ _ _ Hok)) as Hsz.
  destruct (heap_blocks _ s' b _ ltac:(right; by exists F) (lookup_insert_eq _ _ _)) as (H1 & H2 & H3).
  split_and!; [hlia..|]. intros a n Ha.
  assert (Hne : b ≠ a) by (intros ->; congruence).
  specialize (H3 a n). rewrite lookup_insert_ne in H3 by done. specialize (H3 Ha Hne). hlia.
Qed.
End sound.


(** A program whose static header is at 4096 and whose heap starts at 12288,
    before its first call and after a call for 10 bytes. *)
Definition demo_heap : uheap := UHeap (λ _, 0) 0 12288.
Definition demo_grant (old new : Z) : bool := true.

Definition returned (o : outcome uheap Z) : uheap :=
  match o with Ret _ s => s | _ => demo_heap end.

Lemma returned_ret o x :
  match o with Ret a _ => a =? x | _ => false end = true → o = Ret x (returned o).
Proof. destruct o; try done. intros ->%Z.eqb_eq. done. Qed.

Definition demo_uprog : uprog :=
  UProg {[45032 := 3]} ∅ (returned (malloc 4096 demo_grant 10 demo_heap)).

Lemma demo_malloc : malloc 4096 demo_grant 10 demo_heap = Ret 45040 (u_heap demo_uprog).
Proof. apply returned_ret. by vm_compute. Qed.


(** A request for almost 2^32 bytes wraps around and is served as one for
    no bytes. *)
Lemma malloc_request_wraps base grant nbytes s :
  2 ^ 32 - 7 <= nbytes < 2 ^ 32 → malloc base grant nbytes s = malloc base grant 0 s.
Proof.
  intros Hn. unfold malloc.
  replace (u32 (nbytes + HEADER - 1) / HEADER + 1) with (u32 (0 + HEADER - 1) / HEADER + 1); [done|].
  unfold u32, HEADER. replace (nbytes + 8 - 1) with (nbytes + 7 - 2 ^ 32 + 1 * 2 ^ 32) by lia.
  rewrite Z.mod_add by lia. rewrite (Z.mod_small (nbytes + 7 - 2 ^ 32)) by lia.
  rewrite (Z.div_small (nbytes + 7 - 2 ^ 32)) by lia. done.
Qed.

(** A request for 2^31 bytes makes [morecore] call [sbrk] with a negative
    number; the size of the process wraps around, [sbrk] succeeds without
    adding memory, and [malloc] returns an address behind the end. *)
Lemma malloc_huge_unbacked :
  match malloc 4096 demo_grant (2 ^ 31) demo_heap with
  | Ret r s' => (r =? 12296) && (u_sz s' =? 12288)
  | _ => false
  end = true.
Proof. by vm_compute. Qed.
